(** * The qcow2 refcount and cluster-allocation engine (block/qcow2-refcount.c)

    A shallow embedding of the refcount table / refcount block code of the
    QCOW2 block driver, and the properties of it that the design document
    states.  C integers are mathematical integers ([Z]); where the C code
    converts to an unsigned type the wrap-around is written out.  The
    per-image state [BDRVQcowState] is threaded explicitly through every
    function; a function that returns [int] returns a pair of its result and
    the new state. *)

From stdpp Require Import gmap list.
From Stdlib Require Import ZArith Lia Bool.

Local Open Scope Z_scope.

(** ** Machine integers *)

Definition to_uint32 (x : Z) : Z := x mod 2 ^ 32.
Definition to_uint64 (x : Z) : Z := x mod 2 ^ 64.

(** [MIN], [MAX] and [DIV_ROUND_UP] of qemu/osdep.h. *)
Definition MIN (a b : Z) : Z := if a <? b then a else b.
Definition MAX (a b : Z) : Z := if a >? b then a else b.
Definition DIV_ROUND_UP (n d : Z) : Z := (n + d - 1) / d.

(** Byte order.  The host is little-endian (x86), so the conversions between
    big-endian disk data and host integers swap the bytes. *)
Definition bswap16 (x : Z) : Z :=
  Z.lor (Z.shiftl (Z.land x 255) 8) (Z.land (Z.shiftr x 8) 255).

Definition be16_to_cpu (x : Z) : Z := bswap16 x.
Definition cpu_to_be16 (x : Z) : Z := bswap16 x.

Definition byte_of (x : Z) (i : Z) : Z := Z.land (Z.shiftr x (8 * i)) 255.

Definition bswap64 (x : Z) : Z :=
  foldr Z.lor 0 (map (fun i => Z.shiftl (byte_of x i) (8 * (7 - i))) (seqZ 0 8)).

Definition be64_to_cpu (x : Z) : Z := bswap64 x.

(** ** Constants *)

(** errno values (Linux). *)
Definition ENOENT : Z := 2.
Definition EIO : Z := 5.
Definition EAGAIN : Z := 11.
Definition ENOMEM : Z := 12.
Definition EINVAL : Z := 22.
Definition EFBIG : Z := 27.

(** Modelled from the spec: the declarations of block/qcow2.h and
    block/block.h that qcow2-refcount.c uses; the headers are not part of the
    sources.  "Low bits reserved as flags and must be masked off when
    interpreting as an address"; the overlap sections are single bits, in the
    order of [metadata_ol_names]. *)
Definition REFT_OFFSET_MASK : Z := 0xfffffffffffffe00.
Definition L1E_OFFSET_MASK : Z := 0x00fffffffffffe00.
Definition QCOW_MAX_REFTABLE_SIZE : Z := 0x800000.
Definition BDRV_SECTOR_BITS : Z := 9.

Definition QCOW2_OL_MAIN_HEADER : Z := 1.
Definition QCOW2_OL_ACTIVE_L1 : Z := 2.
Definition QCOW2_OL_ACTIVE_L2 : Z := 4.
Definition QCOW2_OL_REFCOUNT_TABLE : Z := 8.
Definition QCOW2_OL_REFCOUNT_BLOCK : Z := 16.
Definition QCOW2_OL_SNAPSHOT_TABLE : Z := 32.
Definition QCOW2_OL_INACTIVE_L1 : Z := 64.
Definition QCOW2_OL_INACTIVE_L2 : Z := 128.
Definition QCOW2_OL_MAX_BITNR : Z := 8.

Definition BDRV_FIX_LEAKS : Z := 1.
Definition BDRV_FIX_ERRORS : Z := 2.

(** ** Outcomes

    A C function either returns, or stops the process on a failed [assert];
    loops whose bound is not known beforehand run on fuel. *)

Inductive outcome (A : Type) : Type :=
| Done (a : A)
| Aborted
| OutOfFuel.

Arguments Done {A} a.
Arguments Aborted {A}.
Arguments OutOfFuel {A}.

#[global] Instance outcome_ret : MRet outcome := fun A a => Done a.
#[global] Instance outcome_bind : MBind outcome := fun A B k m =>
  match m with
  | Done a => k a
  | Aborted => Aborted
  | OutOfFuel => OutOfFuel
  end.

Definition assert (b : bool) : outcome unit := if b then Done tt else Aborted.

(** ** Data *)

Inductive qcow2_discard_type : Type :=
| QCOW2_DISCARD_NEVER
| QCOW2_DISCARD_ALWAYS
| QCOW2_DISCARD_REQUEST
| QCOW2_DISCARD_SNAPSHOT
| QCOW2_DISCARD_OTHER.

Record Qcow2DiscardRegion : Type := mkDiscard {
  d_offset : Z;
  d_bytes : Z
}.

Record QCowSnapshot : Type := mkSnapshot {
  sn_l1_table_offset : Z;
  sn_l1_size : Z
}.

Inductive Qcow2CacheId : Type := L2_TABLE_CACHE | REFCOUNT_BLOCK_CACHE.

(** What the engine asks of its collaborators, in the order it asks. *)
Inductive Event : Type :=
| EvDiscard (sector nb_sectors : Z)
| EvCorruption (fatal : bool) (offset size : Z)
| EvCacheFlush (c : Qcow2CacheId)
| EvSetDependency (c dependency : Qcow2CacheId)
| EvPwriteSync (offset bytes : Z).

(** The per-image state.  The first group are the fields of [BDRVQcowState]
    the refcount code reads or writes.  In C [refcount_table], [l1_table] and
    [snapshots] are arrays with their sizes kept beside them
    ([refcount_table_size], [l1_size], [nb_snapshots]); here each is a list
    and the size is its length, and the pointer is NULL exactly when the list
    is empty.  The second group is the rest of the world the code touches
    through [bs]: the image file and the instrumentation of the model. *)
Record BDRVQcowState : Type := mkState {
  cluster_bits : Z;
  cluster_size : Z;
  refcount_block_bits : Z;
  refcount_block_size : Z;
  refcount_table : list Z;
  refcount_table_offset : Z;
  free_cluster_index : Z;
  discards : list Qcow2DiscardRegion;
  cache_discards : bool;
  discard_passthrough : qcow2_discard_type -> bool;
  overlap_check : Z;
  l1_table : list Z;
  l1_table_offset : Z;
  snapshots : list QCowSnapshot;
  snapshots_offset : Z;
  snapshots_size : Z;
  (* s->refcount_block_cache: block offset |-> (contents, dirty) *)
  refcount_block_cache : gmap Z (list Z * bool);
  (* a recycled cache buffer: what a table obtained without reading holds *)
  cache_scratch : list Z;
  (* bs->file: the clusters holding 16-bit refcounts, by offset *)
  file_clusters : gmap Z (list Z);
  (* bs->file: the tables of 64-bit entries, by offset *)
  file_tables : gmap Z (list Z);
  (* number of fallible backend requests issued so far *)
  io_clock : nat;
  trace : list Event;
  corrupt : bool
}.

Definition refcount_table_size (s : BDRVQcowState) : Z :=
  Z.of_nat (length (refcount_table s)).
Definition l1_size (s : BDRVQcowState) : Z := Z.of_nat (length (l1_table s)).
Definition nb_snapshots (s : BDRVQcowState) : Z :=
  Z.of_nat (length (snapshots s)).

Definition set_refcount_table (v : list Z) (s : BDRVQcowState) :=
  mkState (cluster_bits s) (cluster_size s) (refcount_block_bits s)
    (refcount_block_size s) v (refcount_table_offset s)
    (free_cluster_index s) (discards s) (cache_discards s)
    (discard_passthrough s) (overlap_check s) (l1_table s) (l1_table_offset s)
    (snapshots s) (snapshots_offset s) (snapshots_size s)
    (refcount_block_cache s) (cache_scratch s) (file_clusters s)
    (file_tables s) (io_clock s) (trace s) (corrupt s).

Definition set_refcount_table_offset (v : Z) (s : BDRVQcowState) :=
  mkState (cluster_bits s) (cluster_size s) (refcount_block_bits s)
    (refcount_block_size s) (refcount_table s) v
    (free_cluster_index s) (discards s) (cache_discards s)
    (discard_passthrough s) (overlap_check s) (l1_table s) (l1_table_offset s)
    (snapshots s) (snapshots_offset s) (snapshots_size s)
    (refcount_block_cache s) (cache_scratch s) (file_clusters s)
    (file_tables s) (io_clock s) (trace s) (corrupt s).

Definition set_free_cluster_index (v : Z) (s : BDRVQcowState) :=
  mkState (cluster_bits s) (cluster_size s) (refcount_block_bits s)
    (refcount_block_size s) (refcount_table s) (refcount_table_offset s)
    v (discards s) (cache_discards s)
    (discard_passthrough s) (overlap_check s) (l1_table s) (l1_table_offset s)
    (snapshots s) (snapshots_offset s) (snapshots_size s)
    (refcount_block_cache s) (cache_scratch s) (file_clusters s)
    (file_tables s) (io_clock s) (trace s) (corrupt s).

Definition set_discards (v : list Qcow2DiscardRegion) (s : BDRVQcowState) :=
  mkState (cluster_bits s) (cluster_size s) (refcount_block_bits s)
    (refcount_block_size s) (refcount_table s) (refcount_table_offset s)
    (free_cluster_index s) v (cache_discards s)
    (discard_passthrough s) (overlap_check s) (l1_table s) (l1_table_offset s)
    (snapshots s) (snapshots_offset s) (snapshots_size s)
    (refcount_block_cache s) (cache_scratch s) (file_clusters s)
    (file_tables s) (io_clock s) (trace s) (corrupt s).

Definition set_refcount_block_cache (v : gmap Z (list Z * bool))
    (s : BDRVQcowState) :=
  mkState (cluster_bits s) (cluster_size s) (refcount_block_bits s)
    (refcount_block_size s) (refcount_table s) (refcount_table_offset s)
    (free_cluster_index s) (discards s) (cache_discards s)
    (discard_passthrough s) (overlap_check s) (l1_table s) (l1_table_offset s)
    (snapshots s) (snapshots_offset s) (snapshots_size s)
    v (cache_scratch s) (file_clusters s)
    (file_tables s) (io_clock s) (trace s) (corrupt s).

Definition set_file_clusters (v : gmap Z (list Z)) (s : BDRVQcowState) :=
  mkState (cluster_bits s) (cluster_size s) (refcount_block_bits s)
    (refcount_block_size s) (refcount_table s) (refcount_table_offset s)
    (free_cluster_index s) (discards s) (cache_discards s)
    (discard_passthrough s) (overlap_check s) (l1_table s) (l1_table_offset s)
    (snapshots s) (snapshots_offset s) (snapshots_size s)
    (refcount_block_cache s) (cache_scratch s) v
    (file_tables s) (io_clock s) (trace s) (corrupt s).

Definition set_io_clock (v : nat) (s : BDRVQcowState) :=
  mkState (cluster_bits s) (cluster_size s) (refcount_block_bits s)
    (refcount_block_size s) (refcount_table s) (refcount_table_offset s)
    (free_cluster_index s) (discards s) (cache_discards s)
    (discard_passthrough s) (overlap_check s) (l1_table s) (l1_table_offset s)
    (snapshots s) (snapshots_offset s) (snapshots_size s)
    (refcount_block_cache s) (cache_scratch s) (file_clusters s)
    (file_tables s) v (trace s) (corrupt s).

Definition set_trace (v : list Event) (s : BDRVQcowState) :=
  mkState (cluster_bits s) (cluster_size s) (refcount_block_bits s)
    (refcount_block_size s) (refcount_table s) (refcount_table_offset s)
    (free_cluster_index s) (discards s) (cache_discards s)
    (discard_passthrough s) (overlap_check s) (l1_table s) (l1_table_offset s)
    (snapshots s) (snapshots_offset s) (snapshots_size s)
    (refcount_block_cache s) (cache_scratch s) (file_clusters s)
    (file_tables s) (io_clock s) v (corrupt s).

Definition set_corrupt (v : bool) (s : BDRVQcowState) :=
  mkState (cluster_bits s) (cluster_size s) (refcount_block_bits s)
    (refcount_block_size s) (refcount_table s) (refcount_table_offset s)
    (free_cluster_index s) (discards s) (cache_discards s)
    (discard_passthrough s) (overlap_check s) (l1_table s) (l1_table_offset s)
    (snapshots s) (snapshots_offset s) (snapshots_size s)
    (refcount_block_cache s) (cache_scratch s) (file_clusters s)
    (file_tables s) (io_clock s) (trace s) v.

Definition log_event (e : Event) (s : BDRVQcowState) : BDRVQcowState :=
  set_trace (trace s ++ [e]) s.

(** Array reads: [a[i]] for an index inside the array. *)
Definition array_get (a : list Z) (i : Z) : Z := default 0 (a !! Z.to_nat i).
Definition array_set (a : list Z) (i : Z) (v : Z) : list Z :=
  <[Z.to_nat i := v]> a.

(** ** Helpers of block/qcow2.h and qemu/range.h *)

(** Modelled from the spec: the inline helpers of block/qcow2.h ("round the
    target range out to cluster boundaries") and [ranges_overlap] of
    qemu/range.h; the headers are not part of the sources. *)
Definition offset_into_cluster (s : BDRVQcowState) (offset : Z) : Z :=
  Z.land offset (cluster_size s - 1).

Definition start_of_cluster (s : BDRVQcowState) (offset : Z) : Z :=
  Z.land offset (Z.lnot (cluster_size s - 1)).

Definition size_to_clusters (s : BDRVQcowState) (size : Z) : Z :=
  Z.shiftr (size + (cluster_size s - 1)) (cluster_bits s).

Definition align_offset (offset n : Z) : Z :=
  Z.land (offset + n - 1) (Z.lnot (n - 1)).

Definition ranges_overlap (first1 len1 first2 len2 : Z) : bool :=
  let last1 := to_uint64 (first1 + len1 - 1) in
  let last2 := to_uint64 (first2 + len2 - 1) in
  negb ((last2 <? first1) || (last1 <? first2)).

Section Engine.

(** The environment: [backend n] is what the [n]-th fallible request to a
    collaborator (the image file, a metadata cache) returns: a negative value
    is -errno, anything else is success. *)
Variable backend : nat -> Z.

Definition backend_request (s : BDRVQcowState) : Z * BDRVQcowState :=
  (backend (io_clock s), set_io_clock (S (io_clock s)) s).

(** ** The image file *)

Definition zero_block (s : BDRVQcowState) : list Z :=
  replicate (Z.to_nat (cluster_size s / 2)) 0.

(** A cluster of 16-bit entries as the file holds it; a cluster never written
    reads as zeroes. *)
Definition file_cluster (s : BDRVQcowState) (offset : Z) : list Z :=
  default (zero_block s) (file_clusters s !! offset).

(** Modelled from the spec: the backend collaborator (block/block.c, not part
    of the sources): "synchronous positioned write-with-flush", "positioned
    read" and "best-effort discard-range".  A write is logged; what it stores
    is tracked for refcount clusters only. *)
Definition bdrv_pwrite_sync (s : BDRVQcowState) (offset bytes : Z)
    : Z * BDRVQcowState :=
  backend_request (log_event (EvPwriteSync offset bytes) s).

Definition bdrv_discard (s : BDRVQcowState) (sector_num nb_sectors : Z)
    : Z * BDRVQcowState :=
  backend_request (log_event (EvDiscard sector_num nb_sectors) s).

Definition bdrv_pread_table (s : BDRVQcowState) (offset entries : Z)
    : Z * list Z * BDRVQcowState :=
  let '(r, s1) := backend_request s in
  if r <? 0 then (r, [], s1)
  else (r, resize (Z.to_nat entries) 0 (default [] (file_tables s1 !! offset)),
        s1).

(** Modelled from the spec: [qcow2_signal_corruption] of block/qcow2.c (not
    part of the sources): the corruption is reported on the side channel, and
    a fatal one "marks the image corrupted". *)
Definition qcow2_signal_corruption (s : BDRVQcowState) (fatal : bool)
    (offset size : Z) : BDRVQcowState :=
  let s1 := log_event (EvCorruption fatal offset size) s in
  if fatal then set_corrupt true s1 else s1.

(** ** The metadata cache *)

(** Modelled from the spec: the Metadata Cache collaborator of
    block/qcow2-cache.c (not part of the sources): "get(offset) -> handle,
    put(handle), mark_dirty(handle), flush(cache) -> Error?,
    register_dependency".  A handle is the offset of the cached block; a C
    pointer to a table is [Some offset], NULL is [None].  Getting a block may
    fail (it reads the file); releasing one cannot. *)
Definition qcow2_cache_get (s : BDRVQcowState) (offset : Z) (table : option Z)
    : Z * option Z * BDRVQcowState :=
  let '(r, s1) := backend_request s in
  if r <? 0 then (r, table, s1)
  else match refcount_block_cache s1 !! offset with
       | Some _ => (0, Some offset, s1)
       | None =>
           (0, Some offset,
            set_refcount_block_cache
              (<[offset := (file_cluster s1 offset, false)]>
                 (refcount_block_cache s1)) s1)
       end.

Definition qcow2_cache_get_empty (s : BDRVQcowState) (offset : Z)
    (table : option Z) : Z * option Z * BDRVQcowState :=
  let '(r, s1) := backend_request s in
  if r <? 0 then (r, table, s1)
  else match refcount_block_cache s1 !! offset with
       | Some _ => (0, Some offset, s1)
       | None =>
           (0, Some offset,
            set_refcount_block_cache
              (<[offset := (cache_scratch s1, false)]>
                 (refcount_block_cache s1)) s1)
       end.

Definition qcow2_cache_put (s : BDRVQcowState) (table : option Z)
    : Z * option Z * BDRVQcowState :=
  (0, None, s).

Definition qcow2_cache_entry_mark_dirty (s : BDRVQcowState) (table : option Z)
    : BDRVQcowState :=
  match table with
  | Some offset =>
      set_refcount_block_cache
        (alter (fun e => (e.1, true)) offset (refcount_block_cache s)) s
  | None => s
  end.

Definition dirty_blocks (c : gmap Z (list Z * bool)) : gmap Z (list Z) :=
  fst <$> filter (fun kv => kv.2.2 = true) c.

Definition qcow2_cache_flush (s : BDRVQcowState) (c : Qcow2CacheId)
    : Z * BDRVQcowState :=
  let '(r, s1) := backend_request (log_event (EvCacheFlush c) s) in
  if r <? 0 then (r, s1)
  else match c with
       | L2_TABLE_CACHE => (0, s1)
       | REFCOUNT_BLOCK_CACHE =>
           (0,
            set_refcount_block_cache
              ((fun e => (e.1, false)) <$> refcount_block_cache s1)
              (set_file_clusters
                 (dirty_blocks (refcount_block_cache s1) ∪ file_clusters s1)
                 s1))
       end.

Definition qcow2_cache_set_dependency (s : BDRVQcowState)
    (c dependency : Qcow2CacheId) : BDRVQcowState :=
  log_event (EvSetDependency c dependency) s.

(** Reads and writes through a pointer into the cache. *)
Definition block_load (s : BDRVQcowState) (table : option Z) (index : Z) : Z :=
  match table with
  | Some offset =>
      match refcount_block_cache s !! offset with
      | Some e => array_get e.1 index
      | None => 0
      end
  | None => 0
  end.

Definition block_store (s : BDRVQcowState) (table : option Z) (index v : Z)
    : BDRVQcowState :=
  match table with
  | Some offset =>
      set_refcount_block_cache
        (alter (fun e => (array_set e.1 index v, e.2)) offset
           (refcount_block_cache s)) s
  | None => s
  end.

(** [memset(table, 0, s->cluster_size)] *)
Definition block_memset0 (s : BDRVQcowState) (table : option Z)
    : BDRVQcowState :=
  match table with
  | Some offset =>
      set_refcount_block_cache
        (alter (fun e => (zero_block s, e.2)) offset (refcount_block_cache s))
        s
  | None => s
  end.

(** ** Refcount handling *)

Definition load_refcount_block (s : BDRVQcowState) (refcount_block_offset : Z)
    (refcount_block : option Z) : Z * option Z * BDRVQcowState :=
  qcow2_cache_get s refcount_block_offset refcount_block.

Definition get_refcount (s : BDRVQcowState) (cluster_index : Z)
    : Z * BDRVQcowState :=
  let refcount_table_index :=
    to_uint64 (Z.shiftr cluster_index (refcount_block_bits s)) in
  if refcount_table_size s <=? refcount_table_index then (0, s)
  else
    let refcount_block_offset :=
      array_get (refcount_table s) refcount_table_index in
    if refcount_block_offset =? 0 then (0, s)
    else if negb (offset_into_cluster s refcount_block_offset =? 0) then
      (- EIO, qcow2_signal_corruption s true (-1) (-1))
    else
      let '(ret, refcount_block, s1) :=
        qcow2_cache_get s refcount_block_offset None in
      if ret <? 0 then (ret, s1)
      else
        let block_index := Z.land cluster_index (refcount_block_size s - 1) in
        let refcount := be16_to_cpu (block_load s1 refcount_block block_index) in
        let '(ret, refcount_block, s2) := qcow2_cache_put s1 refcount_block in
        if ret <? 0 then (ret, s2) else (refcount, s2).

Fixpoint next_refcount_table_size_loop (fuel : nat)
    (min_clusters refcount_table_clusters : Z) : outcome Z :=
  if min_clusters >? refcount_table_clusters then
    match fuel with
    | O => OutOfFuel
    | S fuel' =>
        next_refcount_table_size_loop fuel' min_clusters
          (to_uint32 (to_uint32 (refcount_table_clusters * 3 + 1) / 2))
    end
  else Done refcount_table_clusters.

Definition next_refcount_table_size (fuel : nat) (s : BDRVQcowState)
    (min_size : Z) : outcome Z :=
  let min_size := to_uint32 min_size in
  let min_clusters :=
    to_uint32 (Z.shiftr min_size (cluster_bits s - 3) + 1) in
  let refcount_table_clusters :=
    MAX 1 (Z.shiftr (refcount_table_size s) (cluster_bits s - 3)) in
  refcount_table_clusters ←
    next_refcount_table_size_loop fuel min_clusters refcount_table_clusters;
  Done (to_uint32 (Z.shiftl refcount_table_clusters (cluster_bits s - 3))).

Definition in_same_refcount_block (s : BDRVQcowState) (offset_a offset_b : Z)
    : bool :=
  let block_a :=
    Z.shiftr (to_uint64 offset_a) (cluster_bits s + refcount_block_bits s) in
  let block_b :=
    Z.shiftr (to_uint64 offset_b) (cluster_bits s + refcount_block_bits s) in
  block_a =? block_b.

(** ** The discard queue *)

Fixpoint process_discards_loop (ds : list Qcow2DiscardRegion) (ret : Z)
    (s : BDRVQcowState) : BDRVQcowState :=
  match ds with
  | [] => s
  | d :: next =>
      let s1 := set_discards next s in
      let s2 :=
        if 0 <=? ret then
          (bdrv_discard s1 (Z.shiftr (d_offset d) BDRV_SECTOR_BITS)
             (Z.shiftr (d_bytes d) BDRV_SECTOR_BITS)).2
        else s1 in
      process_discards_loop next ret s2
  end.

Definition qcow2_process_discards (s : BDRVQcowState) (ret : Z)
    : BDRVQcowState :=
  process_discards_loop (discards s) ret s.

(** First loop of [update_refcount_discard]: the first queued region the new
    range touches is extended in place. *)
Fixpoint discard_extend (offset length : Z)
    (before ds : list Qcow2DiscardRegion)
    : outcome (option (list Qcow2DiscardRegion * Qcow2DiscardRegion
                       * list Qcow2DiscardRegion)) :=
  match ds with
  | [] => Done None
  | d :: next =>
      let new_start := MIN offset (d_offset d) in
      let new_end :=
        MAX (to_uint64 (offset + length)) (to_uint64 (d_offset d + d_bytes d)) in
      if to_uint64 (new_end - new_start) <=? to_uint64 (length + d_bytes d)
      then
        _ ← assert (to_uint64 (d_bytes d + length)
                    =? to_uint64 (new_end - new_start));
        Done (Some (before, mkDiscard new_start (to_uint64 (new_end - new_start)),
                    next))
      else discard_extend offset length (before ++ [d]) next
  end.

(** Second loop: every other region adjacent to [d] is folded into it. *)
Fixpoint discard_merge (d : Qcow2DiscardRegion) (ps : list Qcow2DiscardRegion)
    : outcome (Qcow2DiscardRegion * list Qcow2DiscardRegion) :=
  match ps with
  | [] => Done (d, [])
  | p :: next =>
      if (d_offset p >? to_uint64 (d_offset d + d_bytes d))
         || (d_offset d >? to_uint64 (d_offset p + d_bytes p))
      then
        '(d', kept) ← discard_merge d next;
        Done (d', p :: kept)
      else
        _ ← assert ((d_offset p =? to_uint64 (d_offset d + d_bytes d))
                    || (d_offset d =? to_uint64 (d_offset p + d_bytes p)));
        discard_merge
          (mkDiscard (MIN (d_offset d) (d_offset p))
             (to_uint64 (d_bytes d + d_bytes p)))
          next
  end.

Definition update_refcount_discard (s : BDRVQcowState) (offset length : Z)
    : outcome BDRVQcowState :=
  found ← discard_extend offset length [] (discards s);
  let '(before, d, after) :=
    match found with
    | Some f => f
    | None => (discards s, mkDiscard offset length, [])
    end in
  '(d1, before') ← discard_merge d before;
  '(d2, after') ← discard_merge d1 after;
  Done (set_discards (before' ++ d2 :: after') s).

(** ** Cluster allocation without reference *)

Fixpoint alloc_clusters_noref_loop (fuel : nat) (s : BDRVQcowState)
    (nb_clusters i : Z) : outcome (Z * BDRVQcowState) :=
  if i <? nb_clusters then
    match fuel with
    | O => OutOfFuel
    | S fuel' =>
        let next_cluster_index := free_cluster_index s in
        let s1 := set_free_cluster_index (free_cluster_index s + 1) s in
        let '(refcount, s2) := get_refcount s1 next_cluster_index in
        if refcount <? 0 then Done (refcount, s2)
        else if negb (refcount =? 0) then
          alloc_clusters_noref_loop fuel' s2 nb_clusters 0
        else alloc_clusters_noref_loop fuel' s2 nb_clusters (i + 1)
    end
  else
    Done (Z.shiftl (free_cluster_index s - nb_clusters) (cluster_bits s), s).

Definition alloc_clusters_noref (fuel : nat) (s : BDRVQcowState) (size : Z)
    : outcome (Z * BDRVQcowState) :=
  let s1 := if cache_discards s then qcow2_process_discards s 0 else s in
  let nb_clusters := size_to_clusters s1 size in
  alloc_clusters_noref_loop fuel s1 nb_clusters 0.

(** ** Allocating refcount blocks and updating refcounts

    [update_refcount], [alloc_refcount_block] and [qcow2_free_clusters] call
    each other.  The bodies below take the recursive call to
    [update_refcount] as the argument [rec]; the knot is tied on fuel. *)

Section Bodies.

Variable fuel : nat.
Variable rec :
  BDRVQcowState -> Z -> Z -> Z -> qcow2_discard_type ->
  outcome (Z * BDRVQcowState).

Definition qcow2_free_clusters_body (s : BDRVQcowState) (offset size : Z)
    (type : qcow2_discard_type) : outcome BDRVQcowState :=
  '(ret, s1) ← rec s offset size (-1) type;
  (* a failure is only reported on stderr *)
  Done s1.

(** The [fail_block] label of [alloc_refcount_block]. *)
Definition fail_block (s : BDRVQcowState) (refcount_block : option Z) (ret : Z)
    : Z * option Z * BDRVQcowState :=
  match refcount_block with
  | Some _ =>
      let '(_, refcount_block', s1) := qcow2_cache_put s refcount_block in
      (ret, refcount_block', s1)
  | None => (ret, refcount_block, s)
  end.

(** "Now the new refcount block needs to be written to disk". *)
Definition write_new_refcount_block (s : BDRVQcowState)
    (refcount_block : option Z) (new_block : Z)
    : Z * option Z * Z * BDRVQcowState :=
  let s1 := qcow2_cache_entry_mark_dirty s refcount_block in
  let '(ret, s2) := qcow2_cache_flush s1 REFCOUNT_BLOCK_CACHE in
  if ret <? 0 then
    let '(ret', rb, s3) := fail_block s2 refcount_block ret in
    (ret', rb, new_block, s3)
  else (0, refcount_block, new_block, s2).

(** The first half of the allocating path of [alloc_refcount_block]: a
    cluster for the new refcount block is found, accounted for and the
    zeroed block is flushed.  The result is [(ret, *refcount_block,
    new_block, state)]; [ret = 0] means the block is ready to be hooked up. *)
Definition alloc_refcount_block_new (s : BDRVQcowState) (cluster_index : Z)
    : outcome (Z * option Z * Z * BDRVQcowState) :=
  let refcount_block : option Z := None in
  (* We write to the refcount table, so we might depend on L2 tables *)
  let '(ret, s1) := qcow2_cache_flush s L2_TABLE_CACHE in
  if ret <? 0 then Done (ret, refcount_block, 0, s1)
  else
    (* Allocate the refcount block itself and mark it as used *)
    '(new_block, s2) ← alloc_clusters_noref fuel s1 (cluster_size s1);
    if new_block <? 0 then Done (new_block, refcount_block, new_block, s2)
    else if in_same_refcount_block s2 new_block
              (Z.shiftl cluster_index (cluster_bits s2))
    then
      (* Zero the new refcount block before updating it *)
      let '(ret, refcount_block, s3) :=
        qcow2_cache_get_empty s2 new_block refcount_block in
      if ret <? 0 then
        let '(ret', rb, s4) := fail_block s3 refcount_block ret in
        Done (ret', rb, new_block, s4)
      else
        let s4 := block_memset0 s3 refcount_block in
        (* The block describes itself, need to update the cache *)
        let block_index :=
          Z.land (Z.shiftr new_block (cluster_bits s4))
            (refcount_block_size s4 - 1) in
        let s5 := block_store s4 refcount_block block_index (cpu_to_be16 1) in
        Done (write_new_refcount_block s5 refcount_block new_block)
    else
      (* Described somewhere else. *)
      '(ret, s3) ← rec s2 new_block (cluster_size s2) 1 QCOW2_DISCARD_NEVER;
      if ret <? 0 then
        let '(ret', rb, s4) := fail_block s3 refcount_block ret in
        Done (ret', rb, new_block, s4)
      else
        let '(ret, s4) := qcow2_cache_flush s3 REFCOUNT_BLOCK_CACHE in
        if ret <? 0 then
          let '(ret', rb, s5) := fail_block s4 refcount_block ret in
          Done (ret', rb, new_block, s5)
        else
          (* Initialize the new refcount block only after updating its
             refcount, update_refcount uses the refcount cache itself *)
          let '(ret, refcount_block, s5) :=
            qcow2_cache_get_empty s4 new_block refcount_block in
          if ret <? 0 then
            let '(ret', rb, s6) := fail_block s5 refcount_block ret in
            Done (ret', rb, new_block, s6)
          else
            let s6 := block_memset0 s5 refcount_block in
            Done (write_new_refcount_block s6 refcount_block new_block).

(** "If the refcount table is big enough, just hook the block up there". *)
Definition hookup_refcount_block (s : BDRVQcowState)
    (refcount_table_index new_block : Z) (refcount_block : option Z)
    : Z * option Z * BDRVQcowState :=
  let '(ret, s1) :=
    bdrv_pwrite_sync s (refcount_table_offset s + refcount_table_index * 8) 8 in
  if ret <? 0 then fail_block s1 refcount_block ret
  else
    (- EAGAIN, refcount_block,
     set_refcount_table
       (array_set (refcount_table s1) refcount_table_index new_block) s1).

(** The [do ... while (last_table_size != table_size)] loop: the size of the
    new table and the number of refcount blocks that describe the new
    metadata. *)
Fixpoint grow_table_size (n : nat) (s : BDRVQcowState)
    (blocks_used table_size : Z) : outcome (Z * Z) :=
  match n with
  | O => OutOfFuel
  | S n' =>
      let table_clusters := size_to_clusters s (table_size * 8) in
      let blocks_clusters :=
        1 + (table_clusters + refcount_block_size s - 1)
            / refcount_block_size s in
      let meta_clusters := table_clusters + blocks_clusters in
      let last_table_size := table_size in
      table_size' ←
        next_refcount_table_size fuel s
          (blocks_used
           + (meta_clusters + refcount_block_size s - 1)
             / refcount_block_size s);
      if negb (last_table_size =? table_size') then
        grow_table_size n' s blocks_used table_size'
      else Done (table_size', blocks_clusters)
  end.

(** "Fill the new refcount table": the old table is copied into a zeroed
    array of [table_size] entries, then the entry of the block being
    allocated and the entries of the new metadata blocks are set. *)
Definition fill_metadata_entries (s : BDRVQcowState)
    (blocks_used blocks_clusters meta_offset : Z) (new_table : list Z)
    : list Z :=
  foldl (fun t i => array_set t (blocks_used + i)
                      (meta_offset + i * cluster_size s))
    new_table (seqZ 0 blocks_clusters).

Definition new_refcount_table (s : BDRVQcowState)
    (refcount_table_index new_block blocks_used blocks_clusters
     table_size meta_offset : Z) : list Z :=
  let new_table := resize (Z.to_nat table_size) 0 (refcount_table s) in
  let new_table := array_set new_table refcount_table_index new_block in
  fill_metadata_entries s blocks_used blocks_clusters meta_offset new_table.

(** "Fill the refcount blocks": the first [table_clusters + blocks_clusters]
    entries of the zeroed buffer are set to 1. *)
Definition new_refcount_blocks (s : BDRVQcowState)
    (table_clusters blocks_clusters : Z) : list Z :=
  let total := Z.to_nat (blocks_clusters * cluster_size s / 2) in
  take total
    (replicate (Z.to_nat (table_clusters + blocks_clusters)) (cpu_to_be16 1)
     ++ replicate total 0).

(** [bdrv_pwrite_sync(bs->file, meta_offset, new_blocks, ...)]: each cluster
    of the buffer lands in the file. *)
Definition write_refcount_blocks (s : BDRVQcowState) (meta_offset : Z)
    (new_blocks : list Z) (blocks_clusters : Z) : Z * BDRVQcowState :=
  let '(ret, s1) :=
    bdrv_pwrite_sync s meta_offset (blocks_clusters * cluster_size s) in
  if ret <? 0 then (ret, s1)
  else
    let per := Z.to_nat (cluster_size s / 2) in
    (ret,
     set_file_clusters
       (foldl (fun f i =>
                 <[meta_offset + i * cluster_size s :=
                     take per (drop (Z.to_nat i * per)%nat new_blocks)]> f)
          (file_clusters s1) (seqZ 0 blocks_clusters))
       s1).

(** [offsetof(QCowHeader, refcount_table_offset)] *)
Definition header_refcount_table_offset : Z := 48.

(** Growing the refcount table, up to and including the switch of the
    in-memory table.  The result is [inl ret] when a step fails and [inr] of
    the state with the new table in force, the old table's place and size,
    otherwise. *)
Definition grow_refcount_table (s : BDRVQcowState)
    (cluster_index refcount_table_index new_block : Z)
    : outcome (Z * BDRVQcowState + BDRVQcowState * Z * Z) :=
  (* Calculate the number of refcount blocks needed so far *)
  let blocks_used :=
    DIV_ROUND_UP
      (MAX (cluster_index + 1) (Z.shiftr new_block (cluster_bits s) + 1))
      (refcount_block_size s) in
  if blocks_used >? QCOW_MAX_REFTABLE_SIZE / 8 then Done (inl (- EFBIG, s))
  else
    (* And now we need at least one block more for the new metadata *)
    table_size ← next_refcount_table_size fuel s (blocks_used + 1);
    '(table_size, blocks_clusters) ←
      grow_table_size fuel s blocks_used table_size;
    (* Create the new refcount table and blocks *)
    let meta_offset :=
      (blocks_used * refcount_block_size s) * cluster_size s in
    let table_offset := meta_offset + blocks_clusters * cluster_size s in
    let new_table :=
      new_refcount_table s refcount_table_index new_block blocks_used
        blocks_clusters table_size meta_offset in
    let table_clusters := size_to_clusters s (table_size * 8) in
    let new_blocks := new_refcount_blocks s table_clusters blocks_clusters in
    (* Write refcount blocks to disk *)
    let '(ret, s1) :=
      write_refcount_blocks s meta_offset new_blocks blocks_clusters in
    if ret <? 0 then Done (inl (ret, s1))
    else
      (* Write refcount table to disk *)
      let '(ret, s2) := bdrv_pwrite_sync s1 table_offset (table_size * 8) in
      if ret <? 0 then Done (inl (ret, s2))
      else
        (* Hook up the new refcount table in the qcow2 header *)
        let '(ret, s3) :=
          bdrv_pwrite_sync s2 header_refcount_table_offset 12 in
        if ret <? 0 then Done (inl (ret, s3))
        else
          (* And switch it in memory *)
          let old_table_offset := refcount_table_offset s3 in
          let old_table_size := refcount_table_size s3 in
          Done (inr (set_refcount_table_offset table_offset
                       (set_refcount_table new_table s3),
                     old_table_offset, old_table_size)).

Definition alloc_refcount_block_body (s : BDRVQcowState) (cluster_index : Z)
    (refcount_block : option Z) : outcome (Z * option Z * BDRVQcowState) :=
  (* Find the refcount block for the given cluster *)
  let refcount_table_index :=
    to_uint32 (Z.shiftr cluster_index (refcount_block_bits s)) in
  let refcount_block_offset :=
    if refcount_table_index <? refcount_table_size s then
      Z.land (array_get (refcount_table s) refcount_table_index)
        REFT_OFFSET_MASK
    else 0 in
  (* If it's already there, we're done *)
  if negb (refcount_block_offset =? 0) then
    if negb (offset_into_cluster s refcount_block_offset =? 0) then
      Done (- EIO, refcount_block, qcow2_signal_corruption s true (-1) (-1))
    else Done (load_refcount_block s refcount_block_offset refcount_block)
  else
    '(ret, refcount_block, new_block, s1) ←
      alloc_refcount_block_new s cluster_index;
    if ret <? 0 then Done (ret, refcount_block, s1)
    else if refcount_table_index <? refcount_table_size s1 then
      Done (hookup_refcount_block s1 refcount_table_index new_block
              refcount_block)
    else
      let '(ret, refcount_block, s2) := qcow2_cache_put s1 refcount_block in
      if ret <? 0 then Done (fail_block s2 refcount_block ret)
      else
        grown ← grow_refcount_table s2 cluster_index refcount_table_index
                  new_block;
        match grown with
        | inl (ret, s3) => Done (fail_block s3 refcount_block ret)
        | inr (s3, old_table_offset, old_table_size) =>
            (* Free old table. *)
            s4 ← qcow2_free_clusters_body s3 old_table_offset
                   (old_table_size * 8) QCOW2_DISCARD_OTHER;
            let '(ret, refcount_block, s5) :=
              load_refcount_block s4 new_block refcount_block in
            if ret <? 0 then Done (ret, refcount_block, s5)
            else Done (- EAGAIN, refcount_block, s5)
        end.

(** Lines 577-595 of [update_refcount]: the counter of one cluster, in the
    refcount block that [refcount_block] points to. *)
Definition update_cluster_counter (s : BDRVQcowState)
    (refcount_block : option Z) (cluster_offset cluster_index addend : Z)
    (type : qcow2_discard_type) : outcome (Z * BDRVQcowState) :=
  let s1 := qcow2_cache_entry_mark_dirty s refcount_block in
  (* we can update the count and save it *)
  let block_index := Z.land cluster_index (refcount_block_size s1 - 1) in
  let refcount := be16_to_cpu (block_load s1 refcount_block block_index) in
  let refcount := refcount + addend in
  if (refcount <? 0) || (refcount >? 0xffff) then Done (- EINVAL, s1)
  else
    let s2 :=
      if (refcount =? 0) && (cluster_index <? free_cluster_index s1) then
        set_free_cluster_index cluster_index s1
      else s1 in
    let s3 := block_store s2 refcount_block block_index (cpu_to_be16 refcount) in
    if (refcount =? 0) && discard_passthrough s3 type then
      s4 ← update_refcount_discard s3 cluster_offset (cluster_size s3);
      Done (0, s4)
    else Done (0, s3).

(** "Load the refcount block and allocate it if needed": the block in hand
    is released and the block of [cluster_index] obtained when the cluster
    lies under another entry of the refcount table than the last one. *)
Definition switch_refcount_block (s : BDRVQcowState)
    (refcount_block : option Z) (old_table_index cluster_index : Z)
    : outcome (Z * option Z * BDRVQcowState) :=
  let table_index := Z.shiftr cluster_index (refcount_block_bits s) in
  if negb (table_index =? old_table_index) then
    let '(ret, refcount_block, s0) :=
      match refcount_block with
      | Some _ => qcow2_cache_put s refcount_block
      | None => (0, refcount_block, s)
      end in
    if ret <? 0 then Done (ret, refcount_block, s0)
    else alloc_refcount_block_body s0 cluster_index refcount_block
  else Done (0, refcount_block, s).

(** The [for] loop of [update_refcount], over the [n] clusters that remain.
    The result is [(ret, cluster_offset, refcount_block, state)] as the
    [fail] label finds them. *)
Fixpoint update_refcount_loop (n : nat) (s : BDRVQcowState)
    (cluster_offset : Z) (refcount_block : option Z) (old_table_index : Z)
    (addend : Z) (type : qcow2_discard_type)
    : outcome (Z * Z * option Z * BDRVQcowState) :=
  match n with
  | O => Done (0, cluster_offset, refcount_block, s)
  | S n' =>
      let cluster_index := Z.shiftr cluster_offset (cluster_bits s) in
      let table_index := Z.shiftr cluster_index (refcount_block_bits s) in
      '(ret, refcount_block, s1) ←
        switch_refcount_block s refcount_block old_table_index cluster_index;
      if ret <? 0 then Done (ret, cluster_offset, refcount_block, s1)
      else
        '(ret, s2) ←
          update_cluster_counter s1 refcount_block cluster_offset
            cluster_index addend type;
        if ret <? 0 then Done (ret, cluster_offset, refcount_block, s2)
        else
          update_refcount_loop n' s2 (cluster_offset + cluster_size s2)
            refcount_block table_index addend type
  end.

(** Number of iterations of [for (cluster_offset = start; cluster_offset <=
    last; cluster_offset += s->cluster_size)]. *)
Definition clusters_between (s : BDRVQcowState) (start last : Z) : nat :=
  if start <=? last then Z.to_nat ((last - start) / cluster_size s + 1)
  else O.

(** [update_refcount] up to the point where the undo is decided: the loop,
    the queued discards and the release of the last block.  The result is
    [(ret, cluster_offset, early, state)]; [early] is set when the function
    returns from inside the release of the last block. *)
Definition update_refcount_main (s : BDRVQcowState)
    (offset length addend : Z) (type : qcow2_discard_type)
    : outcome (Z * Z * bool * BDRVQcowState) :=
  let s1 :=
    if addend <? 0 then
      qcow2_cache_set_dependency s REFCOUNT_BLOCK_CACHE L2_TABLE_CACHE
    else s in
  let start := Z.land offset (Z.lnot (cluster_size s1 - 1)) in
  let last := Z.land (offset + length - 1) (Z.lnot (cluster_size s1 - 1)) in
  '(ret, cluster_offset, refcount_block, s2) ←
    update_refcount_loop (clusters_between s1 start last) s1 start None (-1)
      addend type;
  (* fail: *)
  let s3 := if negb (cache_discards s2) then qcow2_process_discards s2 ret
            else s2 in
  (* Write last changed block to disk *)
  match refcount_block with
  | Some _ =>
      let '(wret, _, s4) := qcow2_cache_put s3 refcount_block in
      if wret <? 0 then
        Done (if ret <? 0 then ret else wret, cluster_offset, true, s4)
      else Done (ret, cluster_offset, false, s4)
  | None => Done (ret, cluster_offset, false, s3)
  end.

Definition update_refcount_body (s : BDRVQcowState)
    (offset length addend : Z) (type : qcow2_discard_type)
    : outcome (Z * BDRVQcowState) :=
  if length <? 0 then Done (- EINVAL, s)
  else if length =? 0 then Done (0, s)
  else
    '(ret, cluster_offset, early, s1) ←
      update_refcount_main s offset length addend type;
    if (early : bool) then Done (ret, s1)
    else if ret <? 0 then
      (* Try do undo any updates if an error is returned *)
      '(dummy, s2) ←
        rec s1 offset (cluster_offset - offset) (- addend)
          QCOW2_DISCARD_NEVER;
      Done (ret, s2)
    else Done (ret, s1).

End Bodies.

Fixpoint update_refcount (fuel : nat) (s : BDRVQcowState)
    (offset length addend : Z) (type : qcow2_discard_type)
    : outcome (Z * BDRVQcowState) :=
  match fuel with
  | O => OutOfFuel
  | S fuel' =>
      update_refcount_body fuel' (update_refcount fuel') s offset length
        addend type
  end.

Definition alloc_refcount_block (fuel : nat) (s : BDRVQcowState)
    (cluster_index : Z) (refcount_block : option Z)
    : outcome (Z * option Z * BDRVQcowState) :=
  alloc_refcount_block_body fuel (update_refcount fuel) s cluster_index
    refcount_block.

Definition qcow2_free_clusters (fuel : nat) (s : BDRVQcowState)
    (offset size : Z) (type : qcow2_discard_type) : outcome BDRVQcowState :=
  qcow2_free_clusters_body (update_refcount fuel) s offset size type.

Definition qcow2_update_cluster_refcount (fuel : nat) (s : BDRVQcowState)
    (cluster_index addend : Z) (type : qcow2_discard_type)
    : outcome (Z * BDRVQcowState) :=
  '(ret, s1) ←
    update_refcount fuel s (Z.shiftl cluster_index (cluster_bits s)) 1 addend
      type;
  if ret <? 0 then Done (ret, s1) else Done (get_refcount s1 cluster_index).

(** ** Cluster allocation *)

Fixpoint qcow2_alloc_clusters (fuel : nat) (s : BDRVQcowState) (size : Z)
    : outcome (Z * BDRVQcowState) :=
  match fuel with
  | O => OutOfFuel
  | S fuel' =>
      '(offset, s1) ← alloc_clusters_noref fuel' s size;
      if offset <? 0 then Done (offset, s1)
      else
        '(ret, s2) ←
          update_refcount fuel' s1 offset size 1 QCOW2_DISCARD_NEVER;
        if ret =? - EAGAIN then qcow2_alloc_clusters fuel' s2 size
        else if ret <? 0 then Done (ret, s2)
        else Done (offset, s2)
  end.

(** "Check how many clusters there are free": the inner [for] loop of
    [qcow2_alloc_clusters_at], [n] probes left.  The result is the last
    refcount read (negative on error) and the loop counter [i]. *)
Fixpoint count_free_clusters (n : nat) (s : BDRVQcowState)
    (cluster_index i : Z) : Z * Z * BDRVQcowState :=
  match n with
  | O => (0, i, s)
  | S n' =>
      let '(refcount, s1) := get_refcount s cluster_index in
      if refcount <? 0 then (refcount, i, s1)
      else if negb (refcount =? 0) then (refcount, i, s1)
      else count_free_clusters n' s1 (cluster_index + 1) (i + 1)
  end.

Fixpoint qcow2_alloc_clusters_at_loop (fuel : nat) (s : BDRVQcowState)
    (offset nb_clusters : Z) : outcome (Z * BDRVQcowState) :=
  match fuel with
  | O => OutOfFuel
  | S fuel' =>
      let cluster_index := Z.shiftr offset (cluster_bits s) in
      let '(refcount, i, s1) :=
        count_free_clusters (Z.to_nat nb_clusters) s cluster_index 0 in
      if refcount <? 0 then Done (refcount, s1)
      else
        (* And then allocate them *)
        '(ret, s2) ←
          update_refcount fuel' s1 offset (Z.shiftl i (cluster_bits s1)) 1
            QCOW2_DISCARD_NEVER;
        if ret =? - EAGAIN then
          qcow2_alloc_clusters_at_loop fuel' s2 offset nb_clusters
        else if ret <? 0 then Done (ret, s2)
        else Done (i, s2)
  end.

Definition qcow2_alloc_clusters_at (fuel : nat) (s : BDRVQcowState)
    (offset nb_clusters : Z) : outcome (Z * BDRVQcowState) :=
  _ ← assert (0 <=? nb_clusters);
  if nb_clusters =? 0 then Done (0, s)
  else qcow2_alloc_clusters_at_loop fuel s offset nb_clusters.

(** ** The consistency check: comparing refcounts *)

(** The counters of [BdrvCheckResult] that [compare_refcounts] writes. *)
Record BdrvCheckResult : Type := mkCheckResult {
  check_errors : Z;
  corruptions : Z;
  corruptions_fixed : Z;
  leaks : Z;
  leaks_fixed : Z
}.

(** The pointer [int *num_fixed]: NULL, [&res->leaks_fixed] or
    [&res->corruptions_fixed]. *)
Inductive num_fixed_ptr : Type := LEAKS_FIXED | CORRUPTIONS_FIXED.

Definition incr_num_fixed (p : num_fixed_ptr) (res : BdrvCheckResult)
    : BdrvCheckResult :=
  match p with
  | LEAKS_FIXED =>
      mkCheckResult (check_errors res) (corruptions res)
        (corruptions_fixed res) (leaks res) (leaks_fixed res + 1)
  | CORRUPTIONS_FIXED =>
      mkCheckResult (check_errors res) (corruptions res)
        (corruptions_fixed res + 1) (leaks res) (leaks_fixed res)
  end.

Definition incr_check_errors (res : BdrvCheckResult) : BdrvCheckResult :=
  mkCheckResult (check_errors res + 1) (corruptions res)
    (corruptions_fixed res) (leaks res) (leaks_fixed res).

Definition incr_corruptions (res : BdrvCheckResult) : BdrvCheckResult :=
  mkCheckResult (check_errors res) (corruptions res + 1)
    (corruptions_fixed res) (leaks res) (leaks_fixed res).

Definition incr_leaks (res : BdrvCheckResult) : BdrvCheckResult :=
  mkCheckResult (check_errors res) (corruptions res)
    (corruptions_fixed res) (leaks res + 1) (leaks_fixed res).

(** "Check if we're allowed to fix the mismatch" *)
Definition choose_num_fixed (fix_mode refcount1 refcount2 : Z)
    : option num_fixed_ptr :=
  if refcount1 =? 0 then None
  else if (refcount1 >? refcount2) && negb (Z.land fix_mode BDRV_FIX_LEAKS =? 0)
  then Some LEAKS_FIXED
  else if (refcount1 <? refcount2) && negb (Z.land fix_mode BDRV_FIX_ERRORS =? 0)
  then Some CORRUPTIONS_FIXED
  else None.

(** "And if we couldn't, print an error" *)
Definition count_mismatch (refcount1 refcount2 : Z) (res : BdrvCheckResult)
    : BdrvCheckResult :=
  if refcount1 <? refcount2 then incr_corruptions res else incr_leaks res.

(** What [compare_refcounts] carries from one cluster to the next. *)
Record compare_vars : Type := mkCompare {
  cv_res : BdrvCheckResult;
  cv_rebuild : bool;
  cv_highest_cluster : Z
}.

(** One iteration of the loop of [compare_refcounts], for cluster [i]. *)
Definition compare_refcounts_cluster (fuel : nat) (s : BDRVQcowState)
    (v : compare_vars) (fix_mode : Z) (refcount_table : list Z) (i : Z)
    : outcome (compare_vars * BDRVQcowState) :=
  let '(refcount1, s1) := get_refcount s i in
  if refcount1 <? 0 then
    Done (mkCompare (incr_check_errors (cv_res v)) (cv_rebuild v)
            (cv_highest_cluster v), s1)
  else
    let refcount2 := array_get refcount_table i in
    let highest :=
      if (refcount1 >? 0) || (refcount2 >? 0) then i
      else cv_highest_cluster v in
    if negb (refcount1 =? refcount2) then
      let num_fixed := choose_num_fixed fix_mode refcount1 refcount2 in
      let rebuild := if refcount1 =? 0 then true else cv_rebuild v in
      match num_fixed with
      | Some p =>
          '(ret, s2) ←
            update_refcount fuel s1 (Z.shiftl i (cluster_bits s1)) 1
              (refcount2 - refcount1) QCOW2_DISCARD_ALWAYS;
          if 0 <=? ret then
            Done (mkCompare (incr_num_fixed p (cv_res v)) rebuild highest, s2)
          else
            Done (mkCompare (count_mismatch refcount1 refcount2 (cv_res v))
                    rebuild highest, s2)
      | None =>
          Done (mkCompare (count_mismatch refcount1 refcount2 (cv_res v))
                  rebuild highest, s1)
      end
    else Done (mkCompare (cv_res v) (cv_rebuild v) highest, s1).

Fixpoint compare_refcounts_loop (fuel : nat) (n : nat) (s : BDRVQcowState)
    (v : compare_vars) (fix_mode : Z) (refcount_table : list Z) (i : Z)
    : outcome (compare_vars * BDRVQcowState) :=
  match n with
  | O => Done (v, s)
  | S n' =>
      '(v1, s1) ← compare_refcounts_cluster fuel s v fix_mode refcount_table i;
      compare_refcounts_loop fuel n' s1 v1 fix_mode refcount_table (i + 1)
  end.

Definition compare_refcounts (fuel : nat) (s : BDRVQcowState)
    (res : BdrvCheckResult) (fix_mode : Z) (rebuild : bool)
    (refcount_table : list Z) (nb_clusters : Z)
    : outcome (compare_vars * BDRVQcowState) :=
  compare_refcounts_loop fuel (Z.to_nat nb_clusters) s
    (mkCompare res rebuild 0) fix_mode refcount_table 0.

(** ** The overlap guard *)

Definition chk_has (chk section : Z) : bool := negb (Z.land chk section =? 0).

(** The loop of the [QCOW2_OL_INACTIVE_L2] check: the L1 table of every
    snapshot is read from the file. *)
Fixpoint inactive_l2_overlap (s : BDRVQcowState) (offset size : Z)
    (sns : list QCowSnapshot) : Z * BDRVQcowState :=
  match sns with
  | [] => (0, s)
  | sn :: next =>
      let l1_ofs := sn_l1_table_offset sn in
      let l1_sz := to_uint32 (sn_l1_size sn) in
      let '(ret, l1, s1) := bdrv_pread_table s l1_ofs l1_sz in
      if ret <? 0 then (ret, s1)
      else if existsb
                (fun e =>
                   let l2_ofs := Z.land (be64_to_cpu e) L1E_OFFSET_MASK in
                   negb (l2_ofs =? 0)
                   && ranges_overlap offset size l2_ofs (cluster_size s))
                l1
      then (QCOW2_OL_INACTIVE_L2, s1)
      else inactive_l2_overlap s1 offset size next
  end.

Definition qcow2_check_metadata_overlap (s : BDRVQcowState)
    (ign offset size : Z) : Z * BDRVQcowState :=
  let chk := Z.land (overlap_check s) (Z.lnot ign) in
  if size =? 0 then (0, s)
  else if chk_has chk QCOW2_OL_MAIN_HEADER && (offset <? cluster_size s) then
    (QCOW2_OL_MAIN_HEADER, s)
  else
    (* align range to test to cluster boundaries *)
    let size :=
      align_offset (offset_into_cluster s offset + size) (cluster_size s) in
    let offset := start_of_cluster s offset in
    if chk_has chk QCOW2_OL_ACTIVE_L1 && negb (l1_size s =? 0)
       && ranges_overlap offset size (l1_table_offset s) (l1_size s * 8)
    then (QCOW2_OL_ACTIVE_L1, s)
    else if chk_has chk QCOW2_OL_REFCOUNT_TABLE
            && negb (refcount_table_size s =? 0)
            && ranges_overlap offset size (refcount_table_offset s)
                 (refcount_table_size s * 8)
    then (QCOW2_OL_REFCOUNT_TABLE, s)
    else if chk_has chk QCOW2_OL_SNAPSHOT_TABLE
            && negb (snapshots_size s =? 0)
            && ranges_overlap offset size (snapshots_offset s)
                 (snapshots_size s)
    then (QCOW2_OL_SNAPSHOT_TABLE, s)
    else if chk_has chk QCOW2_OL_INACTIVE_L1
            && existsb
                 (fun sn =>
                    negb (sn_l1_size sn =? 0)
                    && ranges_overlap offset size (sn_l1_table_offset sn)
                         (sn_l1_size sn * 8))
                 (snapshots s)
    then (QCOW2_OL_INACTIVE_L1, s)
    else if chk_has chk QCOW2_OL_ACTIVE_L2
            && existsb
                 (fun e =>
                    negb (Z.land e L1E_OFFSET_MASK =? 0)
                    && ranges_overlap offset size (Z.land e L1E_OFFSET_MASK)
                         (cluster_size s))
                 (l1_table s)
    then (QCOW2_OL_ACTIVE_L2, s)
    else if chk_has chk QCOW2_OL_REFCOUNT_BLOCK
            && existsb
                 (fun e =>
                    negb (Z.land e REFT_OFFSET_MASK =? 0)
                    && ranges_overlap offset size (Z.land e REFT_OFFSET_MASK)
                         (cluster_size s))
                 (refcount_table s)
    then (QCOW2_OL_REFCOUNT_BLOCK, s)
    else if chk_has chk QCOW2_OL_INACTIVE_L2 then
      inactive_l2_overlap s offset size (snapshots s)
    else (0, s).

(** [ffs] of libc: the position of the least significant set bit, from 1. *)
Definition ffs (x : Z) : Z :=
  if x =? 0 then 0 else Z.log2 (Z.land x (- x)) + 1.

Definition qcow2_pre_write_overlap_check (s : BDRVQcowState)
    (ign offset size : Z) : outcome (Z * BDRVQcowState) :=
  let '(ret, s1) := qcow2_check_metadata_overlap s ign offset size in
  if ret <? 0 then Done (ret, s1)
  else if ret >? 0 then
    let metadata_ol_bitnr := ffs ret - 1 in
    _ ← assert (metadata_ol_bitnr <? QCOW2_OL_MAX_BITNR);
    Done (- EIO, qcow2_signal_corruption s1 true offset size)
  else Done (0, s1).

End Engine.

(** * The consistency check: the in-memory refcount table

    [qcow2_check_refcounts] counts the references it finds in an array of
    16-bit counters of its own, one per cluster ([uint16_t *refcount_table]
    with its size beside it; here a list).  The two functions below work on
    that array. *)

Definition to_uint16 (x : Z) : Z := x mod 2 ^ 16.

Section Checker.

Variable backend : nat -> Z.

(** [g_try_realloc] of glib: the request may fail (NULL).  Whether it does
    is the environment's answer to the request. *)
Definition g_try_realloc (s : BDRVQcowState) (bytes : Z)
    : bool * BDRVQcowState :=
  let '(r, s1) := backend_request backend s in
  (0 <=? r, s1).

(** The loop of [inc_refcounts]; [cluster_offset] and [last] are
    [uint64_t]. *)
Fixpoint inc_refcounts_loop (fuel : nat) (s : BDRVQcowState)
    (res : BdrvCheckResult) (refcount_table : list Z)
    (cluster_offset last : Z)
    : outcome (Z * BdrvCheckResult * list Z * BDRVQcowState) :=
  if cluster_offset <=? last then
    match fuel with
    | O => OutOfFuel
    | S fuel' =>
        let k := Z.shiftr cluster_offset (cluster_bits s) in
        let count (refcount_table : list Z) (s1 : BDRVQcowState) :=
          let v := to_uint16 (array_get refcount_table k + 1) in
          let refcount_table := array_set refcount_table k v in
          let res := if v =? 0 then incr_corruptions res else res in
          inc_refcounts_loop fuel' s1 res refcount_table
            (to_uint64 (cluster_offset + cluster_size s)) last in
        if k >=? to_uint64 (Z.of_nat (length refcount_table)) then
          let '(ok, s1) := g_try_realloc s ((k + 1) * 2) in
          if negb ok then
            Done (- ENOMEM, incr_check_errors res, refcount_table, s1)
          else count (resize (Z.to_nat (k + 1)) 0 refcount_table) s1
        else count refcount_table s
    end
  else Done (0, res, refcount_table, s).

Definition inc_refcounts (fuel : nat) (s : BDRVQcowState)
    (res : BdrvCheckResult) (refcount_table : list Z) (offset size : Z)
    : outcome (Z * BdrvCheckResult * list Z * BDRVQcowState) :=
  if size <=? 0 then Done (0, res, refcount_table, s)
  else
    let start := to_uint64 (Z.land offset (Z.lnot (cluster_size s - 1))) in
    let last :=
      to_uint64 (Z.land (offset + size - 1) (Z.lnot (cluster_size s - 1))) in
    inc_refcounts_loop fuel s res refcount_table start last.

(** The first loop of [alloc_clusters_imrt], over the entries from
    [cluster] to the end of the table: it stops at the end of the table or
    with [cluster_count] free clusters in a row. *)
Fixpoint imrt_find_gap (entries : list Z) (cluster_count : Z)
    (cluster contiguous_free_clusters first_free_cluster : Z)
    (first_gap : bool) : Z * Z * Z * bool :=
  match entries with
  | [] => (cluster, contiguous_free_clusters, first_free_cluster, first_gap)
  | e :: entries' =>
      if contiguous_free_clusters <? cluster_count then
        if e =? 0 then
          imrt_find_gap entries' cluster_count (cluster + 1)
            (contiguous_free_clusters + 1)
            (if first_gap then cluster else first_free_cluster) false
        else
          imrt_find_gap entries' cluster_count (cluster + 1) 0
            first_free_cluster first_gap
      else (cluster, contiguous_free_clusters, first_free_cluster, first_gap)
  end.

(** The result is the offset (or -ENOMEM), the table and
    [*first_free_cluster]. *)
Definition alloc_clusters_imrt (s : BDRVQcowState) (cluster_count : Z)
    (refcount_table : list Z) (first_free_cluster : Z)
    : Z * list Z * Z * BDRVQcowState :=
  let '(cluster, contiguous_free_clusters, first_free_cluster, _) :=
    imrt_find_gap (drop (Z.to_nat first_free_cluster) refcount_table)
      cluster_count first_free_cluster 0 first_free_cluster true in
  let mark (refcount_table : list Z) (s1 : BDRVQcowState) :=
    (* Go back to the first free cluster *)
    let cluster := cluster - contiguous_free_clusters in
    (Z.shiftl cluster (cluster_bits s),
     foldl (fun t i => array_set t (cluster + i) 1) refcount_table
       (seqZ 0 cluster_count),
     first_free_cluster, s1) in
  if contiguous_free_clusters <? cluster_count then
    let imrt_nb_clusters := cluster + cluster_count - contiguous_free_clusters in
    let '(ok, s1) := g_try_realloc s (imrt_nb_clusters * 2) in
    if negb ok then (- ENOMEM, refcount_table, first_free_cluster, s1)
    else mark (resize (Z.to_nat imrt_nb_clusters) 0 refcount_table) s1
  else mark refcount_table s.

End Checker.

(** * Vocabulary of the statements *)

(** The contents of the refcount block at [offset] as the engine sees it:
    the cached copy when there is one, the cluster of the file otherwise. *)
Definition block_contents (s : BDRVQcowState) (offset : Z) : list Z :=
  match refcount_block_cache s !! offset with
  | Some e => e.1
  | None =>
      default (replicate (Z.to_nat (cluster_size s / 2)) 0)
        (file_clusters s !! offset)
  end.

(** One 16-bit counter, in host order. *)
Definition counter (s : BDRVQcowState) (block_offset index : Z) : Z :=
  be16_to_cpu (array_get (block_contents s block_offset) index).

(** The allocator state besides the counters. *)
Definition allocator_state (s : BDRVQcowState)
    : list Z * Z * Z * list Qcow2DiscardRegion * gmap Z (list Z) :=
  (refcount_table s, refcount_table_offset s, free_cluster_index s,
   discards s, file_clusters s).

(** The request that [qcow2_process_discards] sends for a queued region. *)
Definition discard_request (d : Qcow2DiscardRegion) : Event :=
  EvDiscard (Z.shiftr (d_offset d) BDRV_SECTOR_BITS)
    (Z.shiftr (d_bytes d) BDRV_SECTOR_BITS).

(** The fields that are fixed when the image is opened. *)
Definition geometry (s : BDRVQcowState) : Z * Z * Z * Z :=
  (cluster_bits s, cluster_size s, refcount_block_bits s,
   refcount_block_size s).

(** The geometry of a qcow2 image: clusters of [2 ^ cluster_bits] bytes,
    with [cluster_bits] at least 9, and 16-bit refcounts. *)
Definition wf_geometry (s : BDRVQcowState) : Prop :=
  9 <= cluster_bits s <= 21 /\
  cluster_size s = 2 ^ cluster_bits s /\
  refcount_block_bits s = cluster_bits s - 1 /\
  refcount_block_size s = 2 ^ refcount_block_bits s.

(** Two byte ranges share a byte. *)
Definition range_intersects (first1 len1 first2 len2 : Z) : Prop :=
  exists x, first1 <= x < first1 + len1 /\ first2 <= x < first2 + len2.

(** The clusters that tables of [l1] point to: one cluster at every
    non-zero offset. *)
Definition table_targets (mask cluster_size : Z) (table : list Z)
    : list (Z * Z) :=
  map (fun e => (Z.land e mask, cluster_size))
    (filter (fun e => Z.land e mask <> 0) table).

(** The L1 table of a snapshot as the image file holds it. *)
Definition snapshot_l1_on_disk (s : BDRVQcowState) (sn : QCowSnapshot)
    : list Z :=
  map be64_to_cpu
    (resize (Z.to_nat (to_uint32 (sn_l1_size sn))) 0
       (default [] (file_tables s !! sn_l1_table_offset sn))).

(** Every metadata section the overlap check knows, as (offset, length). *)
Definition metadata_regions (s : BDRVQcowState) : list (Z * Z) :=
  (0, cluster_size s)
  :: (l1_table_offset s, l1_size s * 8)
  :: (refcount_table_offset s, refcount_table_size s * 8)
  :: (snapshots_offset s, snapshots_size s)
  :: map (fun sn => (sn_l1_table_offset sn, sn_l1_size sn * 8)) (snapshots s)
  ++ table_targets L1E_OFFSET_MASK (cluster_size s) (l1_table s)
  ++ table_targets REFT_OFFSET_MASK (cluster_size s) (refcount_table s)
  ++ concat
       (map (fun sn =>
               table_targets L1E_OFFSET_MASK (cluster_size s)
                 (snapshot_l1_on_disk s sn))
          (snapshots s)).

(** The range the overlap check tests: [offset, offset + size) rounded out to
    cluster boundaries. *)
Definition rounded_offset (s : BDRVQcowState) (offset : Z) : Z :=
  start_of_cluster s offset.
Definition rounded_size (s : BDRVQcowState) (offset size : Z) : Z :=
  align_offset (offset_into_cluster s offset + size) (cluster_size s).

(** A range that unsigned 64-bit arithmetic represents without wrapping. *)
Definition representable (r : Z * Z) : Prop :=
  0 <= r.1 /\ 0 <= r.2 /\ r.1 + r.2 <= 2 ^ 64.

(** Everything of the state that no function of the engine writes. *)
Definition static_part (s : BDRVQcowState) :=
  (geometry s, cache_discards s, discard_passthrough s, overlap_check s,
   l1_table s, l1_table_offset s, snapshots s, snapshots_offset s,
   snapshots_size s, cache_scratch s, file_tables s).



(** The refcount block that describes cluster [cluster_index], as
    [alloc_refcount_block] looks it up; 0 when there is none. *)
Definition block_offset_of (s : BDRVQcowState) (cluster_index : Z) : Z :=
  let refcount_table_index :=
    to_uint32 (Z.shiftr cluster_index (refcount_block_bits s)) in
  if refcount_table_index <? refcount_table_size s then
    Z.land (array_get (refcount_table s) refcount_table_index) REFT_OFFSET_MASK
  else 0.

Definition block_present (s : BDRVQcowState) (cluster_index : Z) : Prop :=
  block_offset_of s cluster_index <> 0.

(** The place of the counter of a cluster: its block and the index in it. *)
Definition cell_of (s : BDRVQcowState) (cluster_index : Z) : Z * Z :=
  (block_offset_of s cluster_index,
   Z.land cluster_index (refcount_block_size s - 1)).

(** How many of the [k] clusters from [first] on have their counter at
    [cell]. *)
Definition hits (s : BDRVQcowState) (first : Z) (k : nat) (cell : Z * Z) : Z :=
  Z.of_nat (length (filter (fun c => cell_of s c = cell)
                      (seqZ first (Z.of_nat k)))).

(** The block in hand belongs to the table entry [old_table_index]. *)
Definition held (s : BDRVQcowState) (refcount_block : option Z)
    (old_table_index cluster_index : Z) : Prop :=
  Z.shiftr cluster_index (refcount_block_bits s) = old_table_index ->
  refcount_block = Some (block_offset_of s cluster_index) /\
  is_Some (refcount_block_cache s !! block_offset_of s cluster_index).

(** The refcount block that describes only its own cluster: zeroes, and 1
    (big-endian) at the block's own index. *)
Definition self_describing_block (s : BDRVQcowState) (new_block : Z) : list Z :=
  array_set (zero_block s)
    (Z.land (Z.shiftr new_block (cluster_bits s)) (refcount_block_size s - 1))
    (cpu_to_be16 1).

(** What the first loop of [alloc_clusters_imrt] knows at [cluster] with
    [k] free clusters in a row behind it, having started at [first]. *)
Definition gap_scan (refcount_table : list Z) (cluster_count first : Z)
    (cluster k first_free_cluster : Z) (first_gap : bool) : Prop :=
  first <= cluster - k /\ 0 <= k /\
  (forall j, cluster - k <= j < cluster -> array_get refcount_table j = 0) /\
  (forall c, first <= c < cluster - k ->
     exists j, c <= j < c + cluster_count /\ j < cluster /\
               array_get refcount_table j <> 0) /\
  if first_gap then
    first_free_cluster = first /\
    forall j, first <= j < cluster -> array_get refcount_table j <> 0
  else
    first <= first_free_cluster < cluster /\
    array_get refcount_table first_free_cluster = 0 /\
    forall j, first <= j < first_free_cluster ->
              array_get refcount_table j <> 0.

(** How many of the [m] entries from [k] on are at their highest value, so
    that one more reference wraps them to 0. *)
Definition overflows (refcount_table : list Z) (k : Z) (m : nat) : Z :=
  Z.of_nat (length (filter (fun i => to_uint16 (array_get refcount_table i + 1)
                                     = 0)
                      (seqZ k (Z.of_nat m)))).

(** The refcount of a cluster as the refcount structure holds it: what
    [get_refcount] returns when nothing goes wrong. *)
Definition stored_refcount (s : BDRVQcowState) (cluster_index : Z) : Z :=
  let refcount_table_index :=
    to_uint64 (Z.shiftr cluster_index (refcount_block_bits s)) in
  if refcount_table_size s <=? refcount_table_index then 0
  else
    let refcount_block_offset :=
      array_get (refcount_table s) refcount_table_index in
    if refcount_block_offset =? 0 then 0
    else counter s refcount_block_offset
           (Z.land cluster_index (refcount_block_size s - 1)).

(** Every entry of the refcount table is the offset of a cluster. *)
Definition aligned_table (s : BDRVQcowState) : Prop :=
  Forall (fun e => offset_into_cluster s e = 0) (refcount_table s).

(** What the loop of [alloc_clusters_noref] knows with the cursor at
    [cursor] and [i] free clusters in a row behind it, having started at
    [first]. *)
Definition free_scan (s : BDRVQcowState) (nb_clusters first cursor i : Z)
    : Prop :=
  first <= cursor - i /\ 0 <= i /\
  (forall c, cursor - i <= c < cursor -> stored_refcount s c = 0) /\
  (forall c, first <= c < cursor - i ->
     exists j, c <= j < c + nb_clusters /\ j < cursor /\
               stored_refcount s j <> 0).

(** The metadata regions that belong to one section of the overlap check,
    as (offset, length). *)
Definition section_regions (s : BDRVQcowState) (section : Z) : list (Z * Z) :=
  if section =? QCOW2_OL_MAIN_HEADER then [(0, cluster_size s)]
  else if section =? QCOW2_OL_ACTIVE_L1 then
    [(l1_table_offset s, l1_size s * 8)]
  else if section =? QCOW2_OL_REFCOUNT_TABLE then
    [(refcount_table_offset s, refcount_table_size s * 8)]
  else if section =? QCOW2_OL_SNAPSHOT_TABLE then
    [(snapshots_offset s, snapshots_size s)]
  else if section =? QCOW2_OL_INACTIVE_L1 then
    map (fun sn => (sn_l1_table_offset sn, sn_l1_size sn * 8)) (snapshots s)
  else if section =? QCOW2_OL_ACTIVE_L2 then
    table_targets L1E_OFFSET_MASK (cluster_size s) (l1_table s)
  else if section =? QCOW2_OL_REFCOUNT_BLOCK then
    table_targets REFT_OFFSET_MASK (cluster_size s) (refcount_table s)
  else if section =? QCOW2_OL_INACTIVE_L2 then
    concat
      (map (fun sn =>
              table_targets L1E_OFFSET_MASK (cluster_size s)
                (snapshot_l1_on_disk s sn))
         (snapshots s))
  else [].

(** Every refcount block, cached or in the file, has the size of a
    cluster. *)
Definition full_blocks (s : BDRVQcowState) : Prop :=
  forall offset,
    Z.of_nat (length (block_contents s offset)) = refcount_block_size s.

(** The entries of the refcount table are 64-bit values. *)
Definition table_uint64 (s : BDRVQcowState) : Prop :=
  Forall (fun e => 0 <= e < 2 ^ 64) (refcount_table s).

(** A queued discard region as a set of bytes. *)
Definition in_region (d : Qcow2DiscardRegion) (x : Z) : Prop :=
  d_offset d <= x < d_offset d + d_bytes d.

Definition queued (ds : list Qcow2DiscardRegion) (x : Z) : Prop :=
  Exists (fun d => in_region d x) ds.

(** The number of bytes waiting in the queue. *)
Definition queued_bytes (ds : list Qcow2DiscardRegion) : Z :=
  foldr (fun d n => d_bytes d + n) 0 ds.

(** A region of the image file: it ends below 2^63. *)
Definition region_ok (d : Qcow2DiscardRegion) : Prop :=
  0 <= d_offset d /\ 0 <= d_bytes d /\ d_offset d + d_bytes d < 2 ^ 63.

(** Two regions that share no byte and are not empty. *)
Definition apart (a b : Qcow2DiscardRegion) : Prop :=
  0 < d_bytes a /\ 0 < d_bytes b /\
  (d_offset a + d_bytes a <= d_offset b \/
   d_offset b + d_bytes b <= d_offset a).

(** A queue of non-empty regions no two of which share a byte. *)
Fixpoint disjoint_regions (ds : list Qcow2DiscardRegion) : Prop :=
  match ds with
  | [] => True
  | d :: ds => Forall (apart d) ds /\ disjoint_regions ds
  end.

(** The counters of a check result with [d_corruptions], ... added; the
    count of check errors stays. *)
Definition add_counts (res : BdrvCheckResult)
    (d_corruptions d_corruptions_fixed d_leaks d_leaks_fixed : Z)
    : BdrvCheckResult :=
  mkCheckResult (check_errors res) (corruptions res + d_corruptions)
    (corruptions_fixed res + d_corruptions_fixed) (leaks res + d_leaks)
    (leaks_fixed res + d_leaks_fixed).

(** No counter of [res'] is below the one of [res]. *)
Definition counts_le (res res' : BdrvCheckResult) : Prop :=
  check_errors res <= check_errors res' /\
  corruptions res <= corruptions res' /\
  corruptions_fixed res <= corruptions_fixed res' /\
  leaks res <= leaks res' /\
  leaks_fixed res <= leaks_fixed res'.

(** * Example images *)

(** A backend on which every request succeeds. *)
Definition always_ok : nat -> Z := fun _ => 0.

(** An image with clusters of 512 bytes: the header in cluster 0, the
    refcount table (64 entries) in cluster 1, and one refcount block in
    cluster 2 that counts these three clusters.  [free] is where the search
    for free clusters starts, [check] the overlap checks that are enabled. *)
Definition small_image (free check : Z) : BDRVQcowState :=
  mkState 9 512 8 256 ([1024] ++ replicate 63 0) 512 free [] false
    (fun _ => false) check [] 0 [] 0 0 ∅ (replicate 256 65535)
    {[1024 := [256; 256; 256] ++ replicate 253 0]} ∅ 0 [] false.

(** The same geometry with a refcount table that has no block at all and
    the search starting at cluster 0. *)
Definition unaccounted_image : BDRVQcowState :=
  mkState 9 512 8 256 (replicate 64 0) 512 0 [] false
    (fun _ => false) 0 [] 0 [] 0 0 ∅ (replicate 256 65535) ∅ ∅ 0 [] false.

(** The loop of [update_refcount] taking one reference from clusters 2
    and 3 of [small_image 0 0]; cluster 3 has none. *)
Definition undo_example_loop :
    outcome (Z * Z * option Z * BDRVQcowState) :=
  Eval vm_compute in
    update_refcount_loop always_ok 49 (update_refcount always_ok 49) 2
      (qcow2_cache_set_dependency (small_image 0 0) REFCOUNT_BLOCK_CACHE
         L2_TABLE_CACHE)
      1024 None (-1) (-1) QCOW2_DISCARD_NEVER.

(** A backend on which every request is refused. *)
Definition always_failing : nat -> Z := fun _ => - ENOMEM.

(** [small_image 0 0] with the third cluster waiting in the discard
    queue. *)
Definition queue_image : BDRVQcowState :=
  set_discards [mkDiscard 1024 512] (small_image 0 0).

(** [qcow2_alloc_clusters] of two clusters on [small_image 0 0]. *)
Definition alloc_example : outcome (Z * BDRVQcowState) :=
  Eval vm_compute in
    qcow2_alloc_clusters always_ok 10 (small_image 0 0) 1024.

(** [qcow2_alloc_clusters_at] of two clusters from cluster 3 on. *)
Definition alloc_at_example : outcome (Z * BDRVQcowState) :=
  Eval vm_compute in
    qcow2_alloc_clusters_at always_ok 10 (small_image 0 0) 1536 2.

(** The growth of the refcount table of [small_image 0 0] for cluster
    16384, the first one beyond the reach of its 64 entries, with the new
    refcount block in cluster 3. *)
Definition grow_example
    : outcome (Z * BDRVQcowState + BDRVQcowState * Z * Z) :=
  Eval vm_compute in
    grow_refcount_table always_ok 64 (small_image 0 0) 16384 64 1536.

(** One reference taken on clusters 2 and 3 of [small_image 0 0], and the
    same reference given back. *)
Definition taken_example : outcome (Z * BDRVQcowState) :=
  Eval vm_compute in
    update_refcount always_ok 5 (small_image 0 0) 1024 1024 1
      QCOW2_DISCARD_NEVER.

Definition given_back_example : outcome (Z * BDRVQcowState) :=
  Eval vm_compute in
    match taken_example with
    | Done (_, s1) =>
        update_refcount always_ok 5 s1 1024 1024 (-1) QCOW2_DISCARD_NEVER
    | other => other
    end.








(** The comparison pass over the first cluster of [small_image 0 0], with
    [[1; 2; 1]] as the computed refcounts and in fix-errors mode; cluster 1,
    the next one, is stored with refcount 1. *)
Definition compare_example_before : outcome (compare_vars * BDRVQcowState) :=
  Eval vm_compute in
    compare_refcounts always_ok 5 (small_image 0 0) (mkCheckResult 0 0 0 0 0)
      BDRV_FIX_ERRORS false [1; 2; 1] 1.

(** * Properties *)

(** Reduces the projections of updated states. *)
Ltac simpl_state :=
  cbn [qcow2_signal_corruption qcow2_cache_set_dependency log_event
       set_refcount_table set_refcount_table_offset set_free_cluster_index
       set_discards set_refcount_block_cache set_file_clusters set_io_clock
       set_trace set_corrupt
       cluster_bits cluster_size refcount_block_bits refcount_block_size
       refcount_table refcount_table_offset free_cluster_index discards
       cache_discards discard_passthrough overlap_check l1_table
       l1_table_offset snapshots snapshots_offset snapshots_size
       refcount_block_cache cache_scratch file_clusters file_tables io_clock
       trace corrupt fst snd] in *.

(** Normalises a state built by field updates from a state that has been
    destructed.  The reduction is call-by-value, so that a chain of updates
    stays small. *)
Ltac norm_state :=
  cbv beta iota zeta delta
    [qcow2_signal_corruption qcow2_cache_set_dependency log_event
     set_refcount_table set_refcount_table_offset set_free_cluster_index
     set_discards set_refcount_block_cache set_file_clusters set_io_clock
     set_trace set_corrupt
     cluster_bits cluster_size refcount_block_bits refcount_block_size
     refcount_table refcount_table_offset free_cluster_index discards
     cache_discards discard_passthrough overlap_check l1_table
     l1_table_offset snapshots snapshots_offset snapshots_size
     refcount_block_cache cache_scratch file_clusters file_tables io_clock
     trace corrupt];
  cbn [fst snd].

(** ** What every step of the engine preserves

    A relation between the state before and the state after that is
    reflexive, transitive and holds across each elementary state change
    holds across [update_refcount] and the allocation functions. *)

(** Splits the [match]es of a hypothesis that says what a function
    returned. *)
Ltac split_run H :=
  unfold mbind, outcome_bind, mret, outcome_ret, assert in H;
  repeat (case_match; simplify_eq);
  simplify_eq.

Section Preservation.

Variable backend : nat -> Z.
Variable R : BDRVQcowState -> BDRVQcowState -> Prop.

Hypothesis R_refl : forall s, R s s.
Hypothesis R_trans : forall s1 s2 s3, R s1 s2 -> R s2 s3 -> R s1 s3.
Hypothesis R_io_clock : forall v s, R s (set_io_clock v s).
Hypothesis R_trace : forall v s, R s (set_trace v s).
Hypothesis R_corrupt : forall v s, R s (set_corrupt v s).
Hypothesis R_free_cluster_index : forall v s, R s (set_free_cluster_index v s).
Hypothesis R_discards : forall v s, R s (set_discards v s).
Hypothesis R_refcount_table : forall v s, R s (set_refcount_table v s).
Hypothesis R_refcount_table_offset :
  forall v s, R s (set_refcount_table_offset v s).
Hypothesis R_cache_load : forall s offset,
  refcount_block_cache s !! offset = None ->
  R s (set_refcount_block_cache
         (<[offset := (file_cluster s offset, false)]> (refcount_block_cache s))
         s).
Hypothesis R_cache_empty : forall s offset,
  refcount_block_cache s !! offset = None ->
  R s (set_refcount_block_cache
         (<[offset := (cache_scratch s, false)]> (refcount_block_cache s)) s).
Hypothesis R_mark_dirty : forall s table,
  R s (qcow2_cache_entry_mark_dirty s table).
Hypothesis R_flush : forall s,
  R s (set_refcount_block_cache
         ((fun e => (e.1, false)) <$> refcount_block_cache s)
         (set_file_clusters
            (dirty_blocks (refcount_block_cache s) ∪ file_clusters s) s)).
Hypothesis R_block_store : forall s table index v,
  R s (block_store s table index (cpu_to_be16 v)).
Hypothesis R_block_memset0 : forall s table, R s (block_memset0 s table).
Hypothesis R_write_refcount_blocks :
  forall s s0 meta_offset table_clusters blocks_clusters r s',
    write_refcount_blocks backend s meta_offset
      (new_refcount_blocks s0 table_clusters blocks_clusters) blocks_clusters
    = (r, s') ->
    R s s'.

(** Closes a goal [R s s'] from the steps in the context, last step first. *)
Ltac R_prim :=
  first [ apply R_io_clock | apply R_trace | apply R_corrupt
        | apply R_free_cluster_index | apply R_discards
        | apply R_refcount_table | apply R_refcount_table_offset
        | apply R_mark_dirty | apply R_block_store | apply R_block_memset0
        | (apply R_cache_load; assumption)
        | (apply R_cache_empty; assumption)
        | apply R_flush ].

Ltac R_chain_with call :=
  first [ apply R_refl
        | eassumption
        | R_prim
        | call
        | match goal with
          | |- R _ (if ?b then _ else _) => destruct b
          end; R_chain_with call
        | (eapply R_trans; [| eassumption]); R_chain_with call
        | (eapply R_trans; [| R_prim]); R_chain_with call
        | (eapply R_trans; [| call]); R_chain_with call ].

Ltac R_chain := R_chain_with fail.

Lemma backend_request_pres s r s' :
  backend_request backend s = (r, s') -> R s s'.
Proof. intros [= <- <-]. R_chain. Qed.

Lemma qcow2_signal_corruption_pres s fatal offset size :
  R s (qcow2_signal_corruption s fatal offset size).
Proof.
  unfold qcow2_signal_corruption, log_event. destruct fatal; R_chain.
Qed.

Lemma qcow2_cache_get_pres s offset table r table' s' :
  qcow2_cache_get backend s offset table = (r, table', s') -> R s s'.
Proof.
  unfold qcow2_cache_get, backend_request. intros H. split_run H; R_chain.
Qed.

Lemma qcow2_cache_get_empty_pres s offset table r table' s' :
  qcow2_cache_get_empty backend s offset table = (r, table', s') -> R s s'.
Proof.
  unfold qcow2_cache_get_empty, backend_request. intros H.
  split_run H; R_chain.
Qed.

Lemma qcow2_cache_put_pres s table r table' s' :
  qcow2_cache_put s table = (r, table', s') -> R s s'.
Proof. intros [= <- <- <-]. R_chain. Qed.

Lemma qcow2_cache_flush_pres s c r s' :
  qcow2_cache_flush backend s c = (r, s') -> R s s'.
Proof.
  unfold qcow2_cache_flush, backend_request, log_event. intros H.
  split_run H; R_chain.
Qed.

Lemma qcow2_cache_set_dependency_pres s c d :
  R s (qcow2_cache_set_dependency s c d).
Proof. unfold qcow2_cache_set_dependency, log_event. R_chain. Qed.

Lemma bdrv_pwrite_sync_pres s offset bytes r s' :
  bdrv_pwrite_sync backend s offset bytes = (r, s') -> R s s'.
Proof.
  unfold bdrv_pwrite_sync, backend_request, log_event.
  intros [= <- <-]. R_chain.
Qed.

Lemma bdrv_discard_pres s sector_num nb_sectors :
  R s (bdrv_discard backend s sector_num nb_sectors).2.
Proof. unfold bdrv_discard, backend_request, log_event. cbn. R_chain. Qed.

Ltac R_call1 :=
  first [ eapply qcow2_cache_get_pres; eassumption
        | eapply qcow2_cache_get_empty_pres; eassumption
        | eapply qcow2_cache_put_pres; eassumption
        | eapply qcow2_cache_flush_pres; eassumption
        | eapply bdrv_pwrite_sync_pres; eassumption
        | eapply backend_request_pres; eassumption
        | apply qcow2_signal_corruption_pres
        | apply qcow2_cache_set_dependency_pres
        | apply bdrv_discard_pres ].

Lemma load_refcount_block_pres s offset table r table' s' :
  load_refcount_block backend s offset table = (r, table', s') -> R s s'.
Proof. apply qcow2_cache_get_pres. Qed.

Lemma get_refcount_pres s cluster_index r s' :
  get_refcount backend s cluster_index = (r, s') -> R s s'.
Proof.
  unfold get_refcount. intros H. split_run H; R_chain_with R_call1.
Qed.

Lemma process_discards_loop_pres ds ret s :
  R s (process_discards_loop backend ds ret s).
Proof.
  revert s. induction ds as [|d ds IH]; intros s; cbn [process_discards_loop].
  - R_chain.
  - eapply R_trans; [|apply IH]. destruct (0 <=? ret); R_chain_with R_call1.
Qed.

Lemma qcow2_process_discards_pres s ret :
  R s (qcow2_process_discards backend s ret).
Proof. apply process_discards_loop_pres. Qed.

Lemma update_refcount_discard_pres s offset length s' :
  update_refcount_discard s offset length = Done s' -> R s s'.
Proof.
  unfold update_refcount_discard. intros H. split_run H; R_chain.
Qed.

Ltac R_call2 :=
  first [ R_call1
        | eapply load_refcount_block_pres; eassumption
        | eapply get_refcount_pres; eassumption
        | apply qcow2_process_discards_pres
        | eapply update_refcount_discard_pres; eassumption ].

Lemma alloc_clusters_noref_loop_pres fuel : forall s nb_clusters i r s',
  alloc_clusters_noref_loop backend fuel s nb_clusters i = Done (r, s') ->
  R s s'.
Proof.
  induction fuel as [|fuel IH]; intros s nb_clusters i r s';
    cbn [alloc_clusters_noref_loop]; intros H.
  - split_run H. R_chain.
  - split_run H; try R_chain_with R_call2.
    all: match goal with
         | H : alloc_clusters_noref_loop _ _ _ _ _ = _ |- _ => apply IH in H
         end; R_chain_with R_call2.
Qed.

Lemma alloc_clusters_noref_pres fuel s size r s' :
  alloc_clusters_noref backend fuel s size = Done (r, s') -> R s s'.
Proof.
  unfold alloc_clusters_noref. intros H.
  apply alloc_clusters_noref_loop_pres in H.
  destruct (cache_discards s); R_chain_with R_call2.
Qed.

Section BodiesPreserve.

Variable fuel : nat.
Variable rec :
  BDRVQcowState -> Z -> Z -> Z -> qcow2_discard_type ->
  outcome (Z * BDRVQcowState).
Hypothesis rec_pres : forall s offset length addend type r s',
  rec s offset length addend type = Done (r, s') -> R s s'.

Ltac R_call3 :=
  first [ R_call2
        | eapply alloc_clusters_noref_pres; eassumption
        | eapply rec_pres; eassumption ].

Lemma qcow2_free_clusters_body_pres s offset size type s' :
  qcow2_free_clusters_body rec s offset size type = Done s' -> R s s'.
Proof.
  unfold qcow2_free_clusters_body. intros H.
  split_run H; R_chain_with R_call3.
Qed.

Lemma fail_block_pres s refcount_block ret r table' s' :
  fail_block s refcount_block ret = (r, table', s') -> R s s'.
Proof.
  unfold fail_block. intros H. split_run H; R_chain_with R_call3.
Qed.

Lemma write_new_refcount_block_pres s refcount_block new_block r table' nb s' :
  write_new_refcount_block backend s refcount_block new_block
  = (r, table', nb, s') ->
  R s s'.
Proof.
  unfold write_new_refcount_block. intros H.
  split_run H;
    R_chain_with ltac:(first [R_call3 | eapply fail_block_pres; eassumption]).
Qed.

Ltac R_call4 :=
  first [ R_call3
        | eapply fail_block_pres; eassumption
        | eapply write_new_refcount_block_pres; eassumption
        | eapply qcow2_free_clusters_body_pres; eassumption ].

Lemma alloc_refcount_block_new_pres s cluster_index r table' nb s' :
  alloc_refcount_block_new backend fuel rec s cluster_index
  = Done (r, table', nb, s') ->
  R s s'.
Proof.
  unfold alloc_refcount_block_new. intros H.
  split_run H; R_chain_with R_call4.
Qed.

Lemma hookup_refcount_block_pres s index new_block table r table' s' :
  hookup_refcount_block backend s index new_block table = (r, table', s') ->
  R s s'.
Proof.
  unfold hookup_refcount_block. intros H. split_run H; R_chain_with R_call4.
Qed.

Lemma grow_refcount_table_pres s cluster_index index new_block g :
  grow_refcount_table backend fuel s cluster_index index new_block = Done g ->
  match g with
  | inl (_, s') => R s s'
  | inr (s', _, _) => R s s'
  end.
Proof.
  unfold grow_refcount_table. intros H.
  split_run H;
    R_chain_with
      ltac:(first [R_call4 | eapply R_write_refcount_blocks; eassumption]).
Qed.

Lemma alloc_refcount_block_body_pres s cluster_index table r table' s' :
  alloc_refcount_block_body backend fuel rec s cluster_index table
  = Done (r, table', s') ->
  R s s'.
Proof.
  unfold alloc_refcount_block_body. intros H.
  split_run H;
    repeat match goal with
           | H : grow_refcount_table _ _ _ _ _ _ = Done _ |- _ =>
               apply grow_refcount_table_pres in H
           end;
    R_chain_with
      ltac:(first [ R_call4
                  | eapply alloc_refcount_block_new_pres; eassumption
                  | eapply hookup_refcount_block_pres; eassumption ]).
Qed.

Lemma update_cluster_counter_pres s table cluster_offset cluster_index addend
    type r s' :
  update_cluster_counter s table cluster_offset cluster_index addend type
  = Done (r, s') ->
  R s s'.
Proof.
  unfold update_cluster_counter. intros H. split_run H; R_chain_with R_call4.
Qed.

Lemma switch_refcount_block_pres s table old cluster_index r table' s' :
  switch_refcount_block backend fuel rec s table old cluster_index
  = Done (r, table', s') ->
  R s s'.
Proof.
  unfold switch_refcount_block. intros H.
  split_run H;
    R_chain_with
      ltac:(first [ R_call4
                  | eapply alloc_refcount_block_body_pres; eassumption ]).
Qed.

Ltac R_call5 :=
  first [ R_call4
        | eapply switch_refcount_block_pres; eassumption
        | eapply update_cluster_counter_pres; eassumption ].

Lemma update_refcount_loop_pres n : forall s cluster_offset table old addend
    type r co table' s',
  update_refcount_loop backend fuel rec n s cluster_offset table old addend
    type = Done (r, co, table', s') ->
  R s s'.
Proof.
  induction n as [|n IH]; intros s cluster_offset table old addend type r co
    table' s'; cbn [update_refcount_loop]; intros H.
  - split_run H. R_chain.
  - split_run H; try R_chain_with R_call5.
    all: match goal with
         | H : update_refcount_loop _ _ _ _ _ _ _ _ _ _ = _ |- _ =>
             apply IH in H
         end; R_chain_with R_call5.
Qed.

Lemma update_refcount_main_pres s offset length addend type r co early s' :
  update_refcount_main backend fuel rec s offset length addend type
  = Done (r, co, early, s') ->
  R s s'.
Proof.
  unfold update_refcount_main. intros H.
  split_run H;
    match goal with
    | H : update_refcount_loop _ _ _ _ _ _ _ _ _ _ = _ |- _ =>
        apply update_refcount_loop_pres in H
    end; R_chain_with R_call5.
Qed.

Lemma update_refcount_body_pres s offset length addend type r s' :
  update_refcount_body backend fuel rec s offset length addend type
  = Done (r, s') ->
  R s s'.
Proof.
  unfold update_refcount_body. intros H.
  split_run H;
    R_chain_with
      ltac:(first [R_call5 | eapply update_refcount_main_pres; eassumption]).
Qed.

End BodiesPreserve.

Theorem update_refcount_pres fuel : forall s offset length addend type r s',
  update_refcount backend fuel s offset length addend type = Done (r, s') ->
  R s s'.
Proof.
  induction fuel as [|fuel IH]; intros s offset length addend type r s';
    cbn [update_refcount]; [done|].
  apply update_refcount_body_pres. exact IH.
Qed.

Lemma alloc_refcount_block_pres fuel s cluster_index table r table' s' :
  alloc_refcount_block backend fuel s cluster_index table
  = Done (r, table', s') ->
  R s s'.
Proof.
  apply alloc_refcount_block_body_pres. apply update_refcount_pres.
Qed.

End Preservation.

(** ** The discard queue: the loop *)

Lemma process_discards_loop_spec (backend : nat -> Z) ds ret s :
  process_discards_loop backend ds ret s =
  match ds with
  | [] => s
  | _ =>
      set_discards []
        (set_io_clock
           (io_clock s + (if (0 <=? ret)%Z then length ds else 0))%nat
           (set_trace
              (trace s ++ (if 0 <=? ret then map discard_request ds else []))
              s))
  end.
Proof.
  revert s. induction ds as [|d ds IH]; intros s; [done|].
  cbn [process_discards_loop]. rewrite IH.
  unfold bdrv_discard, backend_request, discard_request.
  destruct ds as [|d' ds]; destruct (0 <=? ret); destruct s; norm_state;
    cbn [length map]; rewrite ?app_nil_r, <- ?app_assoc; cbn [app];
    f_equal; lia.
Qed.

Section Properties.

Variable backend : nat -> Z.

(** ** Basic facts *)

Lemma set_discards_same s : set_discards (discards s) s = s.
Proof. by destruct s. Qed.

Lemma bswap16_range x : 0 <= bswap16 x <= 0xffff.
Proof.
  unfold bswap16.
  assert (Ha : 0 <= Z.land x 255 < 2 ^ 8).
  { change 255 with (Z.ones 8). rewrite Z.land_ones by lia.
    apply Z.mod_pos_bound. lia. }
  assert (Hb : 0 <= Z.land (Z.shiftr x 8) 255 < 2 ^ 8).
  { change 255 with (Z.ones 8). rewrite Z.land_ones by lia.
    apply Z.mod_pos_bound. lia. }
  set (a := Z.land x 255) in *. set (b := Z.land (Z.shiftr x 8) 255) in *.
  assert (Hs : 0 <= Z.shiftl a 8 < 2 ^ 16).
  { rewrite Z.shiftl_mul_pow2 by lia. lia. }
  assert (H : 0 <= Z.lor (Z.shiftl a 8) b < 2 ^ 16).
  { split; [apply Z.lor_nonneg; lia|].
    destruct (Z.eq_dec (Z.lor (Z.shiftl a 8) b) 0) as [->|Hne]; [lia|].
    apply Z.log2_lt_pow2; [pose proof (Z.lor_nonneg (Z.shiftl a 8) b); lia|].
    rewrite Z.log2_lor by lia.
    apply Z.max_lub_lt.
    - destruct (Z.eq_dec (Z.shiftl a 8) 0) as [->|?]; [simpl; lia|].
      apply Z.log2_lt_pow2; lia.
    - destruct (Z.eq_dec b 0) as [->|?]; [simpl; lia|].
      apply Z.log2_lt_pow2; lia. }
  lia.
Qed.

Lemma lor_shiftl_8 a b :
  0 <= a -> 0 <= b < 256 -> Z.lor (Z.shiftl a 8) b = a * 256 + b.
Proof.
  intros Ha Hb. rewrite Z.shiftl_mul_pow2 by lia. change (2 ^ 8) with 256.
  symmetry. apply Z.add_nocarry_lor.
  apply Z.bits_inj'. intros n Hn. rewrite Z.land_spec, Z.bits_0.
  destruct (Z.lt_ge_cases n 8).
  - replace (a * 256) with (Z.shiftl a 8)
      by (rewrite Z.shiftl_mul_pow2 by lia; done).
    rewrite Z.shiftl_spec_low by done. done.
  - destruct (Z.eq_dec b 0) as [->|?]; [by rewrite Z.bits_0, andb_false_r|].
    rewrite (Z.bits_above_log2 b n), andb_false_r; [done|lia|].
    assert (Z.log2 b < 8); [|lia]. apply Z.log2_lt_pow2; lia.
Qed.

Lemma bswap16_arith x :
  0 <= x <= 0xffff -> bswap16 x = (x mod 256) * 256 + x / 256.
Proof.
  intros Hx. unfold bswap16.
  change 255 with (Z.ones 8). rewrite !Z.land_ones by lia.
  rewrite Z.shiftr_div_pow2 by lia. change (2 ^ 8) with 256.
  assert (0 <= x / 256 < 256).
  { split; [apply Z.div_pos; lia|apply Z.div_lt_upper_bound; lia]. }
  rewrite (Z.mod_small (x / 256)) by done.
  apply lor_shiftl_8; [|done]. apply Z.mod_pos_bound. lia.
Qed.

Lemma bswap16_involutive x : 0 <= x <= 0xffff -> bswap16 (bswap16 x) = x.
Proof.
  intros Hx. rewrite (bswap16_arith (bswap16 x)) by apply bswap16_range.
  rewrite (bswap16_arith x) by done.
  pose proof (Z.div_mod x 256 ltac:(lia)).
  pose proof (Z.mod_pos_bound x 256 ltac:(lia)).
  assert (0 <= x / 256 < 256).
  { split; [apply Z.div_pos; lia|apply Z.div_lt_upper_bound; lia]. }
  set (h := x / 256) in *. set (l := x mod 256) in *.
  replace ((l * 256 + h) mod 256) with h.
  2:{ rewrite Z.add_comm, Z.mod_add by lia. by rewrite Z.mod_small. }
  replace ((l * 256 + h) / 256) with l.
  2:{ rewrite Z.add_comm, Z.div_add by lia. rewrite (Z.div_small h) by lia.
      lia. }
  lia.
Qed.

(** ** Invariants of [update_refcount] *)

(** *** The fixed part of the state *)

Lemma update_refcount_static fuel s offset length addend type r s' :
  update_refcount backend fuel s offset length addend type = Done (r, s') ->
  static_part s' = static_part s.
Proof.
  apply (update_refcount_pres backend
           (fun s s' => static_part s' = static_part s));
    try done.
  - intros s1 s2 s3 H1 H2. by rewrite H2.
  - intros s0 [?|]; done.
  - intros s0 [?|]; done.
  - intros s0 [?|]; done.
  - intros s0 s1 meta tc bc r0 s0'. unfold write_refcount_blocks,
      bdrv_pwrite_sync, backend_request. intros H. split_run H; done.
Qed.

(** *** The range of the counters *)







(** ** The discard queue *)

(** C9.  [qcow2_process_discards] empties the queue whatever [ret] is; the
    regions are sent to the backend, in queue order, exactly when
    [ret >= 0]; and nothing of what the backend answers is kept: the result
    is the same under any other backend. *)
Theorem qcow2_process_discards_drains (backend' : nat -> Z)
    (s : BDRVQcowState) (ret : Z) :
  let s' := qcow2_process_discards backend s ret in
  discards s' = [] /\
  trace s' =
    trace s ++ (if 0 <=? ret then map discard_request (discards s) else []) /\
  allocator_state s' =
    (refcount_table s, refcount_table_offset s, free_cluster_index s, [],
     file_clusters s) /\
  refcount_block_cache s' = refcount_block_cache s /\
  qcow2_process_discards backend' s ret = s'.
Proof.
  unfold qcow2_process_discards. rewrite !process_discards_loop_spec.
  destruct (discards s) as [|d ds] eqn:Hd; cbn zeta.
  - rewrite Hd. destruct (0 <=? ret); rewrite app_nil_r;
      unfold allocator_state; rewrite Hd; done.
  - unfold allocator_state. simpl_state. done.
Qed.

(** ** The metadata cache *)

Lemma qcow2_cache_get_fail s offset table :
  backend (io_clock s) < 0 ->
  qcow2_cache_get backend s offset table =
  (backend (io_clock s), table, set_io_clock (S (io_clock s)) s).
Proof.
  intros H. unfold qcow2_cache_get, backend_request.
  destruct (Z.ltb_spec (backend (io_clock s)) 0); [done|lia].
Qed.

Lemma qcow2_cache_get_ok s offset table :
  0 <= backend (io_clock s) ->
  qcow2_cache_get backend s offset table =
  (0, Some offset,
   set_refcount_block_cache
     (<[offset := default (file_cluster s offset, false)
                    (refcount_block_cache s !! offset)]>
        (refcount_block_cache s))
     (set_io_clock (S (io_clock s)) s)).
Proof.
  intros H. unfold qcow2_cache_get, backend_request.
  destruct (Z.ltb_spec (backend (io_clock s)) 0); [lia|].
  simpl_state.
  destruct (refcount_block_cache s !! offset) as [e|] eqn:Hc; cbn [default].
  - rewrite insert_id by done. by destruct s.
  - done.
Qed.

Lemma block_contents_cache_get s offset n block_offset :
  block_contents
    (set_refcount_block_cache
       (<[offset := default (file_cluster s offset, false)
                      (refcount_block_cache s !! offset)]>
          (refcount_block_cache s))
       (set_io_clock n s)) block_offset
  = block_contents s block_offset.
Proof.
  unfold block_contents, file_cluster, zero_block. simpl_state.
  destruct (decide (offset = block_offset)) as [->|Hne].
  - rewrite lookup_insert_eq.
    by destruct (refcount_block_cache s !! block_offset).
  - by rewrite lookup_insert_ne.
Qed.

(** ** Reading a refcount *)

(** C3.  [get_refcount] by cases: no refcount block for the cluster gives 0
    and leaves the state as it is (no request to the cache); an unaligned
    refcount-block offset gives -EIO and signals a fatal corruption; a
    failed cache read gives its error; otherwise the result is the 16-bit
    counter of the cluster in its refcount block.  In every case the
    refcount table, the counters and the allocator state stay as they were. *)
Theorem get_refcount_cases (s : BDRVQcowState) (cluster_index : Z) :
  let refcount_table_index :=
    to_uint64 (Z.shiftr cluster_index (refcount_block_bits s)) in
  let refcount_block_offset :=
    array_get (refcount_table s) refcount_table_index in
  let block_index := Z.land cluster_index (refcount_block_size s - 1) in
  let r := (get_refcount backend s cluster_index).1 in
  let s' := (get_refcount backend s cluster_index).2 in
  (refcount_table_size s <= refcount_table_index \/ refcount_block_offset = 0 ->
   r = 0 /\ s' = s) /\
  (refcount_table_index < refcount_table_size s ->
   refcount_block_offset <> 0 ->
   offset_into_cluster s refcount_block_offset <> 0 ->
   r = - EIO /\ s' = qcow2_signal_corruption s true (-1) (-1) /\
   trace s' = trace s ++ [EvCorruption true (-1) (-1)] /\ corrupt s' = true) /\
  (refcount_table_index < refcount_table_size s ->
   refcount_block_offset <> 0 ->
   offset_into_cluster s refcount_block_offset = 0 ->
   (backend (io_clock s) < 0 -> r = backend (io_clock s)) /\
   (0 <= backend (io_clock s) ->
    r = counter s refcount_block_offset block_index /\ 0 <= r <= 0xffff)) /\
  (allocator_state s' = allocator_state s /\
   forall block_offset index,
     counter s' block_offset index = counter s block_offset index).
Proof.
  cbn zeta. unfold get_refcount.
  set (idx := to_uint64 _). set (entry := array_get _ idx).
  destruct (Z.leb_spec (refcount_table_size s) idx) as [Hsz|Hsz].
  { cbn [fst snd]. repeat split; intros; try lia; done. }
  destruct (Z.eqb_spec entry 0) as [He|He].
  { cbn [fst snd]. repeat split; intros; try lia; done. }
  destruct (Z.eqb_spec (offset_into_cluster s entry) 0) as [Ha|Ha]; cbn [negb].
  - destruct (Z.lt_ge_cases (backend (io_clock s)) 0) as [Hio|Hio].
    + rewrite qcow2_cache_get_fail by done.
      destruct (Z.ltb_spec (backend (io_clock s)) 0); [|lia].
      cbn [fst snd]. repeat split; intros; try lia; try done.
    + rewrite qcow2_cache_get_ok by done. unfold qcow2_cache_put.
      cbn [Z.ltb Z.compare fst snd].
      unfold allocator_state, counter. simpl_state.
      repeat split; intros; try lia.
      * unfold block_load, block_contents, file_cluster, zero_block.
        simpl_state. rewrite lookup_insert_eq.
        by destruct (refcount_block_cache s !! entry).
      * apply bswap16_range.
      * apply bswap16_range.
      * by rewrite block_contents_cache_get.
  - cbn [fst snd]. unfold allocator_state, counter.
    repeat split; intros; try lia; try done.
Qed.

(** ** The overlap guard: empty ranges *)

(** C10.  With [size = 0] the overlap check answers 0 at once, whatever the
    offset and the ignore mask: no section is tested, no request is made
    and the state is untouched; the pre-write check then succeeds and
    signals nothing. *)
Theorem qcow2_check_metadata_overlap_empty (s : BDRVQcowState)
    (ign offset : Z) :
  qcow2_check_metadata_overlap backend s ign offset 0 = (0, s) /\
  qcow2_pre_write_overlap_check backend s ign offset 0 = Done (0, s).
Proof.
  assert (H : qcow2_check_metadata_overlap backend s ign offset 0 = (0, s))
    by done.
  split; [done|]. unfold qcow2_pre_write_overlap_check. by rewrite H.
Qed.

(** ** The consistency check: the clusters of [compare_refcounts] *)

Lemma compare_refcounts_loop_step fuel n s v fix_mode refcount_table i :
  compare_refcounts_loop backend fuel (S n) s v fix_mode refcount_table i =
  '(v1, s1) ← compare_refcounts_cluster backend fuel s v fix_mode
                refcount_table i;
  compare_refcounts_loop backend fuel n s1 v1 fix_mode refcount_table (i + 1).
Proof. done. Qed.

Lemma compare_refcounts_loop_app fuel fix_mode refcount_table n m :
  forall s v i,
  compare_refcounts_loop backend fuel (n + m) s v fix_mode refcount_table i =
  '(v1, s1) ← compare_refcounts_loop backend fuel n s v fix_mode
                refcount_table i;
  compare_refcounts_loop backend fuel m s1 v1 fix_mode refcount_table
    (i + Z.of_nat n).
Proof.
  induction n as [|n IH]; intros s v i.
  - cbn [Nat.add compare_refcounts_loop mbind outcome_bind].
    by rewrite Z.add_0_r.
  - cbn [Nat.add compare_refcounts_loop]. unfold mbind, outcome_bind.
    destruct (compare_refcounts_cluster _ _ _ _ _ _ _) as [[v1 s1]| |];
      [|done..].
    rewrite IH. unfold mbind, outcome_bind.
    by replace (i + 1 + Z.of_nat n) with (i + Z.of_nat (S n)) by lia.
Qed.

Lemma counts_le_refl res : counts_le res res.
Proof. unfold counts_le. lia. Qed.

Lemma counts_le_trans res1 res2 res3 :
  counts_le res1 res2 -> counts_le res2 res3 -> counts_le res1 res3.
Proof. unfold counts_le. lia. Qed.

Lemma compare_refcounts_cluster_counts fuel s v fix_mode refcount_table i
    v' s' :
  compare_refcounts_cluster backend fuel s v fix_mode refcount_table i
  = Done (v', s') ->
  counts_le (cv_res v) (cv_res v').
Proof.
  unfold compare_refcounts_cluster, count_mismatch, counts_le.
  intros H. split_run H; destruct (cv_res v); cbn; try lia.
  all: match goal with
       | p : num_fixed_ptr |- _ => destruct p; cbn; lia
       end.
Qed.

Lemma compare_refcounts_loop_counts fuel fix_mode refcount_table n :
  forall s v i v' s',
  compare_refcounts_loop backend fuel n s v fix_mode refcount_table i
  = Done (v', s') ->
  counts_le (cv_res v) (cv_res v').
Proof.
  induction n as [|n IH]; intros s v i v' s'; cbn [compare_refcounts_loop].
  - intros [= <- <-]. apply counts_le_refl.
  - unfold mbind, outcome_bind.
    destruct (compare_refcounts_cluster _ _ _ _ _ _ _) as [[v1 s1]| |] eqn:Hc;
      [|done..].
    intros Hrest. eapply counts_le_trans.
    + by eapply compare_refcounts_cluster_counts.
    + by eapply IH.
Qed.

(** The passes over the first [i] and the first [i + 1] clusters, when the
    pass over [nb_clusters] clusters returns. *)
Lemma compare_refcounts_prefix fuel s res fix_mode rebuild refcount_table
    nb_clusters i v' s' :
  0 <= i < nb_clusters ->
  compare_refcounts backend fuel s res fix_mode rebuild refcount_table
    nb_clusters = Done (v', s') ->
  exists v0 s0 v1 s1,
    compare_refcounts backend fuel s res fix_mode rebuild refcount_table i
    = Done (v0, s0) /\
    compare_refcounts_cluster backend fuel s0 v0 fix_mode refcount_table i
    = Done (v1, s1) /\
    compare_refcounts backend fuel s res fix_mode rebuild refcount_table
      (i + 1) = Done (v1, s1) /\
    counts_le (cv_res v1) (cv_res v').
Proof.
  intros Hi. unfold compare_refcounts.
  replace (Z.to_nat nb_clusters)
    with (Z.to_nat i + S (Z.to_nat (nb_clusters - i - 1)))%nat by lia.
  replace (Z.to_nat (i + 1)) with (Z.to_nat i + 1)%nat by lia.
  rewrite !compare_refcounts_loop_app. unfold mbind, outcome_bind.
  destruct (compare_refcounts_loop backend fuel (Z.to_nat i) _ _ _ _ _)
    as [[v0 s0]| |]; [|done..].
  rewrite Z.add_0_l, Z2Nat.id by lia.
  cbn [compare_refcounts_loop]. unfold mbind, outcome_bind.
  destruct (compare_refcounts_cluster _ _ _ _ _ _ _) as [[v1 s1]| |] eqn:Hc;
    [|done..].
  intros Hrest. exists v0, s0, v1, s1. split; [done|]. split; [done|].
  split; [done|]. by eapply compare_refcounts_loop_counts.
Qed.

(** C7.  [compare_refcounts] visits every cluster below [nb_clusters], in
    the state the pass over the clusters before it left.  For a cluster
    whose stored refcount [refcount1] (read by [get_refcount]) differs from
    the computed one [refcount2]:

    - computed higher: when fix-errors mode is set and the stored refcount
      is not 0, [update_refcount] is called with addend
      [refcount2 - refcount1]; when it succeeds, [corruptions_fixed] grows
      by one and [corruptions] stays.  Otherwise (no fix-errors mode, stored
      refcount 0, or the update failed) [corruptions] grows by one; without
      the mode nothing is written;
    - stored higher: the same with fix-leaks mode, [leaks_fixed] and
      [leaks].

    No other counter changes at this cluster, and no counter of the final
    result is below what the cluster left. *)
Theorem compare_refcounts_cluster_mismatch (fuel : nat) (s : BDRVQcowState)
    (res : BdrvCheckResult) (fix_mode : Z) (rebuild : bool)
    (refcount_table : list Z) (nb_clusters i : Z) (v' : compare_vars)
    (s' : BDRVQcowState) :
  let refcount2 := array_get refcount_table i in
  0 <= i < nb_clusters ->
  compare_refcounts backend fuel s res fix_mode rebuild refcount_table
    nb_clusters = Done (v', s') ->
  exists v0 s0 v1 s1,
    compare_refcounts backend fuel s res fix_mode rebuild refcount_table i
    = Done (v0, s0) /\
    compare_refcounts backend fuel s res fix_mode rebuild refcount_table
      (i + 1) = Done (v1, s1) /\
    counts_le (cv_res v1) (cv_res v') /\
    forall refcount1 sr,
      get_refcount backend s0 i = (refcount1, sr) ->
      0 <= refcount1 -> refcount1 <> refcount2 ->
      let repair :=
        update_refcount backend fuel sr (Z.shiftl i (cluster_bits sr)) 1
          (refcount2 - refcount1) QCOW2_DISCARD_ALWAYS in
      (refcount1 < refcount2 ->
       (Z.land fix_mode BDRV_FIX_ERRORS <> 0 -> refcount1 <> 0 ->
        exists ret,
          repair = Done (ret, s1) /\
          (0 <= ret -> cv_res v1 = add_counts (cv_res v0) 0 1 0 0) /\
          (ret < 0 -> cv_res v1 = add_counts (cv_res v0) 1 0 0 0)) /\
       (Z.land fix_mode BDRV_FIX_ERRORS = 0 \/ refcount1 = 0 ->
        s1 = sr /\ cv_res v1 = add_counts (cv_res v0) 1 0 0 0)) /\
      (refcount2 < refcount1 ->
       (Z.land fix_mode BDRV_FIX_LEAKS <> 0 -> refcount1 <> 0 ->
        exists ret,
          repair = Done (ret, s1) /\
          (0 <= ret -> cv_res v1 = add_counts (cv_res v0) 0 0 0 1) /\
          (ret < 0 -> cv_res v1 = add_counts (cv_res v0) 0 0 1 0)) /\
       (Z.land fix_mode BDRV_FIX_LEAKS = 0 \/ refcount1 = 0 ->
        s1 = sr /\ cv_res v1 = add_counts (cv_res v0) 0 0 1 0)).
Proof.
  intros refcount2 Hi Hrun.
  destruct (compare_refcounts_prefix _ _ _ _ _ _ _ _ _ _ Hi Hrun)
    as (v0 & s0 & v1 & s1 & Hbefore & Hstep & Hafter & Hle).
  exists v0, s0, v1, s1. split; [done|]. split; [done|]. split; [done|].
  intros refcount1 sr Hget Hpos Hne. cbn zeta.
  revert Hstep. unfold compare_refcounts_cluster. rewrite Hget.
  destruct (Z.ltb_spec refcount1 0) as [?|_]; [lia|].
  fold refcount2.
  destruct (Z.eqb_spec refcount1 refcount2) as [?|_]; [lia|]. cbn [negb].
  unfold choose_num_fixed, count_mismatch, add_counts, incr_corruptions,
    incr_leaks.
  assert (Hz : forall x, x + 0 = x) by (intros; lia).
  destruct (Z.eqb_spec refcount1 0) as [Hzero|Hzero].
  { destruct (Z.ltb_spec refcount1 refcount2);
      intros [= <- <-]; cbn [cv_res]; rewrite !Hz;
      split; intros Hcmp; try lia;
      (split; [intros; lia|done]). }
  destruct (Z.gtb_spec refcount1 refcount2) as [Hgt|Hgt];
    destruct (Z.ltb_spec refcount1 refcount2) as [Hlt|Hlt];
    try lia;
    destruct (Z.eqb_spec (Z.land fix_mode BDRV_FIX_LEAKS) 0) as [Hl|Hl];
    destruct (Z.eqb_spec (Z.land fix_mode BDRV_FIX_ERRORS) 0) as [He|He];
    cbn [negb andb].
  all: try (intros [= <- <-]; cbn [cv_res]; rewrite !Hz;
            split; intros Hcmp; try lia;
            split; [intros; lia|done]).
  all: unfold mbind, outcome_bind;
    destruct (update_refcount _ _ _ _ _ _ _) as [[ret s2]| |] eqn:Hup;
    try discriminate.
  all: destruct (Z.leb_spec 0 ret); intros [= <- <-];
    cbn [cv_res incr_num_fixed]; rewrite ?Hz.
  all: split; intros Hcmp; try lia.
  all: split; [intros _ _|intros [?|?]; lia].
  all: exists ret; split; [done|]; split; intros; (lia || done).
Qed.

(** ** The overlap guard *)

Lemma ranges_overlap_spec first1 len1 first2 len2 :
  0 <= first1 -> 0 < len1 -> first1 + len1 <= 2 ^ 64 ->
  0 <= first2 -> 0 < len2 -> first2 + len2 <= 2 ^ 64 ->
  ranges_overlap first1 len1 first2 len2 = true <->
  range_intersects first1 len1 first2 len2.
Proof.
  intros. unfold ranges_overlap, range_intersects, to_uint64.
  rewrite !Z.mod_small by lia.
  rewrite negb_true_iff, orb_false_iff, !Z.ltb_ge.
  split.
  - intros [? ?]. exists (Z.max first1 first2). lia.
  - intros (x & ? & ?). lia.
Qed.

Lemma cluster_size_pos s : wf_geometry s -> 0 < cluster_size s.
Proof. intros (? & -> & _). apply Z.pow_pos_nonneg; lia. Qed.

Lemma offset_into_cluster_mod s offset :
  wf_geometry s ->
  offset_into_cluster s offset = offset mod cluster_size s.
Proof.
  intros (? & Hcs & _). unfold offset_into_cluster. rewrite Hcs.
  replace (2 ^ cluster_bits s - 1) with (Z.ones (cluster_bits s))
    by (rewrite Z.ones_equiv; lia).
  apply Z.land_ones. lia.
Qed.

Lemma land_lnot_pow2 x k :
  0 <= k -> Z.land x (Z.lnot (2 ^ k - 1)) = 2 ^ k * (x / 2 ^ k).
Proof.
  intros Hk.
  replace (2 ^ k - 1) with (Z.ones k) by (rewrite Z.ones_equiv; lia).
  rewrite <- Z.ldiff_land, Z.ldiff_ones_r by done.
  rewrite Z.shiftl_mul_pow2, Z.shiftr_div_pow2 by done. lia.
Qed.

Lemma start_of_cluster_div s offset :
  wf_geometry s ->
  start_of_cluster s offset = cluster_size s * (offset / cluster_size s).
Proof.
  intros (? & Hcs & _). unfold start_of_cluster. rewrite Hcs.
  apply land_lnot_pow2. lia.
Qed.

Lemma align_offset_div s x :
  wf_geometry s ->
  align_offset x (cluster_size s) =
  cluster_size s * ((x + cluster_size s - 1) / cluster_size s).
Proof.
  intros (? & Hcs & _). unfold align_offset. rewrite Hcs.
  apply land_lnot_pow2. lia.
Qed.

(** The rounded range is the smallest range of whole clusters that holds
    the bytes of the write. *)
Lemma rounded_range_spec s offset size :
  wf_geometry s -> 0 <= offset -> 0 < size ->
  let cs := cluster_size s in
  rounded_offset s offset = cs * (offset / cs) /\
  rounded_offset s offset + rounded_size s offset size
    = cs * ((offset + size + cs - 1) / cs) /\
  rounded_offset s offset <= offset /\
  offset + size <= rounded_offset s offset + rounded_size s offset size
    < offset + size + cs /\
  0 < rounded_size s offset size.
Proof.
  intros Hwf Ho Hs cs. unfold rounded_offset, rounded_size.
  rewrite start_of_cluster_div, align_offset_div, offset_into_cluster_mod
    by done.
  pose proof (cluster_size_pos s Hwf) as Hcs. fold cs in Hcs |- *.
  pose proof (Z.div_mod offset cs ltac:(lia)) as Hdm.
  pose proof (Z.mod_pos_bound offset cs Hcs) as Hm.
  assert (Hq : (offset + size + cs - 1) / cs
               = offset / cs + (offset mod cs + size + cs - 1) / cs).
  { rewrite <- Z.div_add_l by lia. f_equal. lia. }
  pose proof (Z.div_mod (offset mod cs + size + cs - 1) cs ltac:(lia)) as Hdm2.
  pose proof (Z.mod_pos_bound (offset mod cs + size + cs - 1) cs Hcs) as Hm2.
  rewrite Hq. nia.
Qed.

Lemma no_overlap first1 len1 r :
  0 <= first1 -> 0 < len1 -> first1 + len1 <= 2 ^ 64 ->
  representable r -> ~ range_intersects first1 len1 r.1 r.2 ->
  r.2 <> 0 ->
  ranges_overlap first1 len1 r.1 r.2 = false.
Proof.
  intros ? ? ? (? & ? & ?) Hn ?.
  destruct (ranges_overlap first1 len1 r.1 r.2) eqn:E; [|done].
  apply ranges_overlap_spec in E; [done|lia..].
Qed.

Lemma existsb_table_targets mask cs first1 len1 table :
  0 <= first1 -> 0 < len1 -> first1 + len1 <= 2 ^ 64 -> 0 < cs ->
  Forall (fun r => representable r /\ ~ range_intersects first1 len1 r.1 r.2)
    (table_targets mask cs table) ->
  existsb
    (fun e => negb (Z.land e mask =? 0)
              && ranges_overlap first1 len1 (Z.land e mask) cs) table
  = false.
Proof.
  intros ? ? ? ? Hall. unfold table_targets in Hall.
  induction table as [|e table IH]; [done|].
  cbn [existsb]. rewrite filter_cons in Hall.
  destruct (decide (Z.land e mask <> 0)) as [Hne|He].
  - cbn [map] in Hall. apply Forall_cons in Hall as [[Hr Hn] Hall].
    pose proof (no_overlap first1 len1 (Z.land e mask, cs)) as Hno.
    cbn [fst snd] in Hno. rewrite Hno by (done || lia).
    rewrite andb_false_r. cbn [orb]. by apply IH.
  - assert (Z.land e mask = 0) as -> by lia. cbn. by apply IH.
Qed.

Lemma inactive_l2_overlap_result s offset size sns r s1 :
  inactive_l2_overlap backend s offset size sns = (r, s1) ->
  r < 0 \/ r = 0 \/ r = QCOW2_OL_INACTIVE_L2.
Proof.
  revert s. induction sns as [|sn sns IH]; intros s; cbn [inactive_l2_overlap].
  - intros [= <- <-]. auto.
  - destruct (bdrv_pread_table _ _ _ _) as [[ret l1] s2].
    destruct (Z.ltb_spec ret 0); [intros [= <- <-]; auto|].
    destruct (existsb _ l1); [intros [= <- <-]; auto|]. apply IH.
Qed.

Lemma existsb_map_compose {A B} (f : B -> bool) (g : A -> B) l :
  existsb f (map g l) = existsb (fun x => f (g x)) l.
Proof. induction l as [|x l IH]; [done|]. cbn. by rewrite IH. Qed.

Lemma inactive_l2_overlap_none sns : forall s first1 len1,
  0 <= first1 -> 0 < len1 -> first1 + len1 <= 2 ^ 64 -> 0 < cluster_size s ->
  (forall k, (k < length sns)%nat -> 0 <= backend (io_clock s + k)%nat) ->
  Forall (fun r => representable r /\ ~ range_intersects first1 len1 r.1 r.2)
    (concat
       (map (fun sn =>
               table_targets L1E_OFFSET_MASK (cluster_size s)
                 (snapshot_l1_on_disk s sn)) sns)) ->
  (inactive_l2_overlap backend s first1 len1 sns).1 = 0.
Proof.
  induction sns as [|sn sns IH]; intros s first1 len1 ? ? ? ? Hio Hall;
    [done|].
  cbn [inactive_l2_overlap]. unfold bdrv_pread_table, backend_request.
  pose proof (Hio O ltac:(cbn; lia)) as Hio0. rewrite Nat.add_0_r in Hio0.
  destruct (Z.ltb_spec (backend (io_clock s)) 0); [lia|].
  destruct (Z.ltb_spec (backend (io_clock s)) 0); [lia|].
  cbn [map concat] in Hall. apply Forall_app in Hall as [Hsn Hall].
  simpl_state.
  pose proof (existsb_table_targets L1E_OFFSET_MASK (cluster_size s) first1
                len1 (snapshot_l1_on_disk s sn)) as Hex.
  unfold snapshot_l1_on_disk in Hex at 2. rewrite existsb_map_compose in Hex.
  cbn zeta. rewrite Hex by done.
  apply IH; try done.
  intros k Hk. simpl_state.
  replace (S (io_clock s) + k)%nat with (io_clock s + S k)%nat by lia.
  apply Hio. cbn. lia.
Qed.

Lemma qcow2_check_metadata_overlap_result s ign offset size r s1 :
  qcow2_check_metadata_overlap backend s ign offset size = (r, s1) ->
  r < 0 \/ r = 0 \/
  r ∈ [QCOW2_OL_MAIN_HEADER; QCOW2_OL_ACTIVE_L1; QCOW2_OL_ACTIVE_L2;
       QCOW2_OL_REFCOUNT_TABLE; QCOW2_OL_REFCOUNT_BLOCK;
       QCOW2_OL_SNAPSHOT_TABLE; QCOW2_OL_INACTIVE_L1; QCOW2_OL_INACTIVE_L2].
Proof.
  unfold qcow2_check_metadata_overlap.
  repeat match goal with
         | |- context [if ?b then _ else _] => destruct b
         end;
    try (intros [= <- <-]; right; (by left) || (right; set_solver)).
  intros H. apply inactive_l2_overlap_result in H as [?|[?| ->]]; auto.
  right; right. set_solver.
Qed.

Lemma existsb_snapshot_l1 first1 len1 sns :
  0 <= first1 -> 0 < len1 -> first1 + len1 <= 2 ^ 64 ->
  Forall (fun r => representable r /\ ~ range_intersects first1 len1 r.1 r.2)
    (map (fun sn => (sn_l1_table_offset sn, sn_l1_size sn * 8)) sns) ->
  existsb
    (fun sn => negb (sn_l1_size sn =? 0)
               && ranges_overlap first1 len1 (sn_l1_table_offset sn)
                    (sn_l1_size sn * 8)) sns
  = false.
Proof.
  intros ? ? ? Hall. induction sns as [|sn sns IH]; [done|].
  cbn [map] in Hall. apply Forall_cons in Hall as [[Hr Hn] Hall].
  cbn [existsb]. rewrite IH by done. rewrite orb_false_r.
  destruct (Z.eqb_spec (sn_l1_size sn) 0); [done|]. cbn [negb andb].
  pose proof (no_overlap first1 len1
                (sn_l1_table_offset sn, sn_l1_size sn * 8)) as Hno.
  cbn [fst snd] in Hno. apply Hno; try done. lia.
Qed.

(** C8 (as amended).  For a non-empty write range, rounded out to cluster
    boundaries: the result is the refcount-table tag when the rounded range
    meets the refcount table, that check is enabled in [overlap_check] and
    is not in the ignore mask [ign], and neither of the two sections tested
    before it (main header, active L1 table) is enabled in the same way and
    met; the result is 0 when the rounded range meets none of the metadata
    sections and the reads of the snapshots' L1 tables succeed.
    [qcow2_pre_write_overlap_check] turns a positive result into a fatal
    corruption signal and -EIO, and returns 0 when there is no overlap. *)
Theorem qcow2_check_metadata_overlap_sections (s : BDRVQcowState)
    (ign offset size : Z) :
  let chk := Z.land (overlap_check s) (Z.lnot ign) in
  let first := rounded_offset s offset in
  let len := rounded_size s offset size in
  wf_geometry s -> 0 <= offset -> 0 < size ->
  offset + size + cluster_size s <= 2 ^ 63 ->
  (representable (l1_table_offset s, l1_size s * 8) ->
   representable (refcount_table_offset s, refcount_table_size s * 8) ->
   chk_has chk QCOW2_OL_REFCOUNT_TABLE = true ->
   range_intersects first len (refcount_table_offset s)
     (refcount_table_size s * 8) ->
   ~ (chk_has chk QCOW2_OL_MAIN_HEADER = true /\ offset < cluster_size s) ->
   ~ (chk_has chk QCOW2_OL_ACTIVE_L1 = true /\
      range_intersects first len (l1_table_offset s) (l1_size s * 8)) ->
   qcow2_check_metadata_overlap backend s ign offset size
   = (QCOW2_OL_REFCOUNT_TABLE, s)) /\
  (Forall (fun r => representable r /\ ~ range_intersects first len r.1 r.2)
     (metadata_regions s) ->
   (forall k, (k < length (snapshots s))%nat ->
              0 <= backend (io_clock s + k)%nat) ->
   (qcow2_check_metadata_overlap backend s ign offset size).1 = 0) /\
  (forall ret s1,
     qcow2_check_metadata_overlap backend s ign offset size = (ret, s1) ->
     (0 < ret ->
      qcow2_pre_write_overlap_check backend s ign offset size
      = Done (- EIO, qcow2_signal_corruption s1 true offset size) /\
      corrupt (qcow2_signal_corruption s1 true offset size) = true /\
      trace (qcow2_signal_corruption s1 true offset size)
      = trace s1 ++ [EvCorruption true offset size]) /\
     (ret = 0 ->
      qcow2_pre_write_overlap_check backend s ign offset size
      = Done (0, s1))).
Proof.
  intros chk first len Hwf Ho Hs Hbound.
  pose proof (cluster_size_pos s Hwf) as Hcs.
  destruct (rounded_range_spec s offset size Hwf Ho Hs)
    as (Hfirst & Hend & Hle & Hhi & Hlen).
  fold first len in Hfirst, Hend, Hle, Hhi, Hlen.
  assert (Hf0 : 0 <= first).
  { rewrite Hfirst. apply Z.mul_nonneg_nonneg; [lia|].
    apply Z.div_pos; lia. }
  assert (Hrep : first + len <= 2 ^ 64) by lia.
  assert (Hsz : (size =? 0) = false) by (apply Z.eqb_neq; lia).
  split; [|split].
  - intros Hrl1 Hrrt Hchk Hint Hhdr Hl1.
    unfold qcow2_check_metadata_overlap. fold chk. rewrite Hsz.
    fold (rounded_size s offset size) (rounded_offset s offset).
    fold first len.
    assert ((chk_has chk QCOW2_OL_MAIN_HEADER && (offset <? cluster_size s))
            = false) as ->.
    { destruct (chk_has chk QCOW2_OL_MAIN_HEADER); [|done].
      destruct (Z.ltb_spec offset (cluster_size s)); [|done].
      exfalso. by apply Hhdr. }
    assert ((chk_has chk QCOW2_OL_ACTIVE_L1 && negb (l1_size s =? 0)
             && ranges_overlap first len (l1_table_offset s) (l1_size s * 8))
            = false) as ->.
    { destruct (chk_has chk QCOW2_OL_ACTIVE_L1); [|done].
      destruct (Z.eqb_spec (l1_size s) 0); [done|]. cbn [negb andb].
      pose proof (no_overlap first len (l1_table_offset s, l1_size s * 8))
        as Hno. cbn [fst snd] in Hno. apply Hno; try done; [tauto|].
      unfold l1_size in *. lia. }
    rewrite Hchk.
    assert (0 < refcount_table_size s * 8) as Hpos.
    { destruct Hint as (x & ? & ?). lia. }
    destruct (Z.eqb_spec (refcount_table_size s) 0); [lia|]. cbn [negb andb].
    destruct Hrrt as (? & ? & ?). cbn [fst snd] in *.
    assert (ranges_overlap first len (refcount_table_offset s)
              (refcount_table_size s * 8) = true) as ->; [|done].
    apply ranges_overlap_spec; done.
  - intros Hall Hio. unfold metadata_regions in Hall.
    apply Forall_cons in Hall as [[_ Hhdr] Hall].
    apply Forall_cons in Hall as [[Hrl1 Hl1] Hall].
    apply Forall_cons in Hall as [[Hrrt Hrt] Hall].
    apply Forall_cons in Hall as [[Hrsn Hsn] Hall].
    apply Forall_app in Hall as [Hsl1 Hall].
    apply Forall_app in Hall as [Hal2 Hall].
    apply Forall_app in Hall as [Hrb Hil2].
    cbn [fst snd] in *.
    unfold qcow2_check_metadata_overlap. fold chk. rewrite Hsz.
    fold (rounded_size s offset size) (rounded_offset s offset).
    fold first len.
    assert ((offset <? cluster_size s) = false) as ->.
    { apply Z.ltb_ge. destruct (Z.lt_ge_cases offset (cluster_size s)); [|done].
      exfalso. apply Hhdr. exists offset. lia. }
    rewrite andb_false_r.
    assert ((negb (l1_size s =? 0)
             && ranges_overlap first len (l1_table_offset s) (l1_size s * 8))
            = false) as Hb1.
    { destruct (Z.eqb_spec (l1_size s) 0); [done|]. cbn [negb andb].
      pose proof (no_overlap first len (l1_table_offset s, l1_size s * 8))
        as Hno. cbn [fst snd] in Hno. apply Hno; try done.
      unfold l1_size in *. lia. }
    rewrite <- andb_assoc, Hb1, andb_false_r.
    assert ((negb (refcount_table_size s =? 0)
             && ranges_overlap first len (refcount_table_offset s)
                  (refcount_table_size s * 8)) = false) as Hb2.
    { destruct (Z.eqb_spec (refcount_table_size s) 0); [done|].
      cbn [negb andb].
      pose proof (no_overlap first len
                    (refcount_table_offset s, refcount_table_size s * 8))
        as Hno. cbn [fst snd] in Hno. apply Hno; try done.
      unfold refcount_table_size in *. lia. }
    rewrite <- andb_assoc, Hb2, andb_false_r.
    assert ((negb (snapshots_size s =? 0)
             && ranges_overlap first len (snapshots_offset s)
                  (snapshots_size s)) = false) as Hb3.
    { destruct (Z.eqb_spec (snapshots_size s) 0); [done|]. cbn [negb andb].
      pose proof (no_overlap first len (snapshots_offset s, snapshots_size s))
        as Hno. cbn [fst snd] in Hno. by apply Hno. }
    rewrite <- andb_assoc, Hb3, andb_false_r.
    rewrite existsb_snapshot_l1 by done. rewrite andb_false_r.
    rewrite !existsb_table_targets by done. rewrite !andb_false_r.
    destruct (chk_has chk QCOW2_OL_INACTIVE_L2); [|done].
    by apply inactive_l2_overlap_none.
  - intros ret s1 Hchk. unfold qcow2_pre_write_overlap_check. rewrite Hchk.
    split.
    + intros Hret. destruct (Z.ltb_spec ret 0); [lia|].
      destruct (Z.gtb_spec ret 0); [|lia].
      apply qcow2_check_metadata_overlap_result in Hchk
        as [?|[?|Hin]]; [lia..|].
      assert ((ffs ret - 1 <? QCOW2_OL_MAX_BITNR) = true) as ->; [|done].
      rewrite !elem_of_cons in Hin. rewrite elem_of_nil in Hin.
      destruct Hin as [->|[->|[->|[->|[->|[->|[->|[->|[]]]]]]]]];
        by vm_compute.
    + intros ->. done.
Qed.

(** ** Updating one counter *)

Lemma block_load_mark_dirty s table table' index :
  block_load (qcow2_cache_entry_mark_dirty s table) table' index
  = block_load s table' index.
Proof.
  destruct table as [o|]; [|done]. destruct table' as [o'|]; [|done].
  unfold block_load. cbn [qcow2_cache_entry_mark_dirty]. simpl_state.
  rewrite lookup_alter. destruct (decide (o = o')) as [<-|Hne]; [|done].
  by destruct (refcount_block_cache s !! o).
Qed.

Lemma block_contents_mark_dirty s table offset :
  block_contents (qcow2_cache_entry_mark_dirty s table) offset
  = block_contents s offset.
Proof.
  destruct table as [o|]; [|done].
  unfold block_contents. cbn [qcow2_cache_entry_mark_dirty]. simpl_state.
  rewrite lookup_alter. destruct (decide (o = offset)) as [<-|Hne]; [|done].
  by destruct (refcount_block_cache s !! o).
Qed.

Lemma block_contents_block_store s o index v offset :
  block_contents (block_store s (Some o) index v) offset
  = match refcount_block_cache s !! o with
    | Some e =>
        if decide (o = offset) then array_set e.1 index v
        else block_contents s offset
    | None => block_contents s offset
    end.
Proof.
  unfold block_contents. cbn [block_store]. simpl_state.
  rewrite lookup_alter. destruct (decide (o = offset)) as [<-|Hne].
  - by destruct (refcount_block_cache s !! o).
  - by destruct (refcount_block_cache s !! o).
Qed.

Lemma block_load_contents s o index :
  is_Some (refcount_block_cache s !! o) ->
  block_load s (Some o) index = array_get (block_contents s o) index.
Proof.
  intros [e He]. unfold block_load, block_contents. by rewrite He.
Qed.

Lemma update_refcount_discard_cache s offset length s' :
  update_refcount_discard s offset length = Done s' ->
  exists ds, s' = set_discards ds s.
Proof. unfold update_refcount_discard. intros H. split_run H; eauto. Qed.

Lemma update_cluster_counter_invalid s table cluster_offset cluster_index
    addend type :
  let index := Z.land cluster_index (refcount_block_size s - 1) in
  let v := be16_to_cpu (block_load s table index) in
  v + addend < 0 \/ 0xffff < v + addend ->
  update_cluster_counter s table cluster_offset cluster_index addend type
  = Done (- EINVAL, qcow2_cache_entry_mark_dirty s table).
Proof.
  cbn zeta. intros Hv. unfold update_cluster_counter.
  rewrite block_load_mark_dirty.
  replace (refcount_block_size (qcow2_cache_entry_mark_dirty s table))
    with (refcount_block_size s) by (by destruct table).
  destruct (Z.ltb_spec (be16_to_cpu (block_load s table
              (Z.land cluster_index (refcount_block_size s - 1))) + addend) 0);
    [done|].
  destruct (Z.gtb_spec (be16_to_cpu (block_load s table
              (Z.land cluster_index (refcount_block_size s - 1))) + addend)
              65535); [done|lia].
Qed.

Lemma update_cluster_counter_valid s o e cluster_offset cluster_index addend
    type r s' :
  let index := Z.land cluster_index (refcount_block_size s - 1) in
  let v := be16_to_cpu (block_load s (Some o) index) in
  0 <= v + addend <= 0xffff ->
  refcount_block_cache s !! o = Some e ->
  update_cluster_counter s (Some o) cluster_offset cluster_index addend type
  = Done (r, s') ->
  r = 0 /\
  forall offset,
    block_contents s' offset
    = if decide (o = offset) then
        array_set (block_contents s o) index (cpu_to_be16 (v + addend))
      else block_contents s offset.
Proof.
  cbn zeta. intros Hv He. unfold update_cluster_counter.
  rewrite block_load_mark_dirty.
  replace (refcount_block_size (qcow2_cache_entry_mark_dirty s (Some o)))
    with (refcount_block_size s) by done.
  set (index := Z.land cluster_index (refcount_block_size s - 1)) in *.
  set (v := be16_to_cpu (block_load s (Some o) index)) in *.
  destruct (Z.ltb_spec (v + addend) 0); [lia|].
  destruct (Z.gtb_spec (v + addend) 65535); [lia|]. cbn [orb].
  set (s2 := if (v + addend =? 0) && (cluster_index <? _)
             then set_free_cluster_index _ _ else _).
  assert (Hc2 : forall offset,
             block_contents (block_store s2 (Some o) index
                               (cpu_to_be16 (v + addend))) offset
             = if decide (o = offset) then
                 array_set (block_contents s o) index (cpu_to_be16 (v + addend))
               else block_contents s offset).
  { intros offset. rewrite block_contents_block_store.
    assert (Hs2 : refcount_block_cache s2 !! o = Some (e.1, true)).
    { unfold s2. destruct (_ && (_ <? _)); cbn [qcow2_cache_entry_mark_dirty];
        simpl_state; rewrite lookup_alter, decide_True by done;
        by rewrite He. }
    rewrite Hs2. cbn [fst].
    assert (Hb2 : forall o', block_contents s2 o' = block_contents s o').
    { intros o'. unfold s2. destruct (_ && (_ <? _)).
      - apply (block_contents_mark_dirty s (Some o) o').
      - apply block_contents_mark_dirty. }
    destruct (decide (o = offset)) as [<-|?]; [|apply Hb2].
    unfold block_contents. by rewrite He. }
  intros Hrun. split_run Hrun; (split; [done|]).
  - match goal with
    | H : update_refcount_discard _ _ _ = Done _ |- _ =>
        apply update_refcount_discard_cache in H as [ds ->]
    end. exact Hc2.
  - exact Hc2.
Qed.




(** ** The public allocators *)

Lemma get_refcount_static s cluster_index r s' :
  get_refcount backend s cluster_index = (r, s') ->
  static_part s' = static_part s.
Proof.
  apply (get_refcount_pres backend
           (fun s s' => static_part s' = static_part s)); try done.
  intros s1 s2 s3 H1 H2. by rewrite H2.
Qed.

Lemma alloc_clusters_noref_static fuel s size r s' :
  alloc_clusters_noref backend fuel s size = Done (r, s') ->
  static_part s' = static_part s.
Proof.
  apply (alloc_clusters_noref_pres backend
           (fun s s' => static_part s' = static_part s)); try done.
  intros s1 s2 s3 H1 H2. by rewrite H2.
Qed.

Lemma static_cluster_bits s s' :
  static_part s' = static_part s -> cluster_bits s' = cluster_bits s.
Proof. unfold static_part, geometry. congruence. Qed.










(** ** Updating a range whose refcount blocks exist *)

Lemma hits_0 s first cell : hits s first 0 cell = 0.
Proof. done. Qed.

Lemma hits_S s first k cell :
  hits s first (S k) cell
  = (if decide (cell_of s first = cell) then 1 else 0)
    + hits s (first + 1) k cell.
Proof.
  unfold hits. rewrite Nat2Z.inj_succ, seqZ_cons by lia.
  rewrite Z.pred_succ, filter_cons. rewrite <- Z.add_1_r.
  destruct (decide (cell_of s first = cell)); cbn [length];
    rewrite ?Nat2Z.inj_succ; unfold Z.succ; ring.
Qed.

Lemma hits_ext s s' first k cell :
  refcount_table s' = refcount_table s -> geometry s' = geometry s ->
  hits s' first k cell = hits s first k cell.
Proof.
  intros Ht Hg. unfold hits, cell_of, block_offset_of, refcount_table_size.
  unfold geometry in Hg. injection Hg as Hcb Hcs Hrbb Hrbs.
  by rewrite Ht, Hrbb, Hrbs.
Qed.

Lemma switch_refcount_block_present fuel rec s refcount_block old_table_index
    cluster_index ret refcount_block1 s1 :
  block_present s cluster_index ->
  held s refcount_block old_table_index cluster_index ->
  switch_refcount_block backend fuel rec s refcount_block old_table_index
    cluster_index = Done (ret, refcount_block1, s1) ->
  refcount_table s1 = refcount_table s /\
  static_part s1 = static_part s /\
  (forall offset, block_contents s1 offset = block_contents s offset) /\
  (0 <= ret ->
   refcount_block1 = Some (block_offset_of s cluster_index) /\
   is_Some (refcount_block_cache s1 !! block_offset_of s cluster_index)).
Proof.
  intros Hp Hheld. unfold switch_refcount_block.
  destruct (Z.eqb_spec (Z.shiftr cluster_index (refcount_block_bits s))
              old_table_index) as [Heq|Hne]; cbn [negb].
  { intros [= <- <- <-]. repeat split; try done; by apply Hheld. }
  assert (Hput : (match refcount_block with
                  | Some _ => qcow2_cache_put s refcount_block
                  | None => (0, refcount_block, s)
                  end) = (0, None, s)) by (by destruct refcount_block).
  rewrite Hput. cbn [Z.ltb Z.compare].
  unfold alloc_refcount_block_body. fold (block_offset_of s cluster_index).
  destruct (Z.eqb_spec (block_offset_of s cluster_index) 0) as [?|_];
    [done|]. cbn [negb].
  destruct (negb _).
  { intros [= <- <- <-]. unfold EIO. repeat split; try done; lia. }
  unfold load_refcount_block.
  destruct (Z.lt_ge_cases (backend (io_clock s)) 0) as [Hio|Hio].
  - rewrite qcow2_cache_get_fail by done. intros [= <- <- <-].
    repeat split; try done; lia.
  - rewrite qcow2_cache_get_ok by done. intros [= <- <- <-].
    repeat split; try done.
    + intros offset. apply block_contents_cache_get.
    + simpl_state. rewrite lookup_insert_eq. eauto.
Qed.

Lemma update_cluster_counter_table s table cluster_offset cluster_index
    addend type r s' :
  update_cluster_counter s table cluster_offset cluster_index addend type
  = Done (r, s') ->
  refcount_table s' = refcount_table s /\ static_part s' = static_part s.
Proof.
  intros H. split.
  - revert H.
    apply (update_cluster_counter_pres
             (fun s s' => refcount_table s' = refcount_table s)); try done.
    + intros s1 s2 s3 H1 H2. by rewrite H2.
    + intros s0 [?|]; done.
    + intros s0 [?|]; done.
  - revert H.
    apply (update_cluster_counter_pres
             (fun s s' => static_part s' = static_part s)); try done.
    + intros s1 s2 s3 H1 H2. by rewrite H2.
    + intros s0 [?|]; done.
    + intros s0 [?|]; done.
Qed.

Lemma update_cluster_counter_cache s o cluster_offset cluster_index addend
    type r s' :
  is_Some (refcount_block_cache s !! o) ->
  update_cluster_counter s (Some o) cluster_offset cluster_index addend type
  = Done (r, s') ->
  is_Some (refcount_block_cache s' !! o).
Proof.
  intros [e He]. unfold update_cluster_counter. intros H.
  split_run H;
    repeat match goal with
           | H : update_refcount_discard _ _ _ = Done _ |- _ =>
               apply update_refcount_discard_cache in H as [ds ->]
           end;
    cbn [block_store qcow2_cache_entry_mark_dirty]; simpl_state;
    rewrite ?lookup_alter, ?decide_True by done; rewrite ?He; eauto.
Qed.

Lemma counter_array_set L index x i :
  0 <= index -> 0 <= i ->
  array_get (array_set L index x) i
  = if decide (index = i) then
      if (Z.to_nat i <? length L)%nat then x else array_get L i
    else array_get L i.
Proof.
  intros Hi Hj. unfold array_get, array_set.
  destruct (decide (index = i)) as [->|Hne].
  - destruct (Nat.ltb_spec (Z.to_nat i) (length L)).
    + by rewrite list_lookup_insert_eq.
    + by rewrite list_insert_ge.
  - rewrite list_lookup_insert_ne; [done|]. lia.
Qed.

Lemma update_cluster_counter_effect s o cluster_offset cluster_index addend
    type r s' :
  let index := Z.land cluster_index (refcount_block_size s - 1) in
  is_Some (refcount_block_cache s !! o) ->
  0 <= index ->
  update_cluster_counter s (Some o) cluster_offset cluster_index addend type
  = Done (r, s') ->
  (forall offset,
     length (block_contents s' offset) = length (block_contents s offset)) /\
  (r < 0 -> forall offset i, counter s' offset i = counter s offset i) /\
  (0 <= r -> forall offset i, 0 <= i ->
     counter s' offset i
     = counter s offset i
       + if decide ((o, index) = (offset, i)) then
           if (Z.to_nat i <? length (block_contents s offset))%nat
           then addend else 0
         else 0).
Proof.
  intros index [e He] Hidx Hrun.
  set (v := be16_to_cpu (block_load s (Some o) index)).
  assert (Hv : v = counter s o index).
  { unfold v, counter. by rewrite block_load_contents by eauto. }
  destruct (Z.lt_ge_cases (v + addend) 0) as [Hlo|Hlo];
    [|destruct (Z.lt_ge_cases 0xffff (v + addend)) as [Hhi|Hhi]].
  1,2: rewrite update_cluster_counter_invalid in Hrun by (fold index v; lia);
    injection Hrun as <- <-; unfold EINVAL;
    repeat split; intros; try lia; unfold counter;
    by rewrite ?(block_contents_mark_dirty s (Some o)).
  destruct (update_cluster_counter_valid s o e cluster_offset cluster_index
              addend type r s' ltac:(fold index v; lia) He Hrun) as [-> Hc].
  fold index v in Hc.
  repeat split; try lia.
  - intros offset. rewrite Hc. destruct (decide (o = offset)) as [<-|]; [|done].
    unfold array_set. by rewrite length_insert.
  - intros _ offset i Hi. unfold counter at 1. rewrite Hc.
    destruct (decide (o = offset)) as [<-|Hne].
    + rewrite counter_array_set by done.
      destruct (decide (index = i)) as [<-|Hne].
      * rewrite decide_True by done.
        destruct (_ <? _)%nat.
        -- unfold be16_to_cpu, cpu_to_be16.
           rewrite bswap16_involutive by lia. lia.
        -- unfold counter. lia.
      * rewrite decide_False by congruence. unfold counter. lia.
    + rewrite decide_False by congruence. unfold counter. lia.
Qed.

Lemma static_geometry s s' :
  static_part s' = static_part s -> geometry s' = geometry s.
Proof. unfold static_part. congruence. Qed.

Lemma wf_geometry_static s s' :
  static_part s' = static_part s -> wf_geometry s -> wf_geometry s'.
Proof.
  intros H%static_geometry Hwf. unfold geometry in H.
  injection H as H1 H2 H3 H4. unfold wf_geometry. by rewrite H1, H2, H3, H4.
Qed.

Lemma block_offset_of_ext s s' c :
  refcount_table s' = refcount_table s -> geometry s' = geometry s ->
  block_offset_of s' c = block_offset_of s c.
Proof.
  intros Ht Hg. unfold block_offset_of, refcount_table_size.
  unfold geometry in Hg. injection Hg as Hcb Hcs Hrbb Hrbs.
  by rewrite Ht, Hrbb.
Qed.

Lemma shiftr_next_cluster s cluster_offset :
  wf_geometry s ->
  Z.shiftr (cluster_offset + cluster_size s) (cluster_bits s)
  = Z.shiftr cluster_offset (cluster_bits s) + 1.
Proof.
  intros (? & -> & _). rewrite !Z.shiftr_div_pow2 by lia.
  replace (cluster_offset + 2 ^ cluster_bits s)
    with (cluster_offset + 1 * 2 ^ cluster_bits s) by lia.
  rewrite Z.div_add by lia. done.
Qed.

Lemma block_index_nonneg s c :
  wf_geometry s -> 0 <= Z.land c (refcount_block_size s - 1).
Proof.
  intros (? & _ & ? & ->). apply Z.land_nonneg. right.
  assert (0 < 2 ^ refcount_block_bits s) by (apply Z.pow_pos_nonneg; lia).
  lia.
Qed.

Lemma update_refcount_loop_present fuel rec n :
  forall s cluster_offset refcount_block old_table_index addend type
         ret cluster_offset' refcount_block' s',
  let first := Z.shiftr cluster_offset (cluster_bits s) in
  wf_geometry s -> 0 <= cluster_offset ->
  (forall j, 0 <= j < Z.of_nat n -> block_present s (first + j)) ->
  held s refcount_block old_table_index first ->
  update_refcount_loop backend fuel rec n s cluster_offset refcount_block
    old_table_index addend type
  = Done (ret, cluster_offset', refcount_block', s') ->
  exists k : nat,
    (k <= n)%nat /\
    cluster_offset' = cluster_offset + Z.of_nat k * cluster_size s /\
    (ret = 0 -> k = n) /\ (ret < 0 -> (k < n)%nat) /\
    refcount_table s' = refcount_table s /\
    static_part s' = static_part s /\
    (forall offset,
       length (block_contents s' offset) = length (block_contents s offset)) /\
    (forall offset i, 0 <= i ->
       counter s' offset i
       = counter s offset i
         + if (Z.to_nat i <? length (block_contents s offset))%nat
           then addend * hits s first k (offset, i) else 0).
Proof.
  induction n as [|n IH];
    intros s co rb old addend type ret co' rb' s' first Hwf Hco Hpres Hheld;
    cbn [update_refcount_loop].
  { intros [= <- <- <- <-]. exists O.
    repeat split; try done; try lia.
    intros. rewrite hits_0. destruct (_ <? _)%nat; lia. }
  fold first. unfold mbind, outcome_bind.
  destruct (switch_refcount_block _ _ _ _ _ _ _)
    as [[[ret0 rb1] s1]| |] eqn:Hsw; [|done..].
  assert (Hp0 : block_present s first).
  { replace first with (first + 0) by lia. apply Hpres. lia. }
  destruct (switch_refcount_block_present _ _ _ _ _ _ _ _ _ Hp0 Hheld Hsw)
    as (Ht1 & Hs1 & Hc1 & Hok).
  pose proof (static_geometry _ _ Hs1) as Hg1.
  destruct (Z.ltb_spec ret0 0) as [Hneg|Hpos].
  { intros [= <- <- <- <-]. exists O.
    repeat split; try done; try lia; intros.
    - by rewrite Hc1.
    - unfold counter. rewrite Hc1, hits_0. destruct (_ <? _)%nat; lia. }
  destruct (Hok Hpos) as [-> Hcache]. clear Hok.
  set (o := block_offset_of s first) in *.
  destruct (update_cluster_counter _ _ _ _ _ _)
    as [[ret1 s2]| |] eqn:Hup; [|done..].
  pose proof (wf_geometry_static _ _ Hs1 Hwf) as Hwf1.
  assert (Hrbs1 : refcount_block_size s1 = refcount_block_size s).
  { unfold geometry in Hg1. by injection Hg1. }
  destruct (update_cluster_counter_table _ _ _ _ _ _ _ _ Hup) as [Ht2 Hs2].
  pose proof (update_cluster_counter_cache _ _ _ _ _ _ _ _ Hcache Hup)
    as Hcache2.
  destruct (update_cluster_counter_effect _ _ _ _ _ _ _ _ Hcache
              (block_index_nonneg _ _ Hwf1) Hup) as (Hl2 & Hfail & Hdone).
  rewrite Hrbs1 in Hdone.
  destruct (Z.ltb_spec ret1 0) as [Hneg1|Hpos1].
  { intros [= <- <- <- <-]. exists O.
    repeat split; try done; try lia; try congruence; intros.
    all: match goal with
         | |- length _ = length _ => by rewrite Hl2, Hc1
         | |- counter _ _ _ = _ =>
             rewrite Hfail by done; unfold counter; rewrite Hc1, hits_0;
             destruct (_ <? _)%nat; lia
         end. }
  intros Hloop.
  pose proof (wf_geometry_static _ _ Hs2 Hwf1) as Hwf2.
  assert (Hg2 : geometry s2 = geometry s).
  { rewrite (static_geometry _ _ Hs2). done. }
  assert (Hcs2 : cluster_size s2 = cluster_size s).
  { unfold geometry in Hg2. by injection Hg2. }
  assert (Hcb2 : cluster_bits s2 = cluster_bits s).
  { unfold geometry in Hg2. by injection Hg2. }
  assert (Hrbb2 : refcount_block_bits s2 = refcount_block_bits s).
  { unfold geometry in Hg2. by injection Hg2. }
  assert (Htab2 : refcount_table s2 = refcount_table s) by congruence.
  pose proof (cluster_size_pos s Hwf) as Hcspos.
  assert (Hnext : Z.shiftr (co + cluster_size s2) (cluster_bits s2)
                  = first + 1).
  { rewrite Hcs2, Hcb2. by apply shiftr_next_cluster. }
  apply IH in Hloop; try done; try lia.
  - destruct Hloop as (k & Hk & -> & Hz & Hn & Ht' & Hs' & Hl' & Hc').
    exists (S k). rewrite Hnext in Hc'.
    repeat split; try lia; try congruence.
    intros offset i Hi. rewrite Hc' by done. rewrite Hdone by done.
    rewrite Hl2, !Hc1. unfold counter at 1. rewrite Hc1.
    fold (counter s offset i).
    rewrite (hits_ext s s2) by done. rewrite hits_S. unfold cell_of.
    fold o.
    destruct (_ <? _)%nat; [|destruct (decide _); lia].
    destruct (decide ((o, Z.land first (refcount_block_size s - 1))
                      = (offset, i))); lia.
  - rewrite Hnext. intros j Hj. unfold block_present.
    rewrite (block_offset_of_ext s s2) by done.
    replace (first + 1 + j) with (first + (1 + j)) by lia. apply Hpres. lia.
  - rewrite Hnext. intros Heq. unfold first in *. rewrite Hrbb2 in Heq.
    rewrite (block_offset_of_ext s s2) by done.
    assert (block_offset_of s (Z.shiftr co (cluster_bits s) + 1) = o) as ->;
      [|done].
    unfold o, block_offset_of. by rewrite Heq.
Qed.

(** ** The undo of a failed update *)

Lemma update_refcount_loop_offset fuel rec n :
  (forall s offset length addend type r s',
     rec s offset length addend type = Done (r, s') ->
     static_part s' = static_part s) ->
  forall s cluster_offset refcount_block old_table_index addend type
         ret cluster_offset' refcount_block' s',
  update_refcount_loop backend fuel rec n s cluster_offset refcount_block
    old_table_index addend type
  = Done (ret, cluster_offset', refcount_block', s') ->
  static_part s' = static_part s /\
  exists k : nat,
    (k <= n)%nat /\
    cluster_offset' = cluster_offset + Z.of_nat k * cluster_size s /\
    (ret < 0 -> (k < n)%nat).
Proof.
  intros Hrec.
  assert (Htrans : forall s1 s2 s3 : BDRVQcowState,
             static_part s2 = static_part s1 ->
             static_part s3 = static_part s2 ->
             static_part s3 = static_part s1) by (intros; congruence).
  induction n as [|n IH];
    intros s co rb old addend type ret co' rb' s'; cbn [update_refcount_loop].
  { intros [= <- <- <- <-]. split; [done|]. exists O. lia. }
  unfold mbind, outcome_bind.
  destruct (switch_refcount_block _ _ _ _ _ _ _)
    as [[[ret0 rb1] s1]| |] eqn:Hsw; [|done..].
  assert (Hs1 : static_part s1 = static_part s).
  { revert Hsw.
    apply (switch_refcount_block_pres backend
             (fun s s' => static_part s' = static_part s)); try done.
    - intros s0 [?|]; done.
    - intros s0 [?|]; done.
    - intros s0 [?|]; done.
    - intros s0 s00 meta tc bc r0 s0'. unfold write_refcount_blocks,
        bdrv_pwrite_sync, backend_request. intros H. split_run H; done. }
  destruct (ret0 <? 0).
  { intros [= <- <- <- <-]. split; [done|]. exists O. lia. }
  destruct (update_cluster_counter _ _ _ _ _ _)
    as [[ret1 s2]| |] eqn:Hup; [|done..].
  destruct (update_cluster_counter_table _ _ _ _ _ _ _ _ Hup) as [_ Hs2].
  destruct (ret1 <? 0).
  { intros [= <- <- <- <-]. split; [congruence|]. exists O. lia. }
  intros Hloop. apply IH in Hloop as (Hs' & k & Hk & -> & Hn).
  split; [congruence|]. exists (S k).
  assert (cluster_size s2 = cluster_size s) as ->.
  { assert (Hg : geometry s2 = geometry s)
      by (apply static_geometry; congruence).
    unfold geometry in Hg. by injection Hg. }
  repeat split; lia.
Qed.

Lemma block_contents_process_discards s ret offset :
  block_contents (qcow2_process_discards backend s ret) offset
  = block_contents s offset.
Proof.
  unfold qcow2_process_discards. rewrite process_discards_loop_spec.
  by destruct (discards s).
Qed.

Lemma process_discards_tables s ret :
  refcount_table (qcow2_process_discards backend s ret) = refcount_table s /\
  static_part (qcow2_process_discards backend s ret) = static_part s.
Proof.
  unfold qcow2_process_discards. rewrite process_discards_loop_spec.
  by destruct (discards s).
Qed.

(** [update_refcount] on a range that is not empty: the loop, then the
    queued discards, then the undo when the loop failed. *)
Lemma update_refcount_unfold fuel s offset length addend type :
  0 < length ->
  let s0 :=
    if addend <? 0 then
      qcow2_cache_set_dependency s REFCOUNT_BLOCK_CACHE L2_TABLE_CACHE
    else s in
  let start := Z.land offset (Z.lnot (cluster_size s - 1)) in
  let last := Z.land (offset + length - 1) (Z.lnot (cluster_size s - 1)) in
  update_refcount backend (S fuel) s offset length addend type
  = '(ret, cluster_offset, refcount_block, s2) ←
      update_refcount_loop backend fuel (update_refcount backend fuel)
        (clusters_between s start last) s0 start None (-1) addend type;
    let s3 := if negb (cache_discards s2)
              then qcow2_process_discards backend s2 ret else s2 in
    if ret <? 0 then
      '(dummy, s4) ←
        update_refcount backend fuel s3 offset (cluster_offset - offset)
          (- addend) QCOW2_DISCARD_NEVER;
      Done (ret, s4)
    else Done (ret, s3).
Proof.
  intros Hlen. cbn zeta. cbn [update_refcount].
  unfold update_refcount_body, update_refcount_main.
  destruct (Z.ltb_spec length 0); [lia|].
  destruct (Z.eqb_spec length 0); [lia|].
  assert (Hcs : cluster_size
                  (if addend <? 0
                   then qcow2_cache_set_dependency s REFCOUNT_BLOCK_CACHE
                          L2_TABLE_CACHE
                   else s) = cluster_size s) by (by destruct (addend <? 0)).
  assert (Hn : clusters_between
                 (if addend <? 0
                  then qcow2_cache_set_dependency s REFCOUNT_BLOCK_CACHE
                         L2_TABLE_CACHE
                  else s) = clusters_between s).
  { unfold clusters_between. by rewrite Hcs. }
  rewrite Hcs, Hn. unfold mbind, outcome_bind, qcow2_cache_put.
  destruct (update_refcount_loop _ _ _ _ _ _ _ _ _ _)
    as [[[[ret co] rb] s2]| |]; [|done..].
  by destruct rb.
Qed.

Lemma div_last_byte cs a : 0 < cs -> (cs * a + (cs - 1)) / cs = a.
Proof.
  intros Hcs. rewrite (Z.mul_comm cs a), Z.div_add_l, Z.div_small by lia. lia.
Qed.

Lemma range_start_div s offset :
  wf_geometry s ->
  Z.land offset (Z.lnot (cluster_size s - 1))
  = cluster_size s * (offset / cluster_size s).
Proof. apply start_of_cluster_div. Qed.

Lemma shiftr_cluster_bits s x :
  wf_geometry s -> Z.shiftr x (cluster_bits s) = x / cluster_size s.
Proof. intros (? & -> & _). apply Z.shiftr_div_pow2. lia. Qed.

Lemma clusters_between_div s offset length :
  wf_geometry s -> 0 < length ->
  let start := Z.land offset (Z.lnot (cluster_size s - 1)) in
  let last := Z.land (offset + length - 1) (Z.lnot (cluster_size s - 1)) in
  Z.of_nat (clusters_between s start last)
  = (offset + length - 1) / cluster_size s - offset / cluster_size s + 1.
Proof.
  intros Hwf Hlen. cbn zeta. rewrite !range_start_div by done.
  pose proof (cluster_size_pos s Hwf) as Hcs.
  set (cs := cluster_size s) in *.
  assert (offset / cs <= (offset + length - 1) / cs)
    by (apply Z.div_le_mono; lia).
  unfold clusters_between. fold cs.
  destruct (Z.leb_spec (cs * (offset / cs)) (cs * ((offset + length - 1) / cs)));
    [|nia].
  rewrite <- Z.mul_sub_distr_l, Z.mul_comm, Z.div_mul by lia.
  lia.
Qed.

Lemma counter_negative_index s offset i :
  i < 0 -> counter s offset i = counter s offset 0.
Proof.
  intros Hi. unfold counter, array_get.
  by replace (Z.to_nat i) with (Z.to_nat 0) by lia.
Qed.

Lemma held_initial s first : 0 <= first -> held s None (-1) first.
Proof.
  intros Hf Heq. exfalso.
  pose proof (Z.shiftr_nonneg first (refcount_block_bits s)). lia.
Qed.

Lemma set_dependency_tables s addend :
  let s0 :=
    if addend <? 0 then
      qcow2_cache_set_dependency s REFCOUNT_BLOCK_CACHE L2_TABLE_CACHE
    else s in
  refcount_table s0 = refcount_table s /\ static_part s0 = static_part s /\
  forall offset, block_contents s0 offset = block_contents s offset.
Proof. cbn zeta. by destruct (addend <? 0). Qed.

(** The loop of [update_refcount] on a range whose refcount blocks all
    exist, from the state [s] in which [update_refcount] is entered. *)
Lemma update_refcount_pass_present fuel s offset len addend type ret co rb
    s2 :
  let cs := cluster_size s in
  let s0 :=
    if addend <? 0 then
      qcow2_cache_set_dependency s REFCOUNT_BLOCK_CACHE L2_TABLE_CACHE
    else s in
  let start := Z.land offset (Z.lnot (cs - 1)) in
  let last := Z.land (offset + len - 1) (Z.lnot (cs - 1)) in
  wf_geometry s -> 0 <= offset -> 0 < len ->
  (forall c, offset / cs <= c <= (offset + len - 1) / cs ->
             block_present s c) ->
  update_refcount_loop backend fuel (update_refcount backend fuel)
    (clusters_between s start last) s0 start None (-1) addend type
  = Done (ret, co, rb, s2) ->
  let s3 := if negb (cache_discards s2)
            then qcow2_process_discards backend s2 ret else s2 in
  exists k : nat,
    co = start + Z.of_nat k * cs /\
    (ret = 0 -> k = clusters_between s start last) /\
    refcount_table s3 = refcount_table s /\
    static_part s3 = static_part s /\
    (forall o, length (block_contents s3 o) = length (block_contents s o)) /\
    (forall o i, 0 <= i ->
       counter s3 o i
       = counter s o i
         + if (Z.to_nat i <? length (block_contents s o))%nat
           then addend * hits s (offset / cs) k (o, i) else 0).
Proof.
  intros cs s0 start last Hwf Hoff Hlen Hpres Hloop s3.
  destruct (set_dependency_tables s addend) as (Ht0 & Hs0 & Hc0).
  fold s0 in Ht0, Hs0, Hc0.
  pose proof (static_geometry _ _ Hs0) as Hg0.
  pose proof (wf_geometry_static _ _ Hs0 Hwf) as Hwf0.
  pose proof (cluster_size_pos s Hwf) as Hcs. fold cs in Hcs.
  assert (Hcs0 : cluster_size s0 = cs).
  { unfold geometry in Hg0. by injection Hg0. }
  assert (Hcb0 : cluster_bits s0 = cluster_bits s).
  { unfold geometry in Hg0. by injection Hg0. }
  assert (Hstart : start = cs * (offset / cs))
    by (by apply range_start_div).
  assert (Hfirst : Z.shiftr start (cluster_bits s0) = offset / cs).
  { rewrite Hcb0, shiftr_cluster_bits by done. fold cs. rewrite Hstart.
    rewrite Z.mul_comm, Z.div_mul by lia. done. }
  assert (H0div : 0 <= offset / cs) by (apply Z.div_pos; lia).
  pose proof (clusters_between_div s offset len Hwf Hlen) as Hn.
  cbn zeta in Hn. fold cs start last in Hn.
  apply update_refcount_loop_present in Hloop; try done.
  - destruct Hloop as (k & Hk & -> & Hz & _ & Ht2 & Hs2 & Hl2 & Hc2).
    rewrite Hfirst in Hc2. exists k.
    assert (Hs3 : refcount_table s3 = refcount_table s2
                  /\ static_part s3 = static_part s2
                  /\ forall o, block_contents s3 o = block_contents s2 o).
    { unfold s3. destruct (negb _); [|done].
      destruct (process_discards_tables s2 ret). repeat split; try done.
      intros o. apply block_contents_process_discards. }
    destruct Hs3 as (Ht3 & Hst3 & Hc3).
    split; [by rewrite Hcs0|]. split; [done|]. split; [congruence|].
    split; [congruence|]. split.
    + intros o. by rewrite Hc3, Hl2, Hc0.
    + intros o i Hi. unfold counter at 1. rewrite Hc3.
      fold (counter s2 o i). rewrite Hc2 by done. rewrite Hc0.
      unfold counter at 1. rewrite Hc0. fold (counter s o i).
      by rewrite (hits_ext s s0).
  - rewrite Hstart. apply Z.mul_nonneg_nonneg; lia.
  - rewrite Hfirst. intros j Hj. unfold block_present.
    rewrite (block_offset_of_ext s s0) by done. apply Hpres. lia.
  - rewrite Hfirst. by apply held_initial.
Qed.

(** C6 (amended): when the loop of [update_refcount] fails, the function
    calls itself once on the byte range from [offset] up to the cluster at
    which the failure happened, with the addend negated and discards
    disabled; the result of that second pass is dropped and the error of
    the loop is returned.  The range of the second pass is empty when the
    first cluster failed, and otherwise ends in the cluster before the
    failing one.  When every cluster of the requested range already has a
    refcount block and the second pass reports success, every counter is
    back at its value from before the call. *)
Theorem update_refcount_undo fuel s offset len addend type ret s' :
  let cs := cluster_size s in
  let s0 :=
    if addend <? 0 then
      qcow2_cache_set_dependency s REFCOUNT_BLOCK_CACHE L2_TABLE_CACHE
    else s in
  let start := Z.land offset (Z.lnot (cs - 1)) in
  let last := Z.land (offset + len - 1) (Z.lnot (cs - 1)) in
  wf_geometry s -> 0 <= offset -> 0 < len ->
  update_refcount backend (S fuel) s offset len addend type
  = Done (ret, s') ->
  ret < 0 ->
  exists (k : nat) refcount_block s2 dummy,
    (k < clusters_between s start last)%nat /\
    update_refcount_loop backend fuel (update_refcount backend fuel)
      (clusters_between s start last) s0 start None (-1) addend type
    = Done (ret, start + Z.of_nat k * cs, refcount_block, s2) /\
    let s3 := if negb (cache_discards s2)
              then qcow2_process_discards backend s2 ret else s2 in
    let undo_length := start + Z.of_nat k * cs - offset in
    update_refcount backend fuel s3 offset undo_length (- addend)
      QCOW2_DISCARD_NEVER
    = Done (dummy, s') /\
    (k = 0%nat -> undo_length <= 0 /\ s' = s3) /\
    (k <> 0%nat ->
     0 < undo_length /\
     Z.land (offset + undo_length - 1) (Z.lnot (cs - 1))
     = start + (Z.of_nat k - 1) * cs) /\
    ((forall c, offset / cs <= c <= (offset + len - 1) / cs ->
                block_present s c) ->
     dummy = 0 ->
     forall o i, counter s' o i = counter s o i).
Proof.
  intros cs s0 start last Hwf Hoff Hlen Hrun Hneg.
  rewrite update_refcount_unfold in Hrun by done. cbn zeta in Hrun.
  fold cs s0 start last in Hrun.
  destruct (update_refcount_loop _ _ _ _ _ _ _ _ _ _)
    as [[[[r co] rb] s2]| |] eqn:Hloop; [|done..].
  unfold mbind, outcome_bind in Hrun.
  destruct (Z.ltb_spec r 0) as [Hr|Hr]; [|injection Hrun as -> _; lia].
  destruct (update_refcount backend fuel _ offset (co - offset) _ _)
    as [[dummy s4]| |] eqn:Hundo in Hrun; [|done..].
  injection Hrun as -> ->.
  destruct (set_dependency_tables s addend) as (Ht0 & Hs0 & Hc0).
  fold s0 in Ht0, Hs0, Hc0.
  pose proof (static_geometry _ _ Hs0) as Hg0.
  pose proof (cluster_size_pos s Hwf) as Hcs. fold cs in Hcs.
  assert (Hcs0 : cluster_size s0 = cs).
  { unfold geometry in Hg0. by injection Hg0. }
  assert (Hstart : start = cs * (offset / cs))
    by (by apply range_start_div).
  pose proof (Z.mod_pos_bound offset cs Hcs) as Hmod.
  pose proof (Z.div_mod offset cs ltac:(lia)) as Hdm.
  assert (H0div : 0 <= offset / cs) by (apply Z.div_pos; lia).
  destruct (update_refcount_loop_offset fuel _ _
              (update_refcount_static fuel) _ _ _ _ _ _ _ _ _ _ Hloop)
    as (Hst2 & k & Hk & Hco & Hlt).
  rewrite Hcs0 in Hco. subst co.
  exists k, rb, s2, dummy.
  set (s3 := if negb (cache_discards s2)
             then qcow2_process_discards backend s2 ret else s2) in *.
  assert (Hst3 : static_part s3 = static_part s).
  { transitivity (static_part s2); [|congruence].
    unfold s3. destruct (negb _); [|done].
    by destruct (process_discards_tables s2 ret). }
  pose proof (wf_geometry_static _ _ Hst3 Hwf) as Hwf3.
  assert (Hcs3 : cluster_size s3 = cs).
  { pose proof (static_geometry _ _ Hst3) as Hg3.
    unfold geometry in Hg3. by injection Hg3. }
  split; [by apply Hlt|]. split; [done|]. cbn zeta.
  split; [done|].
  assert (Hk0 : k = 0%nat ->
                start + Z.of_nat k * cs - offset <= 0 /\ s' = s3).
  { intros ->. split; [lia|].
    destruct fuel as [|fuel']; [done|].
    cbn [update_refcount] in Hundo. unfold update_refcount_body in Hundo.
    destruct (Z.ltb_spec (start + Z.of_nat 0 * cs - offset) 0);
      [by injection Hundo|].
    destruct (Z.eqb_spec (start + Z.of_nat 0 * cs - offset) 0);
      [by injection Hundo|lia]. }
  assert (Hk1 : k <> 0%nat ->
                0 < start + Z.of_nat k * cs - offset /\
                Z.land (offset + (start + Z.of_nat k * cs - offset) - 1)
                  (Z.lnot (cs - 1))
                = start + (Z.of_nat k - 1) * cs).
  { intros Hk1. split; [nia|].
    replace (offset + (start + Z.of_nat k * cs - offset) - 1)
      with (cs * (offset / cs + Z.of_nat k - 1) + (cs - 1)) by lia.
    unfold cs. rewrite range_start_div by done. fold cs.
    rewrite div_last_byte by done. lia. }
  split; [done|]. split; [done|].
  intros Hpres -> o i.
  destruct (update_refcount_pass_present fuel s offset len addend type
              ret _ rb s2 Hwf Hoff Hlen Hpres Hloop)
    as (k' & Hco' & _ & Ht3 & _ & Hl3 & Hc3).
  fold cs start s3 in Hco', Ht3, Hl3, Hc3.
  assert (k' = k) as -> by nia.
  assert (Hnonneg : forall o i, 0 <= i -> counter s' o i = counter s o i).
  { clear o i. intros o i Hi.
    destruct (decide (k = 0%nat)) as [Hz|Hnz].
    { destruct (Hk0 Hz) as [_ ->]. rewrite Hc3 by done. subst k.
      rewrite hits_0. destruct (_ <? _)%nat; lia. }
    destruct (Hk1 Hnz) as [Hulen Hulast].
    destruct fuel as [|fuel']; [done|].
    rewrite update_refcount_unfold in Hundo by done. cbn zeta in Hundo.
    rewrite Hcs3 in Hundo.
    destruct (update_refcount_loop _ _ _ _ _ _ _ _ _ _)
      as [[[[r' co'] rb'] s2']| |] eqn:Hloop' in Hundo; [|done..].
    unfold mbind, outcome_bind in Hundo.
    destruct (Z.ltb_spec r' 0) as [Hr'|Hr'].
    { destruct (update_refcount backend fuel' _ _ _ _ _) as [[d' s4']| |];
        [|done..]. injection Hundo as ? _. lia. }
    injection Hundo as -> <-.
    pose proof (clusters_between_div s3 offset _ Hwf3 Hulen) as Hn'.
    cbn zeta in Hn'. rewrite Hcs3 in Hn'.
    replace (offset + (start + Z.of_nat k * cs - offset) - 1)
      with (cs * (offset / cs + Z.of_nat k - 1) + (cs - 1)) in Hn' at 2
      by lia.
    rewrite div_last_byte in Hn' by done.
    rewrite <- Hcs3 in Hloop'.
    apply update_refcount_pass_present in Hloop'; try done; try lia.
    - rewrite Hcs3 in Hloop'.
      destruct Hloop' as (k'' & Hco'' & Hk'' & _ & _ & _ & Hc4).
      specialize (Hk'' eq_refl).
      assert (k'' = k) as -> by lia.
      rewrite Hc4, Hc3 by done. rewrite Hl3.
      rewrite (hits_ext s s3) by (by try apply static_geometry).
      destruct (_ <? _)%nat; lia.
    - rewrite Hcs3. intros c Hc. unfold block_present.
      rewrite (block_offset_of_ext s s3) by (by try apply static_geometry).
      apply Hpres. split; [lia|]. destruct Hc as [_ Hc].
      etransitivity; [exact Hc|].
      replace (offset + (start + Z.of_nat k * cs - offset) - 1)
        with (cs * (offset / cs + Z.of_nat k - 1) + (cs - 1)) by lia.
      rewrite div_last_byte by done.
      pose proof (clusters_between_div s offset len Hwf Hlen) as Hn.
      cbn zeta in Hn. fold cs start last in Hn. lia. }
  destruct (Z.le_gt_cases 0 i) as [Hi|Hi]; [by apply Hnonneg|].
  rewrite !(counter_negative_index _ _ i) by done. by apply Hnonneg.
Qed.

(** A successful [update_refcount] on a range of which every cluster has a
    refcount block: the refcount table stays as it is, and every counter
    grows by the addend once for each cluster of the range that it
    counts. *)
Theorem update_refcount_adds fuel s offset len addend type s' :
  let cs := cluster_size s in
  let first := offset / cs in
  let last := (offset + len - 1) / cs in
  wf_geometry s -> 0 <= offset -> 0 < len ->
  (forall c, first <= c <= last -> block_present s c) ->
  update_refcount backend (S fuel) s offset len addend type = Done (0, s') ->
  refcount_table s' = refcount_table s /\
  forall o i, 0 <= i < Z.of_nat (length (block_contents s o)) ->
    counter s' o i
    = counter s o i
      + addend * hits s first (Z.to_nat (last - first + 1)) (o, i).
Proof.
  intros cs first last Hwf Hoff Hlen Hpres Hrun.
  rewrite update_refcount_unfold in Hrun by done. cbn zeta in Hrun.
  destruct (update_refcount_loop _ _ _ _ _ _ _ _ _ _)
    as [[[[r co] rb] s2]| |] eqn:Hloop; [|done..].
  unfold mbind, outcome_bind in Hrun.
  destruct (Z.ltb_spec r 0) as [Hr|Hr].
  { destruct (update_refcount backend fuel _ _ _ _ _) as [[d s4]| |];
      [|done..]. injection Hrun as -> _. lia. }
  injection Hrun as -> <-.
  apply update_refcount_pass_present in Hloop; try done.
  destruct Hloop as (k & _ & Hk & Ht & _ & _ & Hc).
  specialize (Hk eq_refl).
  pose proof (clusters_between_div s offset len Hwf Hlen) as Hn.
  cbn zeta in Hn. fold cs first last in Hn.
  assert (k = Z.to_nat (last - first + 1)) as -> by (fold cs in Hk; lia).
  split; [done|].
  intros o i Hi. rewrite Hc by lia.
  by destruct (Nat.ltb_spec (Z.to_nat i) (length (block_contents s o)));
    [|lia].
Qed.

(** ** Growing the refcount table *)

Lemma to_uint32_small x : 0 <= x < 2 ^ 32 -> to_uint32 x = x.
Proof. intros. unfold to_uint32. by apply Z.mod_small. Qed.

Lemma to_uint32_range x : 0 <= to_uint32 x < 2 ^ 32.
Proof. unfold to_uint32. apply Z.mod_pos_bound. lia. Qed.

Lemma to_uint32_le x : 0 <= x -> to_uint32 x <= x.
Proof. intros. unfold to_uint32. apply Z.mod_le; lia. Qed.

Lemma next_refcount_table_size_loop_bounds fuel :
  forall min_clusters refcount_table_clusters r,
  1 <= refcount_table_clusters < 2 ^ 30 -> min_clusters < 2 ^ 29 ->
  next_refcount_table_size_loop fuel min_clusters refcount_table_clusters
  = Done r ->
  min_clusters <= r /\
  r <= Z.max refcount_table_clusters (2 * min_clusters).
Proof.
  induction fuel as [|fuel IH]; intros mc rtc r Hrtc Hmc;
    cbn [next_refcount_table_size_loop];
    destruct (Z.gtb_spec mc rtc); try done; try (intros [= <-]; lia).
  assert (Hstep : to_uint32 (to_uint32 (rtc * 3 + 1) / 2)
                  = (rtc * 3 + 1) / 2).
  { rewrite (to_uint32_small (rtc * 3 + 1)) by lia.
    apply to_uint32_small. split; [apply Z.div_pos; lia|].
    apply Z.div_lt_upper_bound; lia. }
  rewrite Hstep. intros Hr.
  assert (rtc < (rtc * 3 + 1) / 2 <= 2 * rtc).
  { split; [apply Z.lt_le_trans with (rtc + 1); [lia|];
             apply Z.div_le_lower_bound|apply Z.div_le_upper_bound]; lia. }
  apply IH in Hr; lia.
Qed.

Lemma shiftr_shiftl_gt x k : 0 <= k -> x < Z.shiftl (Z.shiftr x k + 1) k.
Proof.
  intros Hk. rewrite Z.shiftl_mul_pow2, Z.shiftr_div_pow2 by done.
  pose proof (Z.pow_pos_nonneg 2 k ltac:(lia) Hk).
  pose proof (Z.div_mod x (2 ^ k) ltac:(lia)).
  pose proof (Z.mod_pos_bound x (2 ^ k) ltac:(lia)). nia.
Qed.

Lemma next_refcount_table_size_bounds fuel s min_size r :
  wf_geometry s -> refcount_table_size s <= 2 ^ 20 ->
  0 <= min_size <= 2 ^ 21 ->
  next_refcount_table_size fuel s min_size = Done r ->
  min_size < r < 2 ^ 32.
Proof.
  intros (Hcb & _) Hsize Hmin. unfold next_refcount_table_size.
  rewrite (to_uint32_small min_size) by lia.
  set (k := cluster_bits s - 3).
  assert (Hk : 6 <= k <= 18) by (unfold k; lia).
  assert (H2k : 2 ^ 6 <= 2 ^ k <= 2 ^ 18)
    by (split; apply Z.pow_le_mono_r; lia).
  assert (Hmc : 0 <= Z.shiftr min_size k <= 2 ^ 15).
  { rewrite Z.shiftr_div_pow2 by lia. split; [apply Z.div_pos; lia|].
    apply Z.div_le_upper_bound; [lia|]. nia. }
  rewrite (to_uint32_small (_ + 1)) by lia.
  assert (Hold : 0 <= Z.shiftr (refcount_table_size s) k <= 2 ^ 14).
  { unfold refcount_table_size in *. rewrite Z.shiftr_div_pow2 by lia.
    split; [apply Z.div_pos; lia|]. apply Z.div_le_upper_bound; [lia|]. nia. }
  unfold mbind, outcome_bind.
  destruct (next_refcount_table_size_loop _ _ _) as [rtc| |] eqn:Hloop;
    [|done..].
  intros [= <-].
  apply next_refcount_table_size_loop_bounds in Hloop;
    [|unfold MAX; destruct (Z.gtb_spec 1 (Z.shiftr (refcount_table_size s) k));
      lia|lia].
  assert (Hold' : MAX 1 (Z.shiftr (refcount_table_size s) k) * 2 ^ k
                  <= 2 ^ 20).
  { unfold MAX. destruct (Z.gtb_spec 1 (Z.shiftr (refcount_table_size s) k));
      [lia|].
    rewrite Z.shiftr_div_pow2 by lia.
    pose proof (Z.mul_div_le (refcount_table_size s) (2 ^ k) ltac:(lia)).
    lia. }
  assert (Hnew : (Z.shiftr min_size k + 1) * 2 ^ k <= 2 ^ 21 + 2 ^ 18).
  { rewrite Z.shiftr_div_pow2 by lia.
    pose proof (Z.mul_div_le min_size (2 ^ k) ltac:(lia)). lia. }
  pose proof (shiftr_shiftl_gt min_size k ltac:(lia)) as Hgt.
  rewrite Z.shiftl_mul_pow2 in Hgt |- * by lia.
  assert (rtc * 2 ^ k < 2 ^ 32) by nia.
  rewrite to_uint32_small by nia. nia.
Qed.

Lemma geometry_sizes s :
  wf_geometry s ->
  2 ^ 9 <= cluster_size s <= 2 ^ 21 /\
  2 ^ 8 <= refcount_block_size s <= 2 ^ 20 /\
  cluster_size s = 2 * refcount_block_size s.
Proof.
  intros (Hcb & -> & -> & ->).
  assert (2 ^ 8 <= 2 ^ (cluster_bits s - 1) <= 2 ^ 20)
    by (split; apply Z.pow_le_mono_r; lia).
  assert (2 ^ cluster_bits s = 2 * 2 ^ (cluster_bits s - 1))
    by (rewrite <- Z.pow_succ_r by lia; f_equal; lia).
  lia.
Qed.

Lemma size_to_clusters_div s size :
  wf_geometry s ->
  size_to_clusters s size = (size + (cluster_size s - 1)) / cluster_size s.
Proof.
  intros (Hcb & Hcs & _). unfold size_to_clusters.
  rewrite Hcs. apply Z.shiftr_div_pow2. lia.
Qed.

Lemma grow_table_size_bounds fuel s blocks_used n :
  wf_geometry s -> refcount_table_size s <= 2 ^ 20 ->
  0 <= blocks_used <= 2 ^ 20 ->
  forall table_size r blocks_clusters,
  0 <= table_size < 2 ^ 32 ->
  grow_table_size fuel n s blocks_used table_size
  = Done (r, blocks_clusters) ->
  1 <= blocks_clusters /\ blocks_used + blocks_clusters <= r /\
  blocks_used + 1 < r < 2 ^ 32.
Proof.
  intros Hwf Hsize Hused.
  destruct (geometry_sizes s Hwf) as (Hcs & Hrbs & Hhalf).
  induction n as [|n IH]; intros t r bc Ht; cbn [grow_table_size]; [done|].
  rewrite size_to_clusters_div by done.
  set (cs := cluster_size s) in *. set (rbs := refcount_block_size s) in *.
  set (tc := (t * 8 + (cs - 1)) / cs).
  assert (Htc : 0 <= tc <= 2 ^ 26 + 1).
  { split; [apply Z.div_pos; lia|].
    apply Z.div_le_upper_bound; [lia|]. nia. }
  set (b1 := (tc + rbs - 1) / rbs).
  assert (Hb1 : 0 <= b1 <= 2 ^ 18 + 1).
  { split; [apply Z.div_pos; lia|].
    apply Z.div_le_upper_bound; [lia|]. nia. }
  set (X := (tc + (1 + b1) + rbs - 1) / rbs).
  assert (HX : 1 <= X <= 2 ^ 19 /\ b1 <= X).
  { split; [split|].
    - apply Z.div_le_lower_bound; lia.
    - apply Z.div_le_upper_bound; [lia|]. nia.
    - apply Z.div_le_mono; lia. }
  unfold mbind, outcome_bind.
  destruct (next_refcount_table_size fuel s (blocks_used + X))
    as [t'| |] eqn:Hnext; [|done..].
  apply next_refcount_table_size_bounds in Hnext; [|done|done|lia].
  destruct (Z.eqb_spec t t') as [->|Hne]; cbn [negb].
  - intros [= <- <-]. lia.
  - intros Hrun. apply IH in Hrun; lia.
Qed.

Lemma array_get_set_ne a i j v :
  0 <= i -> 0 <= j -> i <> j -> array_get (array_set a j v) i = array_get a i.
Proof.
  intros. unfold array_get, array_set.
  by rewrite list_lookup_insert_ne by lia.
Qed.

Lemma array_get_set_eq a i v :
  0 <= i < Z.of_nat (length a) -> array_get (array_set a i v) i = v.
Proof.
  intros. unfold array_get, array_set.
  by rewrite list_lookup_insert_eq by lia.
Qed.

Lemma array_set_length a i v : length (array_set a i v) = length a.
Proof. apply length_insert. Qed.

Lemma fill_metadata_entries_length s blocks_used blocks_clusters meta_offset
    new_table :
  length (fill_metadata_entries s blocks_used blocks_clusters meta_offset
            new_table)
  = length new_table.
Proof.
  unfold fill_metadata_entries.
  generalize (seqZ 0 blocks_clusters). intros l. revert new_table.
  induction l as [|x l IH]; intros t; cbn [foldl]; [done|].
  by rewrite IH, array_set_length.
Qed.

Lemma fill_metadata_entries_below s blocks_used blocks_clusters meta_offset
    new_table i :
  0 <= i < blocks_used ->
  array_get (fill_metadata_entries s blocks_used blocks_clusters meta_offset
               new_table) i
  = array_get new_table i.
Proof.
  intros Hi. unfold fill_metadata_entries.
  assert (Hl : Forall (fun j => 0 <= j) (seqZ 0 blocks_clusters)).
  { apply Forall_forall. intros j Hj%elem_of_seqZ. lia. }
  revert Hl. generalize (seqZ 0 blocks_clusters). intros l. revert new_table.
  induction l as [|x l IH]; intros t Hl; cbn [foldl]; [done|].
  inversion Hl; subst. rewrite IH by done.
  apply array_get_set_ne; lia.
Qed.

Lemma fill_metadata_entries_at s blocks_used blocks_clusters meta_offset
    new_table i :
  0 <= blocks_used -> 0 <= i < blocks_clusters ->
  blocks_used + blocks_clusters <= Z.of_nat (length new_table) ->
  array_get (fill_metadata_entries s blocks_used blocks_clusters meta_offset
               new_table) (blocks_used + i)
  = meta_offset + i * cluster_size s.
Proof.
  intros Hused Hi Hlen. unfold fill_metadata_entries.
  assert (Hl : Forall (fun j => 0 <= j < blocks_clusters)
                 (seqZ 0 blocks_clusters)).
  { apply Forall_forall. intros j Hj%elem_of_seqZ. lia. }
  assert (Hin : i ∈ seqZ 0 blocks_clusters) by (apply elem_of_seqZ; lia).
  revert Hl Hin. generalize (seqZ 0 blocks_clusters). intros l.
  induction l as [|x l IH] using rev_ind; intros Hl Hin.
  { by apply elem_of_nil in Hin. }
  rewrite foldl_app. cbn [foldl].
  apply Forall_app in Hl as [Hl Hx]. inversion Hx; subst.
  destruct (decide (i = x)) as [->|Hne].
  - apply array_get_set_eq.
    pose proof (fill_metadata_entries_length s blocks_used 0 meta_offset
                  new_table) as Hlen'.
    assert (Hfold : forall t, length (foldl (fun t0 i0 =>
                        array_set t0 (blocks_used + i0)
                          (meta_offset + i0 * cluster_size s)) t l)
                      = length t).
    { clear. induction l as [|y l IH]; intros t; cbn [foldl]; [done|].
      by rewrite IH, array_set_length. }
    rewrite Hfold. lia.
  - rewrite array_get_set_ne by lia. apply IH; [done|].
    apply elem_of_app in Hin as [?|Hin]; [done|].
    apply list_elem_of_singleton in Hin. done.
Qed.

Lemma bdrv_pwrite_sync_table s offset bytes ret s1 :
  bdrv_pwrite_sync backend s offset bytes = (ret, s1) ->
  refcount_table s1 = refcount_table s /\
  refcount_table_offset s1 = refcount_table_offset s.
Proof. by intros [= _ <-]. Qed.

Lemma write_refcount_blocks_table s meta_offset new_blocks blocks_clusters
    ret s1 :
  write_refcount_blocks backend s meta_offset new_blocks blocks_clusters
  = (ret, s1) ->
  refcount_table s1 = refcount_table s /\
  refcount_table_offset s1 = refcount_table_offset s.
Proof.
  unfold write_refcount_blocks.
  destruct (bdrv_pwrite_sync _ _ _ _) as [ret0 s0] eqn:Hw.
  apply bdrv_pwrite_sync_table in Hw.
  destruct (ret0 <? 0); by intros [= _ <-].
Qed.

Lemma blocks_used_bounds s cluster_index new_block :
  wf_geometry s -> 0 <= cluster_index ->
  to_uint32 (Z.shiftr cluster_index (refcount_block_bits s))
  < DIV_ROUND_UP
      (MAX (cluster_index + 1) (Z.shiftr new_block (cluster_bits s) + 1))
      (refcount_block_size s).
Proof.
  intros Hwf Hci.
  destruct (geometry_sizes s Hwf) as (_ & Hrbs & _).
  destruct Hwf as (Hcb & _ & Hrbb & Hsize).
  rewrite Z.shiftr_div_pow2, <- Hsize by lia.
  set (rbs := refcount_block_size s) in *.
  assert (0 <= cluster_index / rbs) by (apply Z.div_pos; lia).
  pose proof (to_uint32_le (cluster_index / rbs) ltac:(done)).
  assert (cluster_index / rbs + 1
          <= DIV_ROUND_UP (MAX (cluster_index + 1)
                             (Z.shiftr new_block (cluster_bits s) + 1)) rbs);
    [|lia].
  unfold DIV_ROUND_UP.
  replace (cluster_index / rbs + 1) with ((cluster_index + 1 * rbs) / rbs)
    by (rewrite Z.div_add by lia; done).
  apply Z.div_le_mono; [lia|]. unfold MAX.
  destruct (Z.gtb_spec (cluster_index + 1)
              (Z.shiftr new_block (cluster_bits s) + 1)); lia.
Qed.

(** C5: when [alloc_refcount_block] grows the refcount table (the index of
    the block it allocates lies beyond the table), the table that is put in
    force holds every entry of the old table at its index.  It is larger
    than the old one, holds the new block at the index that triggered the
    growth, and the blocks of the new metadata behind the blocks in use. *)
Theorem grow_refcount_table_keeps_entries fuel s cluster_index new_block s'
    old_table_offset old_table_size :
  let refcount_table_index :=
    to_uint32 (Z.shiftr cluster_index (refcount_block_bits s)) in
  let blocks_used :=
    DIV_ROUND_UP
      (MAX (cluster_index + 1) (Z.shiftr new_block (cluster_bits s) + 1))
      (refcount_block_size s) in
  wf_geometry s -> 0 <= cluster_index ->
  refcount_table_size s <= refcount_table_index ->
  grow_refcount_table backend fuel s cluster_index refcount_table_index
    new_block
  = Done (inr (s', old_table_offset, old_table_size)) ->
  old_table_offset = refcount_table_offset s /\
  old_table_size = refcount_table_size s /\
  refcount_table_size s < refcount_table_size s' /\
  (forall i, 0 <= i < refcount_table_size s ->
     array_get (refcount_table s') i = array_get (refcount_table s) i) /\
  array_get (refcount_table s') refcount_table_index = new_block /\
  exists blocks_clusters,
    1 <= blocks_clusters /\
    blocks_used + blocks_clusters <= refcount_table_size s' /\
    refcount_table_offset s'
    = blocks_used * refcount_block_size s * cluster_size s
      + blocks_clusters * cluster_size s /\
    forall i, 0 <= i < blocks_clusters ->
      array_get (refcount_table s') (blocks_used + i)
      = blocks_used * refcount_block_size s * cluster_size s
        + i * cluster_size s.
Proof.
  intros rti blocks_used Hwf Hci Hidx.
  pose proof (blocks_used_bounds s cluster_index new_block Hwf Hci) as Hused.
  fold rti blocks_used in Hused.
  pose proof (to_uint32_range (Z.shiftr cluster_index (refcount_block_bits s)))
    as Hrti. fold rti in Hrti.
  unfold grow_refcount_table. fold blocks_used.
  destruct (Z.gtb_spec blocks_used (QCOW_MAX_REFTABLE_SIZE / 8)) as [|Hmax];
    [done|].
  change (QCOW_MAX_REFTABLE_SIZE / 8) with (2 ^ 20) in Hmax.
  assert (Hsize : refcount_table_size s <= 2 ^ 20) by lia.
  unfold mbind, outcome_bind.
  destruct (next_refcount_table_size fuel s (blocks_used + 1))
    as [t0| |] eqn:Hnext; [|done..].
  apply next_refcount_table_size_bounds in Hnext; [|done|done|lia].
  destruct (grow_table_size fuel fuel s blocks_used t0)
    as [[table_size blocks_clusters]| |] eqn:Hgrow; [|done..].
  apply grow_table_size_bounds in Hgrow; [|done|done|lia|lia].
  destruct Hgrow as (Hbc & Hfit & Hts).
  destruct (write_refcount_blocks _ _ _ _ _) as [ret1 s1] eqn:Hw1.
  apply write_refcount_blocks_table in Hw1 as [Ht1 Ho1].
  destruct (ret1 <? 0); [done|].
  destruct (bdrv_pwrite_sync backend s1 _ _) as [ret2 s2] eqn:Hw2.
  apply bdrv_pwrite_sync_table in Hw2 as [Ht2 Ho2].
  destruct (ret2 <? 0); [done|].
  destruct (bdrv_pwrite_sync backend s2 _ _) as [ret3 s3] eqn:Hw3.
  apply bdrv_pwrite_sync_table in Hw3 as [Ht3 Ho3].
  destruct (ret3 <? 0); [done|].
  intros [= <- <- <-].
  unfold refcount_table_size in *. simpl_state.
  fold rti blocks_used.
  assert (Hlen : Z.of_nat (length (new_refcount_table s rti new_block
                                     blocks_used blocks_clusters table_size
                                     (blocks_used * refcount_block_size s
                                      * cluster_size s)))
                 = table_size).
  { unfold new_refcount_table.
    rewrite fill_metadata_entries_length, array_set_length, length_resize.
    lia. }
  split; [congruence|]. split; [congruence|]. split; [lia|].
  split; [|split].
  - intros i Hi. unfold new_refcount_table.
    rewrite fill_metadata_entries_below by lia.
    rewrite array_get_set_ne by lia.
    unfold array_get. rewrite lookup_resize by lia. done.
  - unfold new_refcount_table.
    rewrite fill_metadata_entries_below by lia.
    apply array_get_set_eq. rewrite length_resize. lia.
  - exists blocks_clusters. split; [done|]. split; [lia|]. split; [done|].
    intros i Hi. unfold new_refcount_table.
    apply fill_metadata_entries_at; [lia|done|].
    rewrite array_set_length, length_resize. lia.
Qed.

(** ** Bootstrapping a refcount block *)

Lemma get_refcount_table s cluster_index r s' :
  get_refcount backend s cluster_index = (r, s') ->
  refcount_table s' = refcount_table s.
Proof.
  apply (get_refcount_pres backend
           (fun s s' => refcount_table s' = refcount_table s)); try done.
  intros s1 s2 s3 H1 H2. by rewrite H2.
Qed.

Lemma alloc_clusters_noref_table fuel s size r s' :
  alloc_clusters_noref backend fuel s size = Done (r, s') ->
  refcount_table s' = refcount_table s.
Proof.
  apply (alloc_clusters_noref_pres backend
           (fun s s' => refcount_table s' = refcount_table s)); try done.
  intros s1 s2 s3 H1 H2. by rewrite H2.
Qed.

Lemma alloc_clusters_noref_loop_offset fuel :
  forall s nb_clusters i r s',
  alloc_clusters_noref_loop backend fuel s nb_clusters i = Done (r, s') ->
  0 <= r -> exists j, r = Z.shiftl j (cluster_bits s).
Proof.
  induction fuel as [|fuel IH]; intros s nb i r s';
    cbn [alloc_clusters_noref_loop]; destruct (i <? nb);
    try done; try (intros [= <- <-] _; eauto).
  destruct (get_refcount _ _ _) as [refcount s2] eqn:Hget.
  apply get_refcount_static in Hget.
  apply static_cluster_bits in Hget. simpl_state.
  destruct (Z.ltb_spec refcount 0); [intros [= <- <-]; lia|].
  rewrite <- Hget. destruct (negb _); apply IH.
Qed.

Lemma alloc_clusters_noref_offset fuel s size r s' :
  alloc_clusters_noref backend fuel s size = Done (r, s') ->
  0 <= r -> exists j, r = Z.shiftl j (cluster_bits s).
Proof.
  unfold alloc_clusters_noref. intros H Hr.
  apply alloc_clusters_noref_loop_offset in H as [j ->]; [|done].
  exists j. destruct (cache_discards s); [|done].
  by destruct (process_discards_tables s 0) as [_ ->%static_cluster_bits].
Qed.

Lemma in_same_refcount_block_static s s' a b :
  static_part s' = static_part s ->
  in_same_refcount_block s' a b = in_same_refcount_block s a b.
Proof.
  intros H%static_geometry. unfold geometry in H.
  injection H as H1 H2 H3 H4. unfold in_same_refcount_block.
  by rewrite H1, H3.
Qed.

Lemma qcow2_cache_get_empty_result s offset table :
  qcow2_cache_get_empty backend s offset table
  = if backend (io_clock s) <? 0 then
      (backend (io_clock s), table, set_io_clock (S (io_clock s)) s)
    else
      (0, Some offset,
       set_refcount_block_cache
         (<[offset := default (cache_scratch s, false)
                        (refcount_block_cache s !! offset)]>
            (refcount_block_cache s))
         (set_io_clock (S (io_clock s)) s)).
Proof.
  unfold qcow2_cache_get_empty, backend_request.
  destruct (backend (io_clock s) <? 0); [done|]. simpl_state.
  destruct (refcount_block_cache s !! offset) as [e|] eqn:Hc; cbn [default].
  - rewrite insert_id by done. by destruct s.
  - done.
Qed.

(** What the self-describing branch leaves behind. *)
Lemma alloc_refcount_block_new_self fuel rec s cluster_index ret refcount_block
    new_block s1 :
  alloc_refcount_block_new backend fuel rec s cluster_index
  = Done (ret, refcount_block, new_block, s1) ->
  0 <= ret ->
  in_same_refcount_block s new_block
    (Z.shiftl cluster_index (cluster_bits s)) = true ->
  (exists j, new_block = Z.shiftl j (cluster_bits s)) /\ 0 <= new_block /\
  refcount_table s1 = refcount_table s /\
  static_part s1 = static_part s /\
  refcount_block_cache s1 !! new_block
  = Some (self_describing_block s new_block, false) /\
  file_clusters s1 !! new_block = Some (self_describing_block s new_block).
Proof.
  unfold alloc_refcount_block_new.
  destruct (qcow2_cache_flush backend s L2_TABLE_CACHE) as [ret0 s0] eqn:Hfl.
  assert (Hs0 : refcount_table s0 = refcount_table s
                /\ static_part s0 = static_part s).
  { revert Hfl. unfold qcow2_cache_flush, backend_request.
    destruct (_ <? 0); by intros [= _ <-]. }
  destruct Hs0 as [Ht0 Hst0].
  destruct (Z.ltb_spec ret0 0); [intros [= <- _ _ _]; lia|].
  unfold mbind, outcome_bind.
  destruct (alloc_clusters_noref _ _ _ _) as [[nb s2]| |] eqn:Halloc;
    [|done..].
  pose proof (alloc_clusters_noref_table _ _ _ _ _ Halloc) as Ht2.
  pose proof (alloc_clusters_noref_static _ _ _ _ _ Halloc) as Hst2.
  destruct (Z.ltb_spec nb 0); [intros [= <- _ _ _]; lia|].
  apply alloc_clusters_noref_offset in Halloc as [j Hj]; [|done].
  assert (Hst : static_part s2 = static_part s) by congruence.
  pose proof (static_cluster_bits _ _ Hst) as Hcb.
  pose proof (static_cluster_bits _ _ Hst0) as Hcb0.
  rewrite (in_same_refcount_block_static s s2) by done. rewrite Hcb.
  intros Hrun Hret Hsame.
  destruct (in_same_refcount_block s nb _) eqn:Hin; cycle 1.
  { exfalso. unfold fail_block, write_new_refcount_block, qcow2_cache_flush,
      qcow2_cache_get_empty, backend_request in Hrun.
    split_run Hrun; congruence. }
  revert Hrun. rewrite qcow2_cache_get_empty_result.
  destruct (Z.ltb_spec (backend (io_clock s2)) 0) as [Hio|Hio].
  { destruct (Z.ltb_spec (backend (io_clock s2)) 0); [|lia].
    unfold fail_block. intros [= <- _ _ _]. lia. }
  cbn [Z.ltb Z.compare].
  unfold write_new_refcount_block.
  set (s5 := qcow2_cache_entry_mark_dirty _ _).
  assert (Hs5 : refcount_table s5 = refcount_table s2 /\
                static_part s5 = static_part s2 /\
                refcount_block_cache s5 !! nb
                = Some (self_describing_block s nb, true)).
  { unfold s5, qcow2_cache_entry_mark_dirty, block_store, block_memset0,
      self_describing_block, zero_block.
    simpl_state. repeat split.
    rewrite !lookup_alter_eq, lookup_insert_eq. cbn.
    apply static_geometry in Hst. unfold geometry in Hst.
    injection Hst as H1 H2 H3 H4. by rewrite ?H1, ?H2, ?H3, ?H4. }
  destruct Hs5 as (Ht5 & Hst5 & Hc5). clearbody s5.
  unfold qcow2_cache_flush, backend_request. simpl_state.
  destruct (Z.ltb_spec (backend (io_clock s5)) 0) as [Hio5|Hio5].
  { cbv beta iota zeta delta [fail_block qcow2_cache_put].
    destruct (Z.ltb_spec (backend (io_clock s5)) 0); [|lia].
    intros [= <- _ _ _]. lia. }
  cbn [Z.ltb Z.compare]. intros [= <- <- <- <-]. simpl_state.
  split; [exists j; congruence|]. split; [done|].
  split; [congruence|]. split; [by rewrite <- Hst, <- Hst5|]. split.
  - by rewrite lookup_fmap, Hc5.
  - apply lookup_union_Some_l. unfold dirty_blocks.
    rewrite lookup_fmap.
    rewrite (map_lookup_filter_Some_2 _ _ nb
               (self_describing_block s nb, true)); done.
Qed.

Lemma get_refcount_reads s cluster_index :
  let refcount_table_index :=
    to_uint64 (Z.shiftr cluster_index (refcount_block_bits s)) in
  let refcount_block_offset :=
    array_get (refcount_table s) refcount_table_index in
  refcount_table_index < refcount_table_size s ->
  refcount_block_offset <> 0 ->
  offset_into_cluster s refcount_block_offset = 0 ->
  0 <= backend (io_clock s) ->
  (get_refcount backend s cluster_index).1
  = counter s refcount_block_offset
      (Z.land cluster_index (refcount_block_size s - 1)).
Proof.
  cbn zeta. unfold get_refcount.
  set (idx := to_uint64 _). set (entry := array_get _ idx).
  intros Hsz He Ha Hio.
  destruct (Z.leb_spec (refcount_table_size s) idx); [lia|].
  destruct (Z.eqb_spec entry 0); [done|].
  destruct (Z.eqb_spec (offset_into_cluster s entry) 0); [|done].
  cbn [negb]. rewrite qcow2_cache_get_ok by done. unfold qcow2_cache_put.
  cbn [Z.ltb Z.compare fst snd]. unfold counter. simpl_state.
  unfold block_load, block_contents, file_cluster, zero_block.
  simpl_state. rewrite lookup_insert_eq.
  by destruct (refcount_block_cache s !! entry).
Qed.

Lemma to_uint64_small x : 0 <= x < 2 ^ 64 -> to_uint64 x = x.
Proof. intros. unfold to_uint64. by apply Z.mod_small. Qed.

Lemma in_same_refcount_block_index s new_block cluster_index :
  wf_geometry s -> 0 <= cluster_index ->
  Z.shiftl cluster_index (cluster_bits s) < 2 ^ 63 ->
  0 <= new_block < 2 ^ 63 ->
  in_same_refcount_block s new_block
    (Z.shiftl cluster_index (cluster_bits s)) = true ->
  Z.shiftr (Z.shiftr new_block (cluster_bits s)) (refcount_block_bits s)
  = Z.shiftr cluster_index (refcount_block_bits s).
Proof.
  intros (Hcb & _ & Hrbb & _) Hci Hoff Hnb. unfold in_same_refcount_block.
  assert (0 <= Z.shiftl cluster_index (cluster_bits s))
    by (apply Z.shiftl_nonneg; lia).
  rewrite !to_uint64_small by lia.
  intros Heq%Z.eqb_eq.
  rewrite Z.shiftr_shiftr, Heq by lia.
  rewrite <- Z.shiftr_shiftr by lia.
  by rewrite Z.shiftr_shiftl_l, Z.sub_diag, Z.shiftl_0_r by lia.
Qed.

(** When [alloc_refcount_block] creates a refcount block in a cluster that
    the block itself describes, the cluster is not at offset 0 and the table
    is large enough for the block: the block that reaches the disk is zero
    except for its own entry, which is 1, the call asks for a restart, and
    [get_refcount] of the block's own cluster then is 1. *)
Theorem alloc_refcount_block_self_describing fuel s cluster_index
    refcount_block ret rb new_block s1 :
  let q := Z.shiftr cluster_index (refcount_block_bits s) in
  let own_index := Z.shiftr new_block (cluster_bits s) in
  wf_geometry s -> 0 <= cluster_index ->
  Z.shiftl cluster_index (cluster_bits s) < 2 ^ 63 ->
  q < refcount_table_size s < 2 ^ 32 ->
  Z.land (array_get (refcount_table s) q) REFT_OFFSET_MASK = 0 ->
  alloc_refcount_block_new backend fuel (update_refcount backend fuel) s
    cluster_index
  = Done (ret, rb, new_block, s1) ->
  0 <= ret ->
  in_same_refcount_block s new_block
    (Z.shiftl cluster_index (cluster_bits s)) = true ->
  new_block <> 0 -> new_block < 2 ^ 63 ->
  0 <= backend (io_clock s1) ->
  exists s',
    alloc_refcount_block backend fuel s cluster_index refcount_block
    = Done (- EAGAIN, rb, s') /\
    file_clusters s' !! new_block = Some (self_describing_block s new_block) /\
    block_contents s' new_block = self_describing_block s new_block /\
    (forall i, 0 <= i < refcount_block_size s ->
       be16_to_cpu (array_get (self_describing_block s new_block) i)
       = if i =? Z.land own_index (refcount_block_size s - 1) then 1 else 0) /\
    array_get (refcount_table s') q = new_block /\
    (0 <= backend (io_clock s') ->
     (get_refcount backend s' own_index).1 = 1).
Proof.
  intros q own Hwf Hci Hoff Hq Habsent Hnew Hret Hsame Hnz Hmax Hio.
  destruct (alloc_refcount_block_new_self _ _ _ _ _ _ _ _ Hnew Hret Hsame)
    as ([j Hj] & Hnb & Ht1 & Hst1 & Hc1 & Hf1).
  pose proof (in_same_refcount_block_index s new_block cluster_index Hwf Hci
                Hoff ltac:(lia) Hsame) as Hidx.
  fold own q in Hidx.
  assert (Hq0 : 0 <= q) by (apply Z.shiftr_nonneg; lia).
  destruct (geometry_sizes s Hwf) as (Hcs & Hrbs & Hhalf).
  pose proof (static_geometry _ _ Hst1) as Hg1.
  unfold geometry in Hg1. injection Hg1 as Hcb1 Hcs1 Hrbb1 Hrbs1.
  set (s' := set_refcount_table (array_set (refcount_table s1) q new_block)
               (set_io_clock (S (io_clock s1))
                  (log_event (EvPwriteSync (refcount_table_offset s1 + q * 8) 8)
                     s1))).
  exists s'.
  assert (Hown : 0 <= Z.land own (refcount_block_size s - 1)
                 < refcount_block_size s).
  { destruct Hwf as (? & _ & ? & Hsize). rewrite Hsize.
    replace (2 ^ refcount_block_bits s - 1)
      with (Z.ones (refcount_block_bits s))
      by (rewrite Z.ones_equiv; lia).
    rewrite Z.land_ones by lia. apply Z.mod_pos_bound.
    apply Z.pow_pos_nonneg; lia. }
  assert (Hzlen : Z.of_nat (length (zero_block s)) = refcount_block_size s).
  { unfold zero_block. rewrite length_replicate, Hhalf.
    rewrite Z.mul_comm, Z.div_mul by lia. lia. }
  split; [|split; [|split; [|split; [|split]]]].
  - unfold alloc_refcount_block, alloc_refcount_block_body.
    rewrite to_uint32_small by lia. fold q.
    destruct (Z.ltb_spec q (refcount_table_size s)); [|lia].
    rewrite Habsent. cbn [Z.eqb negb]. rewrite Hnew.
    unfold mbind, outcome_bind.
    destruct (Z.ltb_spec ret 0); [lia|].
    assert (Hsz1 : refcount_table_size s1 = refcount_table_size s)
      by (unfold refcount_table_size; by rewrite Ht1).
    rewrite Hsz1.
    destruct (Z.ltb_spec q (refcount_table_size s)); [|lia].
    unfold hookup_refcount_block, bdrv_pwrite_sync, backend_request.
    simpl_state.
    destruct (Z.ltb_spec (backend (io_clock s1)) 0); [lia|]. done.
  - done.
  - unfold block_contents. unfold s'. simpl_state. by rewrite Hc1.
  - intros i Hi. unfold self_describing_block. fold own.
    destruct (Z.eqb_spec i (Z.land own (refcount_block_size s - 1)))
      as [->|Hne].
    + rewrite array_get_set_eq by lia. done.
    + rewrite array_get_set_ne by lia.
      unfold array_get, zero_block.
      rewrite lookup_replicate_2; [done|]. rewrite <- Hzlen in Hi.
      unfold zero_block in Hi. rewrite length_replicate in Hi. lia.
  - unfold s'. simpl_state. apply array_get_set_eq.
    rewrite Ht1. unfold refcount_table_size in Hq. lia.
  - intros Hio'.
    assert (Hsz' : refcount_table_size s' = refcount_table_size s).
    { unfold refcount_table_size, s'. simpl_state.
      by rewrite array_set_length, Ht1. }
    assert (Hrbb' : refcount_block_bits s' = refcount_block_bits s)
      by (unfold s'; simpl_state; done).
    assert (Hrbs' : refcount_block_size s' = refcount_block_size s)
      by (unfold s'; simpl_state; done).
    assert (Hentry : array_get (refcount_table s') q = new_block).
    { unfold s'. simpl_state. apply array_get_set_eq.
      rewrite Ht1. unfold refcount_table_size in Hq. lia. }
    rewrite get_refcount_reads; rewrite ?Hrbb', ?Hidx, ?Hrbs',
      ?(to_uint64_small q), ?Hentry, ?Hsz' by lia; try done; try lia.
    + unfold counter, block_contents. unfold s' at 1. simpl_state.
      rewrite Hc1. cbn [fst]. unfold self_describing_block. fold own.
      rewrite array_get_set_eq by lia. done.
    + rewrite offset_into_cluster_mod
        by (unfold s', wf_geometry; simpl_state;
            rewrite Hcb1, Hcs1, Hrbb1, Hrbs1; exact Hwf).
      unfold s'. simpl_state. rewrite Hcs1, Hj.
      destruct Hwf as (? & -> & _).
      rewrite Z.shiftl_mul_pow2 by lia. apply Z.mod_mul.
      apply Z.pow_nonzero; lia.
Qed.

End Properties.

(** * Properties of the in-memory refcount table *)

Section CheckerProperties.
Variable backend : nat -> Z.

Lemma imrt_find_gap_spec refcount_table cluster_count first entries :
  forall cluster k ff fg,
  0 <= cluster ->
  drop (Z.to_nat cluster) refcount_table = entries ->
  gap_scan refcount_table cluster_count first cluster k ff fg ->
  let '(cluster', k', ff', fg') :=
    imrt_find_gap entries cluster_count cluster k ff fg in
  gap_scan refcount_table cluster_count first cluster' k' ff' fg' /\
  cluster <= cluster' <= Z.max cluster (Z.of_nat (length refcount_table)) /\
  (k <= cluster_count -> k' <= cluster_count) /\
  (k' < cluster_count -> Z.of_nat (length refcount_table) <= cluster').
Proof.
  induction entries as [|e entries IH]; intros cluster k ff fg Hc Hdrop Hinv;
    cbn [imrt_find_gap].
  { split; [done|]. split; [lia|]. split; [done|]. intros _.
    apply drop_nil_inv in Hdrop. lia. }
  assert (Hlook : refcount_table !! Z.to_nat cluster = Some e).
  { rewrite <- (Nat.add_0_r (Z.to_nat cluster)), <- lookup_drop, Hdrop.
    done. }
  pose proof (lookup_lt_Some _ _ _ Hlook) as Hin.
  assert (Hget : array_get refcount_table cluster = e).
  { unfold array_get. by rewrite Hlook. }
  assert (Hnext : drop (Z.to_nat (cluster + 1)) refcount_table = entries).
  { replace (Z.to_nat (cluster + 1)) with (S (Z.to_nat cluster)) by lia.
    rewrite (drop_S _ _ _ Hlook) in Hdrop. by injection Hdrop. }
  destruct (Z.ltb_spec k cluster_count) as [Hlt|Hge];
    [|split; [done|]; split; [lia|]; split; [done|]; lia].
  destruct Hinv as (Hfirst & Hk & Hzero & Hfit & Hgap).
  destruct (Z.eqb_spec e 0) as [He|He].
  - specialize (IH (cluster + 1) (k + 1) (if fg then cluster else ff) false
                  ltac:(lia) Hnext).
    destruct (imrt_find_gap _ _ _ _ _ _) as [[[c' k'] ff'] fg'].
    destruct IH as (Hinv' & Hle & Hk' & Hend);
      [|split; [done|]; split; [lia|]; split; [lia|]; done].
    split; [lia|]. split; [lia|]. split; [|split].
    + intros j Hj. destruct (decide (j = cluster)) as [->|]; [congruence|].
      apply Hzero. lia.
    + intros c Hcr. destruct (Hfit c ltac:(lia)) as (j & ? & ? & ?).
      exists j. repeat split; try done; lia.
    + destruct fg.
      * destruct Hgap as [-> Hnz]. split; [lia|]. split; [congruence|].
        intros j Hj. apply Hnz. lia.
      * destruct Hgap as (? & ? & ?). repeat split; try done; lia.
  - specialize (IH (cluster + 1) 0 ff fg ltac:(lia) Hnext).
    destruct (imrt_find_gap _ _ _ _ _ _) as [[[c' k'] ff'] fg'].
    destruct IH as (Hinv' & Hle & Hk' & Hend);
      [|split; [done|]; split; [lia|]; split; [lia|]; done].
    split; [lia|]. split; [lia|]. split; [|split].
    + intros j Hj. lia.
    + intros c Hcr. destruct (Z.lt_ge_cases c (cluster - k)) as [Hlow|Hhigh].
      * destruct (Hfit c ltac:(lia)) as (j & ? & ? & ?).
        exists j. repeat split; try done; lia.
      * exists cluster. repeat split; (lia || congruence).
    + destruct fg.
      * destruct Hgap as [-> Hnz]. split; [done|].
        intros j Hj. destruct (decide (j = cluster)) as [->|];
          [congruence|]. apply Hnz. lia.
      * destruct Hgap as (? & ? & ?). repeat split; try done; lia.
Qed.

Lemma array_get_beyond a i :
  Z.of_nat (length a) <= i -> array_get a i = 0.
Proof.
  intros Hi. unfold array_get. by rewrite lookup_ge_None_2 by lia.
Qed.

Lemma array_get_resize a n i :
  0 <= i -> (length a <= n)%nat ->
  array_get (resize n 0 a) i = array_get a i.
Proof.
  intros Hi Hn. unfold array_get.
  destruct (decide (Z.to_nat i < length a)%nat).
  - by rewrite lookup_resize by lia.
  - rewrite (lookup_ge_None_2 a) by lia.
    destruct (decide (Z.to_nat i < n)%nat).
    + by rewrite lookup_resize_new by lia.
    + by rewrite lookup_resize_old by lia.
Qed.

Lemma mark_clusters_length c l : forall t,
  length (foldl (fun t i => array_set t (c + i) 1) t l) = length t.
Proof.
  induction l as [|x l IH]; intros t; cbn [foldl]; [done|].
  by rewrite IH, array_set_length.
Qed.

Lemma mark_clusters_get c n t i :
  0 <= c -> 0 <= i -> c + n <= Z.of_nat (length t) ->
  array_get (foldl (fun t i => array_set t (c + i) 1) t (seqZ 0 n)) i
  = if decide (c <= i < c + n) then 1 else array_get t i.
Proof.
  intros Hc Hi Hlen.
  destruct (Z.le_gt_cases n 0) as [Hn|Hn].
  { rewrite seqZ_nil by done. cbn [foldl]. by rewrite decide_False by lia. }
  rewrite <- (Z2Nat.id n) in * by lia.
  induction (Z.to_nat n) as [|m IH]; [lia|].
  rewrite seqZ_S, foldl_app. cbn [foldl]. rewrite Z.add_0_l.
  destruct (decide (i = c + Z.of_nat m)) as [->|Hne].
  - rewrite array_get_set_eq by (rewrite mark_clusters_length; lia).
    by rewrite decide_True by lia.
  - rewrite array_get_set_ne by lia.
    destruct m as [|m].
    + cbn [foldl seqZ]. rewrite seqZ_nil by lia. cbn [foldl].
      by rewrite decide_False by lia.
    + rewrite IH by lia.
      destruct (decide (c <= i < c + Z.of_nat (S m)));
        [by rewrite decide_True by lia|by rewrite decide_False by lia].
Qed.

(** [alloc_clusters_imrt] is first-fit.  A successful call returns the
    offset of the first run of [cluster_count] clusters, at or after
    [*first_free_cluster], that are free in the table or lie beyond its
    end; these entries are set to 1, no other entry changes, and the table
    grows only as far as the run reaches.  [*first_free_cluster] moves to
    the first free entry of the table at or after its old value ("the first
    gap found"); when the table has no free entry from there on, it stays
    where it was. *)
Theorem alloc_clusters_imrt_first_fit (s : BDRVQcowState) (cluster_count : Z)
    (refcount_table : list Z) (first_free_cluster : Z) ret refcount_table'
    first_free_cluster' s' :
  0 <= first_free_cluster -> 0 < cluster_count ->
  alloc_clusters_imrt backend s cluster_count refcount_table
    first_free_cluster
  = (ret, refcount_table', first_free_cluster', s') ->
  0 <= ret ->
  exists cluster,
    ret = Z.shiftl cluster (cluster_bits s) /\
    first_free_cluster <= cluster /\
    (forall i, cluster <= i < cluster + cluster_count ->
       array_get refcount_table i = 0 /\ array_get refcount_table' i = 1) /\
    (forall i, 0 <= i -> ~ cluster <= i < cluster + cluster_count ->
       array_get refcount_table' i = array_get refcount_table i) /\
    Z.of_nat (length refcount_table')
    = Z.max (Z.of_nat (length refcount_table)) (cluster + cluster_count) /\
    (forall c, first_free_cluster <= c < cluster ->
       exists j, c <= j < c + cluster_count /\
                 array_get refcount_table j <> 0) /\
    first_free_cluster <= first_free_cluster' <= cluster /\
    (forall j, first_free_cluster <= j < first_free_cluster' ->
       array_get refcount_table j <> 0) /\
    ((first_free_cluster' < Z.of_nat (length refcount_table) /\
      array_get refcount_table first_free_cluster' = 0) \/
     (first_free_cluster' = first_free_cluster /\
      forall j, first_free_cluster <= j < Z.of_nat (length refcount_table) ->
        array_get refcount_table j <> 0)).
Proof.
  intros Hfirst Hcount. unfold alloc_clusters_imrt.
  pose proof (imrt_find_gap_spec refcount_table cluster_count
                first_free_cluster _ first_free_cluster 0 first_free_cluster
                true Hfirst eq_refl) as Hscan.
  destruct (imrt_find_gap _ _ _ _ _ _) as [[[c' k'] ff'] fg'].
  destruct Hscan as ((Hlow & Hk0 & Hzero & Hfit & Hgap) & Hle & Hk & Hend).
  { split; [lia|]. split; [lia|]. split; [intros; lia|].
    split; [intros; lia|]. split; [done|]. intros; lia. }
  specialize (Hk ltac:(lia)).
  assert (Hff : first_free_cluster <= ff' <= c' - k' /\
                (forall j, first_free_cluster <= j < ff' ->
                           array_get refcount_table j <> 0) /\
                ((ff' < Z.of_nat (length refcount_table) /\
                  array_get refcount_table ff' = 0) \/
                 (ff' = first_free_cluster /\
                  forall j,
                    first_free_cluster <= j < Z.of_nat (length refcount_table) ->
                    array_get refcount_table j <> 0))).
  { destruct fg'.
    - destruct Hgap as [-> Hnz]. split; [lia|]. split; [intros; lia|].
      right. split; [done|]. intros j Hj. apply Hnz.
      destruct (Z.eq_dec k' 0) as [->|Hk']; [specialize (Hend Hcount); lia|].
      specialize (Hzero (c' - k') ltac:(lia)).
      specialize (Hnz (c' - k') ltac:(lia)). done.
    - destruct Hgap as (Hr & Hz & Hnz). split; [|split; [done|]].
      + split; [lia|].
        destruct (Z.le_gt_cases ff' (c' - k')) as [|Hgt]; [done|].
        destruct (Z.eq_dec k' 0) as [->|]; [lia|].
        specialize (Hzero (c' - k') ltac:(lia)).
        specialize (Hnz (c' - k') ltac:(lia)). done.
      + left. split; [lia|done]. }
  destruct Hff as (Hffr & Hffnz & Hffgap).
  set (c := c' - k') in *.
  assert (Hfree : forall i, c <= i < c + cluster_count ->
                            array_get refcount_table i = 0).
  { intros i Hi. destruct (Z.lt_ge_cases i c') as [|Hge]; [apply Hzero; lia|].
    apply array_get_beyond. unfold c in Hi. specialize (Hend ltac:(lia)).
    lia. }
  assert (Hfit' : forall c0, first_free_cluster <= c0 < c ->
                    exists j, c0 <= j < c0 + cluster_count /\
                              array_get refcount_table j <> 0).
  { intros c0 Hc0. destruct (Hfit c0 Hc0) as (j & ? & ? & ?). by exists j. }
  assert (Hmark : forall t s1,
            (length refcount_table <= length t)%nat ->
            Z.of_nat (length t)
            = Z.max (Z.of_nat (length refcount_table)) (c + cluster_count) ->
            (forall i, 0 <= i -> array_get t i = array_get refcount_table i) ->
            (Z.shiftl c (cluster_bits s),
             foldl (fun t i => array_set t (c + i) 1) t
               (seqZ 0 cluster_count), ff', s1)
            = (ret, refcount_table', first_free_cluster', s') ->
            exists cluster,
              ret = Z.shiftl cluster (cluster_bits s) /\
              first_free_cluster <= cluster /\
              (forall i, cluster <= i < cluster + cluster_count ->
                 array_get refcount_table i = 0 /\
                 array_get refcount_table' i = 1) /\
              (forall i, 0 <= i -> ~ cluster <= i < cluster + cluster_count ->
                 array_get refcount_table' i = array_get refcount_table i) /\
              Z.of_nat (length refcount_table')
              = Z.max (Z.of_nat (length refcount_table))
                  (cluster + cluster_count) /\
              (forall c0, first_free_cluster <= c0 < cluster ->
                 exists j, c0 <= j < c0 + cluster_count /\
                           array_get refcount_table j <> 0) /\
              first_free_cluster <= first_free_cluster' <= cluster /\
              (forall j, first_free_cluster <= j < first_free_cluster' ->
                 array_get refcount_table j <> 0) /\
              ((first_free_cluster' < Z.of_nat (length refcount_table) /\
                array_get refcount_table first_free_cluster' = 0) \/
               (first_free_cluster' = first_free_cluster /\
                forall j,
                  first_free_cluster <= j < Z.of_nat (length refcount_table) ->
                  array_get refcount_table j <> 0))).
  { intros t s1 Hlen Hmax Hsame [= <- <- <- <-]. exists c.
    split; [done|]. split; [lia|]. split; [|split; [|split]].
    - intros i Hi. split; [by apply Hfree|].
      rewrite mark_clusters_get by lia. by rewrite decide_True.
    - intros i Hi Hout. rewrite mark_clusters_get by lia.
      rewrite decide_False by done. by apply Hsame.
    - by rewrite mark_clusters_length.
    - done. }
  destruct (Z.ltb_spec k' cluster_count) as [Hshort|Hfull].
  - unfold g_try_realloc, backend_request.
    destruct (Z.leb_spec 0 (backend (io_clock s))); cbn [negb].
    + intros Hrun Hret. revert Hrun.
      replace (c' + cluster_count - k') with (c + cluster_count)
        by (unfold c; lia).
      specialize (Hend Hshort).
      apply Hmark.
      * rewrite length_resize. lia.
      * rewrite length_resize. lia.
      * intros i Hi. apply array_get_resize; lia.
    + intros [= <- _ _ _] Hret. unfold ENOMEM in Hret. lia.
  - intros Hrun _. revert Hrun. apply Hmark; [done| |done].
    assert (c + cluster_count <= Z.of_nat (length refcount_table)); [|lia].
    assert (k' = cluster_count) as -> by lia.
    unfold c.
    destruct (Z.le_gt_cases c' (Z.of_nat (length refcount_table)));
      [lia|].
    lia.
Qed.

Lemma overflows_0 t k : overflows t k 0 = 0.
Proof. done. Qed.

Lemma overflows_S t k m :
  overflows t k (S m)
  = (if decide (to_uint16 (array_get t k + 1) = 0) then 1 else 0)
    + overflows t (k + 1) m.
Proof.
  unfold overflows. rewrite Nat2Z.inj_succ, seqZ_cons by lia.
  rewrite Z.pred_succ, filter_cons. rewrite <- Z.add_1_r.
  destruct (decide (to_uint16 (array_get t k + 1) = 0)); cbn [length];
    rewrite ?Nat2Z.inj_succ; unfold Z.succ; ring.
Qed.

Lemma overflows_ext t t' m : forall k,
  (forall i, k <= i < k + Z.of_nat m -> array_get t' i = array_get t i) ->
  overflows t' k m = overflows t k m.
Proof.
  induction m as [|m IH]; intros k Hsame; [done|].
  rewrite !overflows_S, Hsame by lia. f_equal. apply IH.
  intros i Hi. apply Hsame. lia.
Qed.

(** The loop of [inc_refcounts] from cluster [k] on, [n] clusters to go:
    [m] of them are counted before it returns. *)
Lemma inc_refcounts_loop_spec (s : BDRVQcowState) n :
  wf_geometry s ->
  forall fuel res t k ret res' t' s1 s',
  0 <= k -> cluster_size s * (k + Z.of_nat n) <= 2 ^ 63 ->
  Z.of_nat (length t) < 2 ^ 63 ->
  cluster_bits s1 = cluster_bits s -> cluster_size s1 = cluster_size s ->
  inc_refcounts_loop backend fuel s1 res t (cluster_size s * k)
    (cluster_size s * (k + Z.of_nat n - 1))
  = Done (ret, res', t', s') ->
  exists m : nat,
    (m <= n)%nat /\
    (ret = 0 /\ m = n \/
     ret = - ENOMEM /\ (m < n)%nat /\
     Z.of_nat (length t') <= k + Z.of_nat m /\
     exists r, backend r < 0) /\
    Z.of_nat (length t')
    = (if decide (m = 0%nat) then Z.of_nat (length t)
       else Z.max (Z.of_nat (length t)) (k + Z.of_nat m)) /\
    (forall i, 0 <= i ->
       array_get t' i
       = if decide (k <= i < k + Z.of_nat m)
         then to_uint16 (array_get t i + 1) else array_get t i) /\
    check_errors res' = check_errors res + (if decide (ret = 0) then 0 else 1) /\
    corruptions res' = corruptions res + overflows t k m /\
    corruptions_fixed res' = corruptions_fixed res /\
    leaks res' = leaks res /\ leaks_fixed res' = leaks_fixed res.
Proof.
  intros Hwf.
  pose proof (cluster_size_pos s Hwf) as Hcs.
  destruct (geometry_sizes s Hwf) as (Hcsr & _).
  induction n as [|n IH];
    intros fuel res t k ret res' t' s1 s' Hk Hfit Hlen Hcb1 Hcs1;
    destruct fuel as [|fuel]; cbn [inc_refcounts_loop].
  1,2: destruct (Z.leb_spec (cluster_size s * k)
                (cluster_size s * (k + Z.of_nat 0 - 1))); [nia|];
    intros [= <- <- <- <-]; exists 0%nat;
    (split; [done|]); (split; [by left|]); (split; [done|]);
    (split; [intros; by rewrite decide_False by lia|]);
    rewrite overflows_0, decide_True by done; repeat split; lia.
  { destruct (Z.leb_spec (cluster_size s * k)
                (cluster_size s * (k + Z.of_nat (S n) - 1))); [done|nia]. }
  destruct (Z.leb_spec (cluster_size s * k)
              (cluster_size s * (k + Z.of_nat (S n) - 1))); [|nia].
  rewrite Hcb1, Hcs1.
  assert (Hidx : Z.shiftr (cluster_size s * k) (cluster_bits s) = k).
  { rewrite shiftr_cluster_bits by done.
    by rewrite Z.mul_comm, Z.div_mul by lia. }
  rewrite Hidx.
  rewrite (to_uint64_small (Z.of_nat (length t))) by lia.
  rewrite (to_uint64_small (cluster_size s * k + cluster_size s)) by nia.
  replace (cluster_size s * k + cluster_size s)
    with (cluster_size s * (k + 1)) by ring.
  replace (cluster_size s * (k + Z.of_nat (S n) - 1))
    with (cluster_size s * (k + 1 + Z.of_nat n - 1)) by (f_equal; lia).
  assert (Hstep : forall t1 s2 res1,
            cluster_bits s2 = cluster_bits s ->
            cluster_size s2 = cluster_size s ->
            Z.of_nat (length t1) = Z.max (Z.of_nat (length t)) (k + 1) ->
            (forall i, 0 <= i ->
               array_get t1 i
               = if decide (i = k) then to_uint16 (array_get t k + 1)
                 else array_get t i) ->
            res1 = (if to_uint16 (array_get t k + 1) =? 0
                    then incr_corruptions res else res) ->
            inc_refcounts_loop backend fuel s2 res1 t1
              (cluster_size s * (k + 1))
              (cluster_size s * (k + 1 + Z.of_nat n - 1))
            = Done (ret, res', t', s') ->
            exists m : nat,
              (m <= S n)%nat /\
              (ret = 0 /\ m = S n \/
               ret = - ENOMEM /\ (m < S n)%nat /\
               Z.of_nat (length t') <= k + Z.of_nat m /\
               exists r, backend r < 0) /\
              Z.of_nat (length t')
              = (if decide (m = 0%nat) then Z.of_nat (length t)
                 else Z.max (Z.of_nat (length t)) (k + Z.of_nat m)) /\
              (forall i, 0 <= i ->
                 array_get t' i
                 = if decide (k <= i < k + Z.of_nat m)
                   then to_uint16 (array_get t i + 1) else array_get t i) /\
              check_errors res'
              = check_errors res + (if decide (ret = 0) then 0 else 1) /\
              corruptions res' = corruptions res + overflows t k m /\
              corruptions_fixed res' = corruptions_fixed res /\
              leaks res' = leaks res /\ leaks_fixed res' = leaks_fixed res).
  { intros t1 s2 res1 Hcb2 Hcs2 Hlen1 Hget1 Hres1 Hrun.
    apply IH in Hrun; try done; try lia.
    destruct Hrun as (m & Hm & Hret & Hlen' & Hget' & He & Hc & Hcf & Hl & Hlf).
    exists (S m). split; [lia|]. split.
    { destruct Hret as [[-> ->]|(-> & ? & ? & ?)]; [by left|right].
      repeat split; try done; lia. }
    split.
    { rewrite decide_False by done. destruct (decide (m = 0%nat)); lia. }
    split.
    { intros i Hi. rewrite Hget' by done.
      destruct (decide (k + 1 <= i < k + 1 + Z.of_nat m)).
      - rewrite decide_True by lia. rewrite Hget1 by lia.
        by rewrite decide_False by lia.
      - rewrite Hget1 by done. destruct (decide (i = k)) as [->|].
        + by rewrite decide_True by lia.
        + by rewrite decide_False by lia. }
    rewrite overflows_S.
    rewrite (overflows_ext t t1) in Hc
      by (intros i Hi; rewrite Hget1 by lia; by rewrite decide_False by lia).
    subst res1.
    destruct (Z.eqb_spec (to_uint16 (array_get t k + 1)) 0) as [Hz|Hz];
      destruct (decide (to_uint16 (array_get t k + 1) = 0)); try done;
      cbn in *; repeat split; lia. }
  destruct (Z.geb_spec k (Z.of_nat (length t))) as [Hgrow|Hin].
  - unfold g_try_realloc, backend_request.
    destruct (Z.leb_spec 0 (backend (io_clock s1))) as [Hok|Hfail];
      cbn [negb].
    + apply Hstep; try done.
      * rewrite array_set_length, length_resize. lia.
      * intros i Hi. destruct (decide (i = k)) as [->|Hne].
        -- rewrite array_get_set_eq by (rewrite length_resize; lia).
           by rewrite array_get_resize by lia.
        -- rewrite array_get_set_ne by lia. apply array_get_resize; lia.
      * by rewrite array_get_resize by lia.
    + intros [= <- <- <- <-]. exists 0%nat. split; [lia|].
      split; [right; repeat split; try lia; by exists (io_clock s1)|].
      split; [done|].
      split; [intros; by rewrite decide_False by lia|].
      rewrite overflows_0, decide_False by done. cbn. repeat split; lia.
  - apply Hstep; try done.
    + rewrite array_set_length. lia.
    + intros i Hi. destruct (decide (i = k)) as [->|Hne].
      * by rewrite array_get_set_eq by lia.
      * by rewrite array_get_set_ne by lia.
Qed.

Lemma inc_refcounts_loop_total (s : BDRVQcowState) n :
  wf_geometry s ->
  forall fuel res t k s1,
  0 <= k -> cluster_size s * (k + Z.of_nat n) <= 2 ^ 63 ->
  cluster_bits s1 = cluster_bits s -> cluster_size s1 = cluster_size s ->
  (n <= fuel)%nat ->
  exists r,
    inc_refcounts_loop backend fuel s1 res t (cluster_size s * k)
      (cluster_size s * (k + Z.of_nat n - 1))
    = Done r.
Proof.
  intros Hwf.
  pose proof (cluster_size_pos s Hwf) as Hcs.
  induction n as [|n IH]; intros fuel res t k s1 Hk Hfit Hcb1 Hcs1 Hfuel;
    destruct fuel as [|fuel]; cbn [inc_refcounts_loop]; try lia.
  1,2: destruct (Z.leb_spec (cluster_size s * k)
                   (cluster_size s * (k + Z.of_nat 0 - 1))); [nia|];
    by eexists.
  destruct (Z.leb_spec (cluster_size s * k)
              (cluster_size s * (k + Z.of_nat (S n) - 1))); [|by eexists].
  rewrite Hcs1.
  rewrite (to_uint64_small (cluster_size s * k + cluster_size s)) by nia.
  replace (cluster_size s * k + cluster_size s)
    with (cluster_size s * (k + 1)) by ring.
  replace (cluster_size s * (k + Z.of_nat (S n) - 1))
    with (cluster_size s * (k + 1 + Z.of_nat n - 1)) by (f_equal; lia).
  destruct (_ >=? _); [|apply IH; try done; lia].
  unfold g_try_realloc, backend_request.
  destruct (0 <=? backend (io_clock s1)); cbn [negb]; [|by eexists].
  apply IH; try done; lia.
Qed.

Lemma inc_refcounts_range (s : BDRVQcowState) offset size :
  wf_geometry s -> 0 <= offset -> 0 < size ->
  offset + size + cluster_size s <= 2 ^ 63 ->
  let cs := cluster_size s in
  let first := offset / cs in
  let last := (offset + size - 1) / cs in
  0 <= first <= last /\
  cs * (last + 1) <= 2 ^ 63 /\
  to_uint64 (Z.land offset (Z.lnot (cs - 1))) = cs * first /\
  to_uint64 (Z.land (offset + size - 1) (Z.lnot (cs - 1))) = cs * last.
Proof.
  intros Hwf Hoff Hsize Hfit cs first last.
  pose proof (cluster_size_pos s Hwf) as Hcs. fold cs in Hcs.
  assert (0 <= first) by (apply Z.div_pos; lia).
  assert (first <= last) by (apply Z.div_le_mono; lia).
  pose proof (Z.mul_div_le (offset + size - 1) cs Hcs). fold last in H1.
  pose proof (Z.mul_div_le offset cs Hcs). fold first in H2.
  unfold cs. rewrite !range_start_div by done. fold cs first last.
  rewrite !to_uint64_small by nia. repeat split; lia.
Qed.

(** [inc_refcounts] on a range of bytes that is not empty: with fuel for
    the clusters of the range the call returns, with 0 or -ENOMEM.  On 0
    the table reaches at least to the last cluster of the range, each
    counter of the range has grown by one in 16 bits, no other counter
    has changed, and [corruptions] has grown by the number of counters
    that wrapped to 0. *)
Theorem inc_refcounts_counts (fuel : nat) (s : BDRVQcowState)
    (res : BdrvCheckResult) (refcount_table : list Z) (offset size : Z) :
  let cs := cluster_size s in
  let first := offset / cs in
  let last := (offset + size - 1) / cs in
  let n := Z.to_nat (last - first + 1) in
  wf_geometry s -> 0 <= offset -> 0 < size ->
  offset + size + cs <= 2 ^ 63 ->
  Z.of_nat (length refcount_table) < 2 ^ 63 ->
  (n <= fuel)%nat ->
  exists ret res' refcount_table' s',
    inc_refcounts backend fuel s res refcount_table offset size
    = Done (ret, res', refcount_table', s') /\
    (ret = 0 \/ ret = - ENOMEM) /\
    (ret = 0 ->
     Z.of_nat (length refcount_table')
     = Z.max (Z.of_nat (length refcount_table)) (last + 1) /\
     (forall i, 0 <= i ->
        array_get refcount_table' i
        = if decide (first <= i <= last)
          then to_uint16 (array_get refcount_table i + 1)
          else array_get refcount_table i) /\
     corruptions res' = corruptions res + overflows refcount_table first n /\
     check_errors res' = check_errors res /\
     corruptions_fixed res' = corruptions_fixed res /\
     leaks res' = leaks res /\ leaks_fixed res' = leaks_fixed res).
Proof.
  intros cs first last n Hwf Hoff Hsize Hfit Hlen Hfuel.
  destruct (inc_refcounts_range s offset size Hwf Hoff Hsize Hfit)
    as (Hfl & Hmax & Hstart & Hlast).
  fold cs first last in Hfl, Hmax, Hstart, Hlast.
  unfold inc_refcounts. destruct (Z.leb_spec size 0); [lia|].
  fold cs. rewrite Hstart, Hlast.
  assert (Hn : first + Z.of_nat n - 1 = last) by (unfold n; lia).
  destruct (inc_refcounts_loop_total s n Hwf fuel res refcount_table first s)
    as [[[[ret res'] t'] s'] Hrun]; try done; try (fold cs; unfold n; nia).
  fold cs in Hrun. exists ret, res', t', s'.
  split; [by rewrite <- Hn|].
  apply inc_refcounts_loop_spec in Hrun; try done;
    try (fold cs; unfold n; nia).
  destruct Hrun as (m & Hm & Hret & Hlen' & Hget & He & Hc & Hcf & Hl & Hlf).
  split; [destruct Hret as [[-> _]|[-> _]]; [by left|by right]|].
  intros ->. destruct Hret as [[_ ->]|[Hbad _]]; [|done].
  rewrite decide_True in He by done.
  rewrite decide_False in Hlen' by (unfold n; lia).
  split; [unfold n in Hlen'; lia|]. split; [|repeat split; (done || lia)].
  intros i Hi. rewrite Hget by done.
  destruct (decide (first <= i <= last));
    [by rewrite decide_True by (unfold n; lia)
    |by rewrite decide_False by (unfold n; lia)].
Qed.

(** Where [inc_refcounts] does nothing and where it fails.  A range that
    is empty leaves everything as it is.  Otherwise the only error is
    -ENOMEM, from a request for a larger table that was refused: the range
    then reaches beyond the table, [check_errors] grows by one, the table
    keeps the size it had at the refused request and no counter outside
    the range has changed.  A range inside the table cannot fail. *)
Theorem inc_refcounts_failure (fuel : nat) (s : BDRVQcowState)
    (res : BdrvCheckResult) (refcount_table : list Z) (offset size : Z) :
  let cs := cluster_size s in
  let first := offset / cs in
  let last := (offset + size - 1) / cs in
  (size <= 0 ->
   inc_refcounts backend fuel s res refcount_table offset size
   = Done (0, res, refcount_table, s)) /\
  (forall ret res' refcount_table' s',
     wf_geometry s -> 0 <= offset -> 0 < size ->
     offset + size + cs <= 2 ^ 63 ->
     Z.of_nat (length refcount_table) < 2 ^ 63 ->
     inc_refcounts backend fuel s res refcount_table offset size
     = Done (ret, res', refcount_table', s') ->
     ret <> 0 ->
     ret = - ENOMEM /\
     check_errors res' = check_errors res + 1 /\
     Z.of_nat (length refcount_table) <= last /\
     (exists r, backend r < 0) /\
     Z.of_nat (length refcount_table)
     <= Z.of_nat (length refcount_table') <= last /\
     (forall i, 0 <= i -> ~ first <= i <= last ->
        array_get refcount_table' i = array_get refcount_table i)).
Proof.
  intros cs first last. split.
  { intros Hsize. unfold inc_refcounts.
    by destruct (Z.leb_spec size 0); [|lia]. }
  intros ret res' t' s' Hwf Hoff Hsize Hfit Hlen Hrun Hret.
  destruct (inc_refcounts_range s offset size Hwf Hoff Hsize Hfit)
    as (Hfl & Hmax & Hstart & Hlast).
  fold cs first last in Hfl, Hmax, Hstart, Hlast.
  unfold inc_refcounts in Hrun. destruct (Z.leb_spec size 0); [lia|].
  fold cs in Hrun. rewrite Hstart, Hlast in Hrun.
  set (n := Z.to_nat (last - first + 1)).
  assert (Hn : last = first + Z.of_nat n - 1) by (unfold n; lia).
  rewrite Hn in Hrun.
  apply inc_refcounts_loop_spec in Hrun; try done;
    try (fold cs; unfold n; nia).
  destruct Hrun as (m & Hm & Hr & Hlen' & Hget & He & Hc & Hcf & Hl & Hlf).
  destruct Hr as [[-> _]|(-> & Hlt & Hshort & Hreq)]; [done|].
  rewrite decide_False in He by done.
  split; [done|]. split; [done|].
  assert (Z.of_nat (length refcount_table) <= Z.of_nat (length t') <= last).
  { destruct (decide (m = 0%nat)); unfold n in *; lia. }
  split; [lia|]. split; [done|]. split; [done|].
  intros i Hi Hout. rewrite Hget by done.
  by rewrite decide_False by (unfold n in *; lia).
Qed.

(** [alloc_clusters_imrt] fails only with -ENOMEM, when the table has no
    run of [cluster_count] free clusters from [*first_free_cluster] on and
    the request for a larger table is refused; the table is then as it
    was. *)
Theorem alloc_clusters_imrt_enomem (s : BDRVQcowState) (cluster_count : Z)
    (refcount_table : list Z) (first_free_cluster : Z) ret refcount_table'
    first_free_cluster' s' :
  0 <= first_free_cluster -> 0 < cluster_count ->
  alloc_clusters_imrt backend s cluster_count refcount_table
    first_free_cluster
  = (ret, refcount_table', first_free_cluster', s') ->
  ret < 0 ->
  ret = - ENOMEM /\ refcount_table' = refcount_table /\
  backend (io_clock s) < 0 /\
  forall c, first_free_cluster <= c ->
    c + cluster_count <= Z.of_nat (length refcount_table) ->
    exists j, c <= j < c + cluster_count /\ array_get refcount_table j <> 0.
Proof.
  intros Hfirst Hcount. unfold alloc_clusters_imrt.
  pose proof (imrt_find_gap_spec refcount_table cluster_count
                first_free_cluster _ first_free_cluster 0 first_free_cluster
                true Hfirst eq_refl) as Hscan.
  destruct (imrt_find_gap _ _ _ _ _ _) as [[[c' k'] ff'] fg'].
  destruct Hscan as ((Hlow & Hk0 & Hzero & Hfit & Hgap) & Hle & Hk & Hend).
  { split; [lia|]. split; [lia|]. split; [intros; lia|].
    split; [intros; lia|]. split; [done|]. intros; lia. }
  assert (Hpos : 0 <= Z.shiftl (c' - k') (cluster_bits s))
    by (apply Z.shiftl_nonneg; lia).
  destruct (Z.ltb_spec k' cluster_count) as [Hshort|Hfull];
    [|intros [= <- _ _ _]; lia].
  unfold g_try_realloc, backend_request.
  destruct (Z.leb_spec 0 (backend (io_clock s))); cbn [negb];
    [intros [= <- _ _ _]; lia|].
  intros [= <- <- _ _] _. repeat split; try done.
  intros c Hc Hin. specialize (Hend Hshort).
  destruct (Hfit c ltac:(lia)) as (j & ? & ? & ?). by exists j.
Qed.

End CheckerProperties.

(** * Properties of the allocator *)

Section AllocatorProperties.
Variable backend : nat -> Z.

(** ** Reading refcounts when nothing fails *)

Lemma stored_refcount_ext s s' cluster_index :
  refcount_table s' = refcount_table s ->
  static_part s' = static_part s ->
  (forall o, block_contents s' o = block_contents s o) ->
  stored_refcount s' cluster_index = stored_refcount s cluster_index.
Proof.
  intros Ht Hs%static_geometry Hc. unfold geometry in Hs.
  injection Hs as Hcb Hcs Hrbb Hrbs.
  unfold stored_refcount, refcount_table_size, counter.
  by rewrite Ht, Hrbb, Hrbs, Hc.
Qed.

Lemma stored_refcount_range s cluster_index :
  0 <= stored_refcount s cluster_index <= 0xffff.
Proof.
  unfold stored_refcount, counter, be16_to_cpu.
  destruct (_ <=? _); [lia|]. destruct (_ =? 0); [lia|].
  apply bswap16_range.
Qed.

Lemma aligned_table_ext s s' :
  refcount_table s' = refcount_table s ->
  static_part s' = static_part s ->
  aligned_table s -> aligned_table s'.
Proof.
  intros Ht Hs%static_geometry. unfold geometry in Hs.
  injection Hs as Hcb Hcs Hrbb Hrbs.
  unfold aligned_table, offset_into_cluster. by rewrite Ht, Hcs.
Qed.

Lemma aligned_table_entry s i :
  aligned_table s ->
  offset_into_cluster s (array_get (refcount_table s) i) = 0.
Proof.
  intros Ha. unfold array_get.
  destruct (refcount_table s !! Z.to_nat i) as [e|] eqn:He; cbn [default].
  - unfold aligned_table in Ha. rewrite Forall_forall in Ha.
    apply Ha. by eapply list_elem_of_lookup_2.
  - unfold offset_into_cluster. apply Z.land_0_l.
Qed.

(** [get_refcount] when the table is sound and the read succeeds. *)
Lemma get_refcount_stored s cluster_index :
  aligned_table s -> 0 <= backend (io_clock s) ->
  exists s1,
    get_refcount backend s cluster_index
    = (stored_refcount s cluster_index, s1) /\
    refcount_table s1 = refcount_table s /\
    static_part s1 = static_part s /\
    (forall o, block_contents s1 o = block_contents s o) /\
    free_cluster_index s1 = free_cluster_index s /\
    discards s1 = discards s.
Proof.
  intros Ha Hio. unfold get_refcount, stored_refcount.
  set (idx := to_uint64 _). set (entry := array_get _ idx).
  destruct (Z.leb_spec (refcount_table_size s) idx); [by exists s|].
  destruct (Z.eqb_spec entry 0); [by exists s|].
  pose proof (aligned_table_entry s idx Ha) as Hal. fold entry in Hal.
  rewrite Hal. cbn [Z.eqb negb].
  rewrite qcow2_cache_get_ok by done. unfold qcow2_cache_put.
  cbn [Z.ltb Z.compare]. eexists. split.
  - f_equal. unfold counter, block_load, block_contents, file_cluster,
      zero_block. simpl_state. rewrite lookup_insert_eq.
    by destruct (refcount_block_cache s !! entry).
  - simpl_state. repeat split; try done.
    intros o. apply block_contents_cache_get.
Qed.

(** A result of [get_refcount] that is not an error is the refcount the
    structure holds; the table entry it went through is aligned. *)
Lemma get_refcount_value s cluster_index r s' :
  get_refcount backend s cluster_index = (r, s') -> 0 <= r ->
  let refcount_table_index :=
    to_uint64 (Z.shiftr cluster_index (refcount_block_bits s)) in
  let refcount_block_offset :=
    array_get (refcount_table s) refcount_table_index in
  r = stored_refcount s cluster_index /\
  refcount_table s' = refcount_table s /\
  static_part s' = static_part s /\
  (forall o, block_contents s' o = block_contents s o) /\
  free_cluster_index s' = free_cluster_index s /\
  discards s' = discards s /\
  (refcount_table_index < refcount_table_size s ->
   offset_into_cluster s refcount_block_offset = 0).
Proof.
  unfold get_refcount, stored_refcount.
  set (idx := to_uint64 _). set (entry := array_get _ idx).
  intros Hrun Hr. cbn zeta.
  destruct (Z.leb_spec (refcount_table_size s) idx).
  { injection Hrun as <- <-. repeat split; try done. lia. }
  destruct (Z.eqb_spec entry 0) as [He|He].
  { injection Hrun as <- <-. repeat split; try done.
    intros _. rewrite He. apply Z.land_0_l. }
  destruct (Z.eqb_spec (offset_into_cluster s entry) 0) as [Hal|Hal];
    cbn [negb] in Hrun.
  2:{ injection Hrun as <- <-. unfold EIO in Hr. lia. }
  destruct (Z.lt_ge_cases (backend (io_clock s)) 0) as [Hio|Hio].
  { rewrite qcow2_cache_get_fail in Hrun by done.
    destruct (Z.ltb_spec (backend (io_clock s)) 0); [|lia].
    injection Hrun as <- <-. lia. }
  rewrite qcow2_cache_get_ok in Hrun by done. unfold qcow2_cache_put in Hrun.
  cbn [Z.ltb Z.compare] in Hrun. injection Hrun as <- <-.
  split.
  - unfold counter, block_load, block_contents, file_cluster, zero_block.
    simpl_state. rewrite lookup_insert_eq.
    by destruct (refcount_block_cache s !! entry).
  - simpl_state. repeat split; try done.
    intros o. apply block_contents_cache_get.
Qed.

(** ** The search for free clusters *)

Lemma alloc_clusters_noref_loop_first_fit nb_clusters first fuel :
  forall s i r s',
  0 <= i <= nb_clusters ->
  free_scan s nb_clusters first (free_cluster_index s) i ->
  alloc_clusters_noref_loop backend fuel s nb_clusters i = Done (r, s') ->
  0 <= r ->
  r = Z.shiftl (free_cluster_index s' - nb_clusters) (cluster_bits s) /\
  free_scan s nb_clusters first (free_cluster_index s') nb_clusters /\
  refcount_table s' = refcount_table s /\
  static_part s' = static_part s /\
  (forall o, block_contents s' o = block_contents s o) /\
  discards s' = discards s /\
  (forall c, free_cluster_index s <= c < free_cluster_index s' ->
     let idx := to_uint64 (Z.shiftr c (refcount_block_bits s)) in
     idx < refcount_table_size s ->
     offset_into_cluster s (array_get (refcount_table s) idx) = 0).
Proof.
  induction fuel as [|fuel IH]; intros s i r s' Hi Hinv;
    cbn [alloc_clusters_noref_loop];
    destruct (Z.ltb_spec i nb_clusters) as [Hlt|Hge]; try done.
  1,3: intros [= <- <-] _; assert (i = nb_clusters) as -> by lia;
    do 6 (split; [done|]); intros; lia.
  set (s1 := set_free_cluster_index (free_cluster_index s + 1) s).
  destruct (get_refcount backend s1 (free_cluster_index s))
    as [refcount s2] eqn:Hget.
  destruct (Z.ltb_spec refcount 0) as [?|Hpos]; [intros [= <- <-] ?; lia|].
  destruct (get_refcount_value _ _ _ _ Hget Hpos)
    as (Hval & Ht2 & Hs2 & Hc2 & Hf2 & Hd2 & Hal).
  assert (Hext : forall c, stored_refcount s2 c = stored_refcount s c).
  { intros c. by apply stored_refcount_ext. }
  assert (Hcur : refcount = stored_refcount s (free_cluster_index s)) by done.
  destruct Hinv as (Hfirst & Hi0 & Hzero & Hfit).
  assert (Hnext : free_cluster_index s2 = free_cluster_index s + 1) by done.
  assert (Hfinish : forall i',
            0 <= i' <= nb_clusters ->
            free_scan s2 nb_clusters first (free_cluster_index s2) i' ->
            alloc_clusters_noref_loop backend fuel s2 nb_clusters i'
            = Done (r, s') ->
            0 <= r ->
            r = Z.shiftl (free_cluster_index s' - nb_clusters) (cluster_bits s)
            /\ free_scan s nb_clusters first (free_cluster_index s')
                 nb_clusters /\
            refcount_table s' = refcount_table s /\
            static_part s' = static_part s /\
            (forall o, block_contents s' o = block_contents s o) /\
            discards s' = discards s /\
            (forall c, free_cluster_index s <= c < free_cluster_index s' ->
               let idx := to_uint64 (Z.shiftr c (refcount_block_bits s)) in
               idx < refcount_table_size s ->
               offset_into_cluster s (array_get (refcount_table s) idx) = 0)).
  { intros i' Hi' Hinv' Hrun Hr.
    apply IH in Hrun; try done.
    destruct Hrun as (-> & (? & ? & Hz' & Hf') & Ht' & Hs' & Hc' & Hd' & Hal').
    split; [by rewrite (static_cluster_bits _ _ Hs2)|].
    split.
    { repeat split; try done.
      - intros c Hc. rewrite <- Hext. by apply Hz'.
      - intros c Hc. destruct (Hf' c Hc) as (j & ? & ? & ?).
        exists j. by rewrite <- Hext. }
    split; [by rewrite Ht', Ht2|]. split; [by rewrite Hs', Hs2|].
    split; [intros o; by rewrite Hc', Hc2|]. split; [by rewrite Hd', Hd2|].
    intros c Hc. destruct (decide (c = free_cluster_index s)) as [->|Hne].
    - exact Hal.
    - specialize (Hal' c ltac:(lia)). cbn zeta in Hal' |- *.
      pose proof (static_geometry _ _ Hs2) as Hg. unfold geometry in Hg.
      injection Hg as Hg1 Hg2 Hg3 Hg4.
      unfold refcount_table_size, offset_into_cluster in Hal' |- *.
      by rewrite Ht2, Hg2, Hg3 in Hal'. }
  rewrite Hcur.
  destruct (Z.eqb_spec (stored_refcount s (free_cluster_index s)) 0)
    as [Hz|Hnz]; cbn [negb]; apply Hfinish; try lia.
  - rewrite Hnext. split; [lia|]. split; [lia|]. split.
    + intros c Hc. rewrite Hext.
      destruct (decide (c = free_cluster_index s)) as [->|]; [done|].
      apply Hzero. lia.
    + intros c Hc. destruct (Hfit c ltac:(lia)) as (j & ? & ? & ?).
      exists j. rewrite Hext. repeat split; try done; lia.
  - rewrite Hnext. split; [lia|]. split; [lia|]. split; [intros; lia|].
    intros c Hc. destruct (Z.lt_ge_cases c (free_cluster_index s - i)).
    + destruct (Hfit c ltac:(lia)) as (j & ? & ? & ?).
      exists j. rewrite Hext. repeat split; try done; lia.
    + exists (free_cluster_index s). rewrite Hext. repeat split; (lia || done).
Qed.

(** What [alloc_clusters_noref] has found when it returns an offset. *)
Lemma alloc_clusters_noref_result fuel s size offset s' :
  let nb_clusters := size_to_clusters s size in
  0 <= nb_clusters ->
  alloc_clusters_noref backend fuel s size = Done (offset, s') ->
  0 <= offset ->
  exists first,
    offset = Z.shiftl first (cluster_bits s) /\
    free_cluster_index s <= first /\
    free_cluster_index s' = first + nb_clusters /\
    (forall c, first <= c < first + nb_clusters -> stored_refcount s c = 0) /\
    (forall c, free_cluster_index s <= c < first ->
       exists j, c <= j < c + nb_clusters /\ stored_refcount s j <> 0) /\
    refcount_table s' = refcount_table s /\
    static_part s' = static_part s /\
    (forall o, block_contents s' o = block_contents s o) /\
    (forall c, first <= c < first + nb_clusters ->
       let idx := to_uint64 (Z.shiftr c (refcount_block_bits s)) in
       idx < refcount_table_size s ->
       offset_into_cluster s (array_get (refcount_table s) idx) = 0).
Proof.
  intros nb Hnb. unfold alloc_clusters_noref.
  set (s1 := if cache_discards s then qcow2_process_discards backend s 0
             else s).
  assert (H1 : refcount_table s1 = refcount_table s /\
               static_part s1 = static_part s /\
               (forall o, block_contents s1 o = block_contents s o) /\
               free_cluster_index s1 = free_cluster_index s).
  { unfold s1. destruct (cache_discards s); [|done].
    destruct (process_discards_tables backend s 0) as [? ?].
    repeat split; try done.
    - intros o. apply block_contents_process_discards.
    - pose proof (qcow2_process_discards_pres backend
                    (fun a b => free_cluster_index b = free_cluster_index a))
        as Hp. apply Hp; try done. intros a b c ? ?. congruence. }
  destruct H1 as (Ht1 & Hs1 & Hc1 & Hf1).
  assert (Hext1 : forall c, stored_refcount s1 c = stored_refcount s c)
    by (intros c; by apply stored_refcount_ext).
  pose proof (static_geometry _ _ Hs1) as Hg. unfold geometry in Hg.
  injection Hg as Hg1 Hg2 Hg3 Hg4.
  assert (Hnb1 : size_to_clusters s1 size = nb).
  { unfold nb, size_to_clusters. by rewrite Hg1, Hg2. }
  rewrite Hnb1. intros Hrun Hoff.
  apply (alloc_clusters_noref_loop_first_fit nb (free_cluster_index s))
    in Hrun; try done; try lia.
  - destruct Hrun
      as (-> & (Hfirst & _ & Hzero & Hfit) & Ht' & Hs' & Hc' & _ & Hal).
    exists (free_cluster_index s' - nb).
    split; [by rewrite Hg1|].
    split; [lia|]. split; [lia|]. split.
    { intros c Hc. rewrite <- Hext1. apply Hzero. lia. }
    split.
    { intros c Hc. destruct (Hfit c Hc) as (j & ? & ? & ?).
      exists j. by rewrite <- Hext1. }
    split; [congruence|]. split; [congruence|].
    split; [intros o; by rewrite Hc', Hc1|].
    intros c Hc. specialize (Hal c ltac:(lia)). cbn zeta in Hal |- *.
    unfold refcount_table_size, offset_into_cluster in Hal |- *.
    by rewrite Ht1, Hg2, Hg3 in Hal.
  - rewrite Hf1. split; [lia|]. split; [lia|]. split; intros; lia.
Qed.

(** [alloc_clusters_noref] when it returns an offset (a result that is not
    negative): it is the offset of the first run of free clusters of the
    requested size at or after [free_cluster_index], which afterwards points
    behind the run.  Neither the refcount table nor any refcount changes. *)
Theorem alloc_clusters_noref_first_fit (fuel : nat) (s : BDRVQcowState)
    (size offset : Z) (s' : BDRVQcowState) :
  let nb_clusters := size_to_clusters s size in
  0 <= nb_clusters ->
  alloc_clusters_noref backend fuel s size = Done (offset, s') ->
  0 <= offset ->
  exists first,
    offset = Z.shiftl first (cluster_bits s) /\
    free_cluster_index s <= first /\
    free_cluster_index s' = first + nb_clusters /\
    (forall c, first <= c < first + nb_clusters -> stored_refcount s c = 0) /\
    (forall c, free_cluster_index s <= c < first ->
       exists j, c <= j < c + nb_clusters /\ stored_refcount s j <> 0) /\
    refcount_table s' = refcount_table s /\
    (forall c, stored_refcount s' c = stored_refcount s c).
Proof.
  intros nb Hnb Hrun Hoff.
  destruct (alloc_clusters_noref_result fuel s size offset s' Hnb Hrun Hoff)
    as (first & H1 & H2 & H3 & H4 & H5 & H6 & H7 & H8 & _).
  exists first. repeat split; try done.
  intros c. by apply stored_refcount_ext.
Qed.

(** ** Allocating at a given offset *)

Lemma count_free_clusters_bound n : forall s cluster_index i refcount i' s1,
  count_free_clusters backend n s cluster_index i = (refcount, i', s1) ->
  i <= i' <= i + Z.of_nat n.
Proof.
  induction n as [|n IH]; intros s c i refcount i' s1;
    cbn [count_free_clusters].
  { intros [= _ <- _]. lia. }
  destruct (get_refcount backend s c) as [r s2].
  destruct (r <? 0); [intros [= _ <- _]; lia|].
  destruct (negb (r =? 0)); [intros [= _ <- _]; lia|].
  intros H%IH. lia.
Qed.

Lemma qcow2_alloc_clusters_at_loop_bound fuel : forall s offset nb_clusters r s',
  0 <= nb_clusters ->
  qcow2_alloc_clusters_at_loop backend fuel s offset nb_clusters
  = Done (r, s') ->
  r < 0 \/ 0 <= r <= nb_clusters.
Proof.
  induction fuel as [|fuel IH]; intros s offset nb r s' Hnb; [done|].
  cbn [qcow2_alloc_clusters_at_loop].
  destruct (count_free_clusters _ _ _ _ _) as [[refcount i] s1] eqn:Hcount.
  apply count_free_clusters_bound in Hcount.
  destruct (Z.ltb_spec refcount 0); [intros [= <- _]; by left|].
  unfold mbind, outcome_bind.
  destruct (update_refcount _ _ _ _ _ _ _) as [[ret s2]| |]; [|done..].
  destruct (ret =? - EAGAIN); [by apply IH|].
  destruct (Z.ltb_spec ret 0); intros [= <- _]; [by left|right; lia].
Qed.

(** The edges of [qcow2_alloc_clusters_at].  A negative count fails the
    assertion; a count of 0 returns 0 and leaves the state alone; any other
    result is an error or the number of clusters taken, which is never more
    than asked for.  When the first cluster is in use (and its refcount can
    be read), the result is 0 and no refcount has changed. *)
Theorem qcow2_alloc_clusters_at_edges (fuel : nat) (s : BDRVQcowState)
    (offset nb_clusters : Z) :
  (nb_clusters < 0 ->
   qcow2_alloc_clusters_at backend fuel s offset nb_clusters = Aborted) /\
  (nb_clusters = 0 ->
   qcow2_alloc_clusters_at backend fuel s offset nb_clusters = Done (0, s)) /\
  (forall r s',
     qcow2_alloc_clusters_at backend fuel s offset nb_clusters = Done (r, s') ->
     r < 0 \/ 0 <= r <= nb_clusters) /\
  (0 < nb_clusters -> aligned_table s -> 0 <= backend (io_clock s) ->
   stored_refcount s (Z.shiftr offset (cluster_bits s)) <> 0 ->
   exists s',
     qcow2_alloc_clusters_at backend (S (S fuel)) s offset nb_clusters
     = Done (0, s') /\
     refcount_table s' = refcount_table s /\
     forall c, stored_refcount s' c = stored_refcount s c).
Proof.
  unfold qcow2_alloc_clusters_at, assert, mbind, outcome_bind.
  split; [|split; [|split]].
  - intros H. by destruct (Z.leb_spec 0 nb_clusters); [lia|].
  - by intros ->.
  - intros r s'. destruct (Z.leb_spec 0 nb_clusters); [|done].
    destruct (Z.eqb_spec nb_clusters 0); [intros [= <- _]; lia|].
    by apply qcow2_alloc_clusters_at_loop_bound.
  - intros Hnb Ha Hio Hused.
    destruct (Z.leb_spec 0 nb_clusters); [|lia].
    destruct (Z.eqb_spec nb_clusters 0); [lia|].
    cbn [qcow2_alloc_clusters_at_loop].
    destruct (Z.to_nat nb_clusters) as [|probes] eqn:Hprobes; [lia|].
    cbn [count_free_clusters].
    destruct (get_refcount_stored s (Z.shiftr offset (cluster_bits s)))
      as (s1 & Hget & Ht1 & Hs1 & Hc1 & _); [done..|].
    rewrite Hget.
    pose proof (stored_refcount_range s (Z.shiftr offset (cluster_bits s))).
    destruct (Z.ltb_spec (stored_refcount s
                            (Z.shiftr offset (cluster_bits s))) 0); [lia|].
    destruct (Z.eqb_spec (stored_refcount s
                            (Z.shiftr offset (cluster_bits s))) 0); [done|].
    cbn [negb]. destruct (Z.ltb_spec (stored_refcount s
                            (Z.shiftr offset (cluster_bits s))) 0); [lia|].
    rewrite Z.shiftl_0_l. cbn [update_refcount].
    unfold update_refcount_body. cbn.
    exists s1. split; [done|]. split; [done|].
    intros c. by apply stored_refcount_ext.
Qed.

(** ** Comparing refcounts that agree *)

Lemma compare_refcounts_loop_consistent fuel fix_mode computed n :
  (forall r, 0 <= backend r) ->
  forall s v i,
  aligned_table s -> 0 <= i ->
  (forall c, i <= c < i + Z.of_nat n ->
             stored_refcount s c = array_get computed c) ->
  exists v' s',
    compare_refcounts_loop backend fuel n s v fix_mode computed i
    = Done (v', s') /\
    cv_res v' = cv_res v /\ cv_rebuild v' = cv_rebuild v /\
    refcount_table s' = refcount_table s /\
    static_part s' = static_part s /\
    (forall o, block_contents s' o = block_contents s o) /\
    free_cluster_index s' = free_cluster_index s /\
    discards s' = discards s /\
    (forall c, i <= c < i + Z.of_nat n -> cv_highest_cluster v' < c ->
               array_get computed c = 0) /\
    (cv_highest_cluster v' = cv_highest_cluster v \/
     i <= cv_highest_cluster v' < i + Z.of_nat n /\
     0 < array_get computed (cv_highest_cluster v')).
Proof.
  intros Hio. induction n as [|n IH]; intros s v i Ha Hi Hsame.
  { exists v, s. cbn [compare_refcounts_loop].
    repeat split; try done; try (intros; lia); by left. }
  cbn [compare_refcounts_loop]. unfold compare_refcounts_cluster.
  destruct (get_refcount_stored s i) as (s1 & Hget & Ht1 & Hs1 & Hc1 & Hf1 & Hd1);
    [done|apply Hio|].
  rewrite Hget. rewrite (Hsame i) by lia.
  pose proof (stored_refcount_range s i) as Hrange.
  rewrite (Hsame i) in Hrange by lia.
  destruct (Z.ltb_spec (array_get computed i) 0); [lia|].
  rewrite Z.eqb_refl. cbn [negb]. unfold mbind, outcome_bind.
  set (v1 := mkCompare _ _ _).
  destruct (IH s1 v1 (i + 1)) as
    (v' & s' & Hrun & Hres & Hreb & Ht' & Hs' & Hc' & Hf' & Hd' & Hhigh & Hlast).
  { by eapply aligned_table_ext. }
  { lia. }
  { intros c Hc. rewrite <- Hsame by lia. by apply stored_refcount_ext. }
  exists v', s'. split; [done|].
  split; [done|]. split; [done|]. split; [congruence|].
  split; [congruence|]. split; [intros o; by rewrite Hc', Hc1|].
  split; [congruence|]. split; [congruence|].
  unfold v1 in Hlast, Hhigh. cbn [cv_highest_cluster] in Hlast.
  rewrite orb_diag in Hlast.
  destruct (Z.gtb_spec (array_get computed i) 0) as [Hpos|Hzero].
  - split.
    + intros c Hc Hgt. apply Hhigh; [|done].
      destruct Hlast as [Heq|[? ?]]; lia.
    + right. destruct Hlast as [->|[? ?]]; [split; lia|split; [lia|done]].
  - split.
    + intros c Hc Hgt. destruct (decide (c = i)) as [->|]; [lia|].
      apply Hhigh; [lia|done].
    + destruct Hlast as [->|[? ?]]; [by left|right; split; [lia|done]].
Qed.

(** [compare_refcounts] on an image whose stored refcounts are the computed
    ones (and can all be read): the loop returns, no counter of the result
    and not [*rebuild] changes, whatever the fix mode, and neither the
    refcount table nor any refcount is written.  [*highest_cluster] is the
    last cluster in use, 0 if there is none. *)
Theorem compare_refcounts_consistent (fuel : nat) (s : BDRVQcowState)
    (res : BdrvCheckResult) (fix_mode : Z) (rebuild : bool)
    (computed : list Z) (nb_clusters : Z) :
  (forall r, 0 <= backend r) -> aligned_table s ->
  (forall c, 0 <= c < nb_clusters ->
             stored_refcount s c = array_get computed c) ->
  exists v' s',
    compare_refcounts backend fuel s res fix_mode rebuild computed nb_clusters
    = Done (v', s') /\
    cv_res v' = res /\ cv_rebuild v' = rebuild /\
    refcount_table s' = refcount_table s /\
    (forall c, stored_refcount s' c = stored_refcount s c) /\
    free_cluster_index s' = free_cluster_index s /\
    discards s' = discards s /\
    (forall c, 0 <= c < nb_clusters -> cv_highest_cluster v' < c ->
               array_get computed c = 0) /\
    (cv_highest_cluster v' = 0 \/
     0 <= cv_highest_cluster v' < nb_clusters /\
     0 < array_get computed (cv_highest_cluster v')).
Proof.
  intros Hio Ha Hsame. unfold compare_refcounts.
  destruct (compare_refcounts_loop_consistent fuel fix_mode computed
              (Z.to_nat nb_clusters) Hio s (mkCompare res rebuild 0) 0)
    as (v' & s' & Hrun & Hres & Hreb & Ht' & Hs' & Hc' & Hf' & Hd' & Hhigh
        & Hlast); try done.
  { intros c Hc. apply Hsame. lia. }
  exists v', s'. split; [done|]. split; [done|]. split; [done|].
  split; [done|]. split; [intros c; by apply stored_refcount_ext|].
  split; [done|]. split; [done|]. split.
  - intros c Hc. apply Hhigh. lia.
  - destruct Hlast as [?|[? ?]]; [by left|right; split; [lia|done]].
Qed.

End AllocatorProperties.

(** * Properties of the overlap guard *)

Section OverlapProperties.
Variable backend : nat -> Z.

Lemma land_pow2 x k :
  0 <= k -> Z.land x (2 ^ k) = if Z.testbit x k then 2 ^ k else 0.
Proof.
  intros Hk. apply Z.bits_inj'. intros n Hn.
  rewrite Z.land_spec, Z.pow2_bits_eqb by done.
  destruct (Z.eqb_spec k n) as [->|Hne].
  - rewrite andb_true_r. destruct (Z.testbit x n) eqn:E.
    + by rewrite Z.pow2_bits_true.
    + by rewrite Z.bits_0.
  - rewrite andb_false_r. destruct (Z.testbit x k).
    + by rewrite Z.pow2_bits_false.
    + by rewrite Z.bits_0.
Qed.

Lemma chk_has_masked chk ign k :
  0 <= k ->
  chk_has (Z.land chk (Z.lnot ign)) (2 ^ k) = true ->
  chk_has chk (2 ^ k) = true /\ chk_has ign (2 ^ k) = false.
Proof.
  intros Hk. unfold chk_has. rewrite !land_pow2 by done.
  rewrite Z.land_spec, Z.lnot_spec by done.
  pose proof (Z.pow_pos_nonneg 2 k ltac:(lia) Hk).
  destruct (Z.testbit chk k), (Z.testbit ign k); cbn [andb negb];
    rewrite ?Z.eqb_refl; try done.
  all: by destruct (Z.eqb_spec (2 ^ k) 0); [lia|].
Qed.

Lemma table_targets_hit mask cs first1 len1 table :
  0 <= first1 -> 0 < len1 -> first1 + len1 <= 2 ^ 64 -> 0 < cs ->
  Forall representable (table_targets mask cs table) ->
  existsb
    (fun e => negb (Z.land e mask =? 0)
              && ranges_overlap first1 len1 (Z.land e mask) cs) table
  = true ->
  exists r, r ∈ table_targets mask cs table /\
            range_intersects first1 len1 r.1 r.2.
Proof.
  intros ? ? ? ? Hrep Hex. apply existsb_exists in Hex as (e & Hin & He).
  apply andb_prop in He as [Hne Hov]. apply negb_true_iff, Z.eqb_neq in Hne.
  assert (Hr : (Z.land e mask, cs) ∈ table_targets mask cs table).
  { unfold table_targets. apply (list_elem_of_fmap_2 (fun e => (Z.land e mask, cs))).
    apply list_elem_of_filter. split; [done|]. by apply list_elem_of_In. }
  exists (Z.land e mask, cs). split; [done|].
  rewrite Forall_forall in Hrep. destruct (Hrep _ Hr) as (? & ? & ?).
  cbn [fst snd] in *. by apply ranges_overlap_spec.
Qed.

Lemma inactive_l2_overlap_hit sns : forall s first1 len1 r s1,
  0 <= first1 -> 0 < len1 -> first1 + len1 <= 2 ^ 64 -> 0 < cluster_size s ->
  Forall representable
    (concat
       (map (fun sn =>
               table_targets L1E_OFFSET_MASK (cluster_size s)
                 (snapshot_l1_on_disk s sn)) sns)) ->
  inactive_l2_overlap backend s first1 len1 sns = (r, s1) -> 0 < r ->
  r = QCOW2_OL_INACTIVE_L2 /\
  exists x,
    x ∈ concat
          (map (fun sn =>
                  table_targets L1E_OFFSET_MASK (cluster_size s)
                    (snapshot_l1_on_disk s sn)) sns) /\
    range_intersects first1 len1 x.1 x.2.
Proof.
  induction sns as [|sn sns IH]; intros s first1 len1 r s1 ? ? ? ? Hrep;
    cbn [inactive_l2_overlap].
  { intros [= <- <-]. lia. }
  unfold bdrv_pread_table, backend_request.
  destruct (Z.ltb_spec (backend (io_clock s)) 0) as [Hio|Hio].
  { destruct (Z.ltb_spec (backend (io_clock s)) 0); [|lia].
    intros [= <- <-]. lia. }
  destruct (Z.ltb_spec (backend (io_clock s)) 0); [lia|].
  cbn [map concat] in Hrep |- *. apply Forall_app in Hrep as [Hsn Hrest].
  cbn [file_tables set_io_clock cluster_size].
  destruct (existsb _ _) eqn:Hex.
  - intros [= <- <-] _. split; [done|].
    pose proof (table_targets_hit L1E_OFFSET_MASK (cluster_size s) first1
                  len1 (snapshot_l1_on_disk s sn)) as Hhit.
    unfold snapshot_l1_on_disk in Hhit at 2.
    rewrite existsb_map_compose in Hhit.
    destruct Hhit as (x & Hx & Hint); try done.
    exists x. split; [|done]. apply elem_of_app. by left.
  - intros Hrun Hr.
    destruct (IH (set_io_clock (S (io_clock s)) s) first1 len1 r s1)
      as (-> & x & Hx & Hint); try done.
    split; [done|]. exists x. split; [|done]. apply elem_of_app. by right.
Qed.

(** A positive result of [qcow2_check_metadata_overlap] is never a false
    alarm: the section it names is enabled in the image's [overlap_check],
    is not among the sections the caller asked to ignore, and one of its
    regions shares a byte with the range rounded out to cluster
    boundaries. *)
Theorem qcow2_check_metadata_overlap_sound (s : BDRVQcowState)
    (ign offset size ret : Z) (s1 : BDRVQcowState) :
  let first := rounded_offset s offset in
  let len := rounded_size s offset size in
  wf_geometry s -> 0 <= offset -> 0 < size ->
  offset + size + cluster_size s <= 2 ^ 63 ->
  Forall representable (section_regions s ret) ->
  qcow2_check_metadata_overlap backend s ign offset size = (ret, s1) ->
  0 < ret ->
  chk_has (overlap_check s) ret = true /\
  chk_has ign ret = false /\
  exists r, r ∈ section_regions s ret /\ range_intersects first len r.1 r.2.
Proof.
  intros first len Hwf Ho Hs Hbound Hrep.
  pose proof (cluster_size_pos s Hwf) as Hcs.
  destruct (rounded_range_spec s offset size Hwf Ho Hs)
    as (Hfirst & Hend & Hle & Hhi & Hlen).
  fold first len in Hfirst, Hend, Hle, Hhi, Hlen.
  assert (Hf0 : 0 <= first).
  { rewrite Hfirst. apply Z.mul_nonneg_nonneg; [lia|].
    apply Z.div_pos; lia. }
  assert (Hfit : first + len <= 2 ^ 64) by lia.
  assert (Hsz : (size =? 0) = false) by (apply Z.eqb_neq; lia).
  unfold qcow2_check_metadata_overlap. rewrite Hsz.
  fold (rounded_size s offset size) (rounded_offset s offset).
  fold first len.
  set (chk := Z.land (overlap_check s) (Z.lnot ign)).
  assert (Hmask : forall k, 0 <= k -> chk_has chk (2 ^ k) = true ->
            chk_has (overlap_check s) (2 ^ k) = true /\
            chk_has ign (2 ^ k) = false)
    by (intros k; apply chk_has_masked).
  destruct (chk_has chk QCOW2_OL_MAIN_HEADER && (offset <? cluster_size s))
    eqn:E1.
  { intros [= <- <-] _. apply andb_prop in E1 as [Hchk Hlt].
    apply Z.ltb_lt in Hlt.
    destruct (Hmask 0 ltac:(done) Hchk) as [? ?].
    split; [done|]. split; [done|].
    exists (0, cluster_size s). split; [by apply list_elem_of_singleton|].
    cbn [fst snd]. exists offset. lia. }
  destruct (chk_has chk QCOW2_OL_ACTIVE_L1 && negb (l1_size s =? 0)
            && ranges_overlap first len (l1_table_offset s) (l1_size s * 8))
    eqn:E2.
  { intros [= <- <-] _. apply andb_prop in E2 as [E2 Hov].
    apply andb_prop in E2 as [Hchk Hne].
    apply negb_true_iff, Z.eqb_neq in Hne.
    destruct (Hmask 1 ltac:(done) Hchk) as [? ?].
    split; [done|]. split; [done|].
    exists (l1_table_offset s, l1_size s * 8).
    split; [by apply list_elem_of_singleton|].
    apply Forall_inv in Hrep as (? & ? & ?). cbn [fst snd] in *.
    apply ranges_overlap_spec; try done. lia. }
  destruct (chk_has chk QCOW2_OL_REFCOUNT_TABLE
            && negb (refcount_table_size s =? 0)
            && ranges_overlap first len (refcount_table_offset s)
                 (refcount_table_size s * 8)) eqn:E3.
  { intros [= <- <-] _. apply andb_prop in E3 as [E3 Hov].
    apply andb_prop in E3 as [Hchk Hne].
    apply negb_true_iff, Z.eqb_neq in Hne.
    destruct (Hmask 3 ltac:(done) Hchk) as [? ?].
    split; [done|]. split; [done|].
    exists (refcount_table_offset s, refcount_table_size s * 8).
    split; [by apply list_elem_of_singleton|].
    apply Forall_inv in Hrep as (? & ? & ?). cbn [fst snd] in *.
    apply ranges_overlap_spec; try done. lia. }
  destruct (chk_has chk QCOW2_OL_SNAPSHOT_TABLE
            && negb (snapshots_size s =? 0)
            && ranges_overlap first len (snapshots_offset s)
                 (snapshots_size s)) eqn:E4.
  { intros [= <- <-] _. apply andb_prop in E4 as [E4 Hov].
    apply andb_prop in E4 as [Hchk Hne].
    apply negb_true_iff, Z.eqb_neq in Hne.
    destruct (Hmask 5 ltac:(done) Hchk) as [? ?].
    split; [done|]. split; [done|].
    exists (snapshots_offset s, snapshots_size s).
    split; [by apply list_elem_of_singleton|].
    apply Forall_inv in Hrep as (? & ? & ?). cbn [fst snd] in *.
    apply ranges_overlap_spec; try done. lia. }
  destruct (chk_has chk QCOW2_OL_INACTIVE_L1 && existsb _ (snapshots s))
    eqn:E5.
  { intros [= <- <-] _. apply andb_prop in E5 as [Hchk Hex].
    destruct (Hmask 6 ltac:(done) Hchk) as [? ?].
    split; [done|]. split; [done|].
    apply existsb_exists in Hex as (sn & Hin & Hsn).
    apply andb_prop in Hsn as [Hne Hov].
    apply negb_true_iff, Z.eqb_neq in Hne.
    assert (Hr : (sn_l1_table_offset sn, sn_l1_size sn * 8)
                 ∈ section_regions s QCOW2_OL_INACTIVE_L1).
    { apply (list_elem_of_fmap_2
               (fun sn => (sn_l1_table_offset sn, sn_l1_size sn * 8))).
      by apply list_elem_of_In. }
    exists (sn_l1_table_offset sn, sn_l1_size sn * 8). split; [done|].
    rewrite Forall_forall in Hrep. destruct (Hrep _ Hr) as (? & ? & ?).
    cbn [fst snd] in *. apply ranges_overlap_spec; try done. lia. }
  destruct (chk_has chk QCOW2_OL_ACTIVE_L2 && existsb _ (l1_table s)) eqn:E6.
  { intros [= <- <-] _. apply andb_prop in E6 as [Hchk Hex].
    destruct (Hmask 2 ltac:(done) Hchk) as [? ?].
    split; [done|]. split; [done|].
    by apply table_targets_hit. }
  destruct (chk_has chk QCOW2_OL_REFCOUNT_BLOCK
            && existsb _ (refcount_table s)) eqn:E7.
  { intros [= <- <-] _. apply andb_prop in E7 as [Hchk Hex].
    destruct (Hmask 4 ltac:(done) Hchk) as [? ?].
    split; [done|]. split; [done|].
    by apply table_targets_hit. }
  destruct (chk_has chk QCOW2_OL_INACTIVE_L2) eqn:E8;
    [|intros [= <- <-]; lia].
  intros Hrun Hret.
  destruct (inactive_l2_overlap_result backend _ _ _ _ _ _ Hrun)
    as [?|[?| ->]]; [lia..|].
  destruct (Hmask 7 ltac:(done) E8) as [? ?].
  split; [done|]. split; [done|].
  by destruct (inactive_l2_overlap_hit (snapshots s) s first len _ s1
                 Hf0 Hlen Hfit Hcs Hrep Hrun Hret) as (_ & x & ? & ?);
    exists x.
Qed.

End OverlapProperties.

(** * Properties of the refcount updates *)

Section UpdateProperties.
Variable backend : nat -> Z.

Lemma fail_block_ret s rb ret : (fail_block s rb ret).1.1 = ret.
Proof. unfold fail_block, qcow2_cache_put. by destruct rb. Qed.

Lemma grow_refcount_table_failure fuel s cluster_index refcount_table_index
    new_block ret s' :
  grow_refcount_table backend fuel s cluster_index refcount_table_index
    new_block = Done (inl (ret, s')) ->
  ret < 0.
Proof.
  unfold grow_refcount_table, write_refcount_blocks, bdrv_pwrite_sync,
    backend_request.
  intros H. split_run H; unfold EFBIG; try lia;
    repeat match goal with
           | H : (_ <? _) = true |- _ => apply Z.ltb_lt in H
           end; simpl_state; try lia.

Qed.

(** Every return of the allocating path of [alloc_refcount_block] is an
    error or [-EAGAIN]. *)
Lemma alloc_refcount_block_body_absent fuel rec s cluster_index refcount_block
    ret refcount_block' s' :
  ~ block_present s cluster_index ->
  alloc_refcount_block_body backend fuel rec s cluster_index refcount_block
  = Done (ret, refcount_block', s') ->
  ret < 0.
Proof.
  intros Hp. unfold alloc_refcount_block_body.
  fold (block_offset_of s cluster_index).
  assert (block_offset_of s cluster_index = 0) as ->.
  { unfold block_present in Hp. lia. }
  cbn [Z.eqb negb]. unfold mbind, outcome_bind.
  destruct (alloc_refcount_block_new _ _ _ _ _)
    as [[[[ret0 rb0] nb] s1]| |]; [|done..].
  destruct (Z.ltb_spec ret0 0); [intros [= <- _ _]; done|].
  destruct (_ <? refcount_table_size s1).
  { unfold hookup_refcount_block, bdrv_pwrite_sync, backend_request.
    set (s2 := set_io_clock _ _). set (r2 := backend _).
    destruct (Z.ltb_spec r2 0).
    - intros [= H1]. pose proof (fail_block_ret s2 rb0 r2) as Hf.
      rewrite H1 in Hf. cbn [fst] in Hf. lia.
    - intros [= <- _ _]. unfold EAGAIN. lia. }
  unfold qcow2_cache_put. cbn [Z.ltb Z.compare].
  destruct (grow_refcount_table _ _ _ _ _ _) as [[[r3 s3]|[[s3 oto] ots]]| |]
    eqn:Hgrow; [| |done..].
  - apply grow_refcount_table_failure in Hgrow.
    intros [= H1]. pose proof (fail_block_ret s3 None r3) as Hf.
    rewrite H1 in Hf. cbn [fst] in Hf. lia.
  - destruct (qcow2_free_clusters_body _ _ _ _ _) as [s4| |]; [|done..].
    unfold load_refcount_block.
    destruct (qcow2_cache_get _ _ _ _) as [[r5 rb5] s5].
    destruct (Z.ltb_spec r5 0); intros [= <- _ _]; [done|unfold EAGAIN; lia].
Qed.

(** A pass of the loop of [update_refcount] that succeeds has found the
    refcount block of every cluster in place. *)
Lemma update_refcount_loop_success fuel rec n :
  forall s cluster_offset refcount_block old_table_index addend type
         ret cluster_offset' refcount_block' s',
  let first := Z.shiftr cluster_offset (cluster_bits s) in
  wf_geometry s -> 0 <= cluster_offset ->
  held s refcount_block old_table_index first ->
  (Z.shiftr first (refcount_block_bits s) = old_table_index ->
   block_present s first) ->
  update_refcount_loop backend fuel rec n s cluster_offset refcount_block
    old_table_index addend type
  = Done (ret, cluster_offset', refcount_block', s') ->
  0 <= ret ->
  forall j, 0 <= j < Z.of_nat n -> block_present s (first + j).
Proof.
  induction n as [|n IH];
    intros s co rb old addend type ret co' rb' s' first Hwf Hco Hheld Hold;
    cbn [update_refcount_loop]; [intros; lia|].
  fold first. unfold mbind, outcome_bind.
  destruct (switch_refcount_block _ _ _ _ _ _ _)
    as [[[ret0 rb1] s1]| |] eqn:Hsw; [|done..].
  destruct (Z.ltb_spec ret0 0) as [Hneg|Hpos]; [intros [= <- _ _ _]; lia|].
  assert (Hp0 : block_present s first).
  { destruct (decide (block_offset_of s first = 0)) as [Hz|Hnz]; [|done].
    exfalso. revert Hsw. unfold switch_refcount_block.
    destruct (Z.eqb_spec (Z.shiftr first (refcount_block_bits s)) old)
      as [Heq|Hne]; cbn [negb].
    { by specialize (Hold Heq). }
    assert (Hput : (match rb with
                    | Some _ => qcow2_cache_put s rb
                    | None => (0, rb, s)
                    end) = (0, None, s)) by (by destruct rb).
    rewrite Hput. cbn [Z.ltb Z.compare].
    intros Hbody. apply alloc_refcount_block_body_absent in Hbody; [lia|].
    unfold block_present. lia. }
  destruct (switch_refcount_block_present _ _ _ _ _ _ _ _ _ _ Hp0 Hheld Hsw)
    as (Ht1 & Hs1 & Hc1 & Hok).
  pose proof (static_geometry _ _ Hs1) as Hg1.
  destruct (Hok Hpos) as [-> Hcache]. clear Hok.
  set (o := block_offset_of s first) in *.
  destruct (update_cluster_counter _ _ _ _ _ _)
    as [[ret1 s2]| |] eqn:Hup; [|done..].
  pose proof (wf_geometry_static _ _ Hs1 Hwf) as Hwf1.
  destruct (update_cluster_counter_table _ _ _ _ _ _ _ _ Hup) as [Ht2 Hs2].
  pose proof (update_cluster_counter_cache _ _ _ _ _ _ _ _ Hcache Hup)
    as Hcache2.
  destruct (Z.ltb_spec ret1 0) as [Hneg1|Hpos1]; [intros [= <- _ _ _]; lia|].
  intros Hloop Hret j Hj.
  pose proof (wf_geometry_static _ _ Hs2 Hwf1) as Hwf2.
  assert (Hg2 : geometry s2 = geometry s).
  { rewrite (static_geometry _ _ Hs2). done. }
  assert (Hcs2 : cluster_size s2 = cluster_size s).
  { unfold geometry in Hg2. by injection Hg2. }
  assert (Hcb2 : cluster_bits s2 = cluster_bits s).
  { unfold geometry in Hg2. by injection Hg2. }
  assert (Hrbb2 : refcount_block_bits s2 = refcount_block_bits s).
  { unfold geometry in Hg2. by injection Hg2. }
  assert (Htab2 : refcount_table s2 = refcount_table s) by congruence.
  pose proof (cluster_size_pos s Hwf) as Hcspos.
  assert (Hnext : Z.shiftr (co + cluster_size s2) (cluster_bits s2)
                  = first + 1).
  { rewrite Hcs2, Hcb2. by apply shiftr_next_cluster. }
  destruct (decide (j = 0)) as [->|Hj0].
  { by rewrite Z.add_0_r. }
  assert (Hsame : Z.shiftr (first + 1) (refcount_block_bits s)
                  = Z.shiftr first (refcount_block_bits s) ->
                  block_offset_of s (first + 1) = o).
  { intros Heq. unfold o, block_offset_of. by rewrite Heq. }
  pose proof (IH s2 (co + cluster_size s2) (Some o)
                (Z.shiftr first (refcount_block_bits s1)) addend type ret
                co' rb' s') as IH'.
  cbn zeta in IH'. rewrite Hnext in IH'.
  assert (Hrbb1 : refcount_block_bits s1 = refcount_block_bits s).
  { unfold geometry in Hg1. by injection Hg1. }
  rewrite Hrbb1, Hrbb2 in IH'.
  unfold block_present.
  rewrite <- (block_offset_of_ext s s2) by done.
  replace (first + j) with (first + 1 + (j - 1)) by lia.
  apply IH'; try done; try lia.
  - intros Heq. rewrite Hrbb2 in Heq.
    rewrite (block_offset_of_ext s s2) by done.
    by rewrite (Hsame Heq).
  - intros Heq. unfold block_present.
    rewrite (block_offset_of_ext s s2) by done. by rewrite (Hsame Heq).
Qed.

Lemma update_refcount_loop_ret fuel rec n :
  forall s cluster_offset refcount_block old_table_index addend type
         ret cluster_offset' refcount_block' s',
  update_refcount_loop backend fuel rec n s cluster_offset refcount_block
    old_table_index addend type
  = Done (ret, cluster_offset', refcount_block', s') ->
  ret <= 0.
Proof.
  induction n as [|n IH]; intros s co rb old addend type ret co' rb' s';
    cbn [update_refcount_loop]; [intros [= <- _ _ _]; lia|].
  unfold mbind, outcome_bind.
  destruct (switch_refcount_block _ _ _ _ _ _ _)
    as [[[ret0 rb1] s1]| |]; [|done..].
  destruct (Z.ltb_spec ret0 0); [intros [= <- _ _ _]; lia|].
  destruct (update_cluster_counter _ _ _ _ _ _) as [[ret1 s2]| |];
    [|done..].
  destruct (Z.ltb_spec ret1 0); [intros [= <- _ _ _]; lia|].
  apply IH.
Qed.

Lemma land_reft_offset_mask e :
  0 <= e < 2 ^ 64 -> e mod 512 = 0 -> Z.land e REFT_OFFSET_MASK = e.
Proof.
  intros He Hmod.
  change REFT_OFFSET_MASK with (Z.shiftl (Z.ones 55) 9).
  assert (Hsh : e = Z.shiftl (e / 512) 9).
  { rewrite Z.shiftl_mul_pow2 by lia. change (2 ^ 9) with 512.
    pose proof (Z.div_mod e 512 ltac:(lia)). lia. }
  rewrite Hsh at 1. rewrite <- Z.shiftl_land, Z.land_ones by lia.
  rewrite Z.mod_small; [by rewrite <- Hsh|].
  split; [apply Z.div_pos; lia|apply Z.div_lt_upper_bound; lia].
Qed.

Lemma aligned_entry_mod s e :
  wf_geometry s -> offset_into_cluster s e = 0 -> e mod 512 = 0.
Proof.
  intros Hwf He. rewrite offset_into_cluster_mod in He by done.
  destruct Hwf as (Hcb & Hcs & _). rewrite Hcs in He.
  apply Z.mod_divide in He; [|lia..]. destruct He as [q ->].
  replace (cluster_bits s) with (cluster_bits s - 9 + 9) by lia.
  rewrite Z.pow_add_r by lia. change (2 ^ 9) with 512.
  by rewrite Z.mul_assoc, Z.mod_mul.
Qed.

(** One call of [qcow2_update_cluster_refcount] that does not fail. *)
Lemma qcow2_update_cluster_refcount_run fuel s cluster_index addend type r
    s' :
  wf_geometry s -> table_uint64 s -> full_blocks s ->
  0 <= cluster_index ->
  Z.shiftl cluster_index (cluster_bits s) < 2 ^ 63 ->
  Z.shiftr cluster_index (refcount_block_bits s) < 2 ^ 32 ->
  qcow2_update_cluster_refcount backend (S fuel) s cluster_index addend type
  = Done (r, s') ->
  0 <= r ->
  r = stored_refcount s cluster_index + addend /\
  stored_refcount s' cluster_index = r /\
  refcount_table s' = refcount_table s /\
  stored_refcount s cluster_index
  = counter s (block_offset_of s cluster_index)
      (Z.land cluster_index (refcount_block_size s - 1)).
Proof.
  intros Hwf Hu64 Hfull Hci Hoff Hidx.
  unfold qcow2_update_cluster_refcount, mbind, outcome_bind.
  destruct (update_refcount _ _ _ _ _ _ _) as [[ret s1]| |] eqn:Hup;
    [|done..].
  destruct (Z.ltb_spec ret 0) as [?|Hret]; [intros [= <- _]; lia|].
  intros [= Hget] Hr.
  pose proof (cluster_size_pos s Hwf) as Hcs.
  destruct (geometry_sizes s Hwf) as (_ & Hrbs & _).
  assert (Hcsz : cluster_size s = 2 ^ cluster_bits s) by apply Hwf.
  assert (Hcb : 0 <= cluster_bits s) by (destruct Hwf; lia).
  set (offset := Z.shiftl cluster_index (cluster_bits s)) in *.
  assert (Ho : offset = cluster_size s * cluster_index).
  { unfold offset. rewrite Z.shiftl_mul_pow2 by done. lia. }
  assert (Hdiv : offset / cluster_size s = cluster_index).
  { rewrite Ho, Z.mul_comm. apply Z.div_mul. lia. }
  assert (Hdiv' : (offset + 1 - 1) / cluster_size s = cluster_index).
  { by replace (offset + 1 - 1) with offset by lia. }
  assert (Ho0 : 0 <= offset) by lia.
  rewrite update_refcount_unfold in Hup by done. cbn zeta in Hup.
  destruct (update_refcount_loop _ _ _ _ _ _ _ _ _ _)
    as [[[[r0 co] rb] s2]| |] eqn:Hloop; [|done..].
  unfold mbind, outcome_bind in Hup.
  destruct (Z.ltb_spec r0 0) as [Hr0|Hr0].
  { destruct (update_refcount backend fuel _ _ _ _ _) as [[d s4]| |];
      [|done..]. injection Hup as -> _. lia. }
  injection Hup as -> <-.
  pose proof (update_refcount_loop_ret _ _ _ _ _ _ _ _ _ _ _ _ _ Hloop).
  assert (ret = 0) as -> by lia.
  pose proof (clusters_between_div s offset 1 Hwf ltac:(done)) as Hn.
  cbn zeta in Hn. rewrite Hdiv, Hdiv' in Hn.
  (* the refcount block of the cluster was there *)
  assert (Hp : block_present s cluster_index).
  { destruct (set_dependency_tables s addend) as (Ht0 & Hs0 & Hc0).
    pose proof (static_geometry _ _ Hs0) as Hg0.
    pose proof (fun H1 H2 H3 H4 =>
                  update_refcount_loop_success _ _ _ _ _ _ _ _ _ _ _ _ _
                    H1 H2 H3 H4 Hloop) as Hpres.
    cbn zeta in Hpres.
    assert (Hst : Z.land offset (Z.lnot (cluster_size s - 1)) = offset).
    { rewrite range_start_div by done. rewrite Hdiv. lia. }
    rewrite Hst in Hpres.
    assert (Hcb0 : cluster_bits
                     (if addend <? 0
                      then qcow2_cache_set_dependency s REFCOUNT_BLOCK_CACHE
                             L2_TABLE_CACHE
                      else s) = cluster_bits s) by (by destruct (addend <? 0)).
    assert (Hrbb0 : refcount_block_bits
                     (if addend <? 0
                      then qcow2_cache_set_dependency s REFCOUNT_BLOCK_CACHE
                             L2_TABLE_CACHE
                      else s) = refcount_block_bits s)
      by (by destruct (addend <? 0)).
    rewrite Hcb0, Hrbb0 in Hpres.
    assert (Hfirst : Z.shiftr offset (cluster_bits s) = cluster_index).
    { by rewrite shiftr_cluster_bits. }
    rewrite Hfirst in Hpres.
    assert (Hnn : 0 <= Z.shiftr cluster_index (refcount_block_bits s))
      by (by apply Z.shiftr_nonneg).
    specialize (Hpres (wf_geometry_static _ _ Hs0 Hwf) Ho0).
    assert (Hp0 : block_present
                    (if addend <? 0
                     then qcow2_cache_set_dependency s REFCOUNT_BLOCK_CACHE
                            L2_TABLE_CACHE
                     else s) (cluster_index + 0)).
    { rewrite Hst in Hn.
      apply Hpres; try done; try lia; intros Heq; rewrite ?Hrbb0 in Heq; lia. }
    rewrite Z.add_0_r in Hp0. unfold block_present in *.
    by rewrite (block_offset_of_ext s _ cluster_index Ht0 Hg0) in Hp0. }
  apply update_refcount_pass_present in Hloop; try done.
  2:{ intros c Hc. rewrite Hdiv, Hdiv' in Hc.
      by assert (c = cluster_index) as -> by lia. }
  destruct Hloop as (k & _ & Hk & Ht & Hs3 & Hlen & Hc).
  specialize (Hk eq_refl).
  assert (k = 1%nat) as -> by lia.
  set (s3 := if negb (cache_discards s2)
             then qcow2_process_discards backend s2 0 else s2) in *.
  pose proof (static_geometry _ _ Hs3) as Hg3.
  assert (Hrbb3 : refcount_block_bits s3 = refcount_block_bits s).
  { unfold geometry in Hg3. by injection Hg3. }
  assert (Hrbs3 : refcount_block_size s3 = refcount_block_size s).
  { unfold geometry in Hg3. by injection Hg3. }
  destruct (get_refcount_value backend s3 cluster_index r s' Hget Hr)
    as (Hval & Ht' & Hs' & Hc' & _ & _ & Hal).
  rewrite Hrbb3, Ht in Hal. unfold refcount_table_size in Hal.
  rewrite Ht in Hal. fold (refcount_table_size s) in Hal.
  (* both lookups see the same table entry *)
  set (idx := Z.shiftr cluster_index (refcount_block_bits s)) in *.
  assert (Hidx0 : 0 <= idx) by (by apply Z.shiftr_nonneg).
  assert (H64 : to_uint64 idx = idx) by (apply to_uint64_small; lia).
  assert (H32 : to_uint32 idx = idx) by (apply to_uint32_small; lia).
  set (e := array_get (refcount_table s) idx) in *.
  unfold block_present, block_offset_of in Hp. fold idx in Hp.
  rewrite H32 in Hp. fold e in Hp.
  destruct (Z.ltb_spec idx (refcount_table_size s)) as [Hin|?]; [|done].
  rewrite H64 in Hal. specialize (Hal Hin).
  assert (He : 0 <= e < 2 ^ 64).
  { unfold e, array_get.
    destruct (refcount_table s !! Z.to_nat idx) as [x|] eqn:Hx;
      cbn [default]; [|lia].
    unfold table_uint64 in Hu64. rewrite Forall_forall in Hu64.
    apply Hu64. by eapply list_elem_of_lookup_2. }
  assert (Hmask : Z.land e REFT_OFFSET_MASK = e).
  { apply land_reft_offset_mask; [done|].
    eapply aligned_entry_mod; [|exact Hal]. by eapply wf_geometry_static. }
  rewrite Hmask in Hp.
  assert (Hstored3 : stored_refcount s3 cluster_index
                     = stored_refcount s cluster_index + addend).
  { unfold stored_refcount, refcount_table_size.
    rewrite Hrbb3, Hrbs3, Ht. fold (refcount_table_size s) idx.
    rewrite H64. fold e.
    destruct (Z.leb_spec (refcount_table_size s) idx); [lia|].
    destruct (Z.eqb_spec e 0); [done|].
    assert (Hi : 0 <= Z.land cluster_index (refcount_block_size s - 1)
                 < refcount_block_size s).
    { destruct Hwf as (? & _ & ? & Hsz). rewrite Hsz.
      replace (2 ^ refcount_block_bits s - 1)
        with (Z.ones (refcount_block_bits s)) by (rewrite Z.ones_equiv; lia).
      rewrite Z.land_ones by lia. apply Z.mod_pos_bound.
      apply Z.pow_pos_nonneg; lia. }
    rewrite Hc by lia. f_equal.
    destruct (Nat.ltb_spec
                (Z.to_nat (Z.land cluster_index (refcount_block_size s - 1)))
                (length (block_contents s e))) as [_|Hshort].
    2:{ pose proof (Hfull e). lia. }
    rewrite Hdiv, hits_S, hits_0. unfold cell_of, block_offset_of.
    fold idx. rewrite H32. fold e.
    destruct (Z.ltb_spec idx (refcount_table_size s)); [|lia].
    rewrite Hmask. destruct (decide _); [lia|done]. }
  rewrite <- Hstored3. split; [done|]. split; [|split; [congruence|]].
  { rewrite Hval. by apply stored_refcount_ext. }
  unfold stored_refcount, block_offset_of. fold idx. rewrite H64, H32. fold e.
  destruct (Z.leb_spec (refcount_table_size s) idx); [lia|].
  destruct (Z.ltb_spec idx (refcount_table_size s)); [|lia].
  rewrite Hmask. by destruct (Z.eqb_spec e 0).
Qed.

(** [qcow2_update_cluster_refcount]: "If the return value is non-negative,
    it is the new refcount of the cluster".  A non-negative result is the
    refcount the cluster had plus the addend, and it is the refcount the
    structure holds afterwards; the refcount table is not touched. *)
Theorem qcow2_update_cluster_refcount_result (fuel : nat) (s : BDRVQcowState)
    (cluster_index addend : Z) (type : qcow2_discard_type) (r : Z)
    (s' : BDRVQcowState) :
  wf_geometry s -> table_uint64 s -> full_blocks s ->
  0 <= cluster_index ->
  Z.shiftl cluster_index (cluster_bits s) < 2 ^ 63 ->
  Z.shiftr cluster_index (refcount_block_bits s) < 2 ^ 32 ->
  qcow2_update_cluster_refcount backend (S fuel) s cluster_index addend type
  = Done (r, s') ->
  0 <= r ->
  r = stored_refcount s cluster_index + addend /\
  stored_refcount s' cluster_index = r /\
  refcount_table s' = refcount_table s.
Proof.
  intros Hwf Hu64 Hfull Hci Hoff Hidx Hrun Hr.
  destruct (qcow2_update_cluster_refcount_run fuel s cluster_index addend
              type r s' Hwf Hu64 Hfull Hci Hoff Hidx Hrun Hr)
    as (H1 & H2 & H3 & _).
  done.
Qed.

End UpdateProperties.

(** * Properties of the size of the refcount table *)

Section TableSizeProperties.

(** The loop of [next_refcount_table_size] multiplies by 3/2, so it ends
    after [n] rounds when [min_clusters] is at most (3/2)^n times the
    start. *)
Lemma next_refcount_table_size_loop_returns n :
  forall fuel min_clusters refcount_table_clusters,
  (n <= fuel)%nat ->
  1 <= refcount_table_clusters < 2 ^ 30 -> min_clusters < 2 ^ 29 ->
  min_clusters * 2 ^ Z.of_nat n <= refcount_table_clusters * 3 ^ Z.of_nat n ->
  exists r,
    next_refcount_table_size_loop fuel min_clusters refcount_table_clusters
    = Done r.
Proof.
  induction n as [|n IH]; intros fuel mc rtc Hfuel Hrtc Hmc Hle.
  - change (Z.of_nat 0) with 0 in Hle. rewrite !Z.pow_0_r in Hle.
    exists rtc. destruct fuel; cbn [next_refcount_table_size_loop];
      by destruct (Z.gtb_spec mc rtc); [lia|].
  - destruct fuel as [|fuel]; [lia|]. cbn [next_refcount_table_size_loop].
    destruct (Z.gtb_spec mc rtc); [|by exists rtc].
    assert (Hstep : to_uint32 (to_uint32 (rtc * 3 + 1) / 2)
                    = (rtc * 3 + 1) / 2).
    { rewrite (to_uint32_small (rtc * 3 + 1)) by lia.
      apply to_uint32_small. split; [apply Z.div_pos; lia|].
      apply Z.div_lt_upper_bound; lia. }
    rewrite Hstep.
    assert (Hhalf : rtc * 3 <= 2 * ((rtc * 3 + 1) / 2) <= rtc * 3 + 1).
    { pose proof (Z.div_mod (rtc * 3 + 1) 2 ltac:(lia)).
      pose proof (Z.mod_pos_bound (rtc * 3 + 1) 2 ltac:(lia)). lia. }
    apply IH; [lia|lia|lia|].
    rewrite Nat2Z.inj_succ, !Z.pow_succ_r in Hle by lia.
    pose proof (Z.pow_pos_nonneg 3 (Z.of_nat n) ltac:(lia) ltac:(lia)).
    pose proof (Z.pow_pos_nonneg 2 (Z.of_nat n) ltac:(lia) ltac:(lia)).
    nia.
Qed.

Lemma next_refcount_table_size_loop_ge fuel :
  forall min_clusters refcount_table_clusters r,
  1 <= refcount_table_clusters < 2 ^ 30 -> min_clusters < 2 ^ 29 ->
  next_refcount_table_size_loop fuel min_clusters refcount_table_clusters
  = Done r ->
  refcount_table_clusters <= r.
Proof.
  induction fuel as [|fuel IH]; intros mc rtc r Hrtc Hmc;
    cbn [next_refcount_table_size_loop];
    destruct (Z.gtb_spec mc rtc); try done; try (intros [= <-]; lia).
  assert (Hstep : to_uint32 (to_uint32 (rtc * 3 + 1) / 2)
                  = (rtc * 3 + 1) / 2).
  { rewrite (to_uint32_small (rtc * 3 + 1)) by lia.
    apply to_uint32_small. split; [apply Z.div_pos; lia|].
    apply Z.div_lt_upper_bound; lia. }
  rewrite Hstep. intros Hr.
  assert (rtc < (rtc * 3 + 1) / 2 <= 2 * rtc).
  { split; [apply Z.lt_le_trans with (rtc + 1); [lia|];
             apply Z.div_le_lower_bound|apply Z.div_le_upper_bound]; lia. }
  apply IH in Hr; lia.
Qed.

(** [next_refcount_table_size] on a table within the limits of the format:
    the loop ends within 27 rounds, and the new size is a whole number of
    clusters of table entries, larger than [min_size], not smaller than the
    clusters the table had, and at most twice what was asked for (rounded
    up) unless the table was larger already. *)
Theorem next_refcount_table_size_rounds (fuel : nat) (s : BDRVQcowState)
    (min_size : Z) :
  let entries := 2 ^ (cluster_bits s - 3) in
  wf_geometry s -> refcount_table_size s <= 2 ^ 20 ->
  0 <= min_size <= 2 ^ 21 -> (27 <= fuel)%nat ->
  exists r,
    next_refcount_table_size fuel s min_size = Done r /\
    r mod entries = 0 /\
    min_size < r /\
    refcount_table_size s - entries < r /\
    r <= Z.max (Z.max entries (refcount_table_size s))
           (2 * (min_size + entries)).
Proof.
  intros entries Hwf Hsize Hmin Hfuel.
  pose proof Hwf as (Hcb & _). unfold next_refcount_table_size.
  rewrite (to_uint32_small min_size) by lia.
  set (k := cluster_bits s - 3) in *.
  assert (Hk : 6 <= k <= 18) by (unfold k; lia).
  assert (H2k : 2 ^ 6 <= entries <= 2 ^ 18)
    by (split; apply Z.pow_le_mono_r; lia).
  assert (Hsz0 : 0 <= refcount_table_size s)
    by (unfold refcount_table_size; lia).
  assert (Hmc : 0 <= Z.shiftr min_size k <= 2 ^ 15).
  { rewrite Z.shiftr_div_pow2 by lia. fold entries.
    split; [apply Z.div_pos; lia|].
    apply Z.div_le_upper_bound; [lia|]. nia. }
  rewrite (to_uint32_small (_ + 1)) by lia.
  assert (Hold : 0 <= Z.shiftr (refcount_table_size s) k <= 2 ^ 14).
  { rewrite Z.shiftr_div_pow2 by lia. fold entries.
    split; [apply Z.div_pos; lia|]. apply Z.div_le_upper_bound; [lia|]. nia. }
  set (mc := Z.shiftr min_size k + 1).
  set (rtc0 := MAX 1 (Z.shiftr (refcount_table_size s) k)).
  assert (Hrtc0 : 1 <= rtc0 <= 2 ^ 14 /\
                  Z.shiftr (refcount_table_size s) k <= rtc0 /\
                  (rtc0 = 1 \/ rtc0 = Z.shiftr (refcount_table_size s) k)).
  { unfold rtc0, MAX.
    destruct (Z.gtb_spec 1 (Z.shiftr (refcount_table_size s) k)); lia. }
  destruct (next_refcount_table_size_loop_returns 27 fuel mc rtc0)
    as [rtc Hloop]; [done|lia|unfold mc; lia| |].
  { unfold mc. change (Z.of_nat 27) with 27.
    change (2 ^ 27) with 134217728. change (3 ^ 27) with 7625597484987.
    lia. }
  rewrite Hloop. unfold mbind, outcome_bind.
  pose proof (next_refcount_table_size_loop_ge fuel mc rtc0 rtc ltac:(lia)
                ltac:(unfold mc; lia) Hloop) as Hge0.
  apply next_refcount_table_size_loop_bounds in Hloop; [|lia|unfold mc; lia].
  pose proof (Z.div_mod min_size entries ltac:(lia)) as Hdm.
  pose proof (Z.mod_pos_bound min_size entries ltac:(lia)) as Hmb.
  pose proof (Z.div_mod (refcount_table_size s) entries ltac:(lia)) as Hdm'.
  pose proof (Z.mod_pos_bound (refcount_table_size s) entries ltac:(lia))
    as Hmb'.
  assert (Hq : Z.shiftr min_size k = min_size / entries)
    by (apply Z.shiftr_div_pow2; lia).
  assert (Hq' : Z.shiftr (refcount_table_size s) k
                = refcount_table_size s / entries)
    by (apply Z.shiftr_div_pow2; lia).
  unfold mc in Hloop. rewrite Hq in Hloop. rewrite Hq' in Hrtc0.
  set (q := min_size / entries) in *.
  set (q' := refcount_table_size s / entries) in *.
  destruct Hloop as [Hlow Hup].
  assert (Hupper : rtc * entries
                   <= Z.max (Z.max entries (refcount_table_size s))
                        (2 * (min_size + entries))).
  { destruct (Z.max_spec rtc0 (2 * (q + 1))) as [[_ Hm]|[_ Hm]];
      rewrite Hm in Hup; [nia|].
    destruct Hrtc0 as (_ & _ & [H1|H1]); rewrite H1 in Hup; nia. }
  assert (Hr : to_uint32 (Z.shiftl rtc k) = rtc * entries).
  { rewrite Z.shiftl_mul_pow2 by lia. fold entries.
    apply to_uint32_small. split; [nia|]. lia. }
  exists (rtc * entries). split; [by rewrite Hr|].
  split; [apply Z.mod_mul; lia|].
  assert (Hge : (q + 1) * entries <= rtc * entries)
    by (apply Z.mul_le_mono_nonneg_r; lia).
  assert (Hge' : q' * entries <= rtc * entries)
    by (apply Z.mul_le_mono_nonneg_r; lia).
  split; [lia|]. split; [lia|done].
Qed.

End TableSizeProperties.

(** * Properties of the discard queue *)

Section DiscardProperties.

Lemma queued_app ds1 ds2 x :
  queued (ds1 ++ ds2) x <-> queued ds1 x \/ queued ds2 x.
Proof. apply Exists_app. Qed.

Lemma queued_cons d ds x :
  queued (d :: ds) x <-> in_region d x \/ queued ds x.
Proof. apply Exists_cons. Qed.

Lemma queued_nil x : ~ queued [] x.
Proof. intros H. by apply Exists_nil in H. Qed.

Lemma queued_bytes_app ds1 ds2 :
  queued_bytes (ds1 ++ ds2) = queued_bytes ds1 + queued_bytes ds2.
Proof.
  induction ds1 as [|d ds1 IH]; cbn [queued_bytes foldr app]; [done|].
  fold (queued_bytes (ds1 ++ ds2)) (queued_bytes ds1). lia.
Qed.

(** The first loop: the region that is extended covers what it covered and
    the new range, and has grown by [length]. *)
Lemma discard_extend_spec offset length ds : forall before found,
  0 <= offset -> 0 <= length -> offset + length < 2 ^ 63 ->
  Forall region_ok ds ->
  discard_extend offset length before ds = Done found ->
  match found with
  | None => True
  | Some (before', d, after) =>
      exists skipped d0,
        ds = skipped ++ d0 :: after /\ before' = before ++ skipped /\
        region_ok d /\ d_bytes d = d_bytes d0 + length /\
        forall x, in_region d x <->
                  in_region d0 x \/ offset <= x < offset + length
  end.
Proof.
  induction ds as [|d ds IH]; intros before found Ho Hl Hend Hok;
    cbn [discard_extend].
  { by intros [= <-]. }
  apply Forall_cons in Hok as [(Hd1 & Hd2 & Hd3) Hok].
  rewrite (to_uint64_small (offset + length)),
    (to_uint64_small (d_offset d + d_bytes d)) by lia.
  set (new_start := MIN offset (d_offset d)).
  set (new_end := MAX (offset + length) (d_offset d + d_bytes d)).
  assert (Hhull : 0 <= new_end - new_start < 2 ^ 64).
  { unfold new_start, new_end, MIN, MAX.
    destruct (Z.ltb_spec offset (d_offset d)),
      (Z.gtb_spec (offset + length) (d_offset d + d_bytes d)); lia. }
  rewrite (to_uint64_small (new_end - new_start)),
    (to_uint64_small (length + d_bytes d)),
    (to_uint64_small (d_bytes d + length)) by lia.
  destruct (Z.leb_spec (new_end - new_start) (length + d_bytes d)) as [Hle|Hgt].
  - unfold mbind, outcome_bind, assert.
    destruct (Z.eqb_spec (d_bytes d + length) (new_end - new_start))
      as [Heq|Hne]; [|by cbn].
    intros [= <-]. exists [], d. rewrite app_nil_r.
    split; [done|]. split; [done|].
    unfold region_ok, in_region, new_start, new_end, MIN, MAX in *.
    cbn [d_offset d_bytes].
    destruct (Z.ltb_spec offset (d_offset d)),
      (Z.gtb_spec (offset + length) (d_offset d + d_bytes d));
      repeat split; try lia; intros; lia.
  - intros Hrun. apply IH in Hrun; try done.
    destruct found as [[[before' d'] after]|]; [|done].
    destruct Hrun as (skipped & d0 & -> & -> & Hrest).
    exists (d :: skipped), d0. rewrite <- app_assoc. done.
Qed.

(** The second loop: [d] absorbs the regions it touches; nothing else
    changes. *)
Lemma discard_merge_spec ps : forall d d' kept,
  region_ok d -> Forall region_ok ps ->
  discard_merge d ps = Done (d', kept) ->
  region_ok d' /\ Forall region_ok kept /\
  d_bytes d' + queued_bytes kept = d_bytes d + queued_bytes ps /\
  (forall x, in_region d' x \/ queued kept x <->
             in_region d x \/ queued ps x) /\
  (length kept <= length ps)%nat.
Proof.
  induction ps as [|p ps IH]; intros d d' kept Hd Hok;
    cbn [discard_merge].
  { intros [= <- <-]. done. }
  apply Forall_cons in Hok as [Hp Hok].
  pose proof Hd as (Hd1 & Hd2 & Hd3). pose proof Hp as (Hp1 & Hp2 & Hp3).
  rewrite !to_uint64_small by lia.
  unfold mbind, outcome_bind, assert.
  destruct ((d_offset p >? d_offset d + d_bytes d)
            || (d_offset d >? d_offset p + d_bytes p)) eqn:Hfar.
  - destruct (discard_merge d ps) as [[d1 kept1]| |] eqn:Hrun; [|done..].
    intros [= <- <-].
    destruct (IH _ _ _ Hd Hok Hrun) as (Hd' & Hk & Hsum & Hcov & Hlen).
    split; [done|]. split; [by apply Forall_cons|].
    cbn [queued_bytes foldr length]. fold (queued_bytes kept1) (queued_bytes ps).
    split; [lia|]. split; [|lia].
    intros x. rewrite !queued_cons. specialize (Hcov x). tauto.
  - apply orb_false_iff in Hfar as [H1 H2].
    rewrite Z.gtb_ltb, Z.ltb_ge in H1. rewrite Z.gtb_ltb, Z.ltb_ge in H2.
    destruct ((d_offset p =? d_offset d + d_bytes d)
              || (d_offset d =? d_offset p + d_bytes p)) eqn:Hadj; [|done].
    apply orb_true_iff in Hadj.
    rewrite !Z.eqb_eq in Hadj.
    set (d1 := mkDiscard (MIN (d_offset d) (d_offset p))
                 (d_bytes d + d_bytes p)).
    assert (Hd1ok : region_ok d1 /\
                    forall x, in_region d1 x <-> in_region d x \/ in_region p x).
    { unfold region_ok, in_region, d1, MIN. cbn [d_offset d_bytes].
      destruct (Z.ltb_spec (d_offset d) (d_offset p));
        repeat split; try lia; intros; lia. }
    destruct Hd1ok as [Hd1ok Hd1cov].
    intros Hrun.
    destruct (IH _ _ _ Hd1ok Hok Hrun) as (Hd' & Hk & Hsum & Hcov & Hlen).
    split; [done|]. split; [done|].
    cbn [queued_bytes foldr length]. fold (queued_bytes ps).
    unfold d1 in Hsum. cbn [d_bytes] in Hsum.
    split; [lia|]. split; [|lia].
    intros x. rewrite queued_cons, Hcov, Hd1cov. tauto.
Qed.

(** [update_refcount_discard] when it returns: the queue covers exactly
    the bytes it covered before and the bytes of the new range, the number
    of queued bytes has grown by [length] (so no byte is queued twice that
    was not before), the queue has at most one region more, and nothing
    else of the state changes. *)
Theorem update_refcount_discard_covers (s : BDRVQcowState)
    (offset length : Z) (s' : BDRVQcowState) :
  0 <= offset -> 0 <= length -> offset + length < 2 ^ 63 ->
  Forall region_ok (discards s) ->
  update_refcount_discard s offset length = Done s' ->
  (forall x, queued (discards s') x <->
             queued (discards s) x \/ offset <= x < offset + length) /\
  queued_bytes (discards s') = queued_bytes (discards s) + length /\
  Forall region_ok (discards s') /\
  (List.length (discards s') <= List.length (discards s) + 1)%nat /\
  s' = set_discards (discards s') s.
Proof.
  intros Ho Hl Hend Hok. unfold update_refcount_discard, mbind, outcome_bind.
  destruct (discard_extend offset length [] (discards s)) as [found| |]
    eqn:Hext; [|done..].
  apply discard_extend_spec in Hext; try done.
  set (parts := match found with
                | Some f => f
                | None => (discards s, mkDiscard offset length, [])
                end).
  assert (Hparts :
    let '(before, d, after) := parts in
    region_ok d /\ Forall region_ok before /\ Forall region_ok after /\
    (forall x, in_region d x \/ queued before x \/ queued after x <->
               queued (discards s) x \/ offset <= x < offset + length) /\
    d_bytes d + queued_bytes before + queued_bytes after
    = queued_bytes (discards s) + length /\
    (List.length before + List.length after <= List.length (discards s))%nat).
  { unfold parts. destruct found as [[[before d] after]|].
    - destruct Hext as (skipped & d0 & Hds & -> & Hd & Hbytes & Hcov).
      rewrite Hds in Hok |- *. rewrite app_nil_l.
      apply Forall_app in Hok as [Hsk Hok].
      apply Forall_cons in Hok as [_ Hok].
      split; [done|]. split; [done|]. split; [done|].
      split; [|split].
      + intros x. rewrite queued_app, queued_cons, Hcov. tauto.
      + rewrite queued_bytes_app. cbn [queued_bytes foldr].
        fold (queued_bytes after). lia.
      + rewrite length_app. cbn [List.length]. lia.
    - split; [unfold region_ok; cbn [d_offset d_bytes]; lia|].
      split; [done|]. split; [done|]. split; [|split].
      + intros x. unfold in_region. cbn [d_offset d_bytes].
        pose proof (queued_nil x). tauto.
      + cbn [d_bytes queued_bytes foldr]. lia.
      + cbn [List.length]. lia. }
  destruct parts as [[before d] after].
  destruct Hparts as (Hd & Hb & Ha & Hcov & Hsum & Hlen).
  destruct (discard_merge d before) as [[d1 before']| |] eqn:Hm1; [|done..].
  destruct (discard_merge_spec _ _ _ _ Hd Hb Hm1)
    as (Hd1 & Hb' & Hsum1 & Hcov1 & Hlen1).
  destruct (discard_merge d1 after) as [[d2 after']| |] eqn:Hm2; [|done..].
  destruct (discard_merge_spec _ _ _ _ Hd1 Ha Hm2)
    as (Hd2 & Ha' & Hsum2 & Hcov2 & Hlen2).
  intros [= <-]. cbn [discards set_discards].
  split; [|split; [|split; [|split]]].
  - intros x. rewrite queued_app, queued_cons, <- Hcov.
    specialize (Hcov1 x). specialize (Hcov2 x). tauto.
  - rewrite queued_bytes_app. cbn [queued_bytes foldr].
    fold (queued_bytes after'). lia.
  - apply Forall_app. split; [done|]. by apply Forall_cons.
  - rewrite length_app. cbn [List.length]. lia.
  - by destruct s.
Qed.

(** ** Queues of disjoint regions *)

Lemma apart_sym a b : apart a b -> apart b a.
Proof. unfold apart. lia. Qed.

Lemma disjoint_regions_app l1 l2 :
  disjoint_regions (l1 ++ l2) <->
  disjoint_regions l1 /\ disjoint_regions l2 /\
  forall a b, a ∈ l1 -> b ∈ l2 -> apart a b.
Proof.
  induction l1 as [|d l1 IH]; cbn [app disjoint_regions].
  - split; [|tauto]. intros H. split; [done|]. split; [done|].
    intros a b Ha. by inversion Ha.
  - rewrite IH, Forall_app, !Forall_forall. split.
    + intros ((H1 & H2) & H3 & H4 & H5).
      split; [by split|]. split; [done|].
      intros a b Ha Hb. apply elem_of_cons in Ha as [->|Ha]; auto.
    + intros ((H1 & H2) & H3 & H4). split; [split|split; [done|split]].
      * done.
      * intros b Hb. apply H4; [left|done].
      * done.
      * intros a b Ha Hb. apply H4; [by right|done].
Qed.

(** A region apart from two adjacent regions is apart from their union. *)
Lemma apart_merged q d p :
  d_offset p = d_offset d + d_bytes d \/ d_offset d = d_offset p + d_bytes p ->
  apart q d -> apart q p ->
  apart q (mkDiscard (MIN (d_offset d) (d_offset p)) (d_bytes d + d_bytes p)).
Proof.
  unfold apart, MIN. cbn [d_offset d_bytes].
  destruct (Z.ltb_spec (d_offset d) (d_offset p)); lia.
Qed.

Lemma discard_extend_disjoint offset length ds : forall before,
  0 <= offset -> 0 < length -> offset + length < 2 ^ 63 ->
  Forall region_ok ds ->
  Forall (apart (mkDiscard offset length)) ds ->
  exists found,
    discard_extend offset length before ds = Done found /\
    match found with
    | None => True
    | Some (before', d, after) =>
        exists skipped d0,
          ds = skipped ++ d0 :: after /\ before' = before ++ skipped /\
          region_ok d /\ 0 < d_bytes d /\
          forall q, apart q d0 -> apart q (mkDiscard offset length) ->
                    apart q d
    end.
Proof.
  induction ds as [|d ds IH]; intros before Ho Hl Hend Hok Hap;
    cbn [discard_extend].
  { by exists None. }
  apply Forall_cons in Hok as [(Hd1 & Hd2 & Hd3) Hok].
  apply Forall_cons in Hap as [Hapd Hap].
  rewrite (to_uint64_small (offset + length)),
    (to_uint64_small (d_offset d + d_bytes d)) by lia.
  set (new_start := MIN offset (d_offset d)).
  set (new_end := MAX (offset + length) (d_offset d + d_bytes d)).
  assert (Hhull : 0 <= new_end - new_start < 2 ^ 64).
  { unfold new_start, new_end, MIN, MAX.
    destruct (Z.ltb_spec offset (d_offset d)),
      (Z.gtb_spec (offset + length) (d_offset d + d_bytes d)); lia. }
  rewrite (to_uint64_small (new_end - new_start)),
    (to_uint64_small (length + d_bytes d)),
    (to_uint64_small (d_bytes d + length)) by lia.
  destruct (Z.leb_spec (new_end - new_start) (length + d_bytes d)) as [Hle|Hgt].
  - unfold mbind, outcome_bind, assert.
    assert (Hsum : d_bytes d + length = new_end - new_start).
    { revert Hle. unfold apart, new_start, new_end, MIN, MAX in *.
      cbn [d_offset d_bytes] in Hapd.
      destruct (Z.ltb_spec offset (d_offset d)),
        (Z.gtb_spec (offset + length) (d_offset d + d_bytes d)); lia. }
    destruct (Z.eqb_spec (d_bytes d + length) (new_end - new_start));
      [|done].
    eexists. split; [done|]. exists [], d. rewrite app_nil_r.
    split; [done|]. split; [done|].
    revert Hle Hsum. unfold region_ok, apart, new_start, new_end, MIN, MAX in *.
    cbn [d_offset d_bytes] in *.
    destruct (Z.ltb_spec offset (d_offset d)),
      (Z.gtb_spec (offset + length) (d_offset d + d_bytes d));
      intros; repeat split; try lia; intros; lia.
  - destruct (IH (before ++ [d]) Ho Hl Hend Hok Hap) as (found & Hrun & Hf).
    exists found. split; [done|].
    destruct found as [[[before' d'] after]|]; [|done].
    destruct Hf as (skipped & d0 & -> & -> & Hrest).
    exists (d :: skipped), d0. rewrite <- app_assoc. done.
Qed.

Lemma discard_merge_disjoint ps : forall d,
  region_ok d -> Forall region_ok ps ->
  Forall (apart d) ps -> disjoint_regions ps ->
  exists d' kept,
    discard_merge d ps = Done (d', kept) /\
    region_ok d' /\ Forall region_ok kept /\
    Forall (apart d') kept /\ disjoint_regions kept /\
    (forall q, q ∈ kept -> q ∈ ps) /\
    (forall q, apart q d -> Forall (apart q) ps -> apart q d').
Proof.
  induction ps as [|p ps IH]; intros d Hd Hok Hap Hdis;
    cbn [discard_merge].
  { exists d, []. split; [done|]. split; [done|]. split; [done|].
    split; [done|]. split; [done|]. split; [done|]. by intros q Hq _. }
  apply Forall_cons in Hok as [Hp Hok].
  apply Forall_cons in Hap as [Hdp Hap].
  destruct Hdis as [Hpps Hdis].
  pose proof Hd as (Hd1 & Hd2 & Hd3). pose proof Hp as (Hp1 & Hp2 & Hp3).
  rewrite !to_uint64_small by lia.
  unfold mbind, outcome_bind, assert.
  destruct ((d_offset p >? d_offset d + d_bytes d)
            || (d_offset d >? d_offset p + d_bytes p)) eqn:Hfar.
  - destruct (IH d Hd Hok Hap Hdis)
      as (d' & kept & Hrun & Hd' & Hk & Hapk & Hdk & Hsub & Hout).
    rewrite Hrun. exists d', (p :: kept). split; [done|].
    split; [done|]. split; [by apply Forall_cons|].
    assert (Hpd' : apart p d') by (apply Hout; [by apply apart_sym|done]).
    split; [apply Forall_cons; split; [by apply apart_sym|done]|].
    split; [|split].
    + split; [|done]. rewrite Forall_forall in Hpps |- *. auto.
    + intros q Hq. apply elem_of_cons in Hq as [->|Hq]; [left|right; auto].
    + intros q Hqd Hq. apply Forall_cons in Hq as [_ Hq]. auto.
  - apply orb_false_iff in Hfar as [H1 H2].
    rewrite Z.gtb_ltb, Z.ltb_ge in H1. rewrite Z.gtb_ltb, Z.ltb_ge in H2.
    assert (Hadj : d_offset p = d_offset d + d_bytes d \/
                   d_offset d = d_offset p + d_bytes p).
    { unfold apart in Hdp. lia. }
    assert (((d_offset p =? d_offset d + d_bytes d)
             || (d_offset d =? d_offset p + d_bytes p)) = true) as ->.
    { apply orb_true_iff. rewrite !Z.eqb_eq. done. }
    set (d1 := mkDiscard (MIN (d_offset d) (d_offset p))
                 (d_bytes d + d_bytes p)).
    assert (Hd1ok : region_ok d1).
    { unfold region_ok, d1, MIN. cbn [d_offset d_bytes].
      destruct (Z.ltb_spec (d_offset d) (d_offset p)); lia. }
    assert (Hd1ap : Forall (apart d1) ps).
    { rewrite Forall_forall in Hap, Hpps |- *. intros q Hq.
      apply apart_sym, apart_merged; [done|apply apart_sym..]; auto. }
    destruct (IH d1 Hd1ok Hok Hd1ap Hdis)
      as (d' & kept & Hrun & Hd' & Hk & Hapk & Hdk & Hsub & Hout).
    exists d', kept. split; [done|]. split; [done|]. split; [done|].
    split; [done|]. split; [done|]. split.
    + intros q Hq. right. auto.
    + intros q Hqd Hq. apply Forall_cons in Hq as [Hqp Hq].
      apply Hout; [|done]. by apply apart_merged.
Qed.

(** The assertions of [update_refcount_discard] hold, and the queue stays a
    queue of non-empty regions that share no byte, when it was one and the
    new range shares no byte with any region queued: "There can't be any
    overlap, areas ending up here have no references any more". *)
Theorem update_refcount_discard_disjoint (s : BDRVQcowState)
    (offset length : Z) :
  0 <= offset -> 0 < length -> offset + length < 2 ^ 63 ->
  Forall region_ok (discards s) ->
  disjoint_regions (discards s) ->
  Forall (apart (mkDiscard offset length)) (discards s) ->
  exists s',
    update_refcount_discard s offset length = Done s' /\
    disjoint_regions (discards s').
Proof.
  intros Ho Hl Hend Hok Hdis Hnew.
  unfold update_refcount_discard, mbind, outcome_bind.
  destruct (discard_extend_disjoint offset length (discards s) [] Ho Hl Hend
              Hok Hnew) as (found & Hext & Hfound).
  rewrite Hext.
  set (parts := match found with
                | Some f => f
                | None => (discards s, mkDiscard offset length, [])
                end).
  assert (Hparts :
    let '(before, d, after) := parts in
    region_ok d /\ Forall region_ok before /\ Forall region_ok after /\
    Forall (apart d) before /\ Forall (apart d) after /\
    disjoint_regions before /\ disjoint_regions after /\
    forall a b, a ∈ before -> b ∈ after -> apart a b).
  { unfold parts. destruct found as [[[before d] after]|].
    - destruct Hfound as (skipped & d0 & Hds & -> & Hd & Hpos & Hmerged).
      rewrite app_nil_l. rewrite Hds in Hok, Hdis, Hnew.
      apply Forall_app in Hok as [Hsk Hok].
      apply Forall_cons in Hok as [_ Hok].
      apply Forall_app in Hnew as [Hnsk Hnew].
      apply Forall_cons in Hnew as [_ Hnaf].
      apply disjoint_regions_app in Hdis as (Hdsk & [Hd0 Hdaf] & Hcross).
      rewrite Forall_forall in Hnsk, Hnaf, Hd0.
      split; [done|]. split; [done|]. split; [done|].
      split; [|split; [|split; [done|split; [done|]]]].
      + apply Forall_forall. intros q Hq. apply apart_sym, Hmerged.
        * apply Hcross; [done|left].
        * apply apart_sym. auto.
      + apply Forall_forall. intros q Hq. apply apart_sym, Hmerged.
        * apply apart_sym. auto.
        * apply apart_sym. auto.
      + intros a b Ha Hb. apply Hcross; [done|by right].
    - split; [unfold region_ok; cbn [d_offset d_bytes]; lia|].
      split; [done|]. split; [done|]. split; [done|]. split; [done|].
      split; [done|]. split; [done|].
      intros a b _ Hb. by inversion Hb. }
  destruct parts as [[before d] after].
  destruct Hparts as (Hd & Hb & Ha & Hdb & Hda & Hdisb & Hdisa & Hcross).
  destruct (discard_merge_disjoint before d Hd Hb Hdb Hdisb)
    as (d1 & before' & Hm1 & Hd1 & Hb' & Hap1 & Hdis1 & Hsub1 & Hout1).
  rewrite Hm1.
  assert (Hd1a : Forall (apart d1) after).
  { rewrite Forall_forall in Hda |- *. intros q Hq.
    apply apart_sym, Hout1; [apply apart_sym; auto|].
    apply Forall_forall. intros a Ha'. apply apart_sym. auto. }
  destruct (discard_merge_disjoint after d1 Hd1 Ha Hd1a Hdisa)
    as (d2 & after' & Hm2 & Hd2 & Ha' & Hap2 & Hdis2 & Hsub2 & Hout2).
  rewrite Hm2. eexists. split; [done|]. cbn [discards set_discards].
  apply disjoint_regions_app. split; [done|]. split; [by split|].
  rewrite Forall_forall in Hap1.
  intros a b Ha1 Hb1.
  assert (Had2 : apart a d2).
  { apply Hout2; [apply apart_sym; auto|].
    apply Forall_forall. intros q Hq. auto. }
  apply elem_of_cons in Hb1 as [->|Hb1]; [done|]. auto.
Qed.

End DiscardProperties.

(** * Properties of the cluster allocation *)

Section AllocationProperties.
Variable backend : nat -> Z.

(** The round of [qcow2_alloc_clusters] that produced the offset: a search
    that found it, and an [update_refcount] that did not fail. *)
Lemma qcow2_alloc_clusters_last_round fuel : forall s size offset s',
  qcow2_alloc_clusters backend fuel s size = Done (offset, s') ->
  0 <= offset ->
  exists fuel' s0 s1 ret,
    static_part s0 = static_part s /\
    alloc_clusters_noref backend fuel' s0 size = Done (offset, s1) /\
    update_refcount backend fuel' s1 offset size 1 QCOW2_DISCARD_NEVER
    = Done (ret, s') /\
    0 <= ret.
Proof.
  induction fuel as [|fuel IH]; intros s size offset s';
    cbn [qcow2_alloc_clusters]; [done|].
  unfold mbind, outcome_bind.
  destruct (alloc_clusters_noref _ _ _ _) as [[offset0 s1]| |] eqn:Hn;
    [|done..].
  destruct (Z.ltb_spec offset0 0); [intros [= <- <-]; lia|].
  destruct (update_refcount _ _ _ _ _ _ _) as [[ret s2]| |] eqn:Hu; [|done..].
  destruct (Z.eqb_spec ret (- EAGAIN)).
  - intros Hrun Hoff.
    destruct (IH _ _ _ _ Hrun Hoff) as (f & s0 & s3 & r & Hst & Hrest).
    exists f, s0, s3, r. split; [|done].
    rewrite Hst. rewrite (update_refcount_static _ _ _ _ _ _ _ _ _ Hu).
    by eapply alloc_clusters_noref_static.
  - destruct (Z.ltb_spec ret 0); intros [= <- <-] ?; [lia|].
    by exists fuel, s, s1, ret.
Qed.

Lemma hits_member s first k c :
  first <= c < first + Z.of_nat k -> 1 <= hits s first k (cell_of s c).
Proof.
  revert first. induction k as [|k IH]; intros first Hc; [lia|].
  rewrite hits_S.
  assert (0 <= hits s (first + 1) k (cell_of s c))
    by (unfold hits; lia).
  destruct (decide (cell_of s first = cell_of s c)) as [|Hne]; [lia|].
  destruct (decide (c = first)) as [->|]; [done|].
  specialize (IH (first + 1) ltac:(lia)). lia.
Qed.

(** Where [alloc_refcount_block] and [get_refcount] find the counter of a
    cluster whose table entry is a clean offset. *)
Lemma stored_cell s c :
  let idx := Z.shiftr c (refcount_block_bits s) in
  let e := array_get (refcount_table s) idx in
  let i := Z.land c (refcount_block_size s - 1) in
  wf_geometry s -> table_uint64 s -> 0 <= c -> idx < 2 ^ 32 ->
  block_present s c ->
  (idx < refcount_table_size s -> offset_into_cluster s e = 0) ->
  cell_of s c = (e, i) /\
  (forall s', refcount_table s' = refcount_table s ->
              geometry s' = geometry s ->
              stored_refcount s' c = counter s' e i) /\
  0 <= i < refcount_block_size s.
Proof.
  intros idx e i Hwf Hu64 Hc Hidx Hp Hal.
  assert (Hidx0 : 0 <= idx) by (by apply Z.shiftr_nonneg).
  assert (H64 : to_uint64 idx = idx) by (apply to_uint64_small; lia).
  assert (H32 : to_uint32 idx = idx) by (apply to_uint32_small; lia).
  unfold block_present, block_offset_of in Hp. fold idx in Hp.
  rewrite H32 in Hp. fold e in Hp.
  destruct (Z.ltb_spec idx (refcount_table_size s)) as [Hin|?]; [|done].
  specialize (Hal Hin).
  assert (He : 0 <= e < 2 ^ 64).
  { unfold e, array_get.
    destruct (refcount_table s !! Z.to_nat idx) as [x|] eqn:Hx;
      cbn [default]; [|lia].
    unfold table_uint64 in Hu64. rewrite Forall_forall in Hu64.
    apply Hu64. by eapply list_elem_of_lookup_2. }
  assert (Hmask : Z.land e REFT_OFFSET_MASK = e).
  { apply land_reft_offset_mask; [done|]. by eapply aligned_entry_mod. }
  rewrite Hmask in Hp.
  split; [|split].
  - unfold cell_of, block_offset_of. fold idx. rewrite H32. fold e.
    destruct (Z.ltb_spec idx (refcount_table_size s)); [|lia].
    by rewrite Hmask.
  - intros s' Ht Hg. unfold geometry in Hg. injection Hg as _ _ Hrbb Hrbs.
    unfold stored_refcount, refcount_table_size. rewrite Ht, Hrbb, Hrbs.
    fold (refcount_table_size s) idx. rewrite H64. fold e i.
    destruct (Z.leb_spec (refcount_table_size s) idx); [lia|].
    by destruct (Z.eqb_spec e 0).
  - destruct Hwf as (? & _ & ? & Hsz). unfold i. rewrite Hsz.
    replace (2 ^ refcount_block_bits s - 1)
      with (Z.ones (refcount_block_bits s)) by (rewrite Z.ones_equiv; lia).
    rewrite Z.land_ones by lia. apply Z.mod_pos_bound.
    apply Z.pow_pos_nonneg; lia.
Qed.

(** [update_refcount] taking a reference to a run of clusters that were
    found free: every one of them is in use afterwards. *)
Lemma update_refcount_takes fuel s1 first size ret s' :
  let nb := (size - 1) / cluster_size s1 + 1 in
  wf_geometry s1 -> 0 <= first -> 0 < size ->
  (forall c, first <= c < first + nb ->
     stored_refcount s1 c = 0 /\
     let idx := to_uint64 (Z.shiftr c (refcount_block_bits s1)) in
     (idx < refcount_table_size s1 ->
      offset_into_cluster s1 (array_get (refcount_table s1) idx) = 0)) ->
  update_refcount backend fuel s1 (first * cluster_size s1) size 1
    QCOW2_DISCARD_NEVER = Done (ret, s') ->
  0 <= ret ->
  table_uint64 s' -> full_blocks s' ->
  forall c, first <= c < first + nb ->
    Z.shiftr c (refcount_block_bits s1) < 2 ^ 32 ->
    1 <= stored_refcount s' c.
Proof.
  intros nb Hwf1 Hfirst Hsize Hfree Hup Hret Hu64 Hfull.
  pose proof (cluster_size_pos s1 Hwf1) as Hcs.
  set (offset := first * cluster_size s1) in *.
  assert (Hoff : 0 <= offset) by (unfold offset; lia).
  assert (Hdiv : offset / cluster_size s1 = first).
  { unfold offset. apply Z.div_mul. lia. }
  assert (Hdiv' : (offset + size - 1) / cluster_size s1 = first + nb - 1).
  { unfold offset, nb.
    replace (first * cluster_size s1 + size - 1)
      with (size - 1 + first * cluster_size s1) by lia.
    rewrite Z.div_add by lia. lia. }
  assert (Hnbpos : 1 <= nb).
  { unfold nb.
    pose proof (Z.div_pos (size - 1) (cluster_size s1) ltac:(lia) Hcs). lia. }
  destruct fuel as [|f]; [done|].
  rewrite update_refcount_unfold in Hup by done. cbn zeta in Hup.
  change (1 <? 0) with false in Hup. cbv iota in Hup.
  destruct (update_refcount_loop _ _ _ _ _ _ _ _ _ _)
    as [[[[r0 co] rb] s2]| |] eqn:Hloop; [|done..].
  unfold mbind, outcome_bind in Hup.
  destruct (Z.ltb_spec r0 0) as [Hr0|Hr0].
  { destruct (update_refcount backend f _ _ _ _ _) as [[d s4]| |];
      [|done..]. injection Hup as -> _. lia. }
  injection Hup as -> <-.
  pose proof (update_refcount_loop_ret _ _ _ _ _ _ _ _ _ _ _ _ _ _ Hloop).
  assert (ret = 0) as -> by lia.
  pose proof (clusters_between_div s1 offset size Hwf1 Hsize) as Hn.
  cbn zeta in Hn. rewrite Hdiv, Hdiv' in Hn.
  assert (Hstart : Z.land offset (Z.lnot (cluster_size s1 - 1)) = offset).
  { rewrite range_start_div by done. rewrite Hdiv. unfold offset. lia. }
  pose proof Hn as Hn'. rewrite Hstart in Hn'.
  assert (Hshift : Z.shiftr offset (cluster_bits s1) = first).
  { by rewrite shiftr_cluster_bits. }
  assert (Hpres : forall c, first <= c <= first + nb - 1 ->
                            block_present s1 c).
  { pose proof (fun H1 H2 H3 H4 =>
                  update_refcount_loop_success backend _ _ _ _ _ _ _ _ _ _
                    _ _ _ H1 H2 H3 H4 Hloop Hr0) as Hp.
    cbn zeta in Hp. rewrite Hstart, Hshift in Hp.
    assert (Hnn : 0 <= Z.shiftr first (refcount_block_bits s1))
      by (by apply Z.shiftr_nonneg).
    intros c Hc. replace c with (first + (c - first)) by lia.
    apply Hp; try done; try lia; try (intros Heq; lia). }
  apply (update_refcount_pass_present backend f s1 offset size 1
           QCOW2_DISCARD_NEVER) in Hloop; try done.
  2:{ intros c Hc. rewrite Hdiv, Hdiv' in Hc. by apply Hpres. }
  destruct Hloop as (k & _ & Hk & Ht & Hs3 & Hlen & Hcount).
  specialize (Hk eq_refl). rewrite Hdiv in Hcount.
  set (s3 := if negb (cache_discards s2)
             then qcow2_process_discards backend s2 0 else s2) in *.
  assert (Hu1 : table_uint64 s1).
  { unfold table_uint64 in *. by rewrite <- Ht. }
  intros c Hc Hidx.
  destruct (Hfree c Hc) as [Hzero Hal]. cbn zeta in Hal.
  destruct (stored_cell s1 c Hwf1 Hu1 ltac:(lia) Hidx (Hpres c ltac:(lia)))
    as (Hcell & Hstored & Hi).
  { intros Hin.
    rewrite to_uint64_small in Hal
      by (split; [apply Z.shiftr_nonneg|]; lia).
    by apply Hal. }
  set (e := array_get (refcount_table s1)
              (Z.shiftr c (refcount_block_bits s1))) in *.
  set (i := Z.land c (refcount_block_size s1 - 1)) in *.
  rewrite (Hstored s3 Ht (static_geometry _ _ Hs3)).
  rewrite Hcount by lia.
  assert (Hzero1 : counter s1 e i = 0).
  { by rewrite <- (Hstored s1 eq_refl eq_refl). }
  rewrite Hzero1.
  assert (Hfull1 : Z.of_nat (length (block_contents s1 e))
                   = refcount_block_size s1).
  { rewrite <- Hlen, Hfull.
    pose proof (static_geometry _ _ Hs3) as Hg3. unfold geometry in Hg3.
    by injection Hg3. }
  destruct (Nat.ltb_spec (Z.to_nat i) (length (block_contents s1 e)));
    [|lia].
  rewrite <- Hcell.
  pose proof (hits_member s1 first k c ltac:(lia)). lia.
Qed.

(** The clusters that [qcow2_alloc_clusters] hands out are in use
    afterwards: when the call returns an offset (a result that is not
    negative), the offset is that of a cluster (it is aligned), and every
    cluster of the range has a refcount of at least 1, so that no later
    search for free clusters can return it.  The image is one with 64-bit
    table entries and full-size refcount blocks. *)
Theorem qcow2_alloc_clusters_in_use (fuel : nat) (s : BDRVQcowState)
    (size offset : Z) (s' : BDRVQcowState) :
  let nb_clusters := size_to_clusters s size in
  wf_geometry s -> 0 < size ->
  qcow2_alloc_clusters backend fuel s size = Done (offset, s') ->
  0 <= offset ->
  table_uint64 s' -> full_blocks s' ->
  exists first,
    0 <= first /\ offset = first * cluster_size s /\
    forall c, first <= c < first + nb_clusters ->
      Z.shiftr c (refcount_block_bits s) < 2 ^ 32 ->
      1 <= stored_refcount s' c.
Proof.
  intros nb Hwf Hsize Hrun Hoff Hu64 Hfull.
  destruct (qcow2_alloc_clusters_last_round _ _ _ _ _ Hrun Hoff)
    as (fuel' & s0 & s1 & ret & Hst0 & Hsearch & Hup & Hret).
  pose proof (static_geometry _ _ Hst0) as Hg0. unfold geometry in Hg0.
  injection Hg0 as Hcb0 Hcs0 Hrbb0 Hrbs0.
  pose proof (cluster_size_pos s Hwf) as Hcs.
  assert (Hcsz : cluster_size s = 2 ^ cluster_bits s) by apply Hwf.
  assert (Hcb : 0 <= cluster_bits s) by (destruct Hwf; lia).
  assert (Hnb0 : size_to_clusters s0 size = nb).
  { unfold nb, size_to_clusters. by rewrite Hcb0, Hcs0. }
  assert (Hnbdiv : nb = (size - 1) / cluster_size s + 1).
  { unfold nb, size_to_clusters. rewrite shiftr_cluster_bits by done.
    replace (size + (cluster_size s - 1))
      with (size - 1 + 1 * cluster_size s) by lia.
    by rewrite Z.div_add by lia. }
  assert (Hnbpos : 1 <= nb).
  { rewrite Hnbdiv.
    pose proof (Z.div_pos (size - 1) (cluster_size s) ltac:(lia) Hcs). lia. }
  destruct (alloc_clusters_noref_result backend fuel' s0 size offset s1
              ltac:(rewrite Hnb0; lia) Hsearch Hoff)
    as (first & Hoffset & _ & _ & Hzero & _ & Ht1 & Hs1 & Hc1 & Hal).
  rewrite Hnb0 in Hzero, Hal. rewrite Hcb0 in Hoffset.
  assert (Hfirst : 0 <= first).
  { rewrite Hoffset in Hoff. by apply Z.shiftl_nonneg in Hoff. }
  assert (Hofs : offset = first * cluster_size s).
  { rewrite Hoffset, Z.shiftl_mul_pow2 by done. by rewrite Hcsz. }
  exists first. split; [done|]. split; [done|].
  assert (Hst1 : static_part s1 = static_part s) by congruence.
  pose proof (wf_geometry_static _ _ Hst1 Hwf) as Hwf1.
  pose proof (static_geometry _ _ Hs1) as Hg1. unfold geometry in Hg1.
  injection Hg1 as Hcb1 Hcs1 Hrbb1 Hrbs1.
  rewrite Hofs, <- Hcs0, <- Hcs1 in Hup.
  rewrite Hnbdiv, <- Hcs0, <- Hcs1. rewrite <- Hrbb0, <- Hrbb1.
  apply (update_refcount_takes fuel' s1 first size ret s'); try done.
  intros c Hc. rewrite Hcs1, Hcs0, <- Hnbdiv in Hc. split.
  - rewrite (stored_refcount_ext s0 s1) by done. by apply Hzero.
  - specialize (Hal c Hc). cbn zeta in Hal |- *.
    unfold refcount_table_size, offset_into_cluster in Hal |- *.
    by rewrite Ht1, Hcs1, Hrbb1.
Qed.

(** ** Allocating at a given offset *)

Lemma count_free_clusters_free n : forall s cluster_index i refcount i' s1,
  count_free_clusters backend n s cluster_index i = (refcount, i', s1) ->
  0 <= refcount ->
  i <= i' /\
  refcount_table s1 = refcount_table s /\
  static_part s1 = static_part s /\
  (forall o, block_contents s1 o = block_contents s o) /\
  forall c, cluster_index <= c < cluster_index + (i' - i) ->
    stored_refcount s c = 0 /\
    let idx := to_uint64 (Z.shiftr c (refcount_block_bits s)) in
    (idx < refcount_table_size s ->
     offset_into_cluster s (array_get (refcount_table s) idx) = 0).
Proof.
  induction n as [|n IH]; intros s ci i refcount i' s1;
    cbn [count_free_clusters].
  { intros [= <- <- <-] _. repeat split; try done; try lia; intros; lia. }
  destruct (get_refcount backend s ci) as [rc s2] eqn:Hget.
  destruct (Z.ltb_spec rc 0) as [?|Hrc]; [intros [= <- _ _] ?; lia|].
  destruct (get_refcount_value _ _ _ _ _ Hget Hrc)
    as (Hval & Ht2 & Hs2 & Hc2 & _ & _ & Hal).
  destruct (Z.eqb_spec rc 0) as [Hz|Hnz]; cbn [negb].
  2:{ intros [= <- <- <-] _. split; [lia|]. do 3 (split; [done|]).
      intros c Hc. lia. }
  intros Hrun Hr. apply IH in Hrun; [|done].
  destruct Hrun as (Hi & Ht & Hs & Hc & Hfree).
  split; [lia|]. split; [congruence|]. split; [congruence|].
  split; [intros o; by rewrite Hc, Hc2|].
  intros c Hcr. destruct (decide (c = ci)) as [->|Hne].
  { split; [congruence|exact Hal]. }
  destruct (Hfree c ltac:(lia)) as [Hzero Hal'].
  split; [by rewrite <- (stored_refcount_ext s s2)|].
  cbn zeta in Hal' |- *.
  pose proof (static_geometry _ _ Hs2) as Hg. unfold geometry in Hg.
  injection Hg as Hg1 Hg2 Hg3 Hg4.
  unfold refcount_table_size, offset_into_cluster in Hal' |- *.
  by rewrite Ht2, Hg2, Hg3 in Hal'.
Qed.

Lemma qcow2_alloc_clusters_at_last_round fuel : forall s offset nb r s',
  qcow2_alloc_clusters_at_loop backend fuel s offset nb = Done (r, s') ->
  0 <= r ->
  exists fuel' s0 s1 refcount ret,
    static_part s0 = static_part s /\
    count_free_clusters backend (Z.to_nat nb) s0
      (Z.shiftr offset (cluster_bits s0)) 0 = (refcount, r, s1) /\
    0 <= refcount /\
    update_refcount backend fuel' s1 offset (Z.shiftl r (cluster_bits s1)) 1
      QCOW2_DISCARD_NEVER = Done (ret, s') /\
    0 <= ret.
Proof.
  induction fuel as [|fuel IH]; intros s offset nb r s';
    cbn [qcow2_alloc_clusters_at_loop]; [done|].
  destruct (count_free_clusters _ _ _ _ _) as [[refcount i] s1] eqn:Hcount.
  destruct (Z.ltb_spec refcount 0); [intros [= <- <-]; lia|].
  unfold mbind, outcome_bind.
  destruct (update_refcount _ _ _ _ _ _ _) as [[ret s2]| |] eqn:Hu; [|done..].
  destruct (Z.eqb_spec ret (- EAGAIN)).
  - intros Hrun Hr.
    destruct (IH _ _ _ _ _ Hrun Hr) as (f & s0 & s3 & rc & rt & Hst & Hrest).
    exists f, s0, s3, rc, rt. split; [|done].
    rewrite Hst. rewrite (update_refcount_static _ _ _ _ _ _ _ _ _ Hu).
    by destruct (count_free_clusters_free _ _ _ _ _ _ _ Hcount ltac:(done))
      as (_ & _ & -> & _).
  - destruct (Z.ltb_spec ret 0); intros [= <- <-] ?; [lia|].
    by exists fuel, s, s1, refcount, ret.
Qed.

(** The clusters that [qcow2_alloc_clusters_at] reports as allocated are in
    use afterwards: when the call returns a positive count for a
    cluster-aligned offset, each of that many clusters from the offset on
    has a refcount of at least 1.  The image is one with 64-bit table
    entries and full-size refcount blocks. *)
Theorem qcow2_alloc_clusters_at_in_use (fuel : nat) (s : BDRVQcowState)
    (offset nb_clusters r : Z) (s' : BDRVQcowState) :
  let first := offset / cluster_size s in
  wf_geometry s -> 0 <= offset -> offset mod cluster_size s = 0 ->
  qcow2_alloc_clusters_at backend fuel s offset nb_clusters = Done (r, s') ->
  0 < r ->
  table_uint64 s' -> full_blocks s' ->
  forall c, first <= c < first + r ->
    Z.shiftr c (refcount_block_bits s) < 2 ^ 32 ->
    1 <= stored_refcount s' c.
Proof.
  intros first Hwf Hoff Hmod Hrun Hr Hu64 Hfull.
  pose proof (cluster_size_pos s Hwf) as Hcs.
  assert (Hcsz : cluster_size s = 2 ^ cluster_bits s) by apply Hwf.
  assert (Hcb : 0 <= cluster_bits s) by (destruct Hwf; lia).
  revert Hrun. unfold qcow2_alloc_clusters_at, assert, mbind, outcome_bind.
  destruct (0 <=? nb_clusters); [|done].
  destruct (nb_clusters =? 0); [intros [= <- _]; lia|].
  intros Hrun.
  destruct (qcow2_alloc_clusters_at_last_round _ _ _ _ _ _ Hrun ltac:(lia))
    as (fuel' & s0 & s1 & refcount & ret & Hst0 & Hcount & Hrc & Hup & Hret).
  pose proof (static_geometry _ _ Hst0) as Hg0. unfold geometry in Hg0.
  injection Hg0 as Hcb0 Hcs0 Hrbb0 Hrbs0.
  destruct (count_free_clusters_free _ _ _ _ _ _ _ Hcount Hrc)
    as (_ & Ht1 & Hs1 & Hc1 & Hfree).
  assert (Hst1 : static_part s1 = static_part s) by congruence.
  pose proof (wf_geometry_static _ _ Hst1 Hwf) as Hwf1.
  pose proof (static_geometry _ _ Hs1) as Hg1. unfold geometry in Hg1.
  injection Hg1 as Hcb1 Hcs1 Hrbb1 Hrbs1.
  assert (Hfirst0 : Z.shiftr offset (cluster_bits s0) = first).
  { rewrite Hcb0. by apply shiftr_cluster_bits. }
  rewrite Hfirst0, Z.sub_0_r in Hfree.
  assert (Hofs : offset = first * cluster_size s1).
  { rewrite Hcs1, Hcs0. unfold first.
    pose proof (Z.div_mod offset (cluster_size s) ltac:(lia)). lia. }
  assert (Hsz : Z.shiftl r (cluster_bits s1) = r * cluster_size s1).
  { rewrite Z.shiftl_mul_pow2 by lia. rewrite Hcs1, Hcs0, Hcsz.
    by rewrite Hcb1, Hcb0. }
  rewrite Hsz, Hofs in Hup.
  assert (Hnb : (r * cluster_size s1 - 1) / cluster_size s1 + 1 = r).
  { assert (0 < cluster_size s1) by lia.
    replace (r * cluster_size s1 - 1)
      with (cluster_size s1 - 1 + (r - 1) * cluster_size s1) by lia.
    rewrite Z.div_add by lia. rewrite Z.div_small by lia. lia. }
  assert (Hfirst : 0 <= first) by (apply Z.div_pos; lia).
  intros c Hc Hidx. rewrite <- Hrbb0, <- Hrbb1 in Hidx.
  apply (update_refcount_takes fuel' s1 first (r * cluster_size s1) ret s');
    try done.
  - apply Z.mul_pos_pos; lia.
  - rewrite Hnb. intros c' Hc'. destruct (Hfree c' Hc') as [Hzero Hal].
    split; [by rewrite (stored_refcount_ext s0 s1)|].
    cbn zeta in Hal |- *.
    unfold refcount_table_size, offset_into_cluster in Hal |- *.
    by rewrite Ht1, Hcs1, Hrbb1.
  - by rewrite Hnb.
Qed.

End AllocationProperties.

(** * Properties of freeing a cluster *)

Section FreeProperties.
Variable backend : nat -> Z.

Lemma update_cluster_counter_free_index s o cluster_offset cluster_index
    addend type r s' :
  is_Some (refcount_block_cache s !! o) ->
  update_cluster_counter s (Some o) cluster_offset cluster_index addend type
  = Done (r, s') ->
  0 <= r ->
  free_cluster_index s'
  = if (counter s o (Z.land cluster_index (refcount_block_size s - 1))
        + addend =? 0)
       && (cluster_index <? free_cluster_index s)
    then cluster_index else free_cluster_index s.
Proof.
  intros Hcache. unfold update_cluster_counter.
  rewrite block_load_mark_dirty.
  replace (refcount_block_size (qcow2_cache_entry_mark_dirty s (Some o)))
    with (refcount_block_size s) by done.
  replace (free_cluster_index (qcow2_cache_entry_mark_dirty s (Some o)))
    with (free_cluster_index s) by done.
  rewrite block_load_contents by done.
  fold (counter s o (Z.land cluster_index (refcount_block_size s - 1))).
  set (v := counter s o _ + addend).
  destruct ((v <? 0) || (v >? 65535)); [intros [= <- _]; unfold EINVAL; lia|].
  intros Hrun _.
  destruct ((v =? 0) && (cluster_index <? free_cluster_index s));
    split_run Hrun;
    repeat match goal with
           | H : update_refcount_discard _ _ _ = Done _ |- _ =>
               apply update_refcount_discard_cache in H as [ds ->]
           end; done.
Qed.

Lemma switch_refcount_block_free_index fuel rec s refcount_block
    old_table_index cluster_index ret refcount_block1 s1 :
  block_present s cluster_index ->
  switch_refcount_block backend fuel rec s refcount_block old_table_index
    cluster_index = Done (ret, refcount_block1, s1) ->
  free_cluster_index s1 = free_cluster_index s.
Proof.
  intros Hp. unfold switch_refcount_block.
  destruct (negb _); [|by intros [= _ _ <-]].
  assert (Hput : (match refcount_block with
                  | Some _ => qcow2_cache_put s refcount_block
                  | None => (0, refcount_block, s)
                  end) = (0, None, s)) by (by destruct refcount_block).
  rewrite Hput. cbn [Z.ltb Z.compare].
  unfold alloc_refcount_block_body. fold (block_offset_of s cluster_index).
  destruct (Z.eqb_spec (block_offset_of s cluster_index) 0) as [?|_];
    [done|]. cbn [negb].
  destruct (negb _); [by intros [= _ _ <-]|].
  unfold load_refcount_block, qcow2_cache_get, backend_request.
  intros H. split_run H; done.
Qed.

(** [update_refcount] of one cluster that succeeds: the search for free
    clusters will start at the cluster when its refcount has become 0. *)
Lemma update_refcount_cluster_free_index fuel s cluster_index addend type ret
    s1 :
  wf_geometry s -> 0 <= cluster_index ->
  update_refcount backend (S fuel) s
    (Z.shiftl cluster_index (cluster_bits s)) 1 addend type
  = Done (ret, s1) ->
  0 <= ret ->
  free_cluster_index s1
  = if (counter s (block_offset_of s cluster_index)
          (Z.land cluster_index (refcount_block_size s - 1)) + addend =? 0)
       && (cluster_index <? free_cluster_index s)
    then cluster_index else free_cluster_index s.
Proof.
  intros Hwf Hci Hup Hret.
  pose proof (cluster_size_pos s Hwf) as Hcs.
  assert (Hcsz : cluster_size s = 2 ^ cluster_bits s) by apply Hwf.
  assert (Hcb : 0 <= cluster_bits s) by (destruct Hwf; lia).
  set (offset := Z.shiftl cluster_index (cluster_bits s)) in *.
  assert (Ho : offset = cluster_size s * cluster_index).
  { unfold offset. rewrite Z.shiftl_mul_pow2 by done. lia. }
  assert (Hdiv : offset / cluster_size s = cluster_index).
  { rewrite Ho, Z.mul_comm. apply Z.div_mul. lia. }
  assert (Hdiv' : (offset + 1 - 1) / cluster_size s = cluster_index).
  { by replace (offset + 1 - 1) with offset by lia. }
  assert (Ho0 : 0 <= offset) by lia.
  rewrite update_refcount_unfold in Hup by done. cbn zeta in Hup.
  destruct (set_dependency_tables s addend) as (Ht0 & Hs0 & Hc0).
  assert (Hf0 : free_cluster_index
                  (if addend <? 0
                   then qcow2_cache_set_dependency s REFCOUNT_BLOCK_CACHE
                          L2_TABLE_CACHE
                   else s) = free_cluster_index s)
    by (by destruct (addend <? 0)).
  set (s0 := if addend <? 0
             then qcow2_cache_set_dependency s REFCOUNT_BLOCK_CACHE
                    L2_TABLE_CACHE
             else s) in *.
  pose proof (static_geometry _ _ Hs0) as Hg0.
  pose proof (wf_geometry_static _ _ Hs0 Hwf) as Hwf0.
  pose proof Hg0 as Hg0'. unfold geometry in Hg0'.
  injection Hg0' as Hcb0 Hcs0 Hrbb0 Hrbs0.
  pose proof (clusters_between_div s offset 1 Hwf ltac:(done)) as Hn.
  cbn zeta in Hn. rewrite Hdiv, Hdiv' in Hn.
  assert (Hst : Z.land offset (Z.lnot (cluster_size s - 1)) = offset).
  { rewrite range_start_div by done. rewrite Hdiv. lia. }
  rewrite Hst in Hup, Hn.
  destruct (clusters_between s offset _) as [|[|n]]; [lia| |lia].
  assert (Hfirst : Z.shiftr offset (cluster_bits s0) = cluster_index).
  { rewrite Hcb0. by rewrite shiftr_cluster_bits. }
  destruct (update_refcount_loop _ _ _ _ _ _ _ _ _ _)
    as [[[[r0 co] rb] s2]| |] eqn:Hloop; [|done..].
  unfold mbind, outcome_bind in Hup.
  destruct (Z.ltb_spec r0 0) as [Hr0|Hr0].
  { destruct (update_refcount backend fuel _ _ _ _ _) as [[d s4]| |];
      [|done..]. injection Hup as -> _. lia. }
  injection Hup as -> <-.
  assert (Hnn : 0 <= Z.shiftr cluster_index (refcount_block_bits s0))
    by (by apply Z.shiftr_nonneg).
  assert (Hp0 : block_present s0 cluster_index).
  { pose proof (fun H1 H2 H3 H4 =>
                  update_refcount_loop_success backend _ _ _ _ _ _ _ _ _ _
                    _ _ _ H1 H2 H3 H4 Hloop Hr0) as Hp.
    cbn zeta in Hp. rewrite Hfirst in Hp.
    rewrite <- (Z.add_0_r cluster_index).
    apply Hp; try done; try lia; try (intros Heq; lia). }
  (* the one round of the loop *)
  cbn [update_refcount_loop] in Hloop. rewrite Hfirst in Hloop.
  unfold mbind, outcome_bind in Hloop.
  destruct (switch_refcount_block _ _ _ _ _ _ _)
    as [[[ret0 rb1] sA]| |] eqn:Hsw; [|done..].
  assert (Hheld : held s0 None (-1) cluster_index)
    by (intros Heq; lia).
  destruct (switch_refcount_block_present backend _ _ _ _ _ _ _ _ _ Hp0
              Hheld Hsw) as (HtA & HsA & HcA & Hok).
  pose proof (switch_refcount_block_free_index _ _ _ _ _ _ _ _ _ Hp0 Hsw)
    as HfA.
  destruct (Z.ltb_spec ret0 0) as [?|Hpos]; [injection Hloop as <- _ _ _; lia|].
  destruct (Hok Hpos) as [-> Hcache].
  destruct (update_cluster_counter _ _ _ _ _ _) as [[ret1 sB]| |] eqn:Hcnt;
    [|done..].
  destruct (Z.ltb_spec ret1 0) as [?|Hpos1];
    [injection Hloop as <- _ _ _; lia|].
  injection Hloop as _ _ _ <-.
  pose proof (update_cluster_counter_free_index _ _ _ _ _ _ _ _ Hcache Hcnt
                Hpos1) as HfB.
  assert (Hf3 : free_cluster_index
                  (if negb (cache_discards sB)
                   then qcow2_process_discards backend sB ret else sB)
                = free_cluster_index sB).
  { destruct (negb _); [|done].
    pose proof (qcow2_process_discards_pres backend
                  (fun a b => free_cluster_index b = free_cluster_index a))
      as Hp. apply Hp; try done. intros a b c ? ?. congruence. }
  rewrite Hf3, HfB, HfA, Hf0.
  pose proof (static_geometry _ _ HsA) as HgA. unfold geometry in HgA.
  injection HgA as _ _ _ HrbsA.
  rewrite HrbsA, Hrbs0. unfold counter. rewrite HcA, Hc0.
  by rewrite (block_offset_of_ext s s0 cluster_index Ht0 Hg0).
Qed.

(** A cluster whose refcount drops to 0 is found again by the allocator:
    after a [qcow2_update_cluster_refcount] that returns the new refcount,
    [free_cluster_index] is at or below the cluster when the new refcount
    is 0, and where it was otherwise. *)
Theorem qcow2_update_cluster_refcount_free_index (fuel : nat)
    (s : BDRVQcowState) (cluster_index addend : Z)
    (type : qcow2_discard_type) (r : Z) (s' : BDRVQcowState) :
  wf_geometry s -> table_uint64 s -> full_blocks s ->
  0 <= cluster_index ->
  Z.shiftl cluster_index (cluster_bits s) < 2 ^ 63 ->
  Z.shiftr cluster_index (refcount_block_bits s) < 2 ^ 32 ->
  qcow2_update_cluster_refcount backend (S fuel) s cluster_index addend type
  = Done (r, s') ->
  0 <= r ->
  free_cluster_index s'
  = if r =? 0 then Z.min (free_cluster_index s) cluster_index
    else free_cluster_index s.
Proof.
  intros Hwf Hu64 Hfull Hci Hoff Hidx Hrun Hr.
  destruct (qcow2_update_cluster_refcount_run backend fuel s cluster_index
              addend type r s' Hwf Hu64 Hfull Hci Hoff Hidx Hrun Hr)
    as (Hnew & _ & _ & Hcell).
  revert Hrun. unfold qcow2_update_cluster_refcount, mbind, outcome_bind.
  destruct (update_refcount _ _ _ _ _ _ _) as [[ret s1]| |] eqn:Hup;
    [|done..].
  destruct (Z.ltb_spec ret 0) as [?|Hret]; [intros [= <- _]; lia|].
  intros [= Hget].
  destruct (get_refcount_value backend s1 cluster_index r s' Hget Hr)
    as (_ & _ & _ & _ & -> & _).
  rewrite (update_refcount_cluster_free_index fuel s cluster_index addend
             type ret s1 Hwf Hci Hup Hret).
  rewrite <- Hcell, <- Hnew.
  destruct (Z.eqb_spec r 0); cbn [andb]; [|done].
  destruct (Z.ltb_spec cluster_index (free_cluster_index s)); lia.
Qed.

End FreeProperties.

(** * Properties of the growth of the refcount table *)

Section GrowthProperties.
Variable backend : nat -> Z.

Lemma next_refcount_table_size_upper fuel s min_size r :
  let entries := 2 ^ (cluster_bits s - 3) in
  wf_geometry s -> refcount_table_size s <= 2 ^ 20 ->
  0 <= min_size <= 2 ^ 21 ->
  next_refcount_table_size fuel s min_size = Done r ->
  r mod entries = 0 /\
  r <= Z.max (Z.max entries (refcount_table_size s))
         (2 * (min_size + entries)).
Proof.
  intros entries Hwf Hsize Hmin.
  pose proof Hwf as (Hcb & _). unfold next_refcount_table_size.
  rewrite (to_uint32_small min_size) by lia.
  set (k := cluster_bits s - 3) in *.
  assert (Hk : 6 <= k <= 18) by (unfold k; lia).
  assert (H2k : 2 ^ 6 <= entries <= 2 ^ 18)
    by (split; apply Z.pow_le_mono_r; lia).
  assert (Hsz0 : 0 <= refcount_table_size s)
    by (unfold refcount_table_size; lia).
  assert (Hq : Z.shiftr min_size k = min_size / entries)
    by (apply Z.shiftr_div_pow2; lia).
  assert (Hq' : Z.shiftr (refcount_table_size s) k
                = refcount_table_size s / entries)
    by (apply Z.shiftr_div_pow2; lia).
  rewrite Hq, Hq'.
  set (q := min_size / entries). set (q' := refcount_table_size s / entries).
  assert (Hmc : 0 <= q <= 2 ^ 15).
  { split; [apply Z.div_pos; lia|].
    apply Z.div_le_upper_bound; [lia|]. nia. }
  assert (Hold : 0 <= q' <= 2 ^ 14).
  { split; [apply Z.div_pos; lia|]. apply Z.div_le_upper_bound; [lia|]. nia. }
  rewrite (to_uint32_small (_ + 1)) by lia.
  set (rtc0 := MAX 1 q').
  assert (Hrtc0 : 1 <= rtc0 <= 2 ^ 14 /\ (rtc0 = 1 \/ rtc0 = q')).
  { unfold rtc0, MAX. destruct (Z.gtb_spec 1 q'); lia. }
  unfold mbind, outcome_bind.
  destruct (next_refcount_table_size_loop _ _ _) as [rtc| |] eqn:Hloop;
    [|done..].
  intros [= <-].
  apply next_refcount_table_size_loop_bounds in Hloop; [|lia..].
  destruct Hloop as [Hlow Hup].
  pose proof (Z.div_mod min_size entries ltac:(lia)) as Hdm.
  pose proof (Z.mod_pos_bound min_size entries ltac:(lia)) as Hmb.
  pose proof (Z.div_mod (refcount_table_size s) entries ltac:(lia)) as Hdm'.
  pose proof (Z.mod_pos_bound (refcount_table_size s) entries ltac:(lia))
    as Hmb'.
  fold q in Hdm. fold q' in Hdm'.
  assert (Hupper : rtc * entries
                   <= Z.max (Z.max entries (refcount_table_size s))
                        (2 * (min_size + entries))).
  { destruct (Z.max_spec rtc0 (2 * (q + 1))) as [[_ Hm]|[_ Hm]];
      rewrite Hm in Hup; [nia|].
    destruct Hrtc0 as (_ & [H1|H1]); rewrite H1 in Hup; nia. }
  assert (Hr : to_uint32 (Z.shiftl rtc k) = rtc * entries).
  { rewrite Z.shiftl_mul_pow2 by lia. fold entries.
    apply to_uint32_small. split; [nia|]. lia. }
  rewrite Hr. split; [apply Z.mod_mul; lia|done].
Qed.

Lemma grow_table_size_exit fuel s blocks_used n : forall t r bc,
  grow_table_size fuel n s blocks_used t = Done (r, bc) ->
  let tc := size_to_clusters s (r * 8) in
  bc = 1 + (tc + refcount_block_size s - 1) / refcount_block_size s /\
  next_refcount_table_size fuel s
    (blocks_used
     + (tc + bc + refcount_block_size s - 1) / refcount_block_size s)
  = Done r.
Proof.
  induction n as [|n IH]; intros t r bc; cbn [grow_table_size]; [done|].
  unfold mbind, outcome_bind.
  destruct (next_refcount_table_size _ _ _) as [t'| |] eqn:Hnext; [|done..].
  destruct (Z.eqb_spec t t') as [->|Hne]; cbn [negb].
  - intros [= <- <-]. cbn zeta. split; [done|]. exact Hnext.
  - apply IH.
Qed.

(** The refcount blocks that are created with the new table have room for
    the counters of all new metadata clusters. *)
Lemma metadata_fits s blocks_used r :
  let cs := cluster_size s in
  let rbs := refcount_block_size s in
  let tc := (r * 8 + (cs - 1)) / cs in
  let bc := 1 + (tc + rbs - 1) / rbs in
  wf_geometry s -> refcount_table_size s <= 2 ^ 20 ->
  0 <= blocks_used <= 2 ^ 20 -> 0 <= r ->
  r <= Z.max (Z.max (2 ^ (cluster_bits s - 3)) (refcount_table_size s))
         (2 * (blocks_used + (tc + bc + rbs - 1) / rbs
               + 2 ^ (cluster_bits s - 3))) ->
  tc + bc <= bc * rbs.
Proof.
  intros cs rbs tc bc (Hcb & Hcs & Hrbb & Hrbs) Hsize Hused Hr.
  unfold bc, tc, cs, rbs. rewrite Hrbs, Hrbb, Hcs.
  clear bc tc cs rbs.
  set (size := refcount_table_size s) in *. clearbody size.
  clear Hcs Hrbb Hrbs.
  set (C := 2 ^ cluster_bits s). set (R := 2 ^ (cluster_bits s - 1)).
  set (E := 2 ^ (cluster_bits s - 3)).
  assert (Hgeo : 0 < C /\ 0 < R /\
            ((C = 2 ^ 9 /\ R = 2 ^ 8 /\ E = 2 ^ 6) \/
             (C = 2 ^ 10 /\ R = 2 ^ 9 /\ E = 2 ^ 7) \/
             (C = 2 ^ 11 /\ R = 2 ^ 10 /\ E = 2 ^ 8) \/
             (C = 2 ^ 12 /\ R = 2 ^ 11 /\ E = 2 ^ 9) \/
             (C = 2 ^ 13 /\ R = 2 ^ 12 /\ E = 2 ^ 10) \/
             (C = 2 ^ 14 /\ R = 2 ^ 13 /\ E = 2 ^ 11) \/
             (C = 2 ^ 15 /\ R = 2 ^ 14 /\ E = 2 ^ 12) \/
             (C = 2 ^ 16 /\ R = 2 ^ 15 /\ E = 2 ^ 13) \/
             (C = 2 ^ 17 /\ R = 2 ^ 16 /\ E = 2 ^ 14) \/
             (C = 2 ^ 18 /\ R = 2 ^ 17 /\ E = 2 ^ 15) \/
             (C = 2 ^ 19 /\ R = 2 ^ 18 /\ E = 2 ^ 16) \/
             (C = 2 ^ 20 /\ R = 2 ^ 19 /\ E = 2 ^ 17) \/
             (C = 2 ^ 21 /\ R = 2 ^ 20 /\ E = 2 ^ 18))).
  { split; [apply Z.pow_pos_nonneg; lia|].
    split; [apply Z.pow_pos_nonneg; lia|]. unfold C, R, E.
    assert (Hcases : cluster_bits s = 9 \/ cluster_bits s = 10 \/
              cluster_bits s = 11 \/ cluster_bits s = 12 \/
              cluster_bits s = 13 \/ cluster_bits s = 14 \/
              cluster_bits s = 15 \/ cluster_bits s = 16 \/
              cluster_bits s = 17 \/ cluster_bits s = 18 \/
              cluster_bits s = 19 \/ cluster_bits s = 20 \/
              cluster_bits s = 21) by lia.
    repeat destruct Hcases as [->|Hcases]; [..|rewrite Hcases]; tauto. }
  clearbody C R E. destruct Hgeo as (HC & HR & Hgeo).
  set (tc := (r * 8 + (C - 1)) / C).
  set (b1 := (tc + R - 1) / R).
  set (X := (tc + (1 + b1) + R - 1) / R).
  intros Hle.
  assert (H1 : C * tc <= r * 8 + (C - 1) < C * tc + C).
  { unfold tc. pose proof (Z.div_mod (r * 8 + (C - 1)) C ltac:(lia)).
    pose proof (Z.mod_pos_bound (r * 8 + (C - 1)) C ltac:(lia)). lia. }
  assert (H2 : R * b1 <= tc + R - 1 < R * b1 + R).
  { unfold b1. pose proof (Z.div_mod (tc + R - 1) R ltac:(lia)).
    pose proof (Z.mod_pos_bound (tc + R - 1) R ltac:(lia)). lia. }
  assert (H3 : R * X <= tc + (1 + b1) + R - 1 < R * X + R).
  { unfold X. pose proof (Z.div_mod (tc + (1 + b1) + R - 1) R ltac:(lia)).
    pose proof (Z.mod_pos_bound (tc + (1 + b1) + R - 1) R ltac:(lia)). lia. }
  clearbody X b1 tc.
  repeat destruct Hgeo as [(-> & -> & ->)|Hgeo];
    [..|destruct Hgeo as (-> & -> & ->)]; lia.
Qed.

(** ** The refcount blocks that reach the file *)

Lemma array_get_take_drop (l : list Z) (n per : nat) k :
  0 <= k < Z.of_nat per ->
  array_get (take per (drop n l)) k = array_get l (Z.of_nat n + k).
Proof.
  intros Hk. unfold array_get.
  rewrite lookup_take_lt, lookup_drop by lia.
  by replace (Z.to_nat (Z.of_nat n + k)) with (n + Z.to_nat k)%nat by lia.
Qed.

Lemma new_refcount_blocks_one s table_clusters blocks_clusters j :
  0 <= j < table_clusters + blocks_clusters ->
  table_clusters + blocks_clusters <= blocks_clusters * cluster_size s / 2 ->
  array_get (new_refcount_blocks s table_clusters blocks_clusters) j
  = cpu_to_be16 1.
Proof.
  intros Hj Hfit. unfold new_refcount_blocks, array_get.
  rewrite lookup_take_lt by lia.
  rewrite lookup_app_l by (rewrite length_replicate; lia).
  by rewrite lookup_replicate_2 by lia.
Qed.

Lemma written_cluster_lookup (f0 : gmap Z (list Z)) meta cs per
    (new_blocks : list Z) (l : list Z) i :
  0 < cs -> i ∈ l ->
  foldl (fun f i =>
           <[meta + i * cs :=
               take per (drop (Z.to_nat i * per)%nat new_blocks)]> f) f0 l
  !! (meta + i * cs)
  = Some (take per (drop (Z.to_nat i * per)%nat new_blocks)).
Proof.
  intros Hcs. induction l as [|x l IH] using rev_ind; intros Hin.
  { by inversion Hin. }
  rewrite foldl_snoc. destruct (decide (x = i)) as [->|Hne].
  - by rewrite lookup_insert_eq.
  - rewrite lookup_insert_ne by nia. apply IH.
    apply elem_of_app in Hin as [?|Hin]; [done|].
    apply list_elem_of_singleton in Hin. congruence.
Qed.

Lemma write_refcount_blocks_file s meta_offset new_blocks blocks_clusters r
    s1 :
  0 < cluster_size s ->
  write_refcount_blocks backend s meta_offset new_blocks blocks_clusters
  = (r, s1) ->
  0 <= r ->
  refcount_block_cache s1 = refcount_block_cache s /\
  static_part s1 = static_part s /\
  forall i, 0 <= i < blocks_clusters ->
    file_clusters s1 !! (meta_offset + i * cluster_size s)
    = Some (take (Z.to_nat (cluster_size s / 2))
              (drop (Z.to_nat i * Z.to_nat (cluster_size s / 2))%nat
                 new_blocks)).
Proof.
  intros Hcs. unfold write_refcount_blocks, bdrv_pwrite_sync, backend_request.
  simpl_state.
  match goal with
  | |- context [?x <? 0] => destruct (Z.ltb_spec x 0)
  end; [intros [= <- _] ?; lia|].
  intros [= <- <-] _. simpl_state. split; [done|]. split; [done|].
  intros i Hi. apply written_cluster_lookup; [done|].
  apply elem_of_seqZ. lia.
Qed.

(** The growth of the refcount table creates metadata that describes
    itself: in the state with the new table in force, every cluster from
    the first new refcount block to the end of the new refcount table has
    refcount 1.  (None of the new refcount blocks is in the cache: they lie
    behind everything the image has used so far.) *)
Theorem grow_refcount_table_self_describing (fuel : nat) (s : BDRVQcowState)
    (cluster_index new_block : Z) (s' : BDRVQcowState)
    (old_table_offset old_table_size : Z) :
  let refcount_table_index :=
    to_uint32 (Z.shiftr cluster_index (refcount_block_bits s)) in
  let blocks_used :=
    DIV_ROUND_UP
      (MAX (cluster_index + 1) (Z.shiftr new_block (cluster_bits s) + 1))
      (refcount_block_size s) in
  let first := blocks_used * refcount_block_size s in
  wf_geometry s -> 0 <= cluster_index ->
  refcount_table_size s <= refcount_table_index ->
  (forall o, first * cluster_size s <= o ->
             refcount_block_cache s !! o = None) ->
  grow_refcount_table backend fuel s cluster_index refcount_table_index
    new_block
  = Done (inr (s', old_table_offset, old_table_size)) ->
  first * cluster_size s < refcount_table_offset s' /\
  refcount_table_offset s' mod cluster_size s = 0 /\
  forall c,
    first <= c
    < refcount_table_offset s' / cluster_size s
      + size_to_clusters s (refcount_table_size s' * 8) ->
    stored_refcount s' c = 1.
Proof.
  intros rti blocks_used first Hwf Hci Hidx Hcache.
  pose proof (blocks_used_bounds s cluster_index new_block Hwf Hci) as Hused.
  fold rti blocks_used in Hused.
  pose proof (to_uint32_range (Z.shiftr cluster_index (refcount_block_bits s)))
    as Hrti. fold rti in Hrti.
  destruct (geometry_sizes s Hwf) as (Hcsr & Hrbsr & Hhalf).
  pose proof (cluster_size_pos s Hwf) as Hcs.
  unfold grow_refcount_table. fold blocks_used.
  destruct (Z.gtb_spec blocks_used (QCOW_MAX_REFTABLE_SIZE / 8)) as [|Hmax];
    [done|].
  change (QCOW_MAX_REFTABLE_SIZE / 8) with (2 ^ 20) in Hmax.
  assert (Hsize : refcount_table_size s <= 2 ^ 20) by lia.
  unfold mbind, outcome_bind.
  destruct (next_refcount_table_size fuel s (blocks_used + 1))
    as [t0| |] eqn:Hnext; [|done..].
  apply next_refcount_table_size_bounds in Hnext; [|done|done|lia].
  destruct (grow_table_size fuel fuel s blocks_used t0)
    as [[table_size blocks_clusters]| |] eqn:Hgrow; [|done..].
  pose proof (grow_table_size_exit _ _ _ _ _ _ _ Hgrow) as Hexit.
  apply grow_table_size_bounds in Hgrow; [|done|done|lia|lia].
  destruct Hgrow as (Hbc & Hfit & Hts).
  cbn zeta in Hexit. destruct Hexit as [Hbceq Hlast].
  rewrite size_to_clusters_div in Hbceq, Hlast by done.
  set (tc := (table_size * 8 + (cluster_size s - 1)) / cluster_size s) in *.
  assert (Htc : 0 <= tc <= 2 ^ 26 + 1).
  { split; [apply Z.div_pos; lia|].
    apply Z.div_le_upper_bound; [lia|]. nia. }
  assert (HX : 0 <= (tc + blocks_clusters + refcount_block_size s - 1)
                    / refcount_block_size s <= 2 ^ 20).
  { split; [apply Z.div_pos; lia|].
    apply Z.div_le_upper_bound; [lia|].
    assert ((tc + refcount_block_size s - 1) / refcount_block_size s
            <= 2 ^ 18 + 1); [|nia].
    apply Z.div_le_upper_bound; [lia|]. nia. }
  apply next_refcount_table_size_upper in Hlast; [|done|done|lia].
  destruct Hlast as [_ Hupper].
  assert (Hroom : tc + blocks_clusters
                  <= blocks_clusters * refcount_block_size s).
  { rewrite Hbceq. rewrite Hbceq in Hupper.
    apply (metadata_fits s blocks_used table_size); try done; lia. }
  destruct (write_refcount_blocks _ _ _ _ _) as [ret1 s1] eqn:Hw1.
  destruct (Z.ltb_spec ret1 0); [done|].
  destruct (write_refcount_blocks_file _ _ _ _ _ _ Hcs Hw1 ltac:(done))
    as (Hc1 & Hs1 & Hfile).
  apply write_refcount_blocks_table in Hw1 as [Ht1 Ho1].
  unfold bdrv_pwrite_sync, backend_request.
  destruct (_ <? 0); [done|]. destruct (_ <? 0); [done|].
  intros [= <- <- <-].
  pose proof (static_geometry _ _ Hs1) as Hg1. unfold geometry in Hg1.
  injection Hg1 as Hcb1 Hcs1 Hrbb1 Hrbs1.
  set (rbs := refcount_block_size s) in *.
  set (cs := cluster_size s) in *.
  set (meta := blocks_used * rbs * cs) in *.
  set (new_table := new_refcount_table s rti new_block blocks_used
                      blocks_clusters table_size meta).
  assert (Hlen : Z.of_nat (length new_table) = table_size).
  { unfold new_table, new_refcount_table.
    rewrite fill_metadata_entries_length, array_set_length, length_resize.
    lia. }
  unfold stored_refcount, counter, block_contents, refcount_table_size.
  simpl_state. rewrite Hlen. fold rbs cs.
  assert (Hoffs : meta + blocks_clusters * cs = (first + blocks_clusters) * cs)
    by (unfold meta, first; fold rbs; ring).
  rewrite Hoffs.
  split; [unfold first; fold rbs; nia|].
  split; [apply Z.mod_mul; lia|].
  rewrite Z.div_mul by lia. rewrite size_to_clusters_div by done.
  fold cs tc. intros c Hc.
  rewrite Hrbb1, Hrbs1, Hcs1, Hc1. fold rbs cs.
  (* the place of the counter of cluster [c] *)
  assert (Hrbs2 : rbs = 2 ^ refcount_block_bits s) by apply Hwf.
  assert (Hrbb0 : 0 <= refcount_block_bits s) by (destruct Hwf; lia).
  set (j := c - first).
  assert (Hj : 0 <= j < tc + blocks_clusters) by (unfold j; lia).
  assert (Hq : 0 <= j / rbs < blocks_clusters).
  { split; [apply Z.div_pos; lia|]. apply Z.div_lt_upper_bound; lia. }
  pose proof (Z.div_mod j rbs ltac:(lia)) as Hdm.
  pose proof (Z.mod_pos_bound j rbs ltac:(lia)) as Hk.
  assert (Hshift : Z.shiftr c (refcount_block_bits s) = blocks_used + j / rbs).
  { rewrite Z.shiftr_div_pow2, <- Hrbs2 by done.
    replace c with (blocks_used * rbs + j) by (unfold j, first; lia).
    rewrite Z.div_add_l by lia. done. }
  assert (Hland : Z.land c (rbs - 1) = j mod rbs).
  { rewrite Hrbs2.
    replace (2 ^ refcount_block_bits s - 1)
      with (Z.ones (refcount_block_bits s)) by (rewrite Z.ones_equiv; lia).
    rewrite Z.land_ones, <- Hrbs2 by done.
    replace c with (j + blocks_used * rbs) by (unfold j, first; lia).
    by rewrite Z.mod_add by lia. }
  rewrite Hshift, Hland.
  rewrite to_uint64_small by lia.
  destruct (Z.leb_spec table_size (blocks_used + j / rbs)); [lia|].
  assert (Hentry : array_get new_table (blocks_used + j / rbs)
                   = meta + j / rbs * cs).
  { unfold new_table, new_refcount_table.
    apply fill_metadata_entries_at; [lia|lia|].
    rewrite array_set_length, length_resize. lia. }
  rewrite Hentry.
  assert (Hmeta : first * cs <= meta + j / rbs * cs).
  { unfold meta, first. fold rbs. nia. }
  assert (Hpos : 0 < meta + j / rbs * cs).
  { unfold first in Hmeta. fold rbs in Hmeta. nia. }
  destruct (Z.eqb_spec (meta + j / rbs * cs) 0); [lia|].
  rewrite (Hcache _ Hmeta), (Hfile (j / rbs) Hq). cbn [default from_option id].
  rewrite size_to_clusters_div by done. fold cs tc.
  assert (Hper : Z.of_nat (Z.to_nat (cs / 2)) = rbs).
  { rewrite Hhalf, Z.mul_comm, Z.div_mul by lia. lia. }
  rewrite array_get_take_drop by lia.
  replace (Z.of_nat (Z.to_nat (j / rbs) * Z.to_nat (cs / 2)) + j mod rbs)
    with j by nia.
  rewrite new_refcount_blocks_one; [done|done|].
  fold cs. replace (blocks_clusters * cs / 2) with (blocks_clusters * rbs);
    [done|].
  rewrite Hhalf.
  replace (blocks_clusters * (2 * rbs)) with (blocks_clusters * rbs * 2)
    by ring.
  by rewrite Z.div_mul by lia.
Qed.

End GrowthProperties.

(** * Termination of the search for free clusters *)

Section SearchTermination.
Variable backend : nat -> Z.

(** A cluster behind everything the refcount table covers is free. *)
Lemma get_refcount_beyond s cluster_index :
  wf_geometry s ->
  refcount_table_size s * refcount_block_size s <= cluster_index < 2 ^ 63 ->
  get_refcount backend s cluster_index = (0, s).
Proof.
  intros Hwf Hc. unfold get_refcount.
  destruct (geometry_sizes s Hwf) as (_ & Hrbs & _).
  assert (Hsz : refcount_block_size s = 2 ^ refcount_block_bits s)
    by apply Hwf.
  assert (Hrbb : 0 <= refcount_block_bits s) by (destruct Hwf; lia).
  assert (H0 : 0 <= refcount_table_size s)
    by (unfold refcount_table_size; lia).
  rewrite Z.shiftr_div_pow2, <- Hsz by done.
  assert (Hq : refcount_table_size s
               <= cluster_index / refcount_block_size s < 2 ^ 63).
  { split; [apply Z.div_le_lower_bound; lia|].
    apply Z.div_lt_upper_bound; nia. }
  rewrite to_uint64_small by lia.
  by destruct (Z.leb_spec (refcount_table_size s)
                 (cluster_index / refcount_block_size s)); [|lia].
Qed.

Lemma alloc_clusters_noref_loop_returns nb_clusters covered fuel :
  forall s i,
  wf_geometry s ->
  covered = refcount_table_size s * refcount_block_size s ->
  0 <= i <= nb_clusters ->
  0 <= free_cluster_index s ->
  free_cluster_index s + Z.of_nat fuel < 2 ^ 63 ->
  (if free_cluster_index s <? covered
   then covered - free_cluster_index s + nb_clusters
   else nb_clusters - i) <= Z.of_nat fuel ->
  exists r s', alloc_clusters_noref_loop backend fuel s nb_clusters i
               = Done (r, s').
Proof.
  induction fuel as [|fuel IH]; intros s i Hwf Hcov Hi Hfree Hmax Hfuel;
    cbn [alloc_clusters_noref_loop];
    destruct (Z.ltb_spec i nb_clusters) as [Hlt|Hge]; try by eauto.
  { destruct (Z.ltb_spec (free_cluster_index s) covered); lia. }
  set (s1 := set_free_cluster_index (free_cluster_index s + 1) s).
  destruct (get_refcount backend s1 (free_cluster_index s))
    as [refcount s2] eqn:Hget.
  destruct (Z.ltb_spec refcount 0); [by eauto|].
  assert (Hs2 : static_part s2 = static_part s)
    by (by rewrite (get_refcount_static _ _ _ _ _ Hget)).
  pose proof (wf_geometry_static _ _ Hs2 Hwf) as Hwf2.
  pose proof (static_geometry _ _ Hs2) as Hg. unfold geometry in Hg.
  injection Hg as _ _ _ Hrbs2.
  destruct (get_refcount_value _ _ _ _ _ Hget ltac:(done))
    as (_ & Ht2 & _ & _ & Hf2 & _).
  assert (Hnext : free_cluster_index s2 = free_cluster_index s + 1) by done.
  assert (Hcov2 : covered
                  = refcount_table_size s2 * refcount_block_size s2).
  { unfold refcount_table_size. rewrite Ht2, Hrbs2. done. }
  destruct (Z.ltb_spec (free_cluster_index s) covered) as [Hin|Hout].
  - (* inside what the table covers *)
    destruct (negb (refcount =? 0)); apply IH; try done; try lia;
      rewrite Hnext;
      destruct (Z.ltb_spec (free_cluster_index s + 1) covered); lia.
  - (* beyond it: the cluster is free *)
    assert (Hzero : refcount = 0).
    { rewrite (get_refcount_beyond s1 (free_cluster_index s)) in Hget;
        [by injection Hget|done|].
      change (refcount_table_size s1) with (refcount_table_size s).
      change (refcount_block_size s1) with (refcount_block_size s). lia. }
    rewrite Hzero. cbn [Z.eqb negb]. apply IH; try done; try lia.
    rewrite Hnext.
    destruct (Z.ltb_spec (free_cluster_index s + 1) covered); lia.
Qed.

(** The search of [alloc_clusters_noref] always ends: clusters behind what
    the refcount table covers count as free, so after at most as many
    probes as there are clusters from [free_cluster_index] to the end of
    the covered range, plus the clusters asked for, the function returns (an
    offset, or the error of a probe). *)
Theorem alloc_clusters_noref_returns (fuel : nat) (s : BDRVQcowState)
    (size : Z) :
  let nb_clusters := size_to_clusters s size in
  let covered := refcount_table_size s * refcount_block_size s in
  wf_geometry s -> 0 <= nb_clusters -> 0 <= free_cluster_index s ->
  free_cluster_index s + Z.of_nat fuel < 2 ^ 63 ->
  Z.max 0 (covered - free_cluster_index s) + nb_clusters <= Z.of_nat fuel ->
  exists r s', alloc_clusters_noref backend fuel s size = Done (r, s').
Proof.
  intros nb covered Hwf Hnb Hfree Hmax Hfuel. unfold alloc_clusters_noref.
  set (s1 := if cache_discards s then qcow2_process_discards backend s 0
             else s).
  assert (H1 : refcount_table s1 = refcount_table s /\
               static_part s1 = static_part s /\
               free_cluster_index s1 = free_cluster_index s).
  { unfold s1. destruct (cache_discards s); [|done].
    destruct (process_discards_tables backend s 0) as [? ?].
    repeat split; try done.
    pose proof (qcow2_process_discards_pres backend
                  (fun a b => free_cluster_index b = free_cluster_index a))
      as Hp. apply Hp; try done. intros a b c ? ?. congruence. }
  destruct H1 as (Ht1 & Hs1 & Hf1).
  pose proof (static_geometry _ _ Hs1) as Hg. unfold geometry in Hg.
  injection Hg as Hg1 Hg2 Hg3 Hg4.
  assert (Hnb1 : size_to_clusters s1 size = nb).
  { unfold nb, size_to_clusters. by rewrite Hg1, Hg2. }
  rewrite Hnb1.
  apply (alloc_clusters_noref_loop_returns nb covered); try done; try lia.
  - by eapply wf_geometry_static.
  - unfold covered, refcount_table_size. by rewrite Ht1, Hg4.
  - rewrite Hf1. destruct (Z.ltb_spec (free_cluster_index s) covered); lia.
Qed.

End SearchTermination.

(** * Taking and giving back references *)

Section RoundTrip.
Variable backend : nat -> Z.

(** What [update_refcount] has done when it does not fail. *)
Lemma update_refcount_effect fuel s offset len addend type ret s' :
  let cs := cluster_size s in
  let first := offset / cs in
  let last := (offset + len - 1) / cs in
  let n := Z.to_nat (last - first + 1) in
  wf_geometry s -> 0 <= offset -> 0 < len ->
  update_refcount backend (S fuel) s offset len addend type = Done (ret, s') ->
  0 <= ret ->
  ret = 0 /\
  refcount_table s' = refcount_table s /\
  static_part s' = static_part s /\
  (forall o, length (block_contents s' o) = length (block_contents s o)) /\
  (forall c, first <= c <= last -> block_present s c) /\
  forall o i, 0 <= i ->
    counter s' o i
    = counter s o i
      + if (Z.to_nat i <? length (block_contents s o))%nat
        then addend * hits s first n (o, i) else 0.
Proof.
  intros cs first last n Hwf Hoff Hlen Hup Hret. subst cs first last n.
  pose proof (cluster_size_pos s Hwf) as Hcs.
  set (first := offset / cluster_size s).
  set (last := (offset + len - 1) / cluster_size s).
  rewrite update_refcount_unfold in Hup by done. cbn zeta in Hup.
  destruct (set_dependency_tables s addend) as (Ht0 & Hs0 & Hc0).
  set (s0 := if addend <? 0
             then qcow2_cache_set_dependency s REFCOUNT_BLOCK_CACHE
                    L2_TABLE_CACHE
             else s) in *.
  pose proof (static_geometry _ _ Hs0) as Hg0.
  pose proof (wf_geometry_static _ _ Hs0 Hwf) as Hwf0.
  pose proof Hg0 as Hg0'. unfold geometry in Hg0'.
  injection Hg0' as Hcb0 Hcs0 Hrbb0 Hrbs0.
  destruct (update_refcount_loop _ _ _ _ _ _ _ _ _ _)
    as [[[[r0 co] rb] s2]| |] eqn:Hloop; [|done..].
  unfold mbind, outcome_bind in Hup.
  destruct (Z.ltb_spec r0 0) as [Hr0|Hr0].
  { destruct (update_refcount backend fuel _ _ _ _ _) as [[d s4]| |];
      [|done..]. injection Hup as -> _. lia. }
  injection Hup as -> <-.
  pose proof (update_refcount_loop_ret _ _ _ _ _ _ _ _ _ _ _ _ _ _ Hloop).
  assert (ret = 0) as -> by lia.
  pose proof (clusters_between_div s offset len Hwf Hlen) as Hn.
  cbn zeta in Hn. fold first last in Hn.
  assert (Hle : first <= last) by (apply Z.div_le_mono; lia).
  assert (Hstart : Z.shiftr (Z.land offset (Z.lnot (cluster_size s - 1)))
                     (cluster_bits s0) = first).
  { rewrite Hcb0, range_start_div, shiftr_cluster_bits by done.
    fold first. rewrite Z.mul_comm. apply Z.div_mul. lia. }
  assert (Hstart0 : 0 <= Z.land offset (Z.lnot (cluster_size s - 1))).
  { rewrite range_start_div by done.
    apply Z.mul_nonneg_nonneg; [lia|]. apply Z.div_pos; lia. }
  assert (Hpres : forall c, first <= c <= last -> block_present s c).
  { pose proof (fun H1 H2 H3 H4 =>
                  update_refcount_loop_success backend _ _ _ _ _ _ _ _ _ _
                    _ _ _ H1 H2 H3 H4 Hloop Hr0) as Hp.
    cbn zeta in Hp. rewrite Hstart in Hp.
    assert (Hnn : 0 <= Z.shiftr first (refcount_block_bits s0)).
    { apply Z.shiftr_nonneg. apply Z.div_pos; lia. }
    intros c Hc. unfold block_present.
    rewrite <- (block_offset_of_ext s s0 c Ht0 Hg0).
    replace c with (first + (c - first)) by lia.
    apply Hp; try done; try lia; try (intros Heq; lia). }
  split; [done|].
  apply update_refcount_pass_present in Hloop; try done.
  destruct Hloop as (k & _ & Hk & Ht & Hs3 & Hl & Hcount).
  specialize (Hk eq_refl).
  assert (k = Z.to_nat (last - first + 1)) as -> by lia.
  done.
Qed.

(** References taken and given back: when [update_refcount] succeeds on a
    range and a second call with the opposite addend succeeds on the same
    range, every refcount is what it was before the first call, and the
    refcount table has not changed. *)
Theorem update_refcount_round_trip (fuel fuel' : nat) (s : BDRVQcowState)
    (offset len addend : Z) (type type' : qcow2_discard_type)
    (s1 s2 : BDRVQcowState) :
  wf_geometry s -> 0 <= offset -> 0 < len ->
  update_refcount backend (S fuel) s offset len addend type = Done (0, s1) ->
  update_refcount backend (S fuel') s1 offset len (- addend) type'
  = Done (0, s2) ->
  refcount_table s2 = refcount_table s /\
  (forall o i, counter s2 o i = counter s o i) /\
  (forall c, stored_refcount s2 c = stored_refcount s c).
Proof.
  intros Hwf Hoff Hlen Hup1 Hup2.
  destruct (update_refcount_effect _ _ _ _ _ _ _ _ Hwf Hoff Hlen Hup1
              ltac:(done)) as (_ & Ht1 & Hs1 & Hl1 & _ & Hc1).
  pose proof (wf_geometry_static _ _ Hs1 Hwf) as Hwf1.
  destruct (update_refcount_effect _ _ _ _ _ _ _ _ Hwf1 Hoff Hlen Hup2
              ltac:(done)) as (_ & Ht2 & Hs2 & Hl2 & _ & Hc2).
  pose proof (static_geometry _ _ Hs1) as Hg1.
  pose proof Hg1 as Hg1'. unfold geometry in Hg1'.
  injection Hg1' as Hcb1 Hcs1 Hrbb1 Hrbs1.
  rewrite Hcs1 in Hc2.
  assert (Hcount : forall o i, 0 <= i -> counter s2 o i = counter s o i).
  { intros o i Hi. rewrite Hc2, Hc1 by done. rewrite Hl1.
    rewrite (hits_ext s s1) by done.
    destruct (_ <? _)%nat; lia. }
  assert (Hall : forall o i, counter s2 o i = counter s o i).
  { intros o i. destruct (Z.lt_ge_cases i 0); [|by apply Hcount].
    rewrite !(counter_negative_index _ o i) by done. by apply Hcount. }
  split; [congruence|]. split; [done|].
  intros c. unfold stored_refcount, refcount_table_size.
  pose proof (static_geometry _ _ Hs2) as Hg2. unfold geometry in Hg2.
  injection Hg2 as _ _ Hrbb2 Hrbs2.
  rewrite Ht2, Ht1, Hrbb2, Hrbb1, Hrbs2, Hrbs1.
  destruct (_ <=? _); [done|]. destruct (_ =? 0); [done|]. apply Hall.
Qed.

End RoundTrip.

(** * The statements on the example images *)

Lemma small_image_wf free check : wf_geometry (small_image free check).
Proof. by vm_compute. Qed.


(** C1: on [unaccounted_image] the refcount block for cluster 0 is created
    in cluster 0 itself, which it describes.  The block is zeroed, its own
    entry is set to 1 and it is flushed; but the table entry it is hooked
    under is its offset, 0, which means that there is no block: after the
    call, which asks for a restart, [get_refcount] of the block's own
    cluster is 0. *)
Lemma alloc_refcount_block_at_offset_zero :
  match alloc_refcount_block always_ok 50 unaccounted_image 0 None with
  | Done (ret, refcount_block, s') =>
      ret = - EAGAIN /\ refcount_block = Some 0 /\
      file_clusters s' !! 0
      = Some (self_describing_block unaccounted_image 0) /\
      be16_to_cpu (array_get (self_describing_block unaccounted_image 0) 0)
      = 1 /\
      refcount_table s' = refcount_table unaccounted_image /\
      get_refcount always_ok s' 0 = (0, s')
  | _ => False
  end.
Proof. vm_compute. by repeat split. Qed.

Lemma alloc_refcount_block_self_describing_witness :
  exists s',
    alloc_refcount_block always_ok 50 (small_image 256 0) 256 None
    = Done (- EAGAIN, Some 131072, s') /\
    file_clusters s' !! 131072
    = Some (self_describing_block (small_image 256 0) 131072) /\
    (get_refcount always_ok s' 256).1 = 1.
Proof.
  destruct (alloc_refcount_block_new always_ok 50
              (update_refcount always_ok 50) (small_image 256 0) 256)
    as [[[[ret rb] nb] s1]| |] eqn:Hnew; [|by vm_compute in Hnew..].
  assert (ret = 0 /\ rb = Some 131072 /\ nb = 131072) as (-> & -> & ->).
  { vm_compute in Hnew. by injection Hnew as <- <- <- _. }
  destruct (alloc_refcount_block_self_describing always_ok 50
              (small_image 256 0) 256 None 0 (Some 131072) 131072 s1
              (small_image_wf 256 0))
    as (s' & Hrun & Hfile & _ & _ & _ & Hget); try done.
  exists s'. split; [done|]. split; [done|]. by apply Hget.
Defined.




Lemma grow_refcount_table_keeps_entries_witness :
  exists s',
    grow_refcount_table always_ok 50 (small_image 0 0) 16384 64 1536
    = Done (inr (s', 512, 64)) /\
    array_get (refcount_table s') 0 = 1024 /\
    array_get (refcount_table s') 64 = 1536.
Proof.
  destruct (grow_refcount_table always_ok 50 (small_image 0 0) 16384 64 1536)
    as [[[ret s1]|[[s' old_offset] old_size]]| |] eqn:Hrun;
    [by vm_compute in Hrun| |by vm_compute in Hrun..].
  assert (old_offset = 512 /\ old_size = 64) as [-> ->].
  { vm_compute in Hrun. by injection Hrun as _ <- <-. }
  exists s'. split; [done|].
  destruct (grow_refcount_table_keeps_entries always_ok 50 (small_image 0 0)
              16384 1536 s' 512 64 (small_image_wf 0 0))
    as (_ & _ & _ & Hkeep & Hnew & _); try done.
  split; [by rewrite Hkeep|exact Hnew].
Defined.

(** C6: on [small_image 256 0] a reference is added to clusters 255 and
    256.  Cluster 256 has no refcount block yet: one is created in cluster
    256 itself and the loop stops with -EAGAIN.  The second pass takes the
    reference from cluster 255 again and succeeds, the call returns
    -EAGAIN, and the counter of cluster 256 is 1 where it was 0. *)
Lemma update_refcount_undo_keeps_new_block :
  let s := small_image 256 0 in
  let offset := 255 * 512 in
  match update_refcount_loop always_ok 49 (update_refcount always_ok 49) 2
          s offset None (-1) 1 QCOW2_DISCARD_NEVER with
  | Done (ret, cluster_offset, _, s2) =>
      ret = - EAGAIN /\ cluster_offset = 256 * 512 /\
      match update_refcount always_ok 49
              (qcow2_process_discards always_ok s2 ret) offset
              (cluster_offset - offset) (-1) QCOW2_DISCARD_NEVER with
      | Done (dummy, s') =>
          dummy = 0 /\
          update_refcount always_ok 50 s offset 1024 1 QCOW2_DISCARD_NEVER
          = Done (- EAGAIN, s') /\
          (get_refcount always_ok s 256).1 = 0 /\
          (get_refcount always_ok s' 256).1 = 1 /\
          counter s' (256 * 512) 0 <> counter s (256 * 512) 0
      | _ => False
      end
  | _ => False
  end.
Proof. vm_compute. repeat split; congruence. Qed.

Lemma update_refcount_undo_witness :
  exists s',
    update_refcount always_ok 50 (small_image 0 0) 1024 1024 (-1)
      QCOW2_DISCARD_NEVER
    = Done (- EINVAL, s') /\
    forall o i, counter s' o i = counter (small_image 0 0) o i.
Proof.
  destruct (update_refcount always_ok 50 (small_image 0 0) 1024 1024 (-1)
              QCOW2_DISCARD_NEVER) as [[ret s']| |] eqn:Hrun;
    [|by vm_compute in Hrun..].
  assert (ret = - EINVAL) as ->.
  { vm_compute in Hrun. by injection Hrun as <- _. }
  exists s'. split; [done|].
  destruct (update_refcount_undo always_ok 49 (small_image 0 0) 1024 1024 (-1)
              QCOW2_DISCARD_NEVER (- EINVAL) s' (small_image_wf 0 0)
              ltac:(done) ltac:(done) Hrun ltac:(done))
    as (k & rb & s2 & dummy & Hk & Hloop & Hundo & _ & _ & Hrestore).
  change (undo_example_loop
          = Done (- EINVAL, 1024 + Z.of_nat k * 512, rb, s2)) in Hloop.
  unfold undo_example_loop in Hloop.
  injection Hloop as Hk1 <- <-.
  assert (k = 1%nat) as -> by lia.
  apply Hrestore.
  - intros c Hc. change (2 <= c <= 3) in Hc.
    assert (c = 2 \/ c = 3) as [-> | ->] by lia; by vm_compute.
  - vm_compute in Hundo. by injection Hundo as <- _.
Defined.

Lemma update_refcount_adds_witness :
  exists s',
    update_refcount always_ok 50 (small_image 0 0) 0 1024 1
      QCOW2_DISCARD_NEVER
    = Done (0, s') /\
    counter s' 1024 0 = 2 /\ counter s' 1024 1 = 2 /\ counter s' 1024 2 = 1.
Proof.
  destruct (update_refcount always_ok 50 (small_image 0 0) 0 1024 1
              QCOW2_DISCARD_NEVER) as [[ret s']| |] eqn:Hrun;
    [|by vm_compute in Hrun..].
  assert (ret = 0) as ->.
  { vm_compute in Hrun. by injection Hrun as <- _. }
  exists s'. split; [done|].
  destruct (update_refcount_adds always_ok 49 (small_image 0 0) 0 1024 1
              QCOW2_DISCARD_NEVER s' (small_image_wf 0 0)
              ltac:(done) ltac:(done)) as [_ Hc]; [|exact Hrun|].
  - intros c Hc. change (0 <= c <= 1) in Hc.
    assert (c = 0 \/ c = 1) as [-> | ->] by lia; by vm_compute.
  - rewrite !Hc by (by vm_compute). by vm_compute.
Defined.

Lemma compare_refcounts_cluster_mismatch_witness :
  exists v' s',
    compare_refcounts always_ok 5 (small_image 0 0) (mkCheckResult 0 0 0 0 0)
      BDRV_FIX_ERRORS false [1; 2; 1] 3
    = Done (v', s') /\
    1 <= corruptions_fixed (cv_res v').
Proof.
  destruct (compare_refcounts always_ok 5 (small_image 0 0)
              (mkCheckResult 0 0 0 0 0) BDRV_FIX_ERRORS false [1; 2; 1] 3)
    as [[v' s']| |] eqn:Hrun; [|by vm_compute in Hrun..].
  exists v', s'. split; [reflexivity|].
  assert (Hi : 0 <= 1 < 3) by lia.
  destruct (compare_refcounts_cluster_mismatch always_ok 5 (small_image 0 0)
              (mkCheckResult 0 0 0 0 0) BDRV_FIX_ERRORS false [1; 2; 1] 3 1
              v' s' Hi Hrun)
    as (v0 & s0 & v1 & s1 & Hbefore & _ & Hle & Hcase).
  clear Hrun.
  assert (Hv0 : Done (v0, s0) = compare_example_before)
    by (rewrite <- Hbefore; vm_compute; reflexivity).
  clear Hbefore. unfold compare_example_before in Hv0.
  injection Hv0 as -> ->.
  match type of Hcase with
  | forall r sr, get_refcount _ ?st _ = _ -> _ => set (s0 := st) in *
  end.
  destruct (get_refcount always_ok s0 1) as [refcount1 sr] eqn:Hget.
  assert (Hone : refcount1 = 1).
  { vm_compute in Hget. injection Hget as Hr _. symmetry. exact Hr. }
  subst refcount1.
  assert (Hpos : 0 <= 1) by lia.
  assert (Hne : 1 <> array_get [1; 2; 1] 1) by (vm_compute; discriminate).
  assert (Hlow : 1 < array_get [1; 2; 1] 1) by (vm_compute; reflexivity).
  assert (Hmode : Z.land BDRV_FIX_ERRORS BDRV_FIX_ERRORS <> 0)
    by (vm_compute; discriminate).
  assert (Hstored : 1 <> 0) by lia.
  destruct (Hcase 1 sr eq_refl Hpos Hne) as [Hcorr _].
  destruct (Hcorr Hlow) as [Hfix _].
  destruct (Hfix Hmode Hstored) as (ret & Hrepair & Hfixed & _).
  assert (Hret : 0 <= ret).
  { clear Hfixed Hcase Hcorr Hfix Hle. vm_compute in Hget.
    injection Hget as <-. vm_compute in Hrepair.
    injection Hrepair as Hr _. rewrite <- Hr. lia. }
  specialize (Hfixed Hret).
  destruct Hle as (_ & _ & Hle & _). rewrite Hfixed in Hle.
  cbn [add_counts corruptions_fixed cv_res] in Hle. lia.
Defined.

(** C8: the write range [0, 1024) of [small_image 0 255], where every
    check is enabled, covers the header cluster and the refcount table.
    The range meets the refcount table and that check is enabled, but the
    result is the tag of the main header, which is tested first.  And on
    [small_image 0 0], where [overlap_check] enables no check, the write
    range [512, 1024), which is the cluster of the refcount table, gives 0
    although the ignore mask is empty. *)
Lemma qcow2_check_metadata_overlap_header_first :
  let s := small_image 0 255 in
  let s0 := small_image 0 0 in
  (chk_has (Z.land (overlap_check s) (Z.lnot 0)) QCOW2_OL_REFCOUNT_TABLE
   = true /\
   range_intersects (rounded_offset s 0) (rounded_size s 0 1024)
     (refcount_table_offset s) (refcount_table_size s * 8) /\
   qcow2_check_metadata_overlap always_ok s 0 0 1024
   = (QCOW2_OL_MAIN_HEADER, s) /\
   QCOW2_OL_MAIN_HEADER <> QCOW2_OL_REFCOUNT_TABLE) /\
  (chk_has 0 QCOW2_OL_REFCOUNT_TABLE = false /\
   overlap_check s0 = 0 /\
   range_intersects (rounded_offset s0 512) (rounded_size s0 512 512)
     (refcount_table_offset s0) (refcount_table_size s0 * 8) /\
   qcow2_check_metadata_overlap always_ok s0 0 512 512 = (0, s0) /\
   0 <> QCOW2_OL_REFCOUNT_TABLE).
Proof.
  cbn zeta. split.
  - split; [done|]. split; [|split; [by vm_compute|done]].
    exists 512. by vm_compute.
  - split; [done|]. split; [done|]. split; [|split; [by vm_compute|done]].
    exists 512. by vm_compute.
Qed.

Lemma qcow2_check_metadata_overlap_sections_witness :
  qcow2_check_metadata_overlap always_ok (small_image 0 255) 0 512 512
  = (QCOW2_OL_REFCOUNT_TABLE, small_image 0 255).
Proof.
  assert (Hfit : 512 + 512 + cluster_size (small_image 0 255) <= 2 ^ 63)
    by (by vm_compute).
  destruct (qcow2_check_metadata_overlap_sections always_ok
              (small_image 0 255) 0 512 512 (small_image_wf 0 255)
              ltac:(done) ltac:(done) Hfit)
    as (Htable & _).
  apply Htable.
  - by vm_compute.
  - by vm_compute.
  - by vm_compute.
  - exists 512. by vm_compute.
  - intros [_ H]. by vm_compute in H.
  - intros [_ (x & H1 & H2)]. vm_compute in H2. destruct H2 as [H2 H3].
    destruct x; done.
Defined.

Lemma alloc_clusters_imrt_first_fit_witness :
  exists cluster,
    alloc_clusters_imrt always_ok (small_image 0 0) 2 [1; 0; 1; 0; 0; 1] 0
    = (Z.shiftl cluster 9, [1; 0; 1; 1; 1; 1], 1, small_image 0 0) /\
    forall c, 0 <= c < cluster ->
      exists j, c <= j < c + 2 /\ array_get [1; 0; 1; 0; 0; 1] j <> 0.
Proof.
  assert (Hrun : alloc_clusters_imrt always_ok (small_image 0 0) 2
                   [1; 0; 1; 0; 0; 1] 0
                 = (1536, [1; 0; 1; 1; 1; 1], 1, small_image 0 0))
    by (by vm_compute).
  destruct (alloc_clusters_imrt_first_fit always_ok (small_image 0 0) 2
              [1; 0; 1; 0; 0; 1] 0 1536 [1; 0; 1; 1; 1; 1] 1 (small_image 0 0)
              ltac:(done) ltac:(done) Hrun ltac:(done))
    as (c & Hret & _ & _ & _ & _ & Hfit & _).
  exists c. split; [|exact Hfit].
  rewrite Hrun, Hret. done.
Defined.

Lemma alloc_clusters_imrt_enomem_witness :
  exists s',
    alloc_clusters_imrt always_failing (small_image 0 0) 1 [1; 1] 0
    = (- ENOMEM, [1; 1], 0, s') /\
    always_failing (io_clock (small_image 0 0)) < 0.
Proof.
  destruct (alloc_clusters_imrt always_failing (small_image 0 0) 1 [1; 1] 0)
    as [[[ret t'] ff'] s'] eqn:Hrun.
  assert (ret = -12 /\ ff' = 0) as [-> ->].
  { vm_compute in Hrun. by injection Hrun as <- _ <- _. }
  destruct (alloc_clusters_imrt_enomem always_failing (small_image 0 0) 1
              [1; 1] 0 (-12) t' 0 s'
              ltac:(done) ltac:(done) Hrun ltac:(done))
    as (_ & -> & Hreq & _).
  exists s'. split; [reflexivity|exact Hreq].
Defined.

Lemma inc_refcounts_counts_witness :
  exists res' s',
    inc_refcounts always_ok 3 (small_image 0 0) (mkCheckResult 0 0 0 0 0)
      [65535; 3] 0 1536
    = Done (0, res', [0; 4; 1], s') /\
    corruptions res' = 1.
Proof.
  destruct (inc_refcounts_counts always_ok 3 (small_image 0 0)
              (mkCheckResult 0 0 0 0 0) [65535; 3] 0 1536
              (small_image_wf 0 0))
    as (ret & res' & t' & s' & Hrun & _ & Hok); try done.
  assert (ret = 0 /\ t' = [0; 4; 1]) as [-> ->].
  { vm_compute in Hrun. by injection Hrun as <- _ <- _. }
  exists res', s'. split; [done|].
  destruct (Hok eq_refl) as (_ & _ & -> & _). done.
Defined.

Lemma inc_refcounts_failure_witness :
  exists res' s',
    inc_refcounts always_failing 3 (small_image 0 0) (mkCheckResult 0 0 0 0 0)
      [1] 0 1024
    = Done (- ENOMEM, res', [2], s') /\
    check_errors res' = 1.
Proof.
  destruct (inc_refcounts always_failing 3 (small_image 0 0)
              (mkCheckResult 0 0 0 0 0) [1] 0 1024)
    as [[[[ret res'] t'] s']| |] eqn:Hrun; [|by vm_compute in Hrun..].
  assert (ret = -12 /\ t' = [2]) as [-> ->].
  { vm_compute in Hrun. by injection Hrun as <- _ <- _. }
  exists res', s'. split; [done|].
  destruct (inc_refcounts_failure always_failing 3 (small_image 0 0)
              (mkCheckResult 0 0 0 0 0) [1] 0 1024) as [_ Hfail].
  destruct (Hfail _ _ _ _ (small_image_wf 0 0) ltac:(done) ltac:(done)
              ltac:(done) ltac:(done) Hrun ltac:(done)) as (_ & -> & _).
  done.
Defined.

Lemma small_image_aligned free check : aligned_table (small_image free check).
Proof.
  apply Forall_app. split; [repeat constructor|apply Forall_replicate];
    by vm_compute.
Qed.

Lemma small_image_stored free check c :
  0 <= c < 4 ->
  stored_refcount (small_image free check) c = array_get [1; 1; 1; 0] c.
Proof.
  intros Hc.
  assert (c = 0 \/ c = 1 \/ c = 2 \/ c = 3) as [->|[->|[->| ->]]] by lia;
    by vm_compute.
Qed.

Lemma alloc_clusters_noref_first_fit_witness :
  exists s',
    alloc_clusters_noref always_ok 10 (small_image 0 0) 1024
    = Done (1536, s') /\
    free_cluster_index s' = 5 /\
    stored_refcount s' 3 = 0.
Proof.
  destruct (alloc_clusters_noref always_ok 10 (small_image 0 0) 1024)
    as [[offset s']| |] eqn:Hrun; [|by vm_compute in Hrun..].
  assert (offset = 1536) as ->.
  { vm_compute in Hrun. by injection Hrun as <- _. }
  destruct (alloc_clusters_noref_first_fit always_ok 10 (small_image 0 0)
              1024 1536 s' ltac:(done) Hrun ltac:(done))
    as (first & Hoff & _ & Hnext & Hfree & _ & _ & Hsame).
  assert (first = 3) as ->.
  { change (cluster_bits (small_image 0 0)) with 9 in Hoff.
    rewrite Z.shiftl_mul_pow2 in Hoff by done. lia. }
  exists s'. split; [done|]. split; [exact Hnext|].
  rewrite Hsame. apply Hfree.
  change (size_to_clusters (small_image 0 0) 1024) with 2. lia.
Defined.

Lemma qcow2_alloc_clusters_at_edges_witness :
  exists s',
    qcow2_alloc_clusters_at always_ok 2 (small_image 0 0) 1024 3
    = Done (0, s') /\
    stored_refcount s' 2 = 1.
Proof.
  destruct (qcow2_alloc_clusters_at_edges always_ok 0 (small_image 0 0)
              1024 3) as (_ & _ & _ & Hused).
  destruct (Hused ltac:(done) (small_image_aligned 0 0) ltac:(done)
              ltac:(by vm_compute)) as (s' & Hrun & _ & Hsame).
  exists s'. split; [exact Hrun|]. by rewrite Hsame.
Defined.

Lemma compare_refcounts_consistent_witness :
  exists v' s',
    compare_refcounts always_ok 0 (small_image 0 0) (mkCheckResult 0 0 0 0 0)
      (BDRV_FIX_LEAKS + BDRV_FIX_ERRORS) false [1; 1; 1; 0] 4
    = Done (v', s') /\
    cv_res v' = mkCheckResult 0 0 0 0 0 /\
    cv_rebuild v' = false /\
    cv_highest_cluster v' = 2.
Proof.
  destruct (compare_refcounts_consistent always_ok 0 (small_image 0 0)
              (mkCheckResult 0 0 0 0 0) (BDRV_FIX_LEAKS + BDRV_FIX_ERRORS)
              false [1; 1; 1; 0] 4 ltac:(done) (small_image_aligned 0 0)
              (small_image_stored 0 0))
    as (v' & s' & Hrun & Hres & Hreb & _ & _ & _ & _ & Hhigh & Hlast).
  exists v', s'. split; [exact Hrun|]. split; [exact Hres|].
  split; [exact Hreb|].
  destruct (Z.lt_ge_cases (cv_highest_cluster v') 2) as [Hlt|Hge].
  { by specialize (Hhigh 2 ltac:(lia) Hlt). }
  destruct Hlast as [?|[? Hpos]]; [lia|].
  destruct (decide (cv_highest_cluster v' = 3)) as [Heq|?]; [|lia].
  by rewrite Heq in Hpos.
Defined.

Lemma qcow2_check_metadata_overlap_sound_witness :
  qcow2_check_metadata_overlap always_ok (small_image 0 255) 0 1030 4
  = (QCOW2_OL_REFCOUNT_BLOCK, small_image 0 255) /\
  chk_has (overlap_check (small_image 0 255)) QCOW2_OL_REFCOUNT_BLOCK = true /\
  exists r, r ∈ section_regions (small_image 0 255) QCOW2_OL_REFCOUNT_BLOCK /\
            range_intersects 1024 512 r.1 r.2.
Proof.
  assert (Hrun : qcow2_check_metadata_overlap always_ok (small_image 0 255) 0
                   1030 4
                 = (QCOW2_OL_REFCOUNT_BLOCK, small_image 0 255))
    by (by vm_compute).
  assert (Hrep : Forall representable
                   (section_regions (small_image 0 255)
                      QCOW2_OL_REFCOUNT_BLOCK)).
  { change (section_regions (small_image 0 255) QCOW2_OL_REFCOUNT_BLOCK)
      with [(1024, 512)].
    repeat constructor; cbn; lia. }
  destruct (qcow2_check_metadata_overlap_sound always_ok (small_image 0 255)
              0 1030 4 QCOW2_OL_REFCOUNT_BLOCK (small_image 0 255)
              (small_image_wf 0 255) ltac:(done) ltac:(done) ltac:(done)
              Hrep Hrun ltac:(done)) as (Hon & _ & Hhit).
  split; [exact Hrun|]. split; [exact Hon|exact Hhit].
Defined.

Lemma small_image_table_uint64 free check :
  table_uint64 (small_image free check).
Proof.
  apply Forall_app. split; [repeat constructor|apply Forall_replicate];
    by vm_compute.
Qed.

Lemma small_image_full_blocks free check :
  full_blocks (small_image free check).
Proof.
  intros offset. unfold block_contents, small_image. simpl_state.
  rewrite lookup_empty.
  destruct (decide (offset = 1024)) as [->|Hne].
  - by rewrite lookup_singleton_eq.
  - by rewrite lookup_singleton_ne.
Qed.

Lemma qcow2_update_cluster_refcount_result_witness :
  exists s',
    qcow2_update_cluster_refcount always_ok 5 (small_image 0 0) 1 1
      QCOW2_DISCARD_NEVER
    = Done (2, s') /\
    stored_refcount s' 1 = 2.
Proof.
  destruct (qcow2_update_cluster_refcount always_ok 5 (small_image 0 0) 1 1
              QCOW2_DISCARD_NEVER) as [[r s']| |] eqn:Hrun;
    [|by vm_compute in Hrun..].
  assert (r = 2) as ->.
  { vm_compute in Hrun. by injection Hrun as <- _. }
  destruct (qcow2_update_cluster_refcount_result always_ok 4
              (small_image 0 0) 1 1 QCOW2_DISCARD_NEVER 2 s'
              (small_image_wf 0 0) (small_image_table_uint64 0 0)
              (small_image_full_blocks 0 0) ltac:(done) ltac:(done)
              ltac:(done) Hrun ltac:(done)) as (_ & Hstored & _).
  exists s'. split; [reflexivity|exact Hstored].
Defined.

Lemma next_refcount_table_size_rounds_witness :
  exists r,
    next_refcount_table_size 27 (small_image 0 0) 65 = Done r /\
    r mod 64 = 0 /\ 65 < r.
Proof.
  destruct (next_refcount_table_size_rounds 27 (small_image 0 0) 65
              (small_image_wf 0 0) ltac:(by vm_compute) ltac:(done)
              ltac:(done)) as (r & Hrun & Hmod & Hmin & _).
  exists r. split; [exact Hrun|]. split; [exact Hmod|exact Hmin].
Defined.

Lemma queue_image_regions : Forall region_ok (discards queue_image).
Proof. repeat constructor; by vm_compute. Qed.

Lemma update_refcount_discard_covers_witness :
  exists s',
    update_refcount_discard queue_image 512 512 = Done s' /\
    queued (discards s') 600 /\
    queued_bytes (discards s') = 1024.
Proof.
  destruct (update_refcount_discard queue_image 512 512) as [s'| |] eqn:Hrun;
    [|by vm_compute in Hrun..].
  destruct (update_refcount_discard_covers queue_image 512 512 s'
              ltac:(done) ltac:(done) ltac:(done) queue_image_regions Hrun)
    as (Hcov & Hbytes & _).
  exists s'. split; [reflexivity|]. split; [|exact Hbytes].
  apply Hcov. right. lia.
Defined.

Lemma update_refcount_discard_disjoint_witness :
  exists s',
    update_refcount_discard queue_image 512 512 = Done s' /\
    disjoint_regions (discards s').
Proof.
  apply (update_refcount_discard_disjoint queue_image 512 512);
    [done|done|done|exact queue_image_regions|by split|].
  repeat constructor; cbn; lia.
Defined.

Lemma full_blocks_intro s :
  Z.of_nat (Z.to_nat (cluster_size s / 2)) = refcount_block_size s ->
  map_Forall (fun _ e => Z.of_nat (length e.1) = refcount_block_size s)
    (refcount_block_cache s) ->
  map_Forall (fun _ b => Z.of_nat (length b) = refcount_block_size s)
    (file_clusters s) ->
  full_blocks s.
Proof.
  intros Hsz Hcache Hfile offset. unfold block_contents.
  destruct (refcount_block_cache s !! offset) as [e|] eqn:He.
  { by apply (Hcache offset). }
  destruct (file_clusters s !! offset) as [b|] eqn:Hb; cbn [default].
  { by apply (Hfile offset). }
  by rewrite length_replicate.
Qed.

Lemma qcow2_alloc_clusters_in_use_witness :
  exists s',
    qcow2_alloc_clusters always_ok 10 (small_image 0 0) 1024
    = Done (1536, s') /\
    1 <= stored_refcount s' 3 /\ 1 <= stored_refcount s' 4.
Proof.
  assert (Hrun : qcow2_alloc_clusters always_ok 10 (small_image 0 0) 1024
                 = alloc_example) by (by vm_compute).
  unfold alloc_example in Hrun.
  match type of Hrun with
  | _ = Done (_, ?st) => set (s' := st) in *
  end.
  assert (Hu64 : table_uint64 s')
    by (apply (bool_decide_unpack _); vm_compute; exact I).
  assert (Hfull : full_blocks s').
  { apply full_blocks_intro; [vm_compute; reflexivity|..];
      apply (bool_decide_unpack _); vm_compute; exact I. }
  assert (Hsize : 0 < 1024) by lia.
  assert (Hoff : 0 <= 1536) by lia.
  destruct (qcow2_alloc_clusters_in_use always_ok 10 (small_image 0 0) 1024
              1536 s' (small_image_wf 0 0) Hsize Hrun Hoff
              Hu64 Hfull) as (first & _ & Hfirst & Hused).
  assert (first = 3) as ->.
  { change (cluster_size (small_image 0 0)) with 512 in Hfirst. lia. }
  exists s'. split; [exact Hrun|].
  (split; apply Hused; [vm_compute; split; congruence|vm_compute; reflexivity
                      |vm_compute; split; congruence|vm_compute; reflexivity]).
Defined.

Lemma qcow2_update_cluster_refcount_free_index_witness :
  exists s',
    qcow2_update_cluster_refcount always_ok 5 (small_image 7 0) 2 (-1)
      QCOW2_DISCARD_NEVER
    = Done (0, s') /\
    free_cluster_index s' = 2.
Proof.
  destruct (qcow2_update_cluster_refcount always_ok 5 (small_image 7 0) 2 (-1)
              QCOW2_DISCARD_NEVER) as [[r s']| |] eqn:Hrun;
    [|by vm_compute in Hrun..].
  assert (r = 0) as ->.
  { vm_compute in Hrun. by injection Hrun as <- _. }
  exists s'. split; [reflexivity|].
  by rewrite (qcow2_update_cluster_refcount_free_index always_ok 4
                (small_image 7 0) 2 (-1) QCOW2_DISCARD_NEVER 0 s'
                (small_image_wf 7 0) (small_image_table_uint64 7 0)
                (small_image_full_blocks 7 0) ltac:(done) ltac:(done)
                ltac:(done) Hrun ltac:(done)).
Defined.

Lemma qcow2_alloc_clusters_at_in_use_witness :
  exists s',
    qcow2_alloc_clusters_at always_ok 10 (small_image 0 0) 1536 2
    = Done (2, s') /\
    1 <= stored_refcount s' 3 /\ 1 <= stored_refcount s' 4.
Proof.
  assert (Hrun : qcow2_alloc_clusters_at always_ok 10 (small_image 0 0) 1536 2
                 = alloc_at_example) by (by vm_compute).
  unfold alloc_at_example in Hrun.
  match type of Hrun with
  | _ = Done (_, ?st) => set (s' := st) in *
  end.
  assert (Hu64 : table_uint64 s')
    by (apply (bool_decide_unpack _); vm_compute; exact I).
  assert (Hfull : full_blocks s').
  { apply full_blocks_intro; [vm_compute; reflexivity|..];
      apply (bool_decide_unpack _); vm_compute; exact I. }
  assert (Hoff : 0 <= 1536) by lia.
  assert (Hmod : 1536 mod cluster_size (small_image 0 0) = 0) by done.
  assert (Hr : 0 < 2) by lia.
  pose proof (qcow2_alloc_clusters_at_in_use always_ok 10 (small_image 0 0)
                1536 2 2 s' (small_image_wf 0 0) Hoff Hmod Hrun Hr Hu64
                Hfull) as Hused.
  exists s'. split; [exact Hrun|].
  split; apply Hused; [vm_compute; split; congruence|vm_compute; reflexivity
                      |vm_compute; split; congruence|vm_compute; reflexivity].
Defined.

Lemma grow_refcount_table_self_describing_witness :
  exists s' old_table_offset old_table_size,
    grow_refcount_table always_ok 64 (small_image 0 0) 16384 64 1536
    = Done (inr (s', old_table_offset, old_table_size)) /\
    refcount_table_size s' = 128 /\
    stored_refcount s' 16640 = 1 /\ stored_refcount s' 16643 = 1.
Proof.
  assert (Hrun : grow_refcount_table always_ok 64 (small_image 0 0) 16384 64
                   1536 = grow_example) by (by vm_compute).
  unfold grow_example in Hrun.
  match type of Hrun with
  | _ = Done (inr (?st, ?o, ?z)) =>
      set (s' := st) in *; exists s', o, z
  end.
  assert (Hci : 0 <= 16384) by lia.
  assert (Hidx : refcount_table_size (small_image 0 0)
                 <= to_uint32 (Z.shiftr 16384
                                 (refcount_block_bits (small_image 0 0))))
    by (by vm_compute).
  assert (Hcache : forall o : Z,
            DIV_ROUND_UP
              (MAX (16384 + 1)
                 (Z.shiftr 1536 (cluster_bits (small_image 0 0)) + 1))
              (refcount_block_size (small_image 0 0))
            * refcount_block_size (small_image 0 0)
            * cluster_size (small_image 0 0) <= o ->
            refcount_block_cache (small_image 0 0) !! o = None)
    by (intros o _; apply lookup_empty).
  destruct (grow_refcount_table_self_describing always_ok 64
              (small_image 0 0) 16384 1536 s' _ _ (small_image_wf 0 0) Hci
              Hidx Hcache Hrun) as (_ & _ & Hone).
  split; [exact Hrun|]. split; [by vm_compute|].
  split; apply Hone; vm_compute; split; congruence.
Defined.

Lemma alloc_clusters_noref_returns_witness :
  exists r s',
    alloc_clusters_noref always_failing 3 (small_image 16383 0) 1024
    = Done (r, s').
Proof.
  apply (alloc_clusters_noref_returns always_failing 3 (small_image 16383 0)
           1024 (small_image_wf 16383 0)); by vm_compute.
Defined.

Lemma update_refcount_round_trip_witness :
  exists s1 s2,
    update_refcount always_ok 5 (small_image 0 0) 1024 1024 1
      QCOW2_DISCARD_NEVER = Done (0, s1) /\
    update_refcount always_ok 5 s1 1024 1024 (-1) QCOW2_DISCARD_NEVER
    = Done (0, s2) /\
    stored_refcount s1 3 = 1 /\ stored_refcount s2 3 = 0.
Proof.
  assert (Hup1 : update_refcount always_ok 5 (small_image 0 0) 1024 1024 1
                   QCOW2_DISCARD_NEVER = taken_example)
    by (vm_compute; reflexivity).
  unfold taken_example in Hup1.
  match type of Hup1 with
  | _ = Done (_, ?st) => set (s1 := st) in *
  end.
  assert (Hup2 : update_refcount always_ok 5 s1 1024 1024 (-1)
                   QCOW2_DISCARD_NEVER = given_back_example)
    by (vm_compute; reflexivity).
  unfold given_back_example in Hup2.
  match type of Hup2 with
  | _ = Done (_, ?st) => set (s2 := st) in *
  end.
  assert (Hoff : 0 <= 1024) by lia.
  assert (Hlen : 0 < 1024) by lia.
  pose proof (update_refcount_round_trip always_ok 4 4 (small_image 0 0) 1024
                1024 1 QCOW2_DISCARD_NEVER QCOW2_DISCARD_NEVER s1 s2
                (small_image_wf 0 0) Hoff Hlen Hup1 Hup2) as Hback.
  destruct Hback as (_ & _ & Hback).
  exists s1, s2. split; [exact Hup1|]. split; [exact Hup2|].
  split; [vm_compute; reflexivity|].
  rewrite (Hback 3). vm_compute; reflexivity.
Defined.
